(* ===== verification/_CoqProject ===== *)
-Q . S2P
Prelude.v
Layout.v
Kernel.v
KernelFacts.v
Rcu.v
Store.v
Device.v
Sample.v
Syscalls.v
DeviceOps.v
DeviceWp.v
PutData.v
GetData.v
InvalidateData.v
FileOps.v
ReadOrder.v
Session.v
Threads.v
Buffers.v
Grace.v
Walk.v
Interleave.v
ReadSteps.v
Parallel.v
Progress.v
Isolation.v
ReadIsolation.v
Mount.v
MountOk.v
Makefs.v
Usctm.v
SysTable.v
Lending.v
DirOps.v
UserCalls.v
Dispatch.v
TestProg.v
Recovery.v
Durability.v
Typing.v
UserProg.v
Quickstart.v
Workers.v
