(* ===== verification/Prelude.v ===== *)
(** * BLDMS, a block-level data management service

    BLDMS is a Linux kernel module.  A file used as a block device holds one
    message per block; messages are put, read and invalidated by block with three
    system calls, and the single file of a small file system delivers them all in
    the order in which they were written.  The sources are under src/.

    ** The program and its model

    The driver's state is three views of the same data: the blocks of the device,
    an array with the metadata of every block, and a list, protected by RCU and a
    spinlock, of the valid blocks in timestamp order.  The components share this
    state, so their functions are written in one monad [M] ([Kernel.v]) over one
    [world]: the globals of bldms.c, a heap of the objects given out by kzalloc()
    and vzalloc(), the buffers of the device, the list, the lock, the number of
    readers and of references to buffers.  A function ends with a value or with a
    fault: a NULL dereference, an access to freed memory or outside an array, a bad
    kfree(), a misuse of the lock, a read of an uninitialised variable.

    What the kernel does is a parameter, the class [Kernel], with its documented
    behaviour in the class [KernelLaws]: the primitives of list.h and rculist.h,
    the buffer cache, the clock, and which calls fail: any kzalloc() or sb_bread()
    can.  The compile-time parameters (NBLOCKS, SYNCHRONOUS_PUT_DATA) are the class
    [Config].  C integers are [Z] with their conversions written out.

    ** Files

    - [Prelude]: C conversions, byte arrays, tactics, lemmas on lists.
    - [Layout]: bldms.h and device.h, the layout of the blocks of the device.
    - [Kernel], [KernelFacts]: the class of the kernel, the state and the monad;
      weakest preconditions [wp] and the tactics that run a function with them.
    - [Rcu]: rcu.c, the list of valid blocks, and what its operations do.
    - [Store]: the abstract specification, a finite map from slots to messages with
      the slot written last, and the three operations on it.
    - [Device]: the invariant [dev_inv F w s]: the state [w] represents the store
      [s], and the memory that is not the device's is [F].
    - [Sample]: a kernel that satisfies the laws and a device of four blocks, on
      which the theorems are instantiated.
    - [Syscalls]: syscalls.c, each call cut at the borders of its critical section;
      [DeviceOps], [DeviceWp]: what happens to the invariant at each step;
      [PutData], [GetData], [InvalidateData]: the theorems on the three calls.
    - [FileOps]: file_ops.c; [ReadOrder]: the theorems on read(); [Session]: open(),
      release(), llseek() and lookup().
    - [Threads]: the system calls and the file operations as threads whose steps
      interleave, and the same calls on the abstract store; [Buffers]: what each step
      does to the buffers of the device; [Grace]: the memory of each thread, the
      readers and the grace periods; [Walk]: the walk of a reader over a list that
      changes; [Interleave], [ReadSteps]: the steps of one thread beside the others,
      of the system calls and of read(); [Parallel], [Progress], [Isolation],
      [ReadIsolation]: the invariant of all the threads and the theorems about
      parallel calls.
    - [DirOps]: dir_ops.c, the listing of the root directory.
    - [Mount], [MountOk]: bldms.c, mount and unmount.
    - [Recovery]: any sequence of system calls, a power failure, a new mount;
      [Durability]: a power failure between any two steps of parallel calls.
    - [Typing]: the ranges of the C types of every field, kept by the system calls.
    - [Makefs]: bldmsmakefs.c, the formatter.
    - [Usctm]: lib/usctm.c, the registration of the system calls of syscalls.c and
      the two ends of the module in bldms.c, on a state of their own.
    - [SysTable]: usctm/usctm.c and usctm/lib/vtpmo.c, the module that finds the
      system call table and its unused entries; [Lending]: the functions of
      usctm/usctm.c that lend those entries to other modules and take them back.
    - [UserCalls]: the interface [Calls] through which the user programs call the
      driver, the programs that do the same, and the command line with the numbers of
      the system calls.
    - [TestProg], [UserProg]: user/test.c and user/user.c, the test program and the
      example program, run over [Calls] and the file operations.
    - [Dispatch]: from the numbers the loaded module prints to the three functions of
      syscalls.c, through the table and the entry of the kernel, a class of its own.
    - [Quickstart]: discovery, load, formatter, mount, open and a program, in a row.
    - [Workers]: user/user_concurrency.c, its main() and its getters, writers,
      invalidators and readers, run together over the parallel calls.

    ** What is shown

    Refinement: from a state that represents a store, each system call gives the
    result of the abstract operation and a state that represents the store after
    it, on every path and for every failure of the kernel but one, with the lock,
    the readers, the buffers and the memory accounted for
    ([PutData.put_data_refines], [GetData.get_data_refines],
    [InvalidateData.invalidate_data_refines]).  The exception is an I/O error in
    put_data(), after which the array refers to freed memory
    ([PutData.put_data_io_error_dangles]).

    Parallel calls: a critical section of a writer is one step, because the lock
    excludes the other writers; preparing, finishing and waiting for a grace period
    are others; a reader, get_data() or read(), takes a step per node of the list,
    holding only a pointer to the next one, and may stand on a node that has been
    removed; open(), llseek() and release() take one step.  A grace period waits for
    the readers that were there when it began.  Under any interleaving
    no step faults and the execution is one of the abstract store
    ([Parallel.concurrent_calls_refine]); it ends, after a number of steps that
    is bounded, with every call returned ([Progress.concurrent_calls_terminate]);
    a read returns its message whole as long as nobody invalidates its block
    ([Isolation.parallel_get_isolated] for get_data(),
    [ReadIsolation.parallel_read_delivers] for read()), and may return a mixture if
    somebody does ([Isolation.get_data_torn_read]).

    Order: the list stays sorted by timestamp ([Rcu.in_order_insertion_keeps_order]);
    one read() delivers the next bytes of the session's message and moves on to the
    next one ([ReadOrder.read_delivers]); reading until end of file terminates with
    all the messages in order ([ReadOrder.read_all_in_order]), except that those in
    the last two blocks are out of reach ([ReadOrder.read_misses_last_blocks]).

    Life cycle: the formatter's image mounts ([Makefs.format_then_mount]), mounting
    establishes the invariant ([MountOk.mount_represents_device]) or is refused;
    sessions give back what they take ([Session]); unmounting a device that holds
    messages reads freed memory, a failed mount frees the array twice and every
    unmount loses the metadata objects.  With SYNCHRONOUS_PUT_DATA, what a power
    failure leaves on the medium mounts again with exactly the messages that were
    there ([Recovery.power_loss_keeps_messages]); a power failure in the middle of
    parallel calls loses nothing that a returned call has put, and each block that a
    call is writing is found as it was at some moment since nobody was writing it
    ([Durability.power_loss_during_calls]).  Every field of every object stays
    in the range of its C type ([Typing.syscalls_keep_types]).

    Clients: the repository's test program passes on every mounted device
    ([TestProg.test_program_passes]) and the example program reads back what it
    should ([UserProg.user_program_passes]); the concurrent program, whatever the
    number of its threads, reports no error and exits with 0
    ([Workers.clients_see_no_error]).  The programs are written over the class
    [Calls]; called with the numbers the module prints they reach the driver
    ([Dispatch.numbers_reach_driver]), so that the whole installation, from the
    formatter and the discovery of the table to the exit status of a program, works
    ([Quickstart.quickstart]).

    System call table: the search returns the first table of the range
    ([SysTable.finder_first_table]), the entries it exposes are unused, and loading
    and then unloading the driver over them changes nothing
    ([SysTable.discovery_then_load]); the entries serve one client of the lending
    functions and no second one ([Lending.later_client_gets_nothing]).

    ** Fuel

    Loops over the list recurse on its nodes.  The other loops take fuel, with one
    round more than they can make: the blocks of the device for the search of a
    free block and the loading of the device, the number of bytes for a reader, the
    entries or pages for the loops of the system call table.  [NoFuel] is a fault,
    so a theorem that excludes faults also shows that the fuel is enough.

    ** Not modelled

    In the parallel semantics an open file is used by one thread at a time, and its
    sessions read whole messages: the buffer has room for a block, as in all the
    programs of the repository.  A session in the middle of a message that others
    replace by a shorter one would use an uninitialised variable
    ([ReadOrder.read_past_message_uninit]).  The parallel theorems assume that the blocks can be
    read, since an I/O error in put_data() breaks the driver for everybody.  Memory
    is sequentially consistent; a block is copied in one step, and the medium takes
    or leaves a whole block.  Log messages, the fields of inodes and dentries the
    driver only hands to the kernel, the text the user programs print, the functions
    of usctm/usctm.c on the cr0 register that nothing calls, and its
    cleanup_module(), which only logs, are left out.  The threads of the concurrent
    program call the driver directly, not through the system call table. *)
From stdpp Require Export base gmap list sorting.
From stdpp Require Import strings.
From Stdlib Require Import Strings.Byte.
From coqutil Require Export Byte LittleEndianList.
From Stdlib Require Export ZArith Lia.

(** ** Scope and C integers *)

Declare Scope bldms_scope.
Delimit Scope bldms_scope with bldms.
Open Scope Z_scope.
Open Scope bldms_scope.

(** Conversions between the C integer types of the sources (x86-64, LP64). *)
Definition u8 (z : Z) : Z := z mod 2 ^ 8.
Definition u16 (z : Z) : Z := z mod 2 ^ 16.
Definition u32 (z : Z) : Z := z mod 2 ^ 32.
Definition u64 (z : Z) : Z := z mod 2 ^ 64.
Definition s32 (z : Z) : Z := (z + 2 ^ 31) mod 2 ^ 32 - 2 ^ 31.
Definition s64 (z : Z) : Z := (z + 2 ^ 63) mod 2 ^ 64 - 2 ^ 63.

(** The errno values the driver returns (negated). *)
Definition EIO : Z := 5.
Definition E2BIG : Z := 7.
Definition EBADF : Z := 9.
Definition ENOMEM : Z := 12.
Definition EBUSY : Z := 16.
Definition ENODEV : Z := 19.
Definition EINVAL : Z := 22.
Definition ENODATA : Z := 61.
Definition EMSGSIZE : Z := 90.
Definition EADDRNOTAVAIL : Z := 99.

(** ** Byte arrays *)

#[global] Arguments le_split _ _ : simpl never.
#[global] Arguments le_combine _ : simpl never.

#[export] Instance byte_eq_decision : EqDecision byte := Strings.Byte.byte_eq_dec.

Definition zeros (n : nat) : list byte := replicate n Byte.x00.

(** [memcpy] of [new] at offset [off] of the array [bs] (in bounds). *)
Definition splice (off : nat) (new bs : list byte) : list byte :=
  take off bs ++ new ++ drop (off + length new) bs.

(** ** Automation *)

Create HintDb bldms discriminated.
Create Rewrite HintDb bldms.

(** Case analysis on the condition of the outermost [if] of the goal. *)
Ltac case_if :=
  match goal with
  | |- context [if ?b then _ else _] => destruct b eqn:?
  end.

(** Turn the boolean tests of the code into propositions. *)
Ltac reflect_bools :=
  repeat match goal with
  | H : (_ && _)%bool = true |- _ => apply andb_true_iff in H; destruct H
  | H : (_ || _)%bool = false |- _ => apply orb_false_iff in H; destruct H
  | H : negb _ = true |- _ => apply negb_true_iff in H
  | H : negb _ = false |- _ => apply negb_false_iff in H
  | H : (_ =? _)%Z = true |- _ => apply Z.eqb_eq in H
  | H : (_ =? _)%Z = false |- _ => apply Z.eqb_neq in H
  | H : (_ <? _)%Z = true |- _ => apply Z.ltb_lt in H
  | H : (_ <? _)%Z = false |- _ => apply Z.ltb_ge in H
  | H : (_ <=? _)%Z = true |- _ => apply Z.leb_le in H
  | H : (_ <=? _)%Z = false |- _ => apply Z.leb_gt in H
  end.

(** ** Arithmetic lemmas *)

Lemma u32_small z : 0 <= z < 2 ^ 32 -> u32 z = z.
Proof. intros; unfold u32; apply Z.mod_small; lia. Qed.

Lemma u64_small z : 0 <= z < 2 ^ 64 -> u64 z = z.
Proof. intros; unfold u64; apply Z.mod_small; lia. Qed.

Lemma s32_small z : - 2 ^ 31 <= z < 2 ^ 31 -> s32 z = z.
Proof. intros; unfold s32; rewrite Z.mod_small; lia. Qed.

Lemma s64_small z : - 2 ^ 63 <= z < 2 ^ 63 -> s64 z = z.
Proof. intros; unfold s64; rewrite Z.mod_small; lia. Qed.

Lemma u64_neg z : - 2 ^ 31 <= z < 0 -> u64 z = z + 2 ^ 64.
Proof.
  intros; unfold u64. rewrite <- (Z.mod_add z 1) by lia. apply Z.mod_small; lia.
Qed.

Lemma s64_u64 z : s64 (u64 z) = s64 z.
Proof.
  unfold s64, u64. f_equal. rewrite Zplus_mod_idemp_l. reflexivity.
Qed.

Lemma u32_bound z : 0 <= u32 z < 2 ^ 32.
Proof. apply Z.mod_pos_bound; lia. Qed.

(** ** List lemmas *)

Lemma length_zeros n : length (zeros n) = n.
Proof. apply length_replicate. Qed.

Lemma length_splice off new bs :
  (off + length new <= length bs)%nat -> length (splice off new bs) = length bs.
Proof. intros; unfold splice. rewrite !length_app, length_take, length_drop. lia. Qed.

Lemma splice_0 new bs : splice 0 new bs = new ++ drop (length new) bs.
Proof. reflexivity. Qed.

Lemma take_splice_0 new bs : take (length new) (splice 0 new bs) = new.
Proof. rewrite splice_0. apply take_app_length. Qed.

Lemma drop_splice_0 new bs : drop (length new) (splice 0 new bs) = drop (length new) bs.
Proof. rewrite splice_0. apply drop_app_length. Qed.

Lemma Forall2_lookup_lr {A B} (P : A -> B -> Prop) l k i x y :
  Forall2 P l k -> l !! i = Some x -> k !! i = Some y -> P x y.
Proof. rewrite Forall2_lookup. intros H Hx Hy. specialize (H i). rewrite Hx, Hy in H. by inversion H. Qed.

Lemma Forall2_impl_in {A B} (P Q : A -> B -> Prop) l k :
  Forall2 P l k -> (forall x y, x ∈ l -> y ∈ k -> P x y -> Q x y) -> Forall2 Q l k.
Proof.
  induction 1 as [|x y l k Hxy _ IH]; intros HQ; constructor.
  - apply HQ; [by left..|done].
  - apply IH. intros ????. apply HQ; by right.
Qed.

Lemma insert_split {A} (l : list A) i y :
  l !! i = Some y ->
  exists l1 l2, l = l1 ++ y :: l2 /\ length l1 = i /\ forall x, <[i := x]> l = l1 ++ x :: l2.
Proof.
  intros Hi. assert (i < length l)%nat by (by eapply lookup_lt_Some).
  exists (take i l), (drop (S i) l). split_and!.
  - by rewrite take_drop_middle.
  - rewrite length_take. lia.
  - intros x. by apply insert_take_drop.
Qed.

Lemma NoDup_replace {A} (l : list A) i x y :
  NoDup l -> l !! i = Some y -> x ∉ l -> NoDup (<[i := x]> l).
Proof.
  intros Hnd Hi Hx. destruct (insert_split _ _ _ Hi) as (l1 & l2 & -> & _ & ->).
  rewrite <- Permutation_middle in Hnd |- *. apply NoDup_cons in Hnd as [_ Hnd].
  apply NoDup_cons. split; [set_solver|done].
Qed.

Lemma elem_of_replace {A} (l : list A) i x y z :
  NoDup l -> l !! i = Some y -> z ∈ <[i := x]> l <-> z = x \/ z ∈ l /\ z <> y.
Proof.
  intros Hnd Hi. destruct (insert_split _ _ _ Hi) as (l1 & l2 & -> & _ & ->).
  rewrite <- Permutation_middle in Hnd. apply NoDup_cons in Hnd as [Hy _].
  rewrite !elem_of_app, !elem_of_cons. rewrite elem_of_app in Hy. naive_solver.
Qed.

Lemma filter_keep {A} (P : A -> Prop) `{!forall x, Decision (P x)} l :
  Forall P l -> filter P l = l.
Proof. induction 1; [done|]. rewrite filter_cons_True by done. by f_equal. Qed.

Lemma filter_none {A} (P : A -> Prop) `{!forall x, Decision (P x)} l :
  Forall (fun x => ~ P x) l -> filter P l = [].
Proof. induction 1; [done|]. by rewrite filter_cons_False. Qed.

(** The first element of a list that does not satisfy [P] is unique. *)
Lemma first_split {A} (P : A -> Prop) l1 x l2 k1 y k2 :
  Forall P l1 -> ~ P x -> Forall P k1 -> ~ P y -> l1 ++ x :: l2 = k1 ++ y :: k2 ->
  l1 = k1 /\ x = y /\ l2 = k2.
Proof.
  revert k1. induction l1 as [|z l1 IH]; intros [|z' k1] H1 Hx H2 Hy Heq;
    injection Heq as -> Heq.
  - done.
  - by apply Forall_cons in H2 as [? _].
  - by apply Forall_cons in H1 as [? _].
  - apply Forall_cons in H1 as [_ H1]. apply Forall_cons in H2 as [_ H2].
    by destruct (IH k1 H1 Hx H2 Hy Heq) as (-> & -> & ->).
Qed.

#[export] Hint Rewrite length_zeros @length_app @length_take @length_drop @length_insert : bldms.
