(* ===== verification/Layout.v ===== *)
(** * On-disk and in-memory layout (include/device.h, include/bldms.h)

    The packed [struct bldms_block] (10 bytes: a 64-bit timestamp, a validity
    bit and a 15-bit length), the superblock and the inode of the single file,
    with the bytes they occupy on the device and the round trips between the
    two representations. *)
From S2P Require Import Prelude.

(** ** Constants *)

Definition MAGIC : Z := 0x30303030.
Definition DEFAULT_BLOCK_SIZE : Z := 4096.
Definition SB_BLOCK_NUMBER : Z := 0.
Definition BLDMS_SINGLEFILE_INODE_NUMBER : Z := 1.
Definition ROOT_INODE_NUMBER : Z := 2.
Definition BLDMS_INODES_BLOCK_NUMBER : Z := 1.
Definition BLK_INVALID : Z := 0.
Definition BLK_VALID : Z := BLK_INVALID + 1.
Definition METADATA_SIZE : Z := 10.
Definition NUM_METADATA_BLKS : Z := 2.

(** The compile-time parameters of the module (Makefile, bldms.h, syscalls.h). *)
Class Config := {
  NBLOCKS : Z;
  SYNCHRONOUS_PUT_DATA : bool;
  (** [NBLOCKS * DEFAULT_BLOCK_SIZE] is an [int] product in the sources. *)
  NBLOCKS_range : 0 < NBLOCKS < 2 ^ 19
}.

(** ** struct bldms_block *)

Record bldms_block := Blk {
  nsec : Z;          (* ktime_t *)
  is_valid : Z;      (* unsigned char : 1 *)
  valid_bytes : Z    (* uint16_t : 15 *)
}.

#[export] Instance bldms_block_eq_dec : EqDecision bldms_block.
Proof. solve_decision. Defined.

(** The 10 bytes of a packed [bldms_block]: a little-endian [ktime_t] followed
    by 16 bits holding [is_valid] in bit 0 and [valid_bytes] in bits 1..15. *)
Definition encode_block (b : bldms_block) : list byte :=
  le_split 8 (nsec b) ++ le_split 2 (Z.lor (is_valid b) (Z.shiftl (valid_bytes b) 1)).

(** [memcpy] of the first bytes of a block into a [bldms_block]. *)
Definition decode_block (bs : list byte) : bldms_block :=
  let hw := le_combine (take 2 (drop 8 bs)) in
  {| nsec := s64 (le_combine (take 8 bs));
     is_valid := Z.land hw 1;
     valid_bytes := Z.shiftr hw 1 |}.

(** The values a [bldms_block] can hold. *)
Definition block_wf (b : bldms_block) : Prop :=
  - 2 ^ 63 <= nsec b < 2 ^ 63 /\
  (is_valid b = BLK_INVALID \/ is_valid b = BLK_VALID) /\
  0 <= valid_bytes b < 2 ^ 15.

(** Assignment to the 15-bit field. *)
Definition set_valid_bytes (size : Z) (b : bldms_block) : bldms_block :=
  {| nsec := nsec b; is_valid := is_valid b; valid_bytes := size mod 2 ^ 15 |}.

Definition set_is_valid (v : Z) (b : bldms_block) : bldms_block :=
  {| nsec := nsec b; is_valid := v; valid_bytes := valid_bytes b |}.

Definition set_nsec (t : Z) (b : bldms_block) : bldms_block :=
  {| nsec := t; is_valid := is_valid b; valid_bytes := valid_bytes b |}.

(** ** Superblock and inode blocks *)

(** [struct bldms_sb_info]: two 64-bit words and the padding of the block. *)
Record bldms_sb_info := SbInfo { version : Z; magic : Z; sb_padding : list byte }.

Definition encode_sb_info (s : bldms_sb_info) : list byte :=
  le_split 8 (version s) ++ le_split 8 (magic s) ++ sb_padding s.

(** [((struct bldms_sb_info * ) b_data)->magic] *)
Definition sb_info_magic (b_data : list byte) : Z := le_combine (take 8 (drop 8 b_data)).

(** [struct bldms_inode]: a 32-bit mode, 4 bytes of alignment and three 64-bit words. *)
Record bldms_inode := Inode {
  mode : Z; inode_pad : list byte; inode_no : Z; data_block_number : Z; file_size : Z
}.

Definition encode_inode (i : bldms_inode) : list byte :=
  le_split 4 (mode i) ++ inode_pad i ++ le_split 8 (inode_no i)
    ++ le_split 8 (data_block_number i) ++ le_split 8 (file_size i).

(** [((struct bldms_inode * ) b_data)->file_size] *)
Definition inode_file_size (b_data : list byte) : Z := le_combine (take 8 (drop 24 b_data)).

(** The payload of a block: everything after the metadata. *)
Definition payload (blk : list byte) : list byte := drop 10 blk.

(** ** Lemmas *)

Lemma length_encode_block b : length (encode_block b) = 10%nat.
Proof. unfold encode_block. by rewrite length_app, !length_le_split. Qed.

Lemma le_combine_split_small n z :
  0 <= z < 2 ^ (Z.of_nat n * 8) -> le_combine (le_split n z) = z.
Proof. intros. rewrite le_combine_split. by apply Z.mod_small. Qed.

Lemma le_split_s64 z : le_split 8 (s64 z) = le_split 8 z.
Proof.
  rewrite (le_split_mod (s64 z)), (le_split_mod z). f_equal.
  unfold s64. change (Z.of_nat 8 * 8) with 64.
  rewrite Zminus_mod_idemp_l. f_equal. lia.
Qed.

Lemma le_combine_range bs n : length bs = n -> 0 <= le_combine bs < 2 ^ (8 * Z.of_nat n).
Proof. intros <-. apply le_combine_bound. Qed.

Lemma lor_1_even n : Z.lor 1 (2 * n) = 2 * n + 1.
Proof.
  apply Z.bits_inj'. intros i Hi. rewrite Z.lor_spec.
  destruct (decide (i = 0)) as [->|]; [by rewrite Z.testbit_odd_0 |].
  replace i with (Z.succ (i - 1)) by lia.
  rewrite Z.testbit_odd_succ, Z.testbit_even_succ by lia.
  change 1 with (2 * 0 + 1) at 1. rewrite Z.testbit_odd_succ by lia. by rewrite Z.bits_0.
Qed.

Lemma land_1 z : Z.land z 1 = z mod 2.
Proof. change 1 with (Z.ones 1). by rewrite Z.land_ones by lia. Qed.

(** Packing a validity bit and a length, and back. *)
Lemma pack_bits v n :
  (v = 0 \/ v = 1) -> Z.lor v (Z.shiftl n 1) = v + 2 * n.
Proof.
  intros Hv. rewrite Z.shiftl_mul_pow2 by lia. change (2 ^ 1) with 2.
  rewrite (Z.mul_comm n). destruct Hv as [->| ->].
  - by rewrite Z.lor_0_l.
  - rewrite lor_1_even. lia.
Qed.

Lemma unpack_bits z : Z.lor (Z.land z 1) (Z.shiftl (Z.shiftr z 1) 1) = z.
Proof.
  rewrite land_1, pack_bits by (pose proof (Z.mod_pos_bound z 2); lia).
  rewrite Z.shiftr_div_pow2 by lia. change (2 ^ 1) with 2.
  pose proof (Z.div_mod z 2 ltac:(lia)). lia.
Qed.

Lemma decode_encode b : block_wf b -> decode_block (encode_block b) = b.
Proof.
  intros (Hn & Hv & Hb). unfold decode_block, encode_block.
  rewrite take_app_le by (rewrite length_le_split; lia).
  rewrite take_ge by (rewrite length_le_split; lia).
  rewrite drop_app_ge by (rewrite length_le_split; lia).
  rewrite length_le_split. change (8 - 8)%nat with 0%nat. rewrite drop_0.
  rewrite take_ge by (rewrite length_le_split; lia).
  rewrite le_combine_split. change (Z.of_nat 8 * 8) with 64.
  change (s64 (nsec b mod 2 ^ 64)) with (s64 (u64 (nsec b))).
  rewrite s64_u64, s64_small by lia.
  unfold BLK_VALID, BLK_INVALID in Hv.
  rewrite pack_bits by done.
  rewrite le_combine_split_small by (change (2 ^ (Z.of_nat 2 * 8)) with 65536; lia).
  destruct b as [t v n]; simpl in *. f_equal.
  - rewrite land_1.
    rewrite Z.mul_comm, Z.mod_add by lia. apply Z.mod_small; lia.
  - rewrite Z.shiftr_div_pow2 by lia. change (2 ^ 1) with 2.
    rewrite Z.mul_comm, Z.div_add by lia. rewrite Z.div_small; lia.
Qed.

Lemma encode_decode bs : length bs = 10%nat -> encode_block (decode_block bs) = bs.
Proof.
  intros Hl. unfold encode_block, decode_block; cbn [nsec is_valid valid_bytes].
  rewrite le_split_s64, unpack_bits.
  rewrite <- (take_drop 8 bs) at 3. f_equal.
  - apply split_le_combine'. rewrite length_take. lia.
  - rewrite (take_ge (drop 8 bs)) by (rewrite length_drop; lia).
    apply split_le_combine'. rewrite length_drop. lia.
Qed.

Lemma decode_block_wf bs : block_wf (decode_block bs).
Proof.
  unfold block_wf, decode_block, BLK_VALID, BLK_INVALID; simpl.
  set (hw := le_combine (take 2 (drop 8 bs))).
  assert (Hhw : 0 <= hw < 2 ^ 16).
  { pose proof (le_combine_bound (take 2 (drop 8 bs))) as Hb. fold hw in Hb.
    assert (length (take 2 (drop 8 bs)) <= 2)%nat by (rewrite length_take; lia).
    assert (2 ^ (8 * Z.of_nat (length (take 2 (drop 8 bs)))) <= 2 ^ 16)
      by (apply Z.pow_le_mono_r; lia). lia. }
  split_and!.
  1,2: unfold s64; pose proof (Z.mod_pos_bound (le_combine (take 8 bs) + 2 ^ 63) (2 ^ 64)); lia.
  - rewrite land_1.
    pose proof (Z.mod_pos_bound hw 2). lia.
  - rewrite Z.shiftr_div_pow2 by lia. apply Z.div_pos; lia.
  - rewrite Z.shiftr_div_pow2 by lia. apply Z.div_lt_upper_bound; lia.
Qed.

Lemma decode_block_take bs : decode_block (take 10 bs) = decode_block bs.
Proof.
  unfold decode_block. rewrite !skipn_firstn_comm, !take_take.
  change (8 `min` 10)%nat with 8%nat. change (2 `min` (10 - 8))%nat with 2%nat. done.
Qed.

Lemma set_valid_bytes_small size b :
  0 <= size < 2 ^ 15 -> valid_bytes (set_valid_bytes size b) = size.
Proof. intros; simpl. apply Z.mod_small; lia. Qed.



#[export] Hint Rewrite length_encode_block @length_le_split : bldms.
#[export] Hint Resolve decode_block_wf : bldms.
