(* ===== verification/Kernel.v ===== *)
(** * The kernel interface and the machine the driver runs on

    [Kernel] gathers the kernel services the driver calls and whose code is
    not part of this repository: the lists of list.h and rculist.h, the buffer
    cache of buffer_head.h and the answers of kzalloc(), sb_bread() and
    ktime_get_real().  [KernelLaws] states what the driver relies on; the
    theorems about the driver are proved for every instance, and [ref_kernel]
    is a concrete one.

    The rest of the file is the machine: the objects the driver allocates,
    its global variables, its locks, and the error/state monad in which the
    functions of the driver are written.  A step that C leaves undefined (a
    NULL or dangling pointer, an access out of bounds, a double free) or that
    blocks for ever (taking a lock twice) is a [Fault]. *)
From S2P Require Import Prelude Layout.

Abbreviation loc := positive (only parsing).

(** ** Kernel services *)

(** The fields of [struct super_block] the driver reads: [s_bdev] says whether
    the pointer to the block device is set. *)
Record super_block := SB { s_magic : Z; s_bdev : bool }.

Class Kernel := {
  (** list.h, rculist.h: a list of embedded nodes and its head. *)
  rlist : Type;
  LIST_HEAD : rlist;
  rl_nodes : rlist -> list loc;              (* nodes met following [next] from the head *)
  rl_next : rlist -> loc -> option loc;      (* the [next] link of a node; [None] is the head *)
  list_add_rcu : loc -> option loc -> rlist -> rlist;   (* new node, position ([None]: the head) *)
  list_add_tail_rcu : loc -> rlist -> rlist;
  list_del_rcu : loc -> rlist -> rlist;
  list_del : loc -> rlist -> rlist;
  (** buffer_head.h: the buffers of the device and what is on the medium. *)
  bcache : Type;
  b_data : bcache -> Z -> option (list byte);
  b_store : Z -> list byte -> bcache -> bcache;
  mark_dirty : Z -> bcache -> bcache;
  sync_dirty : Z -> bcache -> bcache;
  on_disk : bcache -> Z -> option (list byte);
  b_dirty : bcache -> Z -> Prop;             (* marked, and not written back yet *)
  (** The answers of the n-th call to the kernel. *)
  kzalloc_ok : nat -> bool;
  bread_ok : nat -> bool;
  clock : nat -> Z;
  (** The VFS: iget_locked() gives NULL or an inode and whether it is I_NEW;
      d_make_root() succeeds or not; blkdev_get_by_path() fails or gives a block
      device with its [bd_super]. *)
  iget_locked : nat -> option bool;
  d_make_root_ok : nat -> bool;
  blkdev_get_by_path : nat -> option (option super_block)
}.

Class KernelLaws (K : Kernel) := {
  rl_nodes_head : rl_nodes LIST_HEAD = [];
  rl_nodes_add_head n l : rl_nodes (list_add_rcu n None l) = n :: rl_nodes l;
  rl_nodes_add_after n p l l1 l2 :
    rl_nodes l = l1 ++ p :: l2 -> p ∉ l1 ->
    rl_nodes (list_add_rcu n (Some p) l) = l1 ++ p :: n :: l2;
  rl_nodes_add_tail n l : rl_nodes (list_add_tail_rcu n l) = rl_nodes l ++ [n];
  rl_nodes_del p l l1 l2 :
    rl_nodes l = l1 ++ p :: l2 -> p ∉ l1 -> rl_nodes (list_del_rcu p l) = l1 ++ l2;
  rl_nodes_list_del p l l1 l2 :
    rl_nodes l = l1 ++ p :: l2 -> p ∉ l1 -> rl_nodes (list_del p l) = l1 ++ l2;
  rl_next_spec p l l1 l2 :
    rl_nodes l = l1 ++ p :: l2 -> p ∉ l1 -> rl_next l p = head l2;
  (** list_del_rcu() keeps the forward pointer of the removed node. *)
  rl_next_del p l :
    NoDup (rl_nodes l) -> rl_next (list_del_rcu p l) p = rl_next l p;
  (** The primitives write only the links of nodes on the list. *)
  rl_next_add_other n pos p l :
    p ∉ rl_nodes l -> p <> n -> rl_next (list_add_rcu n pos l) p = rl_next l p;
  rl_next_add_tail_other n p l :
    p ∉ rl_nodes l -> p <> n -> rl_next (list_add_tail_rcu n l) p = rl_next l p;
  rl_next_del_other n p l :
    p ∉ rl_nodes l -> p <> n -> rl_next (list_del_rcu n l) p = rl_next l p;
  b_data_store n d d' c :
    b_data c n = Some d -> length d' = length d -> b_data (b_store n d' c) n = Some d';
  b_data_store_ne n m d c : n <> m -> b_data (b_store n d c) m = b_data c m;
  b_data_mark n m c : b_data (mark_dirty n c) m = b_data c m;
  b_data_sync n m c : b_data (sync_dirty n c) m = b_data c m;
  (** Each of the three leaves a block of the medium as it was, or writes it back,
      whole, before or after: the kernel may do so whenever it likes. *)
  on_disk_store n m d c :
    on_disk (b_store n d c) m = on_disk c m \/ on_disk (b_store n d c) m = b_data c m \/
    on_disk (b_store n d c) m = b_data (b_store n d c) m;
  on_disk_mark n m c :
    on_disk (mark_dirty n c) m = on_disk c m \/ on_disk (mark_dirty n c) m = b_data c m;
  on_disk_sync n m c :
    on_disk (sync_dirty n c) m = on_disk c m \/ on_disk (sync_dirty n c) m = b_data c m;
  (** A buffer marked dirty stays so until it is written back, at the latest by
      sync_dirty_buffer(). *)
  b_dirty_mark n c :
    b_dirty (mark_dirty n c) n \/ on_disk (mark_dirty n c) n = b_data c n;
  b_dirty_store_ne n m d c :
    n <> m -> b_dirty c m -> b_dirty (b_store n d c) m \/ on_disk (b_store n d c) m = b_data c m;
  b_dirty_mark_ne n m c :
    n <> m -> b_dirty c m -> b_dirty (mark_dirty n c) m \/ on_disk (mark_dirty n c) m = b_data c m;
  b_dirty_sync_ne n m c :
    n <> m -> b_dirty c m -> b_dirty (sync_dirty n c) m \/ on_disk (sync_dirty n c) m = b_data c m;
  sync_dirty_written n c : b_dirty c n -> on_disk (sync_dirty n c) n = b_data c n;
  clock_range n : - 2 ^ 63 <= clock n < 2 ^ 63
}.

(** ** Objects and state *)

Record rcu_elem := Elem {
  ndx : Z;              (* uint32_t *)
  el_nsec : Z;          (* ktime_t *)
  el_valid_bytes : Z    (* size_t *)
}.

#[export] Instance rcu_elem_eq_dec : EqDecision rcu_elem.
Proof. solve_decision. Defined.

(** What kzalloc() and vzalloc() give out. *)
Inductive obj :=
  | OBlk (b : bldms_block)
  | OElem (e : rcu_elem)
  | OBuf (bs : list byte)
  | OTime (t : Z)
  | OArr (vm : bool) (ps : list (option loc)).

Inductive fault :=
  | NullDeref
  | BadAccess (l : loc)
  | OutOfBounds
  | BadFree
  | LockMisuse
  | UninitRead
  | NoFuel.   (* a loop of the model ran out of fuel: the theorems exclude it *)

Section Machine.
Context {K : Kernel}.

Record world := World {
  calls : nat;                            (* kernel calls answered so far *)
  brk : loc;                              (* the next object to be handed out *)
  heap : gmap loc obj;                    (* the live objects *)
  rcu_write_lock : bool;
  rcu_readers : nat;
  bh_refs : Z;                            (* buffer heads obtained and not released *)
  valid_blk_list : rlist;
  bufs : bcache;
  bldms_mounted : Z;
  metadata_array : option loc;
  md_array_size : Z;
  last_written_block : Z;
  the_dev_superblock : option super_block;
  module_refs : Z
}.

(** Updates of one field. *)
Definition set_heap (h : gmap loc obj) (w : world) : world :=
  World (calls w) (brk w) h (rcu_write_lock w) (rcu_readers w) (bh_refs w) (valid_blk_list w)
    (bufs w) (bldms_mounted w) (metadata_array w) (md_array_size w) (last_written_block w)
    (the_dev_superblock w) (module_refs w).
Definition tick (w : world) : world :=
  World (S (calls w)) (brk w) (heap w) (rcu_write_lock w) (rcu_readers w) (bh_refs w)
    (valid_blk_list w) (bufs w) (bldms_mounted w) (metadata_array w) (md_array_size w)
    (last_written_block w) (the_dev_superblock w) (module_refs w).
Definition alloc (o : obj) (w : world) : world :=
  World (calls w) (Pos.succ (brk w)) (<[brk w := o]> (heap w)) (rcu_write_lock w) (rcu_readers w)
    (bh_refs w) (valid_blk_list w) (bufs w) (bldms_mounted w) (metadata_array w)
    (md_array_size w) (last_written_block w) (the_dev_superblock w) (module_refs w).
Definition set_lock (b : bool) (w : world) : world :=
  World (calls w) (brk w) (heap w) b (rcu_readers w) (bh_refs w) (valid_blk_list w)
    (bufs w) (bldms_mounted w) (metadata_array w) (md_array_size w) (last_written_block w)
    (the_dev_superblock w) (module_refs w).
Definition set_readers (n : nat) (w : world) : world :=
  World (calls w) (brk w) (heap w) (rcu_write_lock w) n (bh_refs w) (valid_blk_list w)
    (bufs w) (bldms_mounted w) (metadata_array w) (md_array_size w) (last_written_block w)
    (the_dev_superblock w) (module_refs w).
Definition set_bh_refs (n : Z) (w : world) : world :=
  World (calls w) (brk w) (heap w) (rcu_write_lock w) (rcu_readers w) n (valid_blk_list w)
    (bufs w) (bldms_mounted w) (metadata_array w) (md_array_size w) (last_written_block w)
    (the_dev_superblock w) (module_refs w).
Definition set_list (l : rlist) (w : world) : world :=
  World (calls w) (brk w) (heap w) (rcu_write_lock w) (rcu_readers w) (bh_refs w) l
    (bufs w) (bldms_mounted w) (metadata_array w) (md_array_size w) (last_written_block w)
    (the_dev_superblock w) (module_refs w).
Definition set_bufs (c : bcache) (w : world) : world :=
  World (calls w) (brk w) (heap w) (rcu_write_lock w) (rcu_readers w) (bh_refs w)
    (valid_blk_list w) c (bldms_mounted w) (metadata_array w) (md_array_size w)
    (last_written_block w) (the_dev_superblock w) (module_refs w).
Definition set_mounted (v : Z) (w : world) : world :=
  World (calls w) (brk w) (heap w) (rcu_write_lock w) (rcu_readers w) (bh_refs w)
    (valid_blk_list w) (bufs w) v (metadata_array w) (md_array_size w) (last_written_block w)
    (the_dev_superblock w) (module_refs w).
Definition set_metadata_array (p : option loc) (w : world) : world :=
  World (calls w) (brk w) (heap w) (rcu_write_lock w) (rcu_readers w) (bh_refs w)
    (valid_blk_list w) (bufs w) (bldms_mounted w) p (md_array_size w) (last_written_block w)
    (the_dev_superblock w) (module_refs w).
Definition set_md_array_size (n : Z) (w : world) : world :=
  World (calls w) (brk w) (heap w) (rcu_write_lock w) (rcu_readers w) (bh_refs w)
    (valid_blk_list w) (bufs w) (bldms_mounted w) (metadata_array w) n (last_written_block w)
    (the_dev_superblock w) (module_refs w).
Definition set_last_written_block (n : Z) (w : world) : world :=
  World (calls w) (brk w) (heap w) (rcu_write_lock w) (rcu_readers w) (bh_refs w)
    (valid_blk_list w) (bufs w) (bldms_mounted w) (metadata_array w) (md_array_size w) n
    (the_dev_superblock w) (module_refs w).
Definition set_the_dev_superblock (s : option super_block) (w : world) : world :=
  World (calls w) (brk w) (heap w) (rcu_write_lock w) (rcu_readers w) (bh_refs w)
    (valid_blk_list w) (bufs w) (bldms_mounted w) (metadata_array w) (md_array_size w)
    (last_written_block w) s (module_refs w).
Definition set_module_refs (n : Z) (w : world) : world :=
  World (calls w) (brk w) (heap w) (rcu_write_lock w) (rcu_readers w) (bh_refs w)
    (valid_blk_list w) (bufs w) (bldms_mounted w) (metadata_array w) (md_array_size w)
    (last_written_block w) (the_dev_superblock w) n.

(** ** The monad *)

Inductive outcome (A : Type) :=
  | Ret (a : A) (w : world)
  | Fault (f : fault).
#[global] Arguments Ret {A} a w.
#[global] Arguments Fault {A} f.

Definition M (A : Type) : Type := world -> outcome A.

Definition ret {A} (a : A) : M A := fun w => Ret a w.
Definition fail {A} (f : fault) : M A := fun _ => Fault f.
Definition bind {A B} (m : M A) (k : A -> M B) : M B :=
  fun w => match m w with Ret a w' => k a w' | Fault f => Fault f end.
Definition gets {A} (f : world -> A) : M A := fun w => Ret (f w) w.
Definition modify (f : world -> world) : M unit := fun w => Ret tt (f w).
End Machine.

Notation "'let*' x ':=' m 'in' k" := (bind m (fun x => k))
  (at level 10, x pattern, m at level 100, k at level 200) : bldms_scope.
Notation "m ';;;' k" := (bind m (fun _ => k))
  (at level 100, k at level 200, right associativity) : bldms_scope.

Section Primitives.
Context {K : Kernel}.

(** ** Memory *)

Definition deref (p : option loc) : M obj := fun w =>
  match p with
  | None => Fault NullDeref
  | Some l => match heap w !! l with Some o => Ret o w | None => Fault (BadAccess l) end
  end.

Definition store (p : option loc) (o : obj) : M unit :=
  let* _ := deref p in
  match p with
  | Some l => modify (fun w => set_heap (<[l := o]> (heap w)) w)
  | None => fail NullDeref
  end.

Definition type_error {A} (p : option loc) : M A :=
  match p with Some l => fail (BadAccess l) | None => fail NullDeref end.

Definition load_blk (p : option loc) : M bldms_block :=
  let* o := deref p in match o with OBlk b => ret b | _ => type_error p end.
Definition load_elem (p : option loc) : M rcu_elem :=
  let* o := deref p in match o with OElem e => ret e | _ => type_error p end.
Definition load_buf (p : option loc) : M (list byte) :=
  let* o := deref p in match o with OBuf bs => ret bs | _ => type_error p end.
Definition load_time (p : option loc) : M Z :=
  let* o := deref p in match o with OTime t => ret t | _ => type_error p end.
Definition load_arr (p : option loc) : M (bool * list (option loc)) :=
  let* o := deref p in match o with OArr vm ps => ret (vm, ps) | _ => type_error p end.

(** kzalloc() of an object whose zeroed contents are [o]. *)
Definition kzalloc (o : obj) : M (option loc) := fun w =>
  if kzalloc_ok (calls w)
  then Ret (Some (brk w)) (alloc o (tick w))
  else Ret None (tick w).

(** kfree() and vfree(); freeing NULL does nothing. *)
Definition is_vmalloc (o : obj) : bool := match o with OArr vm _ => vm | _ => false end.

Definition free_with (vm : bool) (p : option loc) : M unit := fun w =>
  match p with
  | None => Ret tt w
  | Some l =>
    match heap w !! l with
    | Some o => if Bool.eqb (is_vmalloc o) vm
                then Ret tt (set_heap (delete l (heap w)) w) else Fault BadFree
    | None => Fault BadFree
    end
  end.
Definition kfree : option loc -> M unit := free_with false.
Definition vfree : option loc -> M unit := free_with true.

(** [metadata_array[i]], a read and a write of the pointer. *)
Definition md_slot (i : Z) : M (option loc) :=
  let* a := gets metadata_array in
  let* va := load_arr a in
  match (if 0 <=? i then va.2 !! Z.to_nat i else None) with
  | Some p => ret p
  | None => fail OutOfBounds
  end.

Definition set_md_slot (i : Z) (p : option loc) : M unit :=
  let* a := gets metadata_array in
  let* va := load_arr a in
  if (0 <=? i) && (i <? Z.of_nat (length va.2))
  then store a (OArr va.1 (<[Z.to_nat i := p]> va.2))
  else fail OutOfBounds.

(** ** Locks *)

Definition spin_lock : M unit := fun w =>
  if rcu_write_lock w then Fault LockMisuse else Ret tt (set_lock true w).
Definition spin_unlock : M unit := fun w =>
  if rcu_write_lock w then Ret tt (set_lock false w) else Fault LockMisuse.
Definition rcu_read_lock : M unit := fun w => Ret tt (set_readers (S (rcu_readers w)) w).
Definition rcu_read_unlock : M unit := fun w =>
  match rcu_readers w with
  | O => Fault LockMisuse
  | S n => Ret tt (set_readers n w)
  end.
(** The caller of synchronize_rcu() must not be a reader: it would wait for itself. *)
Definition synchronize_rcu : M unit := fun w =>
  match rcu_readers w with O => Ret tt w | S _ => Fault LockMisuse end.

(** A call answered by the kernel. *)
Definition answer {A} (f : nat -> A) : M A := fun w => Ret (f (calls w)) (tick w).

(** ** Buffers and user memory *)

(** sb_bread(): the buffer head of block [n], identified with [n], or NULL. *)
Definition sb_bread (sb : option super_block) (n : Z) : M (option Z) := fun w =>
  match sb with
  | None => Fault NullDeref
  | Some _ =>
    match (if bread_ok (calls w) then b_data (bufs w) n else None) with
    | Some _ => Ret (Some n) (set_bh_refs (bh_refs w + 1) (tick w))
    | None => Ret None (tick w)
    end
  end.

(** [bh->b_data]; a NULL buffer head faults. *)
Definition bh_data (bh : option Z) : M (list byte) := fun w =>
  match bh with
  | None => Fault NullDeref
  | Some n => match b_data (bufs w) n with Some d => Ret d w | None => Fault OutOfBounds end
  end.

(** [memcpy(bh->b_data, src, length src)] *)
Definition bh_write (bh : option Z) (src : list byte) : M unit :=
  let* d := bh_data bh in
  match bh with
  | Some n =>
    if (length src <=? length d)%nat
    then modify (fun w => set_bufs (b_store n (splice 0 src d) (bufs w)) w)
    else fail OutOfBounds
  | None => fail NullDeref
  end.

Definition on_bh (f : Z -> bcache -> bcache) (bh : option Z) : M unit :=
  match bh with
  | Some n => modify (fun w => set_bufs (f n (bufs w)) w)
  | None => fail NullDeref
  end.
Definition mark_buffer_dirty : option Z -> M unit := on_bh mark_dirty.
Definition sync_dirty_buffer : option Z -> M unit := on_bh sync_dirty.
Definition brelse (bh : option Z) : M unit :=
  match bh with
  | Some _ => modify (fun w => set_bh_refs (bh_refs w - 1) w)
  | None => ret tt
  end.

Definition ktime_get_real : M Z := answer clock.

(** copy_from_user(): [source] holds the readable bytes at the user address;
    the result is the number of bytes that could not be copied. *)
Definition copy_from_user (buffer : option loc) (off : Z) (source : list byte) (size : Z) : M Z :=
  let* bs := load_buf buffer in
  if off + size <=? Z.of_nat (length bs) then
    let src := take (Z.to_nat size) source in
    store buffer (OBuf (splice (Z.to_nat off) src bs)) ;;;
    ret (size - Z.of_nat (length src))
  else fail OutOfBounds.

(** copy_to_user() of [n] bytes at offset [off] of [from] to a user buffer with
    [cap] writable bytes: the number of bytes not copied, and the bytes copied. *)
Definition copy_to_user (cap : nat) (from : list byte) (off n : Z) : M (Z * list byte) :=
  if (0 <=? off) && (0 <=? n) && (off + n <=? Z.of_nat (length from)) then
    let c := Z.min n (Z.of_nat cap) in
    ret (n - c, take (Z.to_nat c) (drop (Z.to_nat off) from))
  else fail OutOfBounds.

(** ** Total correctness *)

(** [m] runs from [w] without fault and its result satisfies [Q]. *)
Definition wp {A} (m : M A) (Q : A -> world -> Prop) (w : world) : Prop :=
  match m w with Ret a w' => Q a w' | Fault _ => False end.

(** ** Observational equality

    Two states that differ only in the number of kernel calls made and in the
    next object to be handed out. *)
Definition same_state (w w' : world) : Prop :=
  heap w' = heap w /\ rcu_write_lock w' = rcu_write_lock w /\ rcu_readers w' = rcu_readers w /\
  bh_refs w' = bh_refs w /\ valid_blk_list w' = valid_blk_list w /\ bufs w' = bufs w /\
  bldms_mounted w' = bldms_mounted w /\ metadata_array w' = metadata_array w /\
  md_array_size w' = md_array_size w /\ last_written_block w' = last_written_block w /\
  the_dev_superblock w' = the_dev_superblock w /\ module_refs w' = module_refs w /\
  (brk w <= brk w')%positive.
End Primitives.
