(* ===== verification/KernelFacts.v ===== *)
(** * Program logic of the machine, and a reference kernel

    Rules for [wp] (one per primitive, in the hint database [wp]), the algebra
    of [same_state], and [ref_kernel], a concrete kernel that satisfies
    [KernelLaws] and on which the definitions evaluate. *)
From S2P Require Import Prelude Layout Kernel.

(** ** The reference kernel *)

Record ref_list := RefList { rf_nodes : list loc; rf_stale : gmap loc (option loc) }.

Fixpoint succ_of (p : loc) (l : list loc) : option loc :=
  match l with
  | [] => None
  | q :: l' => if decide (p = q) then head l' else succ_of p l'
  end.

Fixpoint insert_after (n p : loc) (l : list loc) : list loc :=
  match l with
  | [] => []
  | q :: l' => if decide (p = q) then q :: n :: l' else q :: insert_after n p l'
  end.

Fixpoint remove_first (p : loc) (l : list loc) : list loc :=
  match l with
  | [] => []
  | q :: l' => if decide (p = q) then l' else q :: remove_first p l'
  end.

Definition ref_next (l : ref_list) (p : loc) : option loc :=
  if decide (p ∈ rf_nodes l) then succ_of p (rf_nodes l) else default None (rf_stale l !! p).

Definition ref_add (n : loc) (after : option loc) (l : ref_list) : ref_list :=
  match after with
  | None => RefList (n :: rf_nodes l) (rf_stale l)
  | Some p => RefList (insert_after n p (rf_nodes l)) (rf_stale l)
  end.

Definition ref_del (p : loc) (l : ref_list) : ref_list :=
  RefList (remove_first p (rf_nodes l)) (<[p := ref_next l p]> (rf_stale l)).

Record ref_cache := RefCache {
  rc_data : gmap Z (list byte); rc_disk : gmap Z (list byte); rc_dirty : gmap Z unit
}.

Definition ref_sync (n : Z) (c : ref_cache) : ref_cache :=
  match rc_dirty c !! n, rc_data c !! n with
  | Some _, Some d => RefCache (rc_data c) (<[n := d]> (rc_disk c)) (delete n (rc_dirty c))
  | Some _, None => RefCache (rc_data c) (delete n (rc_disk c)) (delete n (rc_dirty c))
  | None, _ => c
  end.

Definition ref_kernel (kz br : nat -> bool) (now : nat -> Z) : Kernel := {|
  rlist := ref_list;
  LIST_HEAD := RefList [] ∅;
  rl_nodes := rf_nodes;
  rl_next := ref_next;
  list_add_rcu := ref_add;
  list_add_tail_rcu n l := RefList (rf_nodes l ++ [n]) (rf_stale l);
  list_del_rcu := ref_del;
  list_del p l := RefList (remove_first p (rf_nodes l)) (rf_stale l);
  bcache := ref_cache;
  b_data c n := rc_data c !! n;
  b_store n d c := RefCache (<[n := d]> (rc_data c)) (rc_disk c) (rc_dirty c);
  mark_dirty n c := RefCache (rc_data c) (rc_disk c) (<[n := tt]> (rc_dirty c));
  sync_dirty := ref_sync;
  on_disk c n := rc_disk c !! n;
  b_dirty c n := is_Some (rc_dirty c !! n);
  kzalloc_ok := kz;
  bread_ok := br;
  clock n := s64 (now n);
  iget_locked _ := Some true;
  d_make_root_ok _ := true;
  blkdev_get_by_path _ := Some (Some (SB MAGIC true))
|}.

(** A device image as the content of the cache and of the medium. *)
Definition ref_cache_of (blocks : list (list byte)) : ref_cache :=
  let m := list_to_map (zip (Z.of_nat <$> seq 0 (length blocks)) blocks) in
  RefCache m m ∅.

Lemma succ_of_spec p l1 l2 : p ∉ l1 -> succ_of p (l1 ++ p :: l2) = head l2.
Proof.
  induction l1 as [|q l1 IH]; intros Hp; simpl.
  - by rewrite decide_True.
  - apply not_elem_of_cons in Hp as [? ?]. rewrite decide_False by done. auto.
Qed.

Lemma insert_after_spec n p l1 l2 :
  p ∉ l1 -> insert_after n p (l1 ++ p :: l2) = l1 ++ p :: n :: l2.
Proof.
  induction l1 as [|q l1 IH]; intros Hp; simpl.
  - by rewrite decide_True.
  - apply not_elem_of_cons in Hp as [? ?]. rewrite decide_False by done. f_equal. auto.
Qed.

Lemma remove_first_spec p l1 l2 : p ∉ l1 -> remove_first p (l1 ++ p :: l2) = l1 ++ l2.
Proof.
  induction l1 as [|q l1 IH]; intros Hp; simpl.
  - by rewrite decide_True.
  - apply not_elem_of_cons in Hp as [? ?]. rewrite decide_False by done. f_equal. auto.
Qed.

Lemma remove_first_subset p l : remove_first p l ⊆ l.
Proof.
  induction l as [|q l IH]; simpl; [done|]. case_decide; [set_solver|].
  intros x. rewrite !elem_of_cons. specialize (IH x). tauto.
Qed.

Lemma insert_after_subset n p l x : x ∈ insert_after n p l -> x = n \/ x ∈ l.
Proof.
  induction l as [|q l IH]; simpl; [by auto|]. case_decide; rewrite !elem_of_cons; tauto.
Qed.

Lemma remove_first_NoDup p l : NoDup l -> p ∉ remove_first p l.
Proof.
  induction 1 as [|q l Hq Hl IH]; simpl; [set_solver|].
  case_decide; [by subst|]. by apply not_elem_of_cons.
Qed.

#[export] Instance ref_kernel_laws kz br now : KernelLaws (ref_kernel kz br now).
Proof.
  split; simpl; try done.
  - intros n p l l1 l2 -> Hp. by apply insert_after_spec.
  - intros p l l1 l2 -> Hp. by apply remove_first_spec.
  - intros p l l1 l2 -> Hp. by apply remove_first_spec.
  - intros p l l1 l2 E Hp. unfold ref_next. rewrite E.
    rewrite decide_True by set_solver. by apply succ_of_spec.
  - intros p l Hnd. unfold ref_next at 1; simpl. rewrite decide_False.
    + by rewrite lookup_insert_eq.
    + by apply remove_first_NoDup.
  - intros n pos p l Hp Hn. unfold ref_next. rewrite (decide_False (P := p ∈ rf_nodes l)) by done.
    rewrite decide_False; [by destruct pos|]. destruct pos; simpl.
    + intros [?|?]%insert_after_subset; done.
    + by apply not_elem_of_cons.
  - intros n p l Hp Hn. unfold ref_next. simpl. rewrite !decide_False; [done|done|].
    rewrite elem_of_app, list_elem_of_singleton. tauto.
  - intros n p l Hp Hn. unfold ref_next. simpl. rewrite !decide_False; [|done|].
    + by rewrite lookup_insert_ne.
    + intros Hin%remove_first_subset. done.
  - intros n d d' c _ _. apply lookup_insert_eq.
  - intros n m d c Hne. by apply lookup_insert_ne.
  - intros n m c. unfold ref_sync. by repeat case_match.
  - by left.
  - by left.
  - intros n m c. unfold ref_sync. destruct (rc_dirty c !! n); [|by left].
    destruct (decide (n = m)) as [<-|Hne].
    + right. destruct (rc_data c !! n); simpl; [by rewrite lookup_insert_eq | by rewrite lookup_delete_eq].
    + left. destruct (rc_data c !! n); simpl; [by rewrite lookup_insert_ne | by rewrite lookup_delete_ne].
  - intros n c. left. by rewrite lookup_insert_eq.
  - intros n m d c _ Hd. by left.
  - intros n m c Hne Hd. left. by rewrite lookup_insert_ne.
  - intros n m c Hne Hd. left. unfold ref_sync. by repeat case_match; simpl; rewrite ?lookup_delete_ne.
  - intros n c [u Hu]. unfold ref_sync. rewrite Hu.
    destruct (rc_data c !! n); simpl; [by rewrite lookup_insert_eq | by rewrite lookup_delete_eq].
  - intros n. unfold s64.
    pose proof (Z.mod_pos_bound (now n + 2 ^ 63) (2 ^ 64)). lia.
Qed.

(** ** Rules for [wp] *)

Section Wp.
Context {K : Kernel} {KL : KernelLaws K}.
Implicit Types (w : world) (p : option loc) (l : loc).

Lemma wp_bind {A B} (m : M A) (k : A -> M B) Q w :
  wp m (fun a => wp (k a) Q) w -> wp (bind m k) Q w.
Proof. unfold wp, bind. by destruct (m w). Qed.

Lemma wp_mono {A} (m : M A) (Q Q' : A -> world -> Prop) w :
  wp m Q w -> (forall a w', Q a w' -> Q' a w') -> wp m Q' w.
Proof. unfold wp. destruct (m w); auto. Qed.

Lemma wp_and {A} (m : M A) (Q Q' : A -> world -> Prop) w :
  wp m Q w -> wp m Q' w -> wp m (fun a w' => Q a w' /\ Q' a w') w.
Proof. unfold wp. destruct (m w); auto. Qed.

Lemma wp_elim {A} (m : M A) Q w : wp m Q w -> exists a w', m w = Ret a w' /\ Q a w'.
Proof. unfold wp. destruct (m w); [eauto | done]. Qed.

Lemma wp_intro {A} (m : M A) (Q : A -> world -> Prop) w a w' :
  m w = Ret a w' -> Q a w' -> wp m Q w.
Proof. unfold wp. by intros ->. Qed.

(** A program whose first part succeeds and whose rest faults. *)
Lemma fault_bind {A B} (m : M A) (k : A -> M B) f w :
  wp m (fun a w' => k a w' = Fault f) w -> bind m k w = Fault f.
Proof. unfold wp, bind. by destruct (m w). Qed.

Lemma fault_first {A B} (m : M A) (k : A -> M B) f w : m w = Fault f -> bind m k w = Fault f.
Proof. unfold bind. by intros ->. Qed.

(** Running a program whose first step is known. *)
Lemma run_bind {A B} (m : M A) (k : A -> M B) w a w' :
  m w = Ret a w' -> bind m k w = k a w'.
Proof. unfold bind. by intros ->. Qed.

Lemma run_load_elem l e w : heap w !! l = Some (OElem e) -> load_elem (Some l) w = Ret e w.
Proof. intros Hl. unfold load_elem, bind, deref. by rewrite Hl. Qed.

Lemma run_load_blk l b w : heap w !! l = Some (OBlk b) -> load_blk (Some l) w = Ret b w.
Proof. intros Hl. unfold load_blk, bind, deref. by rewrite Hl. Qed.

Lemma wp_ret {A} (a : A) Q w : Q a w -> wp (ret a) Q w.
Proof. done. Qed.

Lemma wp_gets {A} (f : world -> A) Q w : Q (f w) w -> wp (gets f) Q w.
Proof. done. Qed.

Lemma wp_modify f Q w : Q tt (f w) -> wp (modify f) Q w.
Proof. done. Qed.

Lemma wp_deref l o Q w : heap w !! l = Some o -> Q o w -> wp (deref (Some l)) Q w.
Proof. unfold wp, deref. by intros ->. Qed.

Lemma wp_store l o o' Q w :
  heap w !! l = Some o -> Q tt (set_heap (<[l := o']> (heap w)) w) -> wp (store (Some l) o') Q w.
Proof. intros Hl HQ. apply wp_bind. by apply (wp_deref l o). Qed.

Lemma wp_load_blk l b Q w : heap w !! l = Some (OBlk b) -> Q b w -> wp (load_blk (Some l)) Q w.
Proof. intros Hl HQ. apply wp_bind. by apply (wp_deref l (OBlk b)). Qed.

Lemma wp_load_elem l e Q w : heap w !! l = Some (OElem e) -> Q e w -> wp (load_elem (Some l)) Q w.
Proof. intros Hl HQ. apply wp_bind. by apply (wp_deref l (OElem e)). Qed.

Lemma wp_load_buf l bs Q w : heap w !! l = Some (OBuf bs) -> Q bs w -> wp (load_buf (Some l)) Q w.
Proof. intros Hl HQ. apply wp_bind. by apply (wp_deref l (OBuf bs)). Qed.

Lemma wp_load_time l t Q w : heap w !! l = Some (OTime t) -> Q t w -> wp (load_time (Some l)) Q w.
Proof. intros Hl HQ. apply wp_bind. by apply (wp_deref l (OTime t)). Qed.

Lemma wp_load_arr l vm ps Q w :
  heap w !! l = Some (OArr vm ps) -> Q (vm, ps) w -> wp (load_arr (Some l)) Q w.
Proof. intros Hl HQ. apply wp_bind. by apply (wp_deref l (OArr vm ps)). Qed.

Lemma wp_kzalloc o Q w :
  Q (Some (brk w)) (alloc o (tick w)) ->
  ((exists n, kzalloc_ok n = false) -> Q None (tick w)) -> wp (kzalloc o) Q w.
Proof. unfold wp, kzalloc. destruct (kzalloc_ok (calls w)) eqn:E; eauto. Qed.

Lemma wp_kfree l o Q w :
  heap w !! l = Some o -> is_vmalloc o = false ->
  Q tt (set_heap (delete l (heap w)) w) -> wp (kfree (Some l)) Q w.
Proof. unfold wp, kfree, free_with. by intros -> ->. Qed.

Lemma wp_free_with l o vm Q w :
  heap w !! l = Some o -> is_vmalloc o = vm ->
  Q tt (set_heap (delete l (heap w)) w) -> wp (free_with vm (Some l)) Q w.
Proof. unfold wp, free_with. intros -> ->. by destruct vm. Qed.

Lemma wp_md_slot a vm ps i p Q w :
  metadata_array w = Some a -> heap w !! a = Some (OArr vm ps) -> ps !! i = Some p ->
  Q p w -> wp (md_slot (Z.of_nat i)) Q w.
Proof.
  intros Ha Harr Hi HQ. unfold md_slot. apply wp_bind, wp_gets. rewrite Ha.
  apply wp_bind. eapply wp_load_arr; [done|]. simpl.
  rewrite (proj2 (Z.leb_le _ _)) by lia. rewrite Nat2Z.id, Hi. by apply wp_ret.
Qed.

Lemma wp_set_md_slot a vm ps i p Q w :
  metadata_array w = Some a -> heap w !! a = Some (OArr vm ps) -> (i < length ps)%nat ->
  Q tt (set_heap (<[a := OArr vm (<[i := p]> ps)]> (heap w)) w) ->
  wp (set_md_slot (Z.of_nat i) p) Q w.
Proof.
  intros Ha Harr Hi HQ. unfold set_md_slot. apply wp_bind, wp_gets. rewrite Ha.
  apply wp_bind. eapply wp_load_arr; [done|]. simpl.
  rewrite (proj2 (Z.leb_le _ _)) by lia. rewrite (proj2 (Z.ltb_lt _ _)) by lia. simpl.
  rewrite Nat2Z.id. by eapply wp_store.
Qed.

Lemma wp_spin_lock Q w :
  rcu_write_lock w = false -> Q tt (set_lock true w) -> wp spin_lock Q w.
Proof. unfold wp, spin_lock. by intros ->. Qed.

Lemma wp_spin_unlock Q w :
  rcu_write_lock w = true -> Q tt (set_lock false w) -> wp spin_unlock Q w.
Proof. unfold wp, spin_unlock. by intros ->. Qed.

Lemma wp_rcu_read_lock Q w : Q tt (set_readers (S (rcu_readers w)) w) -> wp rcu_read_lock Q w.
Proof. done. Qed.

Lemma wp_rcu_read_unlock n Q w :
  rcu_readers w = S n -> Q tt (set_readers n w) -> wp rcu_read_unlock Q w.
Proof. unfold wp, rcu_read_unlock. by intros ->. Qed.

Lemma wp_synchronize_rcu Q w : rcu_readers w = O -> Q tt w -> wp synchronize_rcu Q w.
Proof. unfold wp, synchronize_rcu. by intros ->. Qed.

(** Either the buffer of a readable block, or NULL. *)
Lemma wp_sb_bread sb n Q w :
  ((exists k, bread_ok k = true) -> is_Some (b_data (bufs w) n) ->
    Q (Some n) (set_bh_refs (bh_refs w + 1) (tick w))) ->
  ((exists k, bread_ok k = false) \/ b_data (bufs w) n = None -> Q None (tick w)) ->
  wp (sb_bread (Some sb) n) Q w.
Proof.
  unfold wp, sb_bread. intros HS HN.
  destruct (bread_ok (calls w)) eqn:E; [|eauto]. destruct (b_data (bufs w) n); eauto.
Qed.

Lemma wp_bh_data n d Q w : b_data (bufs w) n = Some d -> Q d w -> wp (bh_data (Some n)) Q w.
Proof. unfold wp, bh_data. by intros ->. Qed.

Lemma wp_bh_write n d src Q w :
  b_data (bufs w) n = Some d -> (length src <= length d)%nat ->
  Q tt (set_bufs (b_store n (splice 0 src d) (bufs w)) w) -> wp (bh_write (Some n) src) Q w.
Proof.
  intros Hd Hl HQ. apply wp_bind. eapply wp_bh_data; [done|].
  rewrite (proj2 (Nat.leb_le _ _)) by done. done.
Qed.

Lemma wp_on_bh f n Q w : Q tt (set_bufs (f n (bufs w)) w) -> wp (on_bh f (Some n)) Q w.
Proof. done. Qed.

Lemma wp_brelse n Q w : Q tt (set_bh_refs (bh_refs w - 1) w) -> wp (brelse (Some n)) Q w.
Proof. done. Qed.

Lemma wp_ktime_get_real Q w : Q (clock (calls w)) (tick w) -> wp ktime_get_real Q w.
Proof. done. Qed.

Lemma wp_answer {A} (f : nat -> A) Q w :
  (forall n, Q (f n) (tick w)) -> wp (answer f) Q w.
Proof. intros HQ. apply HQ. Qed.

Lemma wp_copy_from_user l bs off src size Q w :
  heap w !! l = Some (OBuf bs) -> off + size <= Z.of_nat (length bs) ->
  Q (size - Z.of_nat (length (take (Z.to_nat size) src)))
    (set_heap (<[l := OBuf (splice (Z.to_nat off) (take (Z.to_nat size) src) bs)]> (heap w)) w) ->
  wp (copy_from_user (Some l) off src size) Q w.
Proof.
  intros Hl Hb HQ. apply wp_bind. eapply wp_load_buf; [done|].
  rewrite (proj2 (Z.leb_le _ _)) by done. apply wp_bind. by eapply wp_store.
Qed.

Lemma wp_copy_to_user cap from off n Q w :
  0 <= off -> 0 <= n -> off + n <= Z.of_nat (length from) ->
  (let c := Z.min n (Z.of_nat cap) in
   Q (n - c, take (Z.to_nat c) (drop (Z.to_nat off) from)) w) ->
  wp (copy_to_user cap from off n) Q w.
Proof.
  intros Ho Hn Hb HQ. unfold copy_to_user.
  rewrite !(proj2 (Z.leb_le _ _)) by lia. by apply wp_ret.
Qed.

(** ** Observational equality *)

#[export] Instance same_state_refl : Reflexive same_state.
Proof. intros w. unfold same_state. split_and!; done || lia. Qed.

#[export] Instance same_state_trans : Transitive same_state.
Proof.
  intros w1 w2 w3 H1 H2. unfold same_state in *. destruct_and!.
  split_and!; first [congruence | lia].
Qed.

Lemma same_state_tick w : same_state w (tick w).
Proof. unfold same_state. split_and!; done || lia. Qed.
End Wp.

#[export] Hint Resolve same_state_tick : bldms.

(** One step of symbolic execution. *)
Ltac wp_step :=
  lazymatch goal with
  | |- wp (bind _ _) _ _ => apply wp_bind
  | |- wp (ret _) _ _ => apply wp_ret
  | |- wp (gets _) _ _ => apply wp_gets
  | |- wp (modify _) _ _ => apply wp_modify
  | |- wp (store _ _) _ _ => eapply wp_store
  | |- wp (load_blk _) _ _ => eapply wp_load_blk
  | |- wp (load_elem _) _ _ => eapply wp_load_elem
  | |- wp (load_buf _) _ _ => eapply wp_load_buf
  | |- wp (load_time _) _ _ => eapply wp_load_time
  | |- wp (load_arr _) _ _ => eapply wp_load_arr
  | |- wp (kzalloc _) _ _ => apply wp_kzalloc
  | |- wp (kfree _) _ _ => eapply wp_kfree
  | |- wp (free_with _ _) _ _ => eapply wp_free_with
  | |- wp spin_lock _ _ => apply wp_spin_lock
  | |- wp spin_unlock _ _ => apply wp_spin_unlock
  | |- wp rcu_read_lock _ _ => apply wp_rcu_read_lock
  | |- wp rcu_read_unlock _ _ => eapply wp_rcu_read_unlock
  | |- wp synchronize_rcu _ _ => apply wp_synchronize_rcu
  | |- wp (sb_bread _ _) _ _ => apply wp_sb_bread
  | |- wp (bh_data _) _ _ => eapply wp_bh_data
  | |- wp (bh_write _ _) _ _ => eapply wp_bh_write
  | |- wp (mark_buffer_dirty _) _ _ => apply wp_on_bh
  | |- wp (sync_dirty_buffer _) _ _ => apply wp_on_bh
  | |- wp (brelse _) _ _ => apply wp_brelse
  | |- wp ktime_get_real _ _ => apply wp_ktime_get_real
  | |- wp (copy_from_user _ _ _ _) _ _ => eapply wp_copy_from_user
  | |- wp (copy_to_user _ _ _ _) _ _ => eapply wp_copy_to_user
  end.

(** One step of the execution of a program that faults later. *)
Ltac fault_step := apply fault_bind; wp_step.

(** Side conditions of the steps: look-ups in the heap. *)
Ltac heap_lookup :=
  simpl;
  solve [ eassumption | reflexivity | apply lookup_insert_eq
        | simplify_map_eq; first [ eassumption | reflexivity ] ].

(** Run the straight-line part of a program. *)
Ltac wp_run :=
  repeat first
    [ progress cbv beta
    | lazymatch goal with
      | |- wp (kzalloc _) _ _ => fail
      | |- wp (sb_bread _ _) _ _ => fail
      | |- _ => wp_step; [heap_lookup .. |]
      end ].
