(* ===== verification/Rcu.v ===== *)
(** * The RCU list of valid blocks (rcu.c)

    The operations of rcu.c on [valid_blk_list], the timestamp-ordered list of
    the valid blocks of the device, and their specifications in terms of the
    sequence of elements the list holds. *)
From S2P Require Import Prelude Layout Kernel KernelFacts.

Section Rcu.
Context {K : Kernel}.

(** ** Operations *)

(** Assignments to the three fields of [*el]. *)
Definition fill_elem (el : option loc) (ndx valid_bytes nsec : Z) : M unit :=
  let* e := load_elem el in
  store el (OElem (Elem ndx (el_nsec e) (el_valid_bytes e))) ;;;
  let* e := load_elem el in
  store el (OElem (Elem (Kernel.ndx e) (el_nsec e) valid_bytes)) ;;;
  let* e := load_elem el in
  store el (OElem (Elem (Kernel.ndx e) nsec (el_valid_bytes e))).

(** A list primitive applied to the node embedded in [*el]. *)
Definition on_node (f : loc -> rlist -> rlist) (el : option loc) : M unit :=
  let* _ := load_elem el in
  match el with
  | Some l => modify (fun w => set_list (f l (valid_blk_list w)) w)
  | None => fail NullDeref
  end.

Definition add_valid_block (ndx valid_bytes nsec : Z) : M Z :=
  let* el := kzalloc (OElem (Elem 0 0 0)) in
  if decide (el = None) then ret (- ENOMEM) else
  fill_elem el ndx valid_bytes nsec ;;;
  spin_lock ;;;
  on_node list_add_tail_rcu el ;;;
  spin_unlock ;;;
  ret 0.

Definition add_valid_block_secure (el : option loc) (ndx valid_bytes nsec : Z) : M unit :=
  fill_elem el ndx valid_bytes nsec ;;;
  on_node list_add_tail_rcu el.

(** [list_for_each_entry_reverse]: the last node older than [el], if any;
    [nodes] are the nodes still to be visited, last first. *)
Fixpoint find_older (el : option loc) (nodes : list loc) : M (option loc) :=
  match nodes with
  | [] => ret None
  | p :: nodes' =>
    let* prev := load_elem (Some p) in
    let* e := load_elem el in
    if el_nsec prev <? el_nsec e then ret (Some p) else find_older el nodes'
  end.

Definition add_valid_block_in_order_secure (el : option loc) (ndx valid_bytes nsec : Z) : M unit :=
  fill_elem el ndx valid_bytes nsec ;;;
  let* nodes := gets (fun w => rl_nodes (valid_blk_list w)) in
  if decide (nodes = []) then on_node list_add_tail_rcu el else
  let* prev := find_older el (reverse nodes) in
  match prev with
  | Some p => on_node (fun n => list_add_rcu n (Some p)) el
  | None => on_node (fun n => list_add_rcu n None) el
  end.

(** [list_for_each_entry]/[list_for_each_entry_rcu] with a [break] on [test]:
    the node on which the loop stops, [None] when it reaches the head. *)
Fixpoint find_node (test : rcu_elem -> bool) (nodes : list loc) : M (option loc) :=
  match nodes with
  | [] => ret None
  | p :: nodes' =>
    let* e := load_elem (Some p) in
    if test e then ret (Some p) else find_node test nodes'
  end.

Definition find_in_list (test : rcu_elem -> bool) : M (option loc) :=
  let* nodes := gets (fun w => rl_nodes (valid_blk_list w)) in find_node test nodes.

Definition remove_valid_block (ndx : Z) : M Z :=
  spin_lock ;;;
  let* el := find_in_list (fun e => Kernel.ndx e =? ndx) in
  match el with
  | Some _ =>
    on_node list_del_rcu el ;;;
    spin_unlock ;;;
    synchronize_rcu ;;;
    kfree el ;;;
    ret 0
  | None => spin_unlock ;;; ret (- ENODATA)
  end.

(** [list_for_each_entry(el, ...)] with a body that frees [el]: after the body
    the macro reads the [next] link inside [*el]. *)
Fixpoint remove_all_from (fuel : nat) (el : option loc) : M unit :=
  match el with
  | None => ret tt
  | Some p =>
    match fuel with
    | O => fail NoFuel
    | S fuel' =>
      on_node list_del_rcu el ;;;
      synchronize_rcu ;;;
      kfree el ;;;
      let* _ := load_elem el in
      let* next := gets (fun w => rl_next (valid_blk_list w) p) in
      remove_all_from fuel' next
    end
  end.

Definition remove_all_entries_secure : M unit :=
  let* nodes := gets (fun w => rl_nodes (valid_blk_list w)) in
  remove_all_from (length nodes) (head nodes).

(** ** The sequence of elements of a list *)

Definition elems_at (h : gmap loc obj) (ps : list loc) (es : list rcu_elem) : Prop :=
  Forall2 (fun p e => h !! p = Some (OElem e)) ps es.

Definition older_eq (e1 e2 : rcu_elem) : Prop := el_nsec e1 <= el_nsec e2.

(** The list of [w] holds the elements [es], in this order. *)
Definition list_holds (w : world) (es : list rcu_elem) : Prop :=
  NoDup (rl_nodes (valid_blk_list w)) /\ elems_at (heap w) (rl_nodes (valid_blk_list w)) es.

(** Timestamp order. *)
Definition time_sorted (es : list rcu_elem) : Prop := StronglySorted older_eq es.

(** What the reverse scan of the in-order insertion does to the sequence. *)
Fixpoint insert_rev (e : rcu_elem) (res : list rcu_elem) : list rcu_elem :=
  match res with
  | [] => [e]
  | x :: res' => if el_nsec x <? el_nsec e then e :: x :: res' else x :: insert_rev e res'
  end.
Definition insert_in_order (e : rcu_elem) (es : list rcu_elem) : list rcu_elem :=
  reverse (insert_rev e (reverse es)).
End Rcu.

#[export] Instance older_eq_dec e1 e2 : Decision (older_eq e1 e2).
Proof. unfold older_eq. apply _. Defined.

(** ** The in-order insertion as a function on sequences *)

Section Insertion.
Context {K : Kernel}.
Implicit Types (e x : rcu_elem) (es res : list rcu_elem).

#[export] Instance older_eq_trans : Transitive older_eq.
Proof. intros e1 e2 e3. unfold older_eq. lia. Qed.

Lemma insert_rev_split e res :
  exists r1 r2, res = r1 ++ r2 /\ insert_rev e res = r1 ++ e :: r2 /\
    Forall (fun x => el_nsec e <= el_nsec x) r1 /\
    (forall x, head r2 = Some x -> el_nsec x < el_nsec e).
Proof.
  induction res as [|x res IH]; simpl.
  - exists [], []. by split_and!.
  - destruct (el_nsec x <? el_nsec e) eqn:Hlt; reflect_bools.
    + exists [], (x :: res). split_and!; [done..|constructor|]. by intros y [= <-].
    + destruct IH as (r1 & r2 & -> & -> & Hall & Hhd).
      exists (x :: r1), r2. split_and!; auto.
Qed.

Lemma insert_in_order_split e es :
  exists es1 es2, es = es1 ++ es2 /\ insert_in_order e es = es1 ++ e :: es2 /\
    Forall (fun x => el_nsec e <= el_nsec x) es2 /\
    (forall x, last es1 = Some x -> el_nsec x < el_nsec e).
Proof.
  destruct (insert_rev_split e (reverse es)) as (r1 & r2 & Hes & Hins & Hall & Hhd).
  exists (reverse r2), (reverse r1). split_and!.
  - by rewrite <- reverse_app, <- Hes, reverse_involutive.
  - unfold insert_in_order. rewrite Hins, reverse_app, reverse_cons. by rewrite <- app_assoc.
  - by apply Forall_reverse.
  - intros x. rewrite last_reverse. apply Hhd.
Qed.

Lemma insert_in_order_perm e es : insert_in_order e es ≡ₚ e :: es.
Proof.
  destruct (insert_in_order_split e es) as (es1 & es2 & -> & -> & _).
  by rewrite Permutation_middle.
Qed.

Lemma elem_of_insert_in_order x e es : x ∈ insert_in_order e es <-> x = e \/ x ∈ es.
Proof. by rewrite (insert_in_order_perm e es), elem_of_cons. Qed.

(** In a sorted sequence everything before the insertion point is older. *)
Lemma sorted_last_lt es x0 t :
  time_sorted es -> last es = Some x0 -> el_nsec x0 < t ->
  Forall (fun x => el_nsec x < t) es.
Proof.
  intros Hs Hl Hlt. destruct es as [|y es _] using rev_ind; [constructor|].
  rewrite last_snoc in Hl. simplify_eq.
  apply Forall_app; split; [|by constructor].
  apply Forall_forall. intros z Hz.
  pose proof (StronglySorted_app_1_elem_of _ _ _ z x0 Hs Hz ltac:(set_solver)) as Hle.
  unfold older_eq in Hle. lia.
Qed.

Lemma insert_in_order_sorted_split e es :
  time_sorted es ->
  exists es1 es2, es = es1 ++ es2 /\ insert_in_order e es = es1 ++ e :: es2 /\
    Forall (fun x => el_nsec x < el_nsec e) es1 /\
    Forall (fun x => el_nsec e <= el_nsec x) es2.
Proof.
  intros Hs. destruct (insert_in_order_split e es) as (es1 & es2 & -> & Hins & Hge & Hlast).
  exists es1, es2. split_and!; auto.
  destruct (last es1) as [x0|] eqn:E.
  - apply (sorted_last_lt _ x0); [by apply StronglySorted_app_1_l in Hs|done|by apply Hlast].
  - apply last_None in E as ->. constructor.
Qed.

Lemma insert_in_order_sorted_aux e es : time_sorted es -> time_sorted (insert_in_order e es).
Proof.
  intros Hs. destruct (insert_in_order_sorted_split e es Hs) as (es1 & es2 & -> & -> & Hlt & Hge).
  apply StronglySorted_app in Hs as (Hc & Hs1 & Hs2).
  rewrite Forall_forall in Hlt. apply StronglySorted_app_2; [|done|].
  - intros x y Hx [->|Hy]%elem_of_cons; [|by apply Hc]. specialize (Hlt x Hx). unfold older_eq. lia.
  - by apply SSorted_cons.
Qed.
End Insertion.

#[export] Hint Resolve insert_in_order_sorted_aux : bldms.

(** ** The sequence held by the list *)

Section Elems.
Implicit Types (h : gmap loc obj) (ps : list loc) (es : list rcu_elem).

Lemma elems_at_insert l o h ps es :
  l ∉ ps -> elems_at h ps es -> elems_at (<[l := o]> h) ps es.
Proof.
  intros Hl H. unfold elems_at in *. induction H; constructor.
  - rewrite lookup_insert_ne; set_solver.
  - apply IHForall2. set_solver.
Qed.

Lemma elems_at_delete l h ps es :
  l ∉ ps -> elems_at h ps es -> elems_at (delete l h) ps es.
Proof.
  intros Hl H. unfold elems_at in *. induction H; constructor.
  - rewrite lookup_delete_ne; set_solver.
  - apply IHForall2. set_solver.
Qed.

Lemma elems_at_elem_of p h ps es :
  elems_at h ps es -> p ∈ ps -> exists e, e ∈ es /\ h !! p = Some (OElem e).
Proof.
  intros H Hp. apply list_elem_of_lookup in Hp as [i Hi].
  destruct (Forall2_lookup_l _ _ _ _ _ H Hi) as (e & He & Hpe). eauto using list_elem_of_lookup_2.
Qed.

Lemma elems_at_app h ps1 ps2 es1 es2 :
  length ps1 = length es1 -> elems_at h (ps1 ++ ps2) (es1 ++ es2) ->
  elems_at h ps1 es1 /\ elems_at h ps2 es2.
Proof. apply Forall2_app_inv. Qed.

(** Cutting the nodes at the position where the elements are cut. *)
Lemma elems_at_split h ps es1 es2 :
  elems_at h ps (es1 ++ es2) ->
  exists ps1 ps2, ps = ps1 ++ ps2 /\ elems_at h ps1 es1 /\ elems_at h ps2 es2.
Proof.
  intros (ps1 & ps2 & ? & ? & ?)%Forall2_app_inv_r. eauto.
Qed.
End Elems.

(** ** Specifications of the operations *)

Section RcuSpecs.
Context {K : Kernel} {KL : KernelLaws K}.
Implicit Types (w : world) (l p : loc) (e : rcu_elem).

Lemma wp_fill_elem l e0 i vb t Q w :
  heap w !! l = Some (OElem e0) ->
  Q tt (set_heap (<[l := OElem (Elem i t vb)]> (heap w)) w) ->
  wp (fill_elem (Some l) i vb t) Q w.
Proof.
  intros Hl HQ. unfold fill_elem.
  wp_run. simpl. by rewrite !insert_insert_eq.
Qed.

Lemma wp_on_node f l e Q w :
  heap w !! l = Some (OElem e) ->
  Q tt (set_list (f l (valid_blk_list w)) w) -> wp (on_node f (Some l)) Q w.
Proof. intros Hl HQ. unfold on_node. wp_run. done. Qed.

Lemma wp_find_older l e rps res Q w :
  heap w !! l = Some (OElem e) -> elems_at (heap w) rps res ->
  (forall r1 r2 s1 s2, rps = r1 ++ r2 -> res = s1 ++ s2 -> length r1 = length s1 ->
    insert_rev e res = s1 ++ e :: s2 -> Q (head r2) w) ->
  wp (find_older (Some l) rps) Q w.
Proof.
  intros Hl Hel. revert Q. induction Hel as [|p x rps res Hp Hel IH]; intros Q HQ; simpl.
  - wp_step. by apply (HQ [] [] [] []).
  - wp_run.
    destruct (el_nsec x <? el_nsec e) eqn:Hlt; simpl in HQ; rewrite ?Hlt in HQ.
    + wp_step. by apply (HQ [] (p :: rps) [] (x :: res)).
    + apply IH. intros r1 r2 s1 s2 -> -> Hlen Hins.
      apply (HQ (p :: r1) r2 (x :: s1) s2); simpl; try done; by rewrite ?Hlen, ?Hins.
Qed.

(** The in-order insertion puts the filled element where [insert_in_order] does. *)
(** The list after the insertion of [l]: nothing else has moved, and the links of
    the nodes that are not on it are as they were. *)
Definition grows (l : loc) (old new : rlist) : Prop :=
  (exists ps1 ps2, rl_nodes old = ps1 ++ ps2 /\ rl_nodes new = ps1 ++ l :: ps2) /\
  forall p, p ∉ rl_nodes old -> p <> l -> rl_next new p = rl_next old p.

Lemma wp_add_in_order l e0 ps es i vb t Q w :
  heap w !! l = Some (OElem e0) -> rl_nodes (valid_blk_list w) = ps ->
  NoDup ps -> l ∉ ps -> elems_at (heap w) ps es ->
  (forall lst ps1 ps2 es1 es2, ps = ps1 ++ ps2 -> es = es1 ++ es2 -> length ps1 = length es1 ->
    insert_in_order (Elem i t vb) es = es1 ++ Elem i t vb :: es2 ->
    rl_nodes lst = ps1 ++ l :: ps2 -> grows l (valid_blk_list w) lst ->
    Q tt (set_list lst (set_heap (<[l := OElem (Elem i t vb)]> (heap w)) w))) ->
  wp (add_valid_block_in_order_secure (Some l) i vb t) Q w.
Proof.
  intros Hl Hps Hnd Hlp Hel HQ.
  assert (HQ' : forall lst ps1 ps2 es1 es2, ps = ps1 ++ ps2 -> es = es1 ++ es2 ->
    length ps1 = length es1 -> insert_in_order (Elem i t vb) es = es1 ++ Elem i t vb :: es2 ->
    rl_nodes lst = ps1 ++ l :: ps2 ->
    (forall p, p ∉ rl_nodes (valid_blk_list w) -> p <> l -> rl_next lst p = rl_next (valid_blk_list w) p) ->
    Q tt (set_list lst (set_heap (<[l := OElem (Elem i t vb)]> (heap w)) w))).
  { intros lst ps1 ps2 es1 es2 H1 H2 H3 H4 H5 H6. eapply HQ; try done. split; [|done].
    exists ps1, ps2. by rewrite Hps. }
  clear HQ. unfold add_valid_block_in_order_secure.
  wp_step. eapply wp_fill_elem; [done|]. wp_step. wp_step. simpl. rewrite Hps.
  set (w1 := set_heap _ w). set (e := Elem i t vb) in *.
  assert (Hl1 : heap w1 !! l = Some (OElem e)) by (simpl; apply lookup_insert_eq).
  assert (Hel1 : elems_at (heap w1) ps es) by (simpl; by apply elems_at_insert).
  clearbody e. case_decide as Hnil.
  { subst ps. rewrite Hnil in Hel. inversion Hel; subst es.
    eapply wp_on_node; [done|]. apply (HQ' _ [] [] [] []); try done.
    - rewrite rl_nodes_add_tail. simpl. by rewrite Hnil.
    - intros p. apply rl_next_add_tail_other. }
  wp_step. eapply wp_find_older; [done| by apply Forall2_reverse |].
  intros r1 r2 s1 s2 Hr Hs Hlen Hins.
  apply (f_equal reverse) in Hr. rewrite reverse_involutive, reverse_app in Hr.
  apply (f_equal reverse) in Hs as Hs'. rewrite reverse_involutive, reverse_app in Hs'.
  assert (length r2 = length s2) as Hlen2.
  { apply Forall2_length in Hel. rewrite Hr, Hs', !length_app, !length_reverse in Hel. lia. }
  assert (insert_in_order e es = reverse s2 ++ e :: reverse s1) as Hio.
  { unfold insert_in_order. rewrite Hins, reverse_app, reverse_cons. by rewrite <- app_assoc. }
  destruct r2 as [|p r2]; simpl.
  - eapply wp_on_node; [done|]. apply (HQ' _ [] ps (reverse s2) (reverse s1)); try done.
    + by destruct s2.
    + rewrite rl_nodes_add_head. simpl. by rewrite Hps.
    + intros p'. apply rl_next_add_other.
  - eapply wp_on_node; [done|].
    apply (HQ' _ (reverse (p :: r2)) (reverse r1) (reverse s2) (reverse s1)); try done.
    + rewrite !length_reverse. done.
    + rewrite reverse_cons, <- app_assoc in *. simpl in *.
      eapply rl_nodes_add_after; simpl; [by rewrite Hps, <- Hr|].
      rewrite Hr in Hnd. apply NoDup_app in Hnd as (_ & Hd & _).
      intros Hin. apply (Hd p Hin). set_solver.
    + intros p'. apply rl_next_add_other.
Qed.

(** The loop stops at the first element that satisfies the test. *)
Lemma wp_find_node test ps es Q w :
  elems_at (heap w) ps es ->
  (Forall (fun e => test e = false) es -> Q None w) ->
  (forall ps1 p ps2 es1 e es2, ps = ps1 ++ p :: ps2 -> es = es1 ++ e :: es2 ->
    length ps1 = length es1 -> heap w !! p = Some (OElem e) -> test e = true ->
    Forall (fun e => test e = false) es1 -> Q (Some p) w) ->
  wp (find_node test ps) Q w.
Proof.
  intros Hel. revert Q. induction Hel as [|p e ps es Hp Hel IH]; intros Q HN HS; simpl.
  - wp_step. by apply HN.
  - wp_run. destruct (test e) eqn:Ht.
    + wp_step. by apply (HS [] p ps [] e es).
    + apply IH.
      * intros Hall. apply HN. by constructor.
      * intros ps1 q ps2 es1 x es2 -> -> Hlen Hq Htx Hall.
        apply (HS (p :: ps1) q ps2 (e :: es1) x es2); simpl; auto.
Qed.

Lemma wp_find_in_list test es Q w :
  elems_at (heap w) (rl_nodes (valid_blk_list w)) es ->
  (Forall (fun e => test e = false) es -> Q None w) ->
  (forall ps1 p ps2 es1 e es2, rl_nodes (valid_blk_list w) = ps1 ++ p :: ps2 ->
    es = es1 ++ e :: es2 -> length ps1 = length es1 -> heap w !! p = Some (OElem e) ->
    test e = true -> Forall (fun e => test e = false) es1 -> Q (Some p) w) ->
  wp (find_in_list test) Q w.
Proof. intros Hel HN HS. unfold find_in_list. wp_run. by eapply wp_find_node. Qed.

(** Dropping the node of an element from the nodes and from the sequence. *)
Lemma elems_at_drop h ps1 p ps2 es1 e es2 :
  elems_at h (ps1 ++ p :: ps2) (es1 ++ e :: es2) -> length ps1 = length es1 ->
  elems_at h (ps1 ++ ps2) (es1 ++ es2).
Proof.
  intros H Hlen. apply elems_at_app in H as [H1 H2]; [|done].
  inversion H2; subst. by apply Forall2_app.
Qed.

Lemma not_in_ndx i es : Forall (fun e => (Kernel.ndx e =? i) = false) es -> i ∉ ndx <$> es.
Proof.
  intros Hall (e & -> & He)%list_elem_of_fmap. rewrite Forall_forall in Hall.
  specialize (Hall e He). simpl in Hall. lia.
Qed.

Lemma NoDup_mid {A} (l1 l2 : list A) x :
  NoDup (l1 ++ x :: l2) -> (x ∉ l1) /\ (x ∉ l2) /\ NoDup (l1 ++ l2).
Proof.
  intros H. rewrite <- Permutation_middle in H. apply NoDup_cons in H as [Hx Hnd].
  split_and!; set_solver.
Qed.
Lemma fault_remove_all w es :
  list_holds w es -> rcu_readers w = O -> es <> [] ->
  exists p ps, rl_nodes (valid_blk_list w) = p :: ps /\
    remove_all_entries_secure w = Fault (BadAccess p).
Proof.
  intros [Hnd Hel] Hrd Hne. destruct (rl_nodes _) as [|p ps] eqn:Hps.
  { by inversion Hel. }
  exists p, ps. split; [done|].
  apply Forall2_cons_inv_l in Hel as (e & es' & Hp & _ & _).
  unfold remove_all_entries_secure. erewrite run_bind by done. rewrite Hps. simpl.
  erewrite run_bind by (unfold on_node; erewrite run_bind; [done|by apply run_load_elem]).
  erewrite run_bind by (unfold synchronize_rcu; simpl; by rewrite Hrd).
  erewrite run_bind by (unfold kfree, free_with; simpl; by rewrite Hp).
  unfold bind, load_elem, deref, bind. simpl. by rewrite lookup_delete_eq.
Qed.
End RcuSpecs.

(** ** Properties *)

Section RcuTheorems.
Context {K : Kernel} {KL : KernelLaws K}.
Implicit Types (w : world) (l p : loc) (e : rcu_elem) (es : list rcu_elem).

(** C17: whatever the order in which writers take the lock, the in-order insertion
    keeps the RCU list sorted by timestamp: the new element is added to the
    elements already present, none is lost, and exactly the elements older than
    the new one precede it. *)
Theorem in_order_insertion_keeps_order w l e0 es i vb t :
  list_holds w es -> time_sorted es -> heap w !! l = Some (OElem e0) ->
  l ∉ rl_nodes (valid_blk_list w) ->
  wp (add_valid_block_in_order_secure (Some l) i vb t)
    (fun _ w' => exists es', list_holds w' es' /\ time_sorted es' /\
       es' = filter (fun x => el_nsec x < t) es
               ++ Elem i t vb :: filter (fun x => t <= el_nsec x) es) w.
Proof.
  intros [Hnd Hel] Hs Hl Hlp. eapply wp_add_in_order; [done..|].
  intros lst ps1 ps2 es1 es2 Hps Hes Hlen Hins Hlst _.
  exists (insert_in_order (Elem i t vb) es). split_and!; [split|..]; simpl.
  - rewrite Hlst. rewrite Hps in Hnd, Hlp. rewrite <- Permutation_middle.
    by apply NoDup_cons.
  - rewrite Hlst, Hins. rewrite Hps in Hel, Hlp. rewrite Hes in Hel.
    apply elems_at_app in Hel as [H1 H2]; [|done].
    apply Forall2_app; [|constructor; [apply lookup_insert_eq|]];
      (apply elems_at_insert; [set_solver|done]).
  - by apply insert_in_order_sorted_aux.
  - destruct (insert_in_order_sorted_split (Elem i t vb) es Hs)
      as (s1 & s2 & -> & -> & Hlt & Hge); simpl in *.
    rewrite !filter_app.
    rewrite (filter_keep (fun x => el_nsec x < t) s1) by done.
    rewrite (filter_keep (fun x => t <= el_nsec x) s2) by done.
    rewrite (filter_none (fun x => el_nsec x < t) s2)
      by (eapply Forall_impl; [eassumption|]; simpl; intros ?; lia).
    rewrite (filter_none (fun x => t <= el_nsec x) s1)
      by (eapply Forall_impl; [eassumption|]; simpl; intros ?; lia).
    by rewrite app_nil_r.
Qed.

(** remove_valid_block() removes and frees exactly the first element with the
    given index, after a grace period and with the lock released, keeping the
    order of the others; when no element has that index it returns -ENODATA and
    leaves the list and the memory as they were. *)
Theorem remove_valid_block_spec w es i :
  list_holds w es -> rcu_write_lock w = false -> rcu_readers w = O ->
  wp (remove_valid_block i)
    (fun r w' => rcu_write_lock w' = false /\
       ((r = - ENODATA /\ (i ∉ ndx <$> es) /\ list_holds w' es /\ heap w' = heap w) \/
        (r = 0 /\ exists es1 e es2 p, es = es1 ++ e :: es2 /\ ndx e = i /\ (i ∉ ndx <$> es1) /\
          heap w !! p = Some (OElem e) /\ heap w' = delete p (heap w) /\
          list_holds w' (es1 ++ es2)))) w.
Proof.
  intros [Hnd Hel] Hlk Hrd. unfold remove_valid_block. wp_run.
  eapply wp_find_in_list; simpl; [done| |].
  - intros Hall. wp_run. split; [done|]. left. split_and!; try done. by apply not_in_ndx.
  - intros ps1 p ps2 es1 e es2 Hps -> Hlen Hp Ht Hall. simpl in Hp, Ht. apply Z.eqb_eq in Ht.
    wp_step. eapply wp_on_node; [done|]. wp_run. split; [done|]. right. split; [done|].
    rewrite Hps in Hnd, Hel. apply NoDup_mid in Hnd as Hd. destruct Hd as (H1 & H2 & Hnd').
    exists es1, e, es2, p. simpl. split_and!; try done.
    + by apply not_in_ndx.
    + unfold list_holds; simpl. rewrite (rl_nodes_del p _ ps1 ps2) by done. split; [done|].
      apply elems_at_delete; [set_solver|]. by eapply elems_at_drop.
Qed.

(** C33: remove_all_entries_secure() uses list_for_each_entry() with a body that
    frees the current element, so on any list that is not empty it reads the
    [next] link of memory it has just freed. *)
Theorem remove_all_entries_use_after_free w es :
  list_holds w es -> rcu_readers w = O -> es <> [] ->
  exists p ps, rl_nodes (valid_blk_list w) = p :: ps /\
    remove_all_entries_secure w = Fault (BadAccess p).
Proof. apply fault_remove_all. Qed.
End RcuTheorems.
