(* ===== verification/Store.v ===== *)
(** * The abstract message store

    What the device promises to its users (REQUIREMENTS.md), with no memory, no
    list and no bytes of metadata: a fixed number of slots, each of which may
    hold a message with its timestamp, and the slot written last.  The other
    files prove that the driver implements this store. *)
From S2P Require Import Prelude Layout.

Record message := Msg { m_time : Z; m_data : list byte }.

#[export] Instance message_eq_dec : EqDecision message.
Proof. solve_decision. Defined.

Record mstore := MStore {
  s_cap : nat;                     (* number of slots *)
  s_last : nat;                    (* the slot written last *)
  s_msgs : gmap nat message
}.

(** The slots in the order in which a writer looks for a free one: circularly,
    starting after the slot written last. *)
Definition probes (n last : nat) : list nat :=
  (fun i => (last + i) mod n)%nat <$> seq 1 n.

Definition next_free (s : mstore) : option nat :=
  head (filter (fun i => s_msgs s !! i = None) (probes (s_cap s) (s_last s))).

(** The three system calls on the abstract store. *)
Definition s_put (t : Z) (d : list byte) (s : mstore) : Z * mstore :=
  match next_free s with
  | Some b => (Z.of_nat b, MStore (s_cap s) b (<[b := Msg t d]> (s_msgs s)))
  | None => (- ENOMEM, s)
  end.

Definition s_get (off : Z) (size : nat) (s : mstore) : Z * list byte :=
  if (0 <=? off) && (off <? Z.of_nat (s_cap s)) then
    match s_msgs s !! Z.to_nat off with
    | Some m => let d := take size (m_data m) in (Z.of_nat (length d), d)
    | None => (- ENODATA, [])
    end
  else (- E2BIG, []).

Definition s_invalidate (off : Z) (s : mstore) : Z * mstore :=
  if (0 <=? off) && (off <? Z.of_nat (s_cap s)) then
    match s_msgs s !! Z.to_nat off with
    | Some _ => (0, MStore (s_cap s) (s_last s) (delete (Z.to_nat off) (s_msgs s)))
    | None => (- ENODATA, s)
    end
  else (- E2BIG, s).

(** The slots in use are slots of the device. *)
Definition store_wf (s : mstore) : Prop :=
  (forall i m, s_msgs s !! i = Some m -> (i < s_cap s)%nat) /\
  (s_cap s = O \/ (s_last s < s_cap s)%nat).

(** ** Lemmas *)

Lemma elem_of_probes n last i : i ∈ probes n last <-> (i < n)%nat.
Proof.
  unfold probes. rewrite list_elem_of_fmap. split.
  - intros (j & -> & Hj%elem_of_seq). apply Nat.mod_upper_bound. lia.
  - intros Hi. destruct (decide (last mod n < i)%nat) as [Hlt|Hge].
    + exists (i - last mod n)%nat. split; [|apply elem_of_seq; lia].
      rewrite <- Nat.Div0.add_mod_idemp_l.
      replace (last mod n + (i - last mod n))%nat with i by lia.
      by rewrite Nat.mod_small.
    + assert (last mod n < n)%nat by (apply Nat.mod_upper_bound; lia).
      exists (n - last mod n + i)%nat. split; [|apply elem_of_seq; lia].
      rewrite <- Nat.Div0.add_mod_idemp_l.
      replace (last mod n + (n - last mod n + i))%nat with (i + 1 * n)%nat by lia.
      by rewrite Nat.Div0.mod_add, Nat.mod_small.
Qed.

Lemma head_filter_Some_iff {A} (P : A -> Prop) `{!forall x, Decision (P x)} l x :
  head (filter P l) = Some x <->
  exists l1 l2, l = l1 ++ x :: l2 /\ Forall (fun y => ~ P y) l1 /\ P x.
Proof.
  split.
  - intros Hh. assert (x ∈ filter P l) as [HP _]%list_elem_of_filter.
    { destruct (filter P l); simplify_eq/=. by left. }
    apply head_filter_Some in Hh as (l1 & l2 & -> & Hall). eauto 6.
  - intros (l1 & l2 & -> & Hall & Hx).
    by rewrite filter_app, filter_none, filter_cons_True by done.
Qed.

Lemma head_filter_None_iff {A} (P : A -> Prop) `{!forall x, Decision (P x)} l :
  head (filter P l) = None <-> Forall (fun y => ~ P y) l.
Proof.
  rewrite head_None. split.
  - intros Hnil. apply Forall_forall. intros x Hx HP.
    assert (x ∈ filter P l) as Hin by (by apply list_elem_of_filter). rewrite Hnil in Hin. set_solver.
  - intros. by apply filter_none.
Qed.

Lemma next_free_Some s b : next_free s = Some b -> (b < s_cap s)%nat /\ s_msgs s !! b = None.
Proof.
  intros (l1 & l2 & Hl & _ & Hb)%head_filter_Some_iff. split; [|done].
  apply (elem_of_probes _ (s_last s)). rewrite Hl. set_solver.
Qed.

Lemma next_free_None s :
  next_free s = None <-> forall i, (i < s_cap s)%nat -> is_Some (s_msgs s !! i).
Proof.
  unfold next_free. rewrite head_filter_None_iff, Forall_forall. split.
  - intros H i Hi%(elem_of_probes _ (s_last s)). apply H in Hi.
    destruct (s_msgs s !! i); [eauto|done].
  - intros H i Hi%elem_of_probes. destruct (H i Hi) as [m ->]. done.
Qed.

Lemma s_put_wf t d s : store_wf s -> store_wf (s_put t d s).2.
Proof.
  intros [Hk Hl]. unfold s_put. destruct (next_free s) as [b|] eqn:Hb; [|done].
  apply next_free_Some in Hb as [Hlt _]. split; simpl; [|auto].
  intros i m [[<- ?]|[? ?]]%lookup_insert_Some; eauto.
Qed.

Lemma s_invalidate_wf off s : store_wf s -> store_wf (s_invalidate off s).2.
Proof.
  intros [Hk Hl]. unfold s_invalidate. repeat case_match; try done.
  split; simpl; [|done]. intros i m' [_ ?]%lookup_delete_Some. eauto.
Qed.

(** The two calls with an offset, on a slot of the device and outside. *)
Lemma s_invalidate_in s i :
  (i < s_cap s)%nat ->
  s_invalidate (Z.of_nat i) s =
    match s_msgs s !! i with
    | Some _ => (0, MStore (s_cap s) (s_last s) (delete i (s_msgs s)))
    | None => (- ENODATA, s)
    end.
Proof.
  intros Hi. unfold s_invalidate.
  rewrite (proj2 (Z.leb_le _ _)), (proj2 (Z.ltb_lt _ _)) by lia. by rewrite Nat2Z.id.
Qed.

Lemma s_get_in s i size :
  (i < s_cap s)%nat ->
  s_get (Z.of_nat i) size s =
    match s_msgs s !! i with
    | Some m => (Z.of_nat (length (take size (m_data m))), take size (m_data m))
    | None => (- ENODATA, [])
    end.
Proof.
  intros Hi. unfold s_get.
  rewrite (proj2 (Z.leb_le _ _)), (proj2 (Z.ltb_lt _ _)) by lia. by rewrite Nat2Z.id.
Qed.

Lemma out_of_range off n :
  ~ (0 <= off < Z.of_nat n) -> ((0 <=? off) && (off <? Z.of_nat n))%bool = false.
Proof. intros H. apply andb_false_iff. rewrite Z.leb_gt, Z.ltb_ge. lia. Qed.

(** The driver's test of the offset, after its conversion to 64 unsigned bits. *)
Lemma offset_in_range off n :
  - 2 ^ 31 <= off < 2 ^ 31 -> Z.of_nat n < 2 ^ 31 ->
  (Z.of_nat n <=? u64 off) = negb ((0 <=? off) && (off <? Z.of_nat n))%bool.
Proof.
  intros Ho Hn. destruct (Z.leb_spec 0 off); simpl.
  - rewrite u64_small by lia. by rewrite Z.leb_antisym.
  - rewrite u64_neg by lia. apply Z.leb_le. lia.
Qed.

#[export] Hint Resolve s_put_wf s_invalidate_wf : bldms.
