(* ===== verification/Device.v ===== *)
(** * The mounted device

    How the driver's state represents an abstract store: the array of pointers
    to the blocks' metadata, the RCU list of the valid blocks and the buffers of
    the device, all three consistent with one another.  [dev_inv F w s] also
    says which memory belongs to the device: what is outside it is [F]. *)
From S2P Require Import Prelude Layout Kernel KernelFacts Rcu Store.

Section Device.
Context {K : Kernel} {C : Config}.

(** Whether the metadata array is too big for kzalloc() (bldms.c). *)
Definition PAGE_SIZE : Z := 4096.
Definition array_is_big (n : Z) : bool := 1024 * PAGE_SIZE <? 8 * n.

(** The list element of a valid block. *)
Definition elem_of_block (i : nat) (b : bldms_block) : rcu_elem :=
  Elem (Z.of_nat i) (nsec b) (valid_bytes b).

(** The elements of the valid blocks, in block order. *)
Fixpoint valid_from (k : nat) (bs : list bldms_block) : list rcu_elem :=
  match bs with
  | [] => []
  | b :: bs' =>
    if is_valid b =? BLK_VALID then elem_of_block k b :: valid_from (S k) bs'
    else valid_from (S k) bs'
  end.

(** Block [i] of the device agrees with its entry in the metadata array, and a
    valid message fits in the block. *)
Definition block_rep (c : bcache) (i : nat) (b : bldms_block) : Prop :=
  block_wf b /\
  exists blk, b_data c (Z.of_nat i + NUM_METADATA_BLKS) = Some blk /\ length blk = 4096%nat /\
    take 10 blk = encode_block b /\
    (is_valid b = BLK_VALID -> valid_bytes b <= DEFAULT_BLOCK_SIZE - METADATA_SIZE).

(** The message a block holds, if it is valid. *)
Definition msg_of (b : bldms_block) (blk : list byte) : option message :=
  if is_valid b =? BLK_VALID
  then Some (Msg (nsec b) (take (Z.to_nat (valid_bytes b)) (payload blk))) else None.

Definition msg_at (c : bcache) (bs : list bldms_block) (i : nat) : option message :=
  match bs !! i, b_data c (Z.of_nat i + NUM_METADATA_BLKS) with
  | Some b, Some blk => msg_of b blk
  | _, _ => None
  end.

(** The memory of the device. *)
Definition footprint (a : loc) (mps : list loc) (w : world) : list loc :=
  a :: mps ++ rl_nodes (valid_blk_list w).

Record dev_mem (F : gmap loc obj) (a : loc) (vm : bool) (mps : list loc)
    (bs : list bldms_block) (es : list rcu_elem) (w : world) : Prop := {
  dm_array : metadata_array w = Some a;
  dm_heap_array : heap w !! a = Some (OArr vm (Some <$> mps));
  dm_vm : vm = array_is_big (Z.of_nat (length bs));
  dm_blocks : Forall2 (fun p b => heap w !! p = Some (OBlk b)) mps bs;
  dm_list : list_holds w es;
  dm_nodup : NoDup mps;
  dm_owned l : l ∈ footprint a mps w -> F !! l = None;
  dm_frame l : l ∉ footprint a mps w -> heap w !! l = F !! l;
  dm_fresh l : (brk w <= l)%positive -> heap w !! l = None
}.

(** The contents of the device. *)
Record dev_log (bs : list bldms_block) (es : list rcu_elem) (c : bcache) : Prop := {
  dl_blocks i b : bs !! i = Some b -> block_rep c i b;
  dl_elems : es ≡ₚ valid_from 0 bs;
  dl_sorted : time_sorted es
}.

Record dev_globals (bs : list bldms_block) (s : mstore) (w : world) : Prop := {
  dg_mounted : bldms_mounted w = 1;
  dg_size : md_array_size w = Z.of_nat (length bs);
  dg_cap : s_cap s = length bs;
  dg_bound : Z.of_nat (length bs) <= NBLOCKS;
  dg_last : length bs <> O -> last_written_block w = Z.of_nat (s_last s);
  dg_msgs i : s_msgs s !! i = msg_at (bufs w) bs i
}.

Record dev_inv_at (F : gmap loc obj) (s : mstore) (a : loc) (vm : bool) (mps : list loc)
    (bs : list bldms_block) (es : list rcu_elem) (w : world) : Prop := {
  di_mem : dev_mem F a vm mps bs es w;
  di_log : dev_log bs es (bufs w);
  di_globals : dev_globals bs s w;
  di_wf : store_wf s
}.

(** The state [w] represents the store [s]; [F] is the memory not owned by the device. *)
Definition dev_inv (F : gmap loc obj) (w : world) (s : mstore) : Prop :=
  exists a vm mps bs es, dev_inv_at F s a vm mps bs es w.

(** The same, with the time-ordered sequence of the elements of the list. *)
Definition dev_inv_es (F : gmap loc obj) (s : mstore) (es : list rcu_elem) (w : world) : Prop :=
  exists a vm mps bs, dev_inv_at F s a vm mps bs es w.

(** No lock held and no reader active. *)
Definition unlocked (w : world) : Prop := rcu_write_lock w = false /\ rcu_readers w = O.

(** ** The elements of the valid blocks *)

Lemma valid_from_app k bs1 bs2 :
  valid_from k (bs1 ++ bs2) = valid_from k bs1 ++ valid_from (k + length bs1) bs2.
Proof.
  revert k. induction bs1 as [|b bs1 IH]; intros k; simpl; [by rewrite Nat.add_0_r|].
  rewrite !IH. replace (S k + length bs1)%nat with (k + S (length bs1))%nat by lia.
  by destruct (is_valid b =? BLK_VALID).
Qed.

Lemma elem_of_valid_from e k bs :
  e ∈ valid_from k bs <->
  exists i b, bs !! i = Some b /\ is_valid b = BLK_VALID /\ e = elem_of_block (k + i) b.
Proof.
  revert k. induction bs as [|b bs IH]; intros k; simpl.
  { split; [set_solver|]. by intros (i & b & ? & _). }
  assert (Hstep : e ∈ valid_from (S k) bs <->
    exists i x, (b :: bs) !! S i = Some x /\ is_valid x = BLK_VALID /\ e = elem_of_block (k + S i) x).
  { rewrite IH. split; intros (i & x & ? & ? & ->); exists i, x; split_and!; try done; f_equal; lia. }
  destruct (is_valid b =? BLK_VALID) eqn:Hv; reflect_bools; rewrite ?elem_of_cons, Hstep; split.
  - intros [->|(i & x & ? & ? & ->)]; [exists 0%nat, b | exists (S i), x]; split_and!; try done.
    by rewrite Nat.add_0_r.
  - intros ([|i] & x & Hx & ? & ->); simpl in Hx; simplify_eq; [left|right; eauto].
    by rewrite Nat.add_0_r.
  - intros (i & x & ? & ? & ->). exists (S i), x. done.
  - intros ([|i] & x & Hx & ? & ->); simpl in Hx; simplify_eq; eauto.
Qed.

Lemma valid_from_ndx_ge k bs e : e ∈ valid_from k bs -> Z.of_nat k <= ndx e.
Proof. intros (i & b & _ & _ & ->)%elem_of_valid_from. simpl. lia. Qed.

Lemma valid_from_NoDup k bs : NoDup (ndx <$> valid_from k bs).
Proof.
  revert k. induction bs as [|b bs IH]; intros k; simpl; [constructor|].
  destruct (is_valid b =? BLK_VALID); [|apply IH].
  simpl. constructor; [|apply IH].
  intros (e & He & Hin%valid_from_ndx_ge)%list_elem_of_fmap. lia.
Qed.

(** Making a free block valid adds its element, making a valid block invalid
    drops it. *)
Lemma valid_from_validate bs i b b' :
  bs !! i = Some b -> is_valid b <> BLK_VALID -> is_valid b' = BLK_VALID ->
  valid_from 0 (<[i := b']> bs) ≡ₚ elem_of_block i b' :: valid_from 0 bs.
Proof.
  intros Hi Hv Hv'. assert (i < length bs)%nat by (by eapply lookup_lt_Some).
  rewrite insert_take_drop by done. rewrite <- (take_drop_middle bs i b Hi) at 3.
  rewrite !valid_from_app. simpl. rewrite length_take, Nat.min_l by lia.
  rewrite Hv', Z.eqb_refl. rewrite (proj2 (Z.eqb_neq _ _) Hv). by rewrite Permutation_middle.
Qed.

Lemma valid_from_invalidate bs i b b' :
  bs !! i = Some b -> is_valid b = BLK_VALID -> is_valid b' <> BLK_VALID ->
  valid_from 0 bs ≡ₚ elem_of_block i b :: valid_from 0 (<[i := b']> bs).
Proof.
  intros Hi Hv Hv'. assert (i < length bs)%nat by (by eapply lookup_lt_Some).
  rewrite insert_take_drop by done. rewrite <- (take_drop_middle bs i b Hi) at 1.
  rewrite !valid_from_app. simpl. rewrite length_take, Nat.min_l by lia.
  rewrite Hv, Z.eqb_refl. rewrite (proj2 (Z.eqb_neq _ _) Hv'). by rewrite Permutation_middle.
Qed.

(** ** Memory outside the device *)

Lemma footprint_array a mps w : a ∈ footprint a mps w.
Proof. by left. Qed.

Lemma footprint_block a mps w p : p ∈ mps -> p ∈ footprint a mps w.
Proof. intros. right. apply elem_of_app. by left. Qed.

Lemma footprint_node a mps w p : p ∈ rl_nodes (valid_blk_list w) -> p ∈ footprint a mps w.
Proof. intros. right. apply elem_of_app. by right. Qed.

Lemma dm_footprint_live F a vm mps bs es w l :
  dev_mem F a vm mps bs es w -> l ∈ footprint a mps w -> is_Some (heap w !! l).
Proof.
  intros [? Ha ? Hmd [_ Hel] _ _ _ _]. unfold footprint. rewrite elem_of_cons, elem_of_app.
  intros [->|[Hl|Hl]]; [eauto| |].
  - apply list_elem_of_lookup in Hl as [i Hi].
    destruct (Forall2_lookup_l _ _ _ _ _ Hmd Hi) as (b & _ & Hb). eauto.
  - destruct (elems_at_elem_of _ _ _ _ Hel Hl) as (e & _ & He). eauto.
Qed.

Lemma dm_frame_lookup F a vm mps bs es w l o :
  dev_mem F a vm mps bs es w -> F !! l = Some o ->
  heap w !! l = Some o /\ l ∉ footprint a mps w.
Proof.
  intros H Hl. assert (l ∉ footprint a mps w) as Hni.
  { intros Hin. apply (dm_owned _ _ _ _ _ _ _ H) in Hin. congruence. }
  split; [|done]. by rewrite (dm_frame _ _ _ _ _ _ _ H).
Qed.

(** A change of the heap at [l], outside the device. *)
Lemma dev_mem_change F F' a vm mps bs es w w' l :
  dev_mem F a vm mps bs es w -> l ∉ footprint a mps w ->
  metadata_array w' = metadata_array w -> valid_blk_list w' = valid_blk_list w ->
  (forall k, k <> l -> heap w' !! k = heap w !! k) -> (forall k, k <> l -> F' !! k = F !! k) ->
  heap w' !! l = F' !! l ->
  (brk w <= brk w')%positive -> (heap w' !! l <> None -> (l < brk w')%positive) ->
  dev_mem F' a vm mps bs es w'.
Proof.
  intros [Harr Ha Hvm Hmd [Hnd Hel] Hndm Hown Hfr Hfresh] Hl Ea El Eh EF EFl Eb Hbrk.
  assert (Hne : forall k, k ∈ footprint a mps w -> k <> l) by (intros k ? ->; done).
  unfold footprint in Hne. setoid_rewrite elem_of_cons in Hne. setoid_rewrite elem_of_app in Hne.
  split; unfold footprint, list_holds in *; rewrite ?El; auto.
  - congruence.
  - rewrite Eh; [done|]. apply Hne. by left.
  - apply (Forall2_impl_in _ _ _ _ Hmd). intros p b Hp _ Hb. rewrite Eh; [done|].
    apply Hne. auto.
  - split; [done|]. apply (Forall2_impl_in _ _ _ _ Hel). intros p e Hp _ He. rewrite Eh; [done|].
    apply Hne. auto.
  - intros k Hk. rewrite EF; [by apply Hown|]. intros ->. done.
  - intros k Hk. destruct (decide (k = l)) as [->|]; [done|]. rewrite Eh, EF by done. by apply Hfr.
  - intros k Hk. destruct (decide (k = l)) as [->|Hkl].
    + destruct (heap w' !! l) eqn:E; [|done]. assert (l < brk w')%positive by (by apply Hbrk). lia.
    + rewrite Eh by done. apply Hfresh. lia.
Qed.

Lemma dev_inv_at_ext F s a vm mps bs es w w' :
  dev_inv_at F s a vm mps bs es w ->
  heap w' = heap w -> valid_blk_list w' = valid_blk_list w -> bufs w' = bufs w ->
  bldms_mounted w' = bldms_mounted w -> metadata_array w' = metadata_array w ->
  md_array_size w' = md_array_size w -> last_written_block w' = last_written_block w ->
  (brk w <= brk w')%positive ->
  dev_inv_at F s a vm mps bs es w'.
Proof.
  intros [[] Hlog [] Hwf] Eh El Eb Em Ea Es Elw Ebrk.
  split; [split|..|split|done]; unfold list_holds, footprint in *;
    rewrite ?Eh, ?El, ?Eb, ?Em, ?Ea, ?Es, ?Elw; auto.
  intros l Hl. apply dm_fresh0. lia.
Qed.

Lemma dev_inv_es_ext F s es w w' :
  dev_inv_es F s es w ->
  heap w' = heap w -> valid_blk_list w' = valid_blk_list w -> bufs w' = bufs w ->
  bldms_mounted w' = bldms_mounted w -> metadata_array w' = metadata_array w ->
  md_array_size w' = md_array_size w -> last_written_block w' = last_written_block w ->
  (brk w <= brk w')%positive ->
  dev_inv_es F s es w'.
Proof. intros (a & vm & mps & bs & H) **. exists a, vm, mps, bs. by eapply dev_inv_at_ext. Qed.

Lemma dev_inv_ext F w w' s :
  dev_inv F w s ->
  heap w' = heap w -> valid_blk_list w' = valid_blk_list w -> bufs w' = bufs w ->
  bldms_mounted w' = bldms_mounted w -> metadata_array w' = metadata_array w ->
  md_array_size w' = md_array_size w -> last_written_block w' = last_written_block w ->
  (brk w <= brk w')%positive ->
  dev_inv F w' s.
Proof.
  intros (a & vm & mps & bs & es & H) **. exists a, vm, mps, bs, es. by eapply dev_inv_at_ext.
Qed.

Lemma dev_inv_eq F F' w s s' : dev_inv F w s -> F = F' -> s = s' -> dev_inv F' w s'.
Proof. by intros ? <- <-. Qed.

Lemma dev_inv_same_state F w w' s : same_state w w' -> dev_inv F w s -> dev_inv F w' s.
Proof. intros H Hi. unfold same_state in H. destruct_and!. by eapply dev_inv_ext. Qed.

Lemma dev_inv_brk F w s : dev_inv F w s -> heap w !! brk w = None /\ F !! brk w = None.
Proof.
  intros (a & vm & mps & bs & es & [Hm _ _ _]).
  assert (heap w !! brk w = None) as Hb by (apply (dm_fresh _ _ _ _ _ _ _ Hm); lia).
  split; [done|]. destruct (F !! brk w) eqn:E; [|done].
  eapply dm_frame_lookup in E as [? _]; [|done]. congruence.
Qed.

Lemma dev_inv_es_inv F s es w : dev_inv_es F s es w -> dev_inv F w s.
Proof. intros (a & vm & mps & bs & H). by exists a, vm, mps, bs, es. Qed.

Lemma dev_inv_inv_es F s w : dev_inv F w s -> exists es, dev_inv_es F s es w.
Proof. intros (a & vm & mps & bs & es & H). by exists es, a, vm, mps, bs. Qed.

Lemma dev_inv_es_alloc F w s es o :
  dev_inv_es F s es w -> dev_inv_es (<[brk w := o]> F) s es (alloc o (tick w)).
Proof.
  intros Hi. destruct (dev_inv_brk _ _ _ (dev_inv_es_inv _ _ _ _ Hi)) as [Hb HF].
  destruct Hi as (a & vm & mps & bs & [Hm Hlog Hg Hwf]).
  exists a, vm, mps, bs. split; [|done|by destruct Hg|done].
  eapply (dev_mem_change F _ _ _ _ _ _ w _ (brk w)); simpl; try done.
  - intros Hin. eapply dm_footprint_live in Hin as [? ?]; [|done]. congruence.
  - intros k Hk. by apply lookup_insert_ne.
  - intros k Hk. by apply lookup_insert_ne.
  - by rewrite !lookup_insert_eq.
  - lia.
  - lia.
Qed.

Lemma dev_inv_es_store F w s es l o o' :
  F !! l = Some o -> dev_inv_es F s es w ->
  dev_inv_es (<[l := o']> F) s es (set_heap (<[l := o']> (heap w)) w).
Proof.
  intros HF (a & vm & mps & bs & [Hm Hlog Hg Hwf]).
  destruct (dm_frame_lookup _ _ _ _ _ _ _ _ _ Hm HF) as [Hh Hni].
  exists a, vm, mps, bs. split; [|done|by destruct Hg|done].
  eapply (dev_mem_change F _ _ _ _ _ _ w _ l); simpl; try done.
  - intros k Hk. by apply lookup_insert_ne.
  - intros k Hk. by apply lookup_insert_ne.
  - by rewrite !lookup_insert_eq.
  - intros _. destruct (decide (l < brk w)%positive); [done|].
    rewrite (dm_fresh _ _ _ _ _ _ _ Hm l) in Hh by lia. done.
Qed.

Lemma dev_inv_es_delete F w s es l o :
  F !! l = Some o -> dev_inv_es F s es w ->
  dev_inv_es (delete l F) s es (set_heap (delete l (heap w)) w).
Proof.
  intros HF (a & vm & mps & bs & [Hm Hlog Hg Hwf]).
  destruct (dm_frame_lookup _ _ _ _ _ _ _ _ _ Hm HF) as [Hh Hni].
  exists a, vm, mps, bs. split; [|done|by destruct Hg|done].
  eapply (dev_mem_change F _ _ _ _ _ _ w _ l); simpl; try done.
  - intros k Hk. by apply lookup_delete_ne.
  - intros k Hk. by apply lookup_delete_ne.
  - by rewrite !lookup_delete_eq.
  - by rewrite lookup_delete_eq.
Qed.

Lemma dev_inv_alloc F w s o :
  dev_inv F w s -> dev_inv (<[brk w := o]> F) (alloc o (tick w)) s.
Proof. intros [es H]%dev_inv_inv_es. by eapply dev_inv_es_inv, dev_inv_es_alloc. Qed.

Lemma dev_inv_store F w s l o o' :
  F !! l = Some o -> dev_inv F w s ->
  dev_inv (<[l := o']> F) (set_heap (<[l := o']> (heap w)) w) s.
Proof. intros HF [es H]%dev_inv_inv_es. by eapply dev_inv_es_inv, dev_inv_es_store. Qed.

Lemma dev_inv_delete F w s l o :
  F !! l = Some o -> dev_inv F w s ->
  dev_inv (delete l F) (set_heap (delete l (heap w)) w) s.
Proof. intros HF [es H]%dev_inv_inv_es. by eapply dev_inv_es_inv, dev_inv_es_delete. Qed.

Lemma dev_inv_lookup F w s l o : dev_inv F w s -> F !! l = Some o -> heap w !! l = Some o.
Proof.
  intros (a & vm & mps & bs & es & [Hm _ _ _]) HF.
  by destruct (dm_frame_lookup _ _ _ _ _ _ _ _ _ Hm HF).
Qed.

Lemma dev_inv_cap F w s : dev_inv F w s -> Z.of_nat (s_cap s) <= NBLOCKS < 2 ^ 19.
Proof.
  intros (a & vm & mps & bs & es & [_ _ Hg _]). pose proof NBLOCKS_range.
  rewrite (dg_cap _ _ _ Hg). pose proof (dg_bound _ _ _ Hg). lia.
Qed.

Lemma dev_inv_wf F w s : dev_inv F w s -> store_wf s.
Proof. by intros (a & vm & mps & bs & es & [_ _ _ Hwf]). Qed.

Lemma dev_inv_sync `{!KernelLaws K} F w s n :
  dev_inv F w s -> dev_inv F (set_bufs (sync_dirty n (bufs w)) w) s.
Proof.
  intros (a & vm & mps & bs & es & [[] [Hb] [] Hwf]).
  exists a, vm, mps, bs, es. split; [done|..|split|done]; simpl in *; try done.
  - split; [|done|done]. intros i b Hi. destruct (Hb i b Hi) as [? (blk & ? & ?)].
    split; [done|]. exists blk. by rewrite b_data_sync.
  - intros i. rewrite dg_msgs0. unfold msg_at. by rewrite b_data_sync.
Qed.
End Device.

#[export] Hint Resolve footprint_array footprint_block footprint_node : bldms.
