(* ===== verification/Sample.v ===== *)
(** * A concrete mounted device

    Four blocks: the second holds the message [hi] and the first the later message
    [yo].  The reference kernel on this device is the instance on which the
    theorems about the driver are witnessed. *)
From S2P Require Import Prelude Layout Kernel KernelFacts Rcu Store Device.

Definition sample_config : Config.
Proof. refine {| NBLOCKS := 1000; SYNCHRONOUS_PUT_DATA := true |}. lia. Defined.

Definition sample_data : list byte := [Byte.x68; Byte.x69].
Definition later_data : list byte := [Byte.x79; Byte.x6f].

(** The blocks of the device, their metadata and the elements of the list. *)
Definition sample_blk : list byte := encode_block (Blk 100 1 2) ++ sample_data ++ zeros 4084.
Definition later_blk : list byte := encode_block (Blk 200 1 2) ++ later_data ++ zeros 4084.
Definition sample_mds : list bldms_block := [Blk 200 1 2; Blk 100 1 2; Blk 0 0 0; Blk 0 0 0].
Definition sample_elem : rcu_elem := Elem 1 100 2.
Definition later_elem : rcu_elem := Elem 0 200 2.

Definition sample_store : mstore :=
  MStore 4 0 (<[0%nat := Msg 200 later_data]> {[ 1%nat := Msg 100 sample_data ]}).

Definition sample_heap : gmap loc obj :=
  <[1%positive := OArr false (Some <$> [2; 3; 4; 5]%positive)]>
    (<[2%positive := OBlk (Blk 200 1 2)]> (<[3%positive := OBlk (Blk 100 1 2)]>
      (<[4%positive := OBlk (Blk 0 0 0)]> (<[5%positive := OBlk (Blk 0 0 0)]>
        (<[6%positive := OElem sample_elem]> (<[7%positive := OElem later_elem]> ∅)))))).

Section Sample.
Variables (kz br : nat -> bool) (now : nat -> Z).
#[local] Existing Instance sample_config.
#[local] Instance sample_kernel : Kernel := ref_kernel kz br now.

Definition sample_image : list (list byte) :=
  [zeros 4096; zeros 4096; later_blk; sample_blk; zeros 4096; zeros 4096].

(** [F] is memory that is not the device's. *)
Definition sample_world_with (sb : option super_block) (F : gmap loc obj) : world := {|
  calls := 0; brk := 100; heap := sample_heap ∪ F; rcu_write_lock := false; rcu_readers := 0;
  bh_refs := 0; valid_blk_list := RefList [6%positive; 7%positive] ∅ : rlist;
  bufs := ref_cache_of sample_image : bcache; bldms_mounted := 1;
  metadata_array := Some 1%positive; md_array_size := 4; last_written_block := 0;
  the_dev_superblock := sb; module_refs := 0
|}.
Definition sample_world : world := sample_world_with (Some (SB MAGIC true)) ∅.

Lemma sample_block_reps c i b :
  c = (ref_cache_of sample_image : bcache) -> sample_mds !! i = Some b -> block_rep c i b.
Proof.
  intros -> Hb. destruct i as [|[|[|[|i]]]]; simpl in Hb; simplify_eq;
    (split; [by unfold block_wf, BLK_VALID, BLK_INVALID; simpl; lia|]);
    [exists later_blk|exists sample_blk|exists (zeros 4096)|exists (zeros 4096)];
    (split_and!; [by vm_compute|by vm_compute|by vm_compute|]);
    unfold DEFAULT_BLOCK_SIZE, METADATA_SIZE; simpl; (done || lia).
Qed.

Lemma sample_inv_es sb F :
  (forall l, (l < 8)%positive -> F !! l = None) -> (forall l, (100 <= l)%positive -> F !! l = None) ->
  dev_inv_es F sample_store [sample_elem; later_elem] (sample_world_with sb F).
Proof.
  intros Hlo Hhi. exists 1%positive, false, [2; 3; 4; 5]%positive, sample_mds.
  assert (Hfoot : forall l, l ∈ footprint 1 [2; 3; 4; 5]%positive (sample_world_with sb F) <->
    is_Some (sample_heap !! l)).
  { intros l. rewrite <- elem_of_dom. unfold footprint, sample_heap. rewrite !dom_insert_L, dom_empty_L.
    simpl. set_solver. }
  assert (Hlt : forall l, is_Some (sample_heap !! l) -> (l < 8)%positive).
  { intros l. rewrite <- elem_of_dom. unfold sample_heap. rewrite !dom_insert_L, dom_empty_L.
    rewrite !elem_of_union, !elem_of_singleton, elem_of_empty. lia. }
  assert (Hin : forall l o, sample_heap !! l = Some o -> (sample_heap ∪ F) !! l = Some o)
    by (intros; by apply lookup_union_Some_l).
  split; [split|split|split|].
  - done.
  - by apply Hin.
  - done.
  - simpl. repeat constructor; by apply Hin.
  - split; simpl; [by apply NoDup_ListNoDup; repeat constructor; simpl; intuition congruence|].
    repeat constructor; by apply Hin.
  - apply NoDup_ListNoDup. repeat constructor; simpl; intuition congruence.
  - intros l Hl. apply Hlo, Hlt, Hfoot, Hl.
  - intros l Hl. simpl. rewrite lookup_union_r; [done|].
    rewrite Hfoot in Hl. by apply eq_None_not_Some.
  - intros l Hl. simpl in *. apply lookup_union_None. split; [|by apply Hhi].
    apply eq_None_not_Some. intros Hs%Hlt. lia.
  - intros i b. by apply sample_block_reps.
  - simpl. apply Permutation_swap.
  - unfold time_sorted, older_eq. repeat constructor; simpl; lia.
  - done.
  - done.
  - done.
  - simpl. lia.
  - done.
  - intros i. destruct i as [|[|[|[|i]]]]; [by vm_compute..|]. simpl.
    by rewrite lookup_insert_ne, lookup_singleton_ne by lia.
  - split; [|right; simpl; lia]. intros i m Hm. simpl in *.
    apply lookup_insert_Some in Hm as [[<- _]|[_ [<- _]%lookup_singleton_Some]]; lia.
Qed.

Lemma sample_inv sb F :
  (forall l, (l < 8)%positive -> F !! l = None) -> (forall l, (100 <= l)%positive -> F !! l = None) ->
  dev_inv F (sample_world_with sb F) sample_store.
Proof. intros. by eapply dev_inv_es_inv, sample_inv_es. Qed.
End Sample.

(** ** The kernels of the witnesses *)

Definition always (_ : nat) : bool := true.
Definition never (_ : nat) : bool := false.

(** Every call succeeds; no block can be read. *)
Definition good_kernel : Kernel := sample_kernel always always Z.of_nat.
Definition no_disk_kernel : Kernel := sample_kernel always never Z.of_nat.

#[export] Instance good_kernel_laws : KernelLaws good_kernel := ref_kernel_laws _ _ _.
#[export] Instance no_disk_kernel_laws : KernelLaws no_disk_kernel := ref_kernel_laws _ _ _.

Definition good_world : @world good_kernel := sample_world always always Z.of_nat.
Definition no_disk_world : @world no_disk_kernel := sample_world always never Z.of_nat.

Lemma good_world_inv : @dev_inv good_kernel sample_config ∅ good_world sample_store.
Proof. by apply sample_inv. Qed.

Lemma no_disk_world_inv : @dev_inv no_disk_kernel sample_config ∅ no_disk_world sample_store.
Proof. by apply sample_inv. Qed.

(** No call of this kernel fails. *)
Lemma always_true : ~ exists n, always n = false.
Proof. by intros [n Hn]. Qed.

Lemma always_allocates n : @kzalloc_ok good_kernel n = true.
Proof. done. Qed.
Lemma always_reads n : @bread_ok good_kernel n = true.
Proof. done. Qed.

(** ** Witnesses of the theorems about the list *)

Lemma good_world_list : @list_holds good_kernel good_world [sample_elem; later_elem].
Proof.
  split; [by apply NoDup_ListNoDup; repeat constructor; simpl; intuition congruence|].
  by repeat constructor.
Qed.

(** A new element, whose timestamp lies between those of the list. *)
Definition elem_world : @world good_kernel :=
  set_heap (<[9%positive := OElem (Elem 0 0 0)]> (heap good_world)) good_world.

Lemma in_order_insertion_keeps_order_witness :
  wp (K := good_kernel) (add_valid_block_in_order_secure (Some 9%positive) 2 5 150)
    (fun _ w' => list_holds w' [sample_elem; Elem 2 150 5; later_elem]) elem_world.
Proof.
  eapply wp_mono.
  - apply (in_order_insertion_keeps_order elem_world 9%positive (Elem 0 0 0)
      [sample_elem; later_elem] 2 5 150).
    + split; [by apply NoDup_ListNoDup; repeat constructor; simpl; intuition congruence|].
      by repeat constructor.
    + unfold time_sorted, older_eq. repeat constructor; simpl; lia.
    + done.
    + apply not_elem_of_cons; split; [done|]. apply not_elem_of_cons; split; [done|].
      apply not_elem_of_nil.
  - intros _ w' (es' & Hl & _ & ->). exact Hl.
Defined.

Lemma remove_valid_block_spec_witness :
  wp (K := good_kernel) (remove_valid_block 0)
    (fun r w' => r = 0 /\ list_holds w' [sample_elem]) good_world.
Proof.
  eapply wp_mono.
  - apply (remove_valid_block_spec good_world [sample_elem; later_elem] 0);
      [exact good_world_list|done|done].
  - intros r w' (_ & [(_ & Hn & _)|(-> & es1 & e & es2 & p & Hes & He & Hn & _ & _ & Hl)]).
    + destruct Hn. right. by left.
    + split; [done|]. destruct es1 as [|x es1]; [by injection Hes as <- _|].
      destruct es1 as [|y es1]; [injection Hes as <- _ <-; exact Hl|].
      by destruct es1.
Defined.

Lemma remove_all_entries_use_after_free_witness :
  exists p ps, rl_nodes (Kernel := good_kernel) (valid_blk_list good_world) = p :: ps /\
    remove_all_entries_secure good_world = Fault (BadAccess p).
Proof.
  apply (remove_all_entries_use_after_free good_world [sample_elem; later_elem]);
    [exact good_world_list|done|done].
Defined.

(** ** A reader of the sample device *)

(** The memory of a session that has just been opened. *)
Definition reader_frame : gmap loc obj := {[ 50%positive := OTime 0 ]}.
Definition reader_world : @world good_kernel :=
  sample_world_with always always Z.of_nat (Some (SB MAGIC true)) reader_frame.

Lemma reader_world_inv :
  @dev_inv_es good_kernel sample_config reader_frame sample_store [sample_elem; later_elem] reader_world.
Proof.
  apply sample_inv_es; intros l Hl; unfold reader_frame; apply lookup_singleton_ne; lia.
Qed.
