(* ===== verification/Syscalls.v ===== *)
(** * The system calls (syscalls.c)

    put_data(), get_data() and invalidate_data().  Each is cut where another
    thread can run: the part before the critical section, the critical section
    and what follows it. *)
From S2P Require Import Prelude Layout Kernel KernelFacts Rcu Store Device.

Section Syscalls.
Context {K : Kernel} {C : Config}.

(** ** put_data() *)

(** What put_data() has prepared when it enters its critical section. *)
Record put_args := PutArgs {
  pa_sb : option super_block;
  pa_buffer : option loc;
  pa_new_elem : option loc;
  pa_new_metadata : option loc
}.

(** Lines 66-129: the checks, the allocations, the copy of the message and the
    metadata of the block. *)
Definition put_prepare (source : list byte) (size : Z) : M (Z + put_args) :=
  let* mounted := gets bldms_mounted in
  if mounted =? 0 then ret (inl (- ENODEV)) else
  if DEFAULT_BLOCK_SIZE - METADATA_SIZE <? size then ret (inl (- E2BIG)) else
  let* sb := gets the_dev_superblock in
  match sb with
  | None => ret (inl (- EINVAL))
  | Some _ =>
    let* buffer := kzalloc (OBuf (zeros (Z.to_nat DEFAULT_BLOCK_SIZE))) in
    if decide (buffer = None) then ret (inl (- EADDRNOTAVAIL)) else
    let* copied := copy_from_user buffer METADATA_SIZE source size in
    if negb (copied =? 0) then kfree buffer ;;; ret (inl (- EMSGSIZE)) else
    let* new_elem := kzalloc (OElem (Elem 0 0 0)) in
    if decide (new_elem = None) then kfree buffer ;;; ret (inl (- EADDRNOTAVAIL)) else
    let* new_metadata := kzalloc (OBlk (Blk 0 0 0)) in
    if decide (new_metadata = None)
    then kfree buffer ;;; kfree new_elem ;;; ret (inl (- EADDRNOTAVAIL)) else
    let* now := ktime_get_real in
    let* md := load_blk new_metadata in
    store new_metadata (OBlk (set_nsec now md)) ;;;
    let* md := load_blk new_metadata in
    store new_metadata (OBlk (set_valid_bytes size md)) ;;;
    let* md := load_blk new_metadata in
    store new_metadata (OBlk (set_is_valid BLK_VALID md)) ;;;
    let* md := load_blk new_metadata in
    let* bs := load_buf buffer in
    store buffer (OBuf (splice 0 (encode_block md) bs)) ;;;
    ret (inr (PutArgs sb buffer new_elem new_metadata))
  end.

(** Lines 138-150: the index of the first free block, circularly from the block
    following the last written one; -1 if there is none. *)
Fixpoint find_free (fuel : nat) (i : Z) : M Z :=
  match fuel with
  | O => fail NoFuel
  | S fuel' =>
    let* n := gets md_array_size in
    if negb (u64 i <=? n) then ret (-1) else
    let* last := gets last_written_block in
    let curr_blk := s32 (u32 (last + i) mod n) in
    let* p := md_slot curr_blk in
    let* md := load_blk p in
    if is_valid md =? BLK_INVALID then ret curr_blk else find_free fuel' (s32 (i + 1))
  end.

(** The outcome of the critical section: the error path (with the value of
    [old_metadata]) or the target block, its buffer and its old metadata. *)
Inductive put_outcome :=
  | PutError (err : Z) (old_metadata : option loc)
  | PutDone (target_block : Z) (bh : option Z) (old_metadata : option loc).

(** Lines 137-182 (on success the lock is released, on error it is still held). *)
Definition put_critical (a : put_args) : M put_outcome :=
  spin_lock ;;;
  let* n := gets md_array_size in
  let* target_block := find_free (S (Z.to_nat n)) 1 in
  if target_block <? 0 then ret (PutError (- ENOMEM) None) else
  let* old_metadata := md_slot target_block in
  let* bh := sb_bread (pa_sb a) (target_block + NUM_METADATA_BLKS) in
  if decide (bh = None) then ret (PutError (-1) old_metadata) else
  let* buf := load_buf (pa_buffer a) in
  bh_write bh buf ;;;
  mark_buffer_dirty bh ;;;
  let* md := load_blk (pa_new_metadata a) in
  add_valid_block_in_order_secure (pa_new_elem a) target_block (valid_bytes md) (nsec md) ;;;
  set_md_slot target_block (pa_new_metadata a) ;;;
  modify (set_last_written_block (u32 target_block)) ;;;
  spin_unlock ;;;
  ret (PutDone target_block bh old_metadata).

(** Lines 184-193. *)
Definition put_finish (a : put_args) (target_block : Z) (bh : option Z) (old : option loc) : M Z :=
  (if SYNCHRONOUS_PUT_DATA then sync_dirty_buffer bh else ret tt) ;;;
  brelse bh ;;;
  kfree (pa_buffer a) ;;;
  kfree old ;;;
  ret (s32 target_block).

(** Lines 195-205, the label [error]. *)
Definition put_error (a : put_args) (err : Z) (old : option loc) : M Z :=
  spin_unlock ;;;
  kfree (pa_new_elem a) ;;;
  kfree (pa_buffer a) ;;;
  kfree (pa_new_metadata a) ;;;
  (if decide (old = None) then ret tt else kfree old) ;;;
  ret err.

Definition put_data (source : list byte) (size : Z) : M Z :=
  let* r := put_prepare source size in
  match r with
  | inl err => ret err
  | inr a =>
    let* o := put_critical a in
    match o with
    | PutError err old => put_error a err old
    | PutDone b bh old => put_finish a b bh old
    end
  end.

(** ** get_data() *)

(** Lines 226-263: the checks and the search in the RCU list, entering the
    read-side critical section; the superblock and [bytes_to_copy]. *)
Definition get_find (offset : Z) : M (Z + (option super_block * Z)) :=
  let* mounted := gets bldms_mounted in
  if mounted =? 0 then ret (inl (- ENODEV)) else
  let* n := gets md_array_size in
  if n <=? u64 offset then ret (inl (- E2BIG)) else
  let* sb := gets the_dev_superblock in
  match sb with
  | None => ret (inl (- EINVAL))
  | Some _ =>
    rcu_read_lock ;;;
    let* el := find_in_list (fun e => ndx e =? u32 offset) in
    match el with
    | None => rcu_read_unlock ;;; ret (inl (- ENODATA))
    | Some _ => let* e := load_elem el in ret (inr (sb, s32 (el_valid_bytes e)))
    end
  end.

(** Lines 265-285: reading the block and copying it, up to the end of the
    read-side critical section. *)
Definition get_copy (offset : Z) (cap : nat) (size : Z) (sb : option super_block)
    (bytes_to_copy : Z) : M (Z * list byte) :=
  let target_block := u32 (offset + NUM_METADATA_BLKS) in
  let* bh := sb_bread sb target_block in
  if decide (bh = None) then rcu_read_unlock ;;; ret (-1, []) else
  let bytes := if u64 bytes_to_copy <? size then bytes_to_copy else s32 size in
  let* d := bh_data bh in
  let* cu := copy_to_user cap d METADATA_SIZE (u64 bytes) in
  brelse bh ;;;
  rcu_read_unlock ;;;
  ret (s64 (u64 (bytes - cu.1)), cu.2).

(** The result and the bytes written to the destination, of which [cap] are
    writable. *)
Definition get_data (offset : Z) (cap : nat) (size : Z) : M (Z * list byte) :=
  let* r := get_find offset in
  match r with
  | inl err => ret (err, [])
  | inr (sb, bytes_to_copy) => get_copy offset cap size sb bytes_to_copy
  end.

(** ** invalidate_data() *)

(** Lines 307-361: up to the release of the lock; the removed element and the
    buffer of its block. *)
Definition invalidate_critical (offset : Z) : M (Z + (option loc * option Z)) :=
  let* mounted := gets bldms_mounted in
  if mounted =? 0 then ret (inl (- ENODEV)) else
  let* n := gets md_array_size in
  if n <=? u64 offset then ret (inl (- E2BIG)) else
  let target_block := u32 (offset + NUM_METADATA_BLKS) in
  let* sb := gets the_dev_superblock in
  spin_lock ;;;
  let* el := find_in_list (fun e => ndx e =? u32 offset) in
  match el with
  | None => spin_unlock ;;; ret (inl (- ENODATA))
  | Some _ =>
    let* bh := sb_bread sb target_block in
    if decide (bh = None) then spin_unlock ;;; ret (inl (-1)) else
    on_node list_del_rcu el ;;;
    let* e := load_elem el in
    let* p := md_slot (ndx e) in
    let* md := load_blk p in
    store p (OBlk (set_is_valid BLK_INVALID md)) ;;;
    let* e := load_elem el in
    let* p := md_slot (ndx e) in
    let* md := load_blk p in
    bh_write bh (encode_block md) ;;;
    mark_buffer_dirty bh ;;;
    spin_unlock ;;;
    ret (inr (el, bh))
  end.

(** Lines 366-376: after the grace period. *)
Definition invalidate_free (el : option loc) (bh : option Z) : M Z :=
  (if SYNCHRONOUS_PUT_DATA then sync_dirty_buffer bh else ret tt) ;;;
  brelse bh ;;;
  kfree el ;;;
  ret 0.

(** Lines 364-376. *)
Definition invalidate_finish (el : option loc) (bh : option Z) : M Z :=
  synchronize_rcu ;;;
  invalidate_free el bh.

Definition invalidate_data (offset : Z) : M Z :=
  let* r := invalidate_critical offset in
  match r with
  | inl err => ret err
  | inr (el, bh) => invalidate_finish el bh
  end.
End Syscalls.
