(* ===== verification/DeviceOps.v ===== *)
(** * Updates of the mounted device

    The two changes a writer makes inside its critical section, a free block
    becoming valid and a valid block becoming free, as transitions of the
    representation [dev_inv_at]; and the search for a free block. *)
From S2P Require Import Prelude Layout Kernel KernelFacts Rcu Store Device Syscalls.

Section DeviceOps.
Context {K : Kernel} {KL : KernelLaws K} {C : Config}.
Implicit Types (F : gmap loc obj) (w : world) (s : mstore) (a l p : loc).

(** ** Disjointness of the memory of the device *)

Lemma dm_array_not_block F a vm mps bs es w : dev_mem F a vm mps bs es w -> a ∉ mps.
Proof.
  intros H [i Hi]%list_elem_of_lookup.
  destruct (Forall2_lookup_l _ _ _ _ _ (dm_blocks _ _ _ _ _ _ _ H) Hi) as (b & _ & Hb).
  pose proof (dm_heap_array _ _ _ _ _ _ _ H). congruence.
Qed.

Lemma dm_array_not_node F a vm mps bs es w :
  dev_mem F a vm mps bs es w -> a ∉ rl_nodes (valid_blk_list w).
Proof.
  intros H Hin. destruct (dm_list _ _ _ _ _ _ _ H) as [_ Hel].
  destruct (elems_at_elem_of _ _ _ _ Hel Hin) as (e & _ & He).
  pose proof (dm_heap_array _ _ _ _ _ _ _ H). congruence.
Qed.

Lemma dm_block_not_node F a vm mps bs es w p :
  dev_mem F a vm mps bs es w -> p ∈ mps -> p ∉ rl_nodes (valid_blk_list w).
Proof.
  intros H [i Hi]%list_elem_of_lookup Hin. destruct (dm_list _ _ _ _ _ _ _ H) as [_ Hel].
  destruct (elems_at_elem_of _ _ _ _ Hel Hin) as (e & _ & He).
  destruct (Forall2_lookup_l _ _ _ _ _ (dm_blocks _ _ _ _ _ _ _ H) Hi) as (b & _ & Hb).
  congruence.
Qed.

Lemma dm_block_lookup F a vm mps bs es w i b :
  dev_mem F a vm mps bs es w -> bs !! i = Some b ->
  exists p, mps !! i = Some p /\ heap w !! p = Some (OBlk b).
Proof.
  intros H Hi.
  destruct (Forall2_lookup_r _ _ _ _ _ (dm_blocks _ _ _ _ _ _ _ H) Hi) as (p & Hp & Hb). eauto.
Qed.

Lemma dm_length F a vm mps bs es w : dev_mem F a vm mps bs es w -> length mps = length bs.
Proof. intros H. by eapply Forall2_length, dm_blocks. Qed.

(** ** Free blocks *)

Lemma msg_at_valid c bs i b :
  (forall i b, bs !! i = Some b -> block_rep c i b) -> bs !! i = Some b ->
  (msg_at c bs i = None <-> is_valid b = BLK_INVALID).
Proof.
  intros Hrep Hi. destruct (Hrep i b Hi) as ((_ & Hv & _) & blk & Hblk & _).
  unfold msg_at, msg_of. rewrite Hi, Hblk.
  unfold BLK_VALID, BLK_INVALID in *. destruct (is_valid b =? 0 + 1) eqn:E; reflect_bools.
  - split; [done|lia].
  - split; [lia|done].
Qed.

Lemma probe_index n last j :
  (n <> 0)%nat -> (last < n)%nat -> (j <= n)%nat -> Z.of_nat n < 2 ^ 19 ->
  s32 (u32 (Z.of_nat last + Z.of_nat j) mod Z.of_nat n) = Z.of_nat ((last + j) mod n).
Proof.
  intros Hn Hl Hj Hb. rewrite u32_small by lia. rewrite <- Nat2Z.inj_add, <- Nat2Z.inj_mod.
  apply s32_small. assert ((last + j) mod n < n)%nat by (by apply Nat.mod_upper_bound). lia.
Qed.

Lemma probes_drop n last j :
  (j < n)%nat ->
  drop j (probes n last) = ((last + S j) mod n)%nat :: drop (S j) (probes n last).
Proof.
  intros Hj. unfold probes. rewrite <- !fmap_drop. rewrite !drop_seq.
  replace (n - j)%nat with (S (n - S j)) by lia. simpl. f_equal.
Qed.

Lemma wp_find_free_from F s a vm mps bs es w j fuel Q :
  dev_inv_at F s a vm mps bs es w -> (j <= length bs)%nat -> (length bs - j < fuel)%nat ->
  Q (match head (filter (fun i => s_msgs s !! i = None) (drop j (probes (length bs) (s_last s)))) with
     | Some b => Z.of_nat b | None => -1 end) w ->
  wp (find_free fuel (Z.of_nat (S j))) Q w.
Proof.
  intros Hi. destruct Hi as [Hm Hlog Hg [_ Hlast]].
  pose proof NBLOCKS_range as HNB. pose proof (dg_bound _ _ _ Hg) as Hbound.
  rewrite (dg_cap _ _ _ Hg) in Hlast.
  revert j. induction fuel as [|fuel IH]; intros j Hj Hf HQ; [lia|]. simpl.
  wp_run. rewrite (dg_size _ _ _ Hg), u64_small by lia.
  destruct (Z.of_nat (S j) <=? Z.of_nat (length bs)) eqn:Hle; reflect_bools; simpl.
  2: { wp_step. rewrite drop_ge in HQ by (unfold probes; rewrite length_fmap, length_seq; lia).
       done. }
  assert (Hn : length bs <> O) by lia. assert (Hll : (s_last s < length bs)%nat) by lia.
  wp_run. rewrite (dg_last _ _ _ Hg Hn), probe_index by lia.
  rewrite probes_drop in HQ by lia.
  set (k := ((s_last s + S j) mod length bs)%nat) in *.
  assert (Hk : (k < length bs)%nat) by (by apply Nat.mod_upper_bound).
  destruct (lookup_lt_is_Some_2 bs k Hk) as [b Hb].
  destruct (dm_block_lookup _ _ _ _ _ _ _ _ _ Hm Hb) as (p & Hp & Hpb).
  eapply wp_md_slot; [apply (dm_array _ _ _ _ _ _ _ Hm)|apply (dm_heap_array _ _ _ _ _ _ _ Hm)| |].
  { by rewrite list_lookup_fmap, Hp. }
  wp_run.
  pose proof (msg_at_valid _ _ _ _ (dl_blocks _ _ _ Hlog) Hb) as Hfree.
  rewrite <- (dg_msgs _ _ _ Hg) in Hfree.
  destruct (is_valid b =? BLK_INVALID) eqn:Hv; reflect_bools.
  - wp_step. rewrite filter_cons_True in HQ by (by apply Hfree). done.
  - rewrite filter_cons_False in HQ by (by rewrite Hfree).
    rewrite s32_small by lia. replace (Z.of_nat (S j) + 1) with (Z.of_nat (S (S j))) by lia.
    apply IH; [lia|lia|done].
Qed.

(** The search of put_data() finds the next free slot of the store. *)
Lemma wp_find_free F s a vm mps bs es w Q :
  dev_inv_at F s a vm mps bs es w ->
  Q (match next_free s with Some b => Z.of_nat b | None => -1 end) w ->
  wp (find_free (S (Z.to_nat (md_array_size w))) 1) Q w.
Proof.
  intros Hi HQ. pose proof (di_globals _ _ _ _ _ _ _ _ Hi) as Hg.
  rewrite (dg_size _ _ _ Hg), Nat2Z.id. unfold next_free in HQ. rewrite (dg_cap _ _ _ Hg) in HQ.
  apply (wp_find_free_from F s a vm mps bs es w 0 _ Q Hi); [lia|lia|]. by rewrite drop_0.
Qed.

(** ** A free block becomes valid *)

Lemma dev_mem_put F a vm mps bs es w w' i oldp oldb el e0 md nb e es' ps1 ps2 es1 es2 :
  dev_mem F a vm mps bs es w ->
  F !! el = Some (OElem e0) -> F !! md = Some (OBlk nb) ->
  mps !! i = Some oldp -> bs !! i = Some oldb ->
  rl_nodes (valid_blk_list w) = ps1 ++ ps2 -> es = es1 ++ es2 -> length ps1 = length es1 ->
  es' = es1 ++ e :: es2 -> rl_nodes (valid_blk_list w') = ps1 ++ el :: ps2 ->
  metadata_array w' = metadata_array w -> brk w' = brk w ->
  heap w' = <[a := OArr vm (<[i := Some md]> (Some <$> mps))]> (<[el := OElem e]> (heap w)) ->
  dev_mem (<[oldp := OBlk oldb]> (delete el (delete md F))) a vm
    (<[i := md]> mps) (<[i := nb]> bs) es' w'.
Proof.
  intros Hm Hel Hmd Hp Hb Hps Hes Hlen Hes' Hps' Ea Eb Eh.
  pose proof (dm_frame_lookup _ _ _ _ _ _ _ _ _ Hm Hel) as [Hel_h Hel_f].
  pose proof (dm_frame_lookup _ _ _ _ _ _ _ _ _ Hm Hmd) as [Hmd_h Hmd_f].
  pose proof (dm_array_not_block _ _ _ _ _ _ _ Hm) as Ha_m.
  pose proof (dm_array_not_node _ _ _ _ _ _ _ Hm) as Ha_n.
  pose proof (fun p => dm_block_not_node _ _ _ _ _ _ _ p Hm) as Hm_n.
  pose proof (list_elem_of_lookup_2 _ _ _ Hp) as Hp_m.
  destruct Hm as [Harr Hha Hvm Hblk [Hnd Hels] Hndm Hown Hfr Hfresh].
  unfold footprint in *. rewrite Hps in *.
  assert (el <> md) by (intros ->; congruence).
  assert (oldp <> el /\ oldp <> md /\ a <> el /\ a <> md) by (set_solver).
  destruct_and!. subst es es'.
  apply elems_at_app in Hels as [Hels1 Hels2]; [|done].
  assert (Hpoldb : heap w !! oldp = Some (OBlk oldb))
    by (by apply (Forall2_lookup_lr _ _ _ _ _ _ Hblk Hp)).
  split; unfold footprint, list_holds; rewrite ?Hps', ?Eb; try congruence.
  - rewrite Eh, lookup_insert_eq, list_fmap_insert. done.
  - by rewrite length_insert.
  - assert (Hblk' : Forall2 (fun p b => heap w' !! p = Some (OBlk b)) mps bs).
    { apply (Forall2_impl_in _ _ _ _ Hblk). intros p b Hin _ Hpb. rewrite Eh.
      rewrite !lookup_insert_ne; [done| |]; intros <-; set_solver. }
    apply Forall2_insert; [done|]. rewrite Eh, !lookup_insert_ne; auto.
  - split; [rewrite <- Permutation_middle; apply NoDup_cons; split; set_solver|].
    rewrite Eh. apply Forall2_app; [|constructor].
    2: { rewrite lookup_insert_ne by done. apply lookup_insert_eq. }
    all: do 2 (apply elems_at_insert; [set_solver|]); done.
  - eapply NoDup_replace; [done..|set_solver].
  - intros l. rewrite elem_of_cons, elem_of_app, (elem_of_replace _ _ _ _ _ Hndm Hp), elem_of_app,
      elem_of_cons. intros Hl.
    assert (Hne : oldp <> l).
    { intros <-. destruct Hl as [->|[[->|[_ ?]]|[Hl|[->|Hl]]]]; try done;
        apply (Hm_n oldp); set_solver. }
    rewrite lookup_insert_ne by done.
    destruct (decide (l = el)) as [->|]; [by rewrite lookup_delete_eq|].
    rewrite lookup_delete_ne by done.
    destruct (decide (l = md)) as [->|]; [by rewrite lookup_delete_eq|].
    rewrite lookup_delete_ne by done. apply Hown. set_solver.
  - intros l. rewrite elem_of_cons, elem_of_app, (elem_of_replace _ _ _ _ _ Hndm Hp), elem_of_app,
      elem_of_cons. intros Hl.
    assert (l <> a /\ l <> md /\ l <> el) as (? & ? & ?) by (split_and!; intros ->; tauto).
    rewrite Eh, !lookup_insert_ne by done.
    destruct (decide (l = oldp)) as [->|]; [by rewrite lookup_insert_eq|].
    rewrite lookup_insert_ne, !lookup_delete_ne by done. apply Hfr. set_solver.
  - intros l Hl. assert (Hn : heap w !! l = None) by (by apply Hfresh).
    rewrite Eh, !lookup_insert_ne; [done| |]; intros <-; congruence.
Qed.

(** The blocks after block [i] has been rewritten as [blk] with metadata [nb]. *)
Lemma block_rep_write bs c c' i nb blk :
  (forall j b, bs !! j = Some b -> block_rep c j b) -> (i < length bs)%nat ->
  block_wf nb -> b_data c' (Z.of_nat i + NUM_METADATA_BLKS) = Some blk ->
  length blk = 4096%nat -> take 10 blk = encode_block nb ->
  (is_valid nb = BLK_VALID -> valid_bytes nb <= DEFAULT_BLOCK_SIZE - METADATA_SIZE) ->
  (forall m, m <> Z.of_nat i + NUM_METADATA_BLKS -> b_data c' m = b_data c m) ->
  forall j b, <[i := nb]> bs !! j = Some b -> block_rep c' j b.
Proof.
  intros Hrep Hi Hwf Hblk Hlen Htk Hvb Hne j b Hj.
  apply list_lookup_insert_Some in Hj as [(-> & -> & _)|[Hij Hj]].
  - split; [done|]. eauto.
  - destruct (Hrep j b Hj) as [? (blk' & ? & ?)]. split; [done|]. exists blk'.
    rewrite Hne by lia. done.
Qed.

Lemma msg_at_write bs c c' i nb blk j :
  (i < length bs)%nat -> b_data c' (Z.of_nat i + NUM_METADATA_BLKS) = Some blk ->
  (forall m, m <> Z.of_nat i + NUM_METADATA_BLKS -> b_data c' m = b_data c m) ->
  msg_at c' (<[i := nb]> bs) j = if decide (i = j) then msg_of nb blk else msg_at c bs j.
Proof.
  intros Hi Hblk Hne. unfold msg_at. case_decide as Hij.
  - subst j. by rewrite list_lookup_insert_eq, Hblk by done.
  - rewrite list_lookup_insert_ne by done. by rewrite Hne by lia.
Qed.

Lemma dev_log_put bs es c c' i oldb nb blk :
  dev_log bs es c -> bs !! i = Some oldb -> is_valid oldb = BLK_INVALID ->
  is_valid nb = BLK_VALID -> block_wf nb ->
  valid_bytes nb <= DEFAULT_BLOCK_SIZE - METADATA_SIZE ->
  b_data c' (Z.of_nat i + NUM_METADATA_BLKS) = Some blk -> length blk = 4096%nat ->
  take 10 blk = encode_block nb ->
  (forall m, m <> Z.of_nat i + NUM_METADATA_BLKS -> b_data c' m = b_data c m) ->
  dev_log (<[i := nb]> bs) (insert_in_order (elem_of_block i nb) es) c'.
Proof.
  intros [Hrep Hperm Hs] Hi Hold Hnew Hwf Hvb Hblk Hlen Htk Hne.
  assert (Hlt : (i < length bs)%nat) by (by eapply lookup_lt_Some). split.
  - by eapply block_rep_write.
  - rewrite insert_in_order_perm, Hperm. symmetry.
    apply valid_from_validate with oldb; [done| |done]. rewrite Hold. done.
  - by apply insert_in_order_sorted_aux.
Qed.

Lemma dev_globals_put bs s w w' i nb blk m :
  dev_globals bs s w -> (i < length bs)%nat ->
  b_data (bufs w') (Z.of_nat i + NUM_METADATA_BLKS) = Some blk -> msg_of nb blk = Some m ->
  (forall n, n <> Z.of_nat i + NUM_METADATA_BLKS -> b_data (bufs w') n = b_data (bufs w) n) ->
  bldms_mounted w' = bldms_mounted w -> md_array_size w' = md_array_size w ->
  last_written_block w' = Z.of_nat i ->
  dev_globals (<[i := nb]> bs) (MStore (s_cap s) i (<[i := m]> (s_msgs s))) w'.
Proof.
  intros [Hm Hsz Hcap Hb Hl Hmsg] Hi Hblk Hmo Hne Em Es El.
  split; simpl; rewrite ?length_insert; try congruence.
  intros j. rewrite (msg_at_write _ (bufs w) _ _ _ blk) by done. rewrite lookup_insert.
  case_decide; [done|]. apply Hmsg.
Qed.

(** Writing message [nb], whose block is [blk], in the free slot [i]. *)
Lemma dev_inv_put F s a vm mps bs es w w' i oldp oldb el e0 md nb blk ps1 ps2 es1 es2 :
  dev_inv_at F s a vm mps bs es w ->
  F !! el = Some (OElem e0) -> F !! md = Some (OBlk nb) ->
  mps !! i = Some oldp -> bs !! i = Some oldb -> is_valid oldb = BLK_INVALID ->
  is_valid nb = BLK_VALID -> block_wf nb ->
  valid_bytes nb <= DEFAULT_BLOCK_SIZE - METADATA_SIZE ->
  length blk = 4096%nat -> take 10 blk = encode_block nb ->
  rl_nodes (valid_blk_list w) = ps1 ++ ps2 -> es = es1 ++ es2 -> length ps1 = length es1 ->
  insert_in_order (elem_of_block i nb) es = es1 ++ elem_of_block i nb :: es2 ->
  rl_nodes (valid_blk_list w') = ps1 ++ el :: ps2 ->
  metadata_array w' = metadata_array w -> brk w' = brk w ->
  bldms_mounted w' = bldms_mounted w -> md_array_size w' = md_array_size w ->
  last_written_block w' = Z.of_nat i ->
  heap w' = <[a := OArr vm (<[i := Some md]> (Some <$> mps))]>
              (<[el := OElem (elem_of_block i nb)]> (heap w)) ->
  b_data (bufs w') (Z.of_nat i + NUM_METADATA_BLKS) = Some blk ->
  (forall m, m <> Z.of_nat i + NUM_METADATA_BLKS -> b_data (bufs w') m = b_data (bufs w) m) ->
  dev_inv (<[oldp := OBlk oldb]> (delete el (delete md F))) w'
    (MStore (s_cap s) i
       (<[i := Msg (nsec nb) (take (Z.to_nat (valid_bytes nb)) (payload blk))]> (s_msgs s))).
Proof.
  intros [Hm Hlog Hg [Hwf _]] Hel Hmd Hp Hb Hold Hnew Hnb Hvb Hlen Htk Hps Hes Hl Hins Hps'
    Ea Ebrk Em Es Elast Eh Hblk Hne.
  assert (Hi : (i < length bs)%nat) by (by eapply lookup_lt_Some).
  assert (Hmo : msg_of nb blk = Some (Msg (nsec nb) (take (Z.to_nat (valid_bytes nb)) (payload blk))))
    by (unfold msg_of; by rewrite Hnew).
  exists a, vm, (<[i := md]> mps), (<[i := nb]> bs), (insert_in_order (elem_of_block i nb) es).
  split.
  - by eapply dev_mem_put.
  - by eapply dev_log_put.
  - by eapply dev_globals_put.
  - rewrite <- (dg_cap _ _ _ Hg) in Hi. split; simpl; [|auto].
    intros j m [[<- _]|[_ ?]]%lookup_insert_Some; eauto.
Qed.

(** ** A valid block becomes free *)

Lemma dev_mem_invalidate F a vm mps bs es w w' i p b b' el e ps1 ps2 es1 es2 :
  dev_mem F a vm mps bs es w ->
  mps !! i = Some p -> bs !! i = Some b -> heap w !! el = Some (OElem e) ->
  rl_nodes (valid_blk_list w) = ps1 ++ el :: ps2 -> es = es1 ++ e :: es2 ->
  length ps1 = length es1 -> rl_nodes (valid_blk_list w') = ps1 ++ ps2 ->
  metadata_array w' = metadata_array w -> brk w' = brk w ->
  heap w' = <[p := OBlk b']> (heap w) ->
  dev_mem (<[el := OElem e]> F) a vm mps (<[i := b']> bs) (es1 ++ es2) w'.
Proof.
  intros Hm Hp Hb Hel Hps Hes Hlen Hps' Ea Eb Eh.
  pose proof (dm_array_not_block _ _ _ _ _ _ _ Hm) as Ha_m.
  pose proof (dm_array_not_node _ _ _ _ _ _ _ Hm) as Ha_n.
  pose proof (fun p => dm_block_not_node _ _ _ _ _ _ _ p Hm) as Hm_n.
  pose proof (list_elem_of_lookup_2 _ _ _ Hp) as Hp_m.
  destruct Hm as [Harr Hha Hvm Hblk [Hnd Hels] Hndm Hown Hfr Hfresh].
  unfold footprint in *. rewrite Hps in *. subst es.
  apply NoDup_mid in Hnd as (Hn1 & Hn2 & Hnd').
  assert (Hap : a <> p) by (intros ->; done).
  assert (Hpn : p ∉ ps1 ++ el :: ps2) by auto.
  assert (Hela : el <> a) by (intros ->; set_solver).
  assert (Helm : el ∉ mps) by (intros Hin; apply (Hm_n _ Hin); set_solver).
  split; unfold footprint, list_holds; rewrite ?Hps', ?Eb; try congruence.
  - by rewrite Eh, lookup_insert_ne by done.
  - by rewrite length_insert.
  - apply Forall2_lookup. intros j. destruct (decide (i = j)) as [<-|Hij].
    + rewrite Hp, list_lookup_insert_eq by (by eapply lookup_lt_Some).
      constructor. by rewrite Eh, lookup_insert_eq.
    + rewrite list_lookup_insert_ne by done. rewrite Forall2_lookup in Hblk.
      pose proof (Hblk j) as Hj. destruct (mps !! j) as [q|] eqn:Hq; inversion Hj; constructor.
      rewrite Eh, lookup_insert_ne; [done|]. intros <-. by destruct Hij; eapply NoDup_lookup.
  - split; [done|]. rewrite Eh. apply elems_at_insert; [set_solver|]. by eapply elems_at_drop.
  - intros l Hl. assert (l <> el) by (intros ->; set_solver).
    rewrite lookup_insert_ne by done. apply Hown. set_solver.
  - intros l Hl. assert (Hlp : l <> p) by (intros ->; set_solver).
    rewrite Eh, lookup_insert_ne by done. destruct (decide (l = el)) as [->|Hlel].
    + by rewrite lookup_insert_eq.
    + rewrite lookup_insert_ne by done. apply Hfr. set_solver.
  - intros l Hl. assert (Hn : heap w !! l = None) by (by apply Hfresh).
    rewrite Eh, lookup_insert_ne; [done|]. intros <-.
    rewrite (Forall2_lookup_lr _ _ _ _ _ _ Hblk Hp Hb) in Hn. done.
Qed.

Lemma dev_log_invalidate bs es1 es2 c c' i b b' blk :
  dev_log bs (es1 ++ elem_of_block i b :: es2) c -> bs !! i = Some b ->
  is_valid b = BLK_VALID -> is_valid b' = BLK_INVALID -> block_wf b' ->
  b_data c' (Z.of_nat i + NUM_METADATA_BLKS) = Some blk -> length blk = 4096%nat ->
  take 10 blk = encode_block b' ->
  (forall m, m <> Z.of_nat i + NUM_METADATA_BLKS -> b_data c' m = b_data c m) ->
  dev_log (<[i := b']> bs) (es1 ++ es2) c'.
Proof.
  intros [Hrep Hperm Hs] Hi Hb Hb' Hwf Hblk Hlen Htk Hne.
  assert (Hlt : (i < length bs)%nat) by (by eapply lookup_lt_Some). split.
  - eapply block_rep_write; try done. by rewrite Hb'.
  - rewrite (valid_from_invalidate bs i b b') in Hperm by (rewrite ?Hb'; done).
    rewrite <- Permutation_middle in Hperm. by apply Permutation.Permutation_cons_inv in Hperm.
  - unfold time_sorted in *. apply StronglySorted_app in Hs as (Hc & Hs1 & Hs2).
    apply StronglySorted_cons in Hs2 as [_ Hs2].
    apply StronglySorted_app_2; [|done|done]. intros x y Hx Hy. apply Hc; set_solver.
Qed.

Lemma dev_globals_invalidate bs s w w' i b' blk :
  dev_globals bs s w -> (i < length bs)%nat ->
  b_data (bufs w') (Z.of_nat i + NUM_METADATA_BLKS) = Some blk -> msg_of b' blk = None ->
  (forall n, n <> Z.of_nat i + NUM_METADATA_BLKS -> b_data (bufs w') n = b_data (bufs w) n) ->
  bldms_mounted w' = bldms_mounted w -> md_array_size w' = md_array_size w ->
  last_written_block w' = last_written_block w ->
  dev_globals (<[i := b']> bs) (MStore (s_cap s) (s_last s) (delete i (s_msgs s))) w'.
Proof.
  intros [Hm Hsz Hcap Hb Hl Hmsg] Hi Hblk Hmo Hne Em Es El.
  split; simpl; rewrite ?length_insert; try congruence.
  { intros Hn. rewrite El. by apply Hl. }
  intros j. rewrite (msg_at_write _ (bufs w) _ _ _ blk) by done. rewrite lookup_delete.
  case_decide; [done|]. apply Hmsg.
Qed.
(** Marking the valid block [i] invalid, with its buffer rewritten as [blk], and
    taking its element off the list: the element leaves the device. *)
Lemma dev_inv_invalidate F s a vm mps bs es1 es2 w w' i p b el ps1 ps2 blk :
  let b' := set_is_valid BLK_INVALID b in
  dev_inv_at F s a vm mps bs (es1 ++ elem_of_block i b :: es2) w ->
  mps !! i = Some p -> bs !! i = Some b -> is_valid b = BLK_VALID ->
  heap w !! el = Some (OElem (elem_of_block i b)) ->
  rl_nodes (valid_blk_list w) = ps1 ++ el :: ps2 -> length ps1 = length es1 ->
  rl_nodes (valid_blk_list w') = ps1 ++ ps2 ->
  metadata_array w' = metadata_array w -> brk w' = brk w ->
  bldms_mounted w' = bldms_mounted w -> md_array_size w' = md_array_size w ->
  last_written_block w' = last_written_block w ->
  heap w' = <[p := OBlk b']> (heap w) ->
  b_data (bufs w') (Z.of_nat i + NUM_METADATA_BLKS) = Some blk -> length blk = 4096%nat ->
  take 10 blk = encode_block b' ->
  (forall m, m <> Z.of_nat i + NUM_METADATA_BLKS -> b_data (bufs w') m = b_data (bufs w) m) ->
  dev_inv (<[el := OElem (elem_of_block i b)]> F) w' (s_invalidate (Z.of_nat i) s).2.
Proof.
  intros b' [Hm Hlog Hg Hwf] Hp Hb Hv Hel Hps Hlen Hps' Ea Ebrk Em Es Elast Eh Hblk Hbl Htk Hne.
  assert (Hi : (i < length bs)%nat) by (by eapply lookup_lt_Some).
  assert (Hmsg : s_msgs s !! i <> None).
  { rewrite (dg_msgs _ _ _ Hg), (msg_at_valid (bufs w) bs i b) by (done || apply Hlog).
    by rewrite Hv. }
  pose proof (s_invalidate_wf (Z.of_nat i) s Hwf) as Hwf''.
  rewrite s_invalidate_in in * by (rewrite (dg_cap _ _ _ Hg); lia).
  destruct (s_msgs s !! i) as [m|] eqn:Hmi; [|done]. simpl.
  assert (Hmo : msg_of b' blk = None) by done.
  assert (Hwf' : block_wf b').
  { destruct (dl_blocks _ _ _ Hlog i b Hb) as [(? & _ & ?) _].
    unfold block_wf, b', set_is_valid; simpl. split_and!; auto; lia. }
  exists a, vm, mps, (<[i := b']> bs), (es1 ++ es2). split; [| | |done].
  - by eapply dev_mem_invalidate.
  - by eapply dev_log_invalidate.
  - by eapply dev_globals_invalidate.
Qed.

(** ** Looking a block up in the list *)

(** An element of the list is that of a valid block, whose message the store holds. *)
Lemma dev_elem F s a vm mps bs es w e :
  dev_inv_at F s a vm mps bs es w -> e ∈ es ->
  exists i b blk, e = elem_of_block i b /\ bs !! i = Some b /\ (i < s_cap s)%nat /\
    b_data (bufs w) (Z.of_nat i + NUM_METADATA_BLKS) = Some blk /\ length blk = 4096%nat /\
    0 <= valid_bytes b <= 4086 /\
    s_msgs s !! i = Some (Msg (nsec b) (take (Z.to_nat (valid_bytes b)) (payload blk))).
Proof.
  intros [Hm Hlog Hg _] He. rewrite (dl_elems _ _ _ Hlog) in He.
  apply elem_of_valid_from in He as (i & b & Hb & Hv & ->).
  destruct (dl_blocks _ _ _ Hlog i b Hb) as ((_ & _ & ?) & blk & Hblk & Hlen & _ & Hvb).
  specialize (Hvb Hv). unfold DEFAULT_BLOCK_SIZE, METADATA_SIZE in Hvb.
  exists i, b, blk. split_and!; try done; try lia.
  - rewrite (dg_cap _ _ _ Hg). by eapply lookup_lt_Some.
  - rewrite (dg_msgs _ _ _ Hg). unfold msg_at, msg_of. by rewrite Hb, Hblk, Hv.
Qed.

(** The element of a message. *)
Lemma dev_slot_elem F s a vm mps bs es w i m :
  dev_inv_at F s a vm mps bs es w -> s_msgs s !! i = Some m ->
  exists b, bs !! i = Some b /\ elem_of_block i b ∈ es.
Proof.
  intros [_ Hlog Hg _] Hm. rewrite (dg_msgs _ _ _ Hg) in Hm. unfold msg_at, msg_of in Hm.
  destruct (bs !! i) as [b|] eqn:Hb; [|done]. destruct (b_data (bufs w) _); [|done].
  destruct (is_valid b =? BLK_VALID) eqn:Hv; [|done]. apply Z.eqb_eq in Hv.
  exists b. split; [done|]. rewrite (dl_elems _ _ _ Hlog). apply elem_of_valid_from. by exists i, b.
Qed.

(** The scan of get_data() and invalidate_data() stops on the element of the
    requested block exactly when the store holds a message in that slot. *)
Lemma wp_find_block F s a vm mps bs es w i Q :
  dev_inv_at F s a vm mps bs es w ->
  (s_msgs s !! i = None -> Q None w) ->
  (forall b blk ps1 el ps2 es1 es2, bs !! i = Some b -> is_valid b = BLK_VALID ->
     block_rep (bufs w) i b -> b_data (bufs w) (Z.of_nat i + NUM_METADATA_BLKS) = Some blk ->
     s_msgs s !! i = Some (Msg (nsec b) (take (Z.to_nat (valid_bytes b)) (payload blk))) ->
     rl_nodes (valid_blk_list w) = ps1 ++ el :: ps2 -> es = es1 ++ elem_of_block i b :: es2 ->
     length ps1 = length es1 -> heap w !! el = Some (OElem (elem_of_block i b)) ->
     Q (Some el) w) ->
  wp (find_in_list (fun e => ndx e =? Z.of_nat i)) Q w.
Proof.
  intros [Hm Hlog Hg _] HN HS. destruct (dm_list _ _ _ _ _ _ _ Hm) as [Hnd Hel].
  assert (Hin : forall e, e ∈ es -> exists j b, bs !! j = Some b /\ is_valid b = BLK_VALID /\
    e = elem_of_block j b).
  { intros e He. rewrite (dl_elems _ _ _ Hlog) in He.
    apply elem_of_valid_from in He as (j & b & ? & ? & ->). eauto. }
  eapply wp_find_in_list; [exact Hel| |].
  - intros Hall%not_in_ndx. apply HN. rewrite (dg_msgs _ _ _ Hg).
    destruct (bs !! i) as [b|] eqn:Hb; [|unfold msg_at; by rewrite Hb].
    apply (msg_at_valid (bufs w) bs i b); [apply Hlog|done|].
    destruct (dl_blocks _ _ _ Hlog i b Hb) as [(_ & [Hv|Hv] & _) _]; [done|].
    destruct Hall. apply list_elem_of_fmap. exists (elem_of_block i b). split; [done|].
    rewrite (dl_elems _ _ _ Hlog). apply elem_of_valid_from. exists i, b. done.
  - intros ps1 el ps2 es1 e es2 Hps Hes Hlen He Ht _. apply Z.eqb_eq in Ht.
    destruct (Hin e) as (j & b & Hb & Hv & ->); [rewrite Hes; set_solver|].
    simpl in Ht. apply Nat2Z.inj in Ht as ->.
    pose proof (dl_blocks _ _ _ Hlog i b Hb) as Hrep.
    destruct (Hrep) as (_ & blk & Hblk & _).
    eapply (HS b blk); try done. rewrite (dg_msgs _ _ _ Hg). unfold msg_at, msg_of.
    by rewrite Hb, Hblk, Hv.
Qed.
End DeviceOps.
