(* ===== verification/DeviceWp.v ===== *)
(** * Running code on a mounted device

    Rules for the steps of the driver that work on memory outside the device
    (buffers, new elements, session data): they change the frame [F] of
    [dev_inv F w s] and nothing else. *)
From S2P Require Import Prelude Layout Kernel KernelFacts Rcu Store Device.

Section DeviceWp.
Context {K : Kernel} {KL : KernelLaws K} {C : Config}.
Implicit Types (F : gmap loc obj) (w : world) (s : mstore) (l : loc).

(** What such steps leave alone besides the device. *)
Definition same_ctl (w w' : world) : Prop :=
  rcu_write_lock w' = rcu_write_lock w /\ rcu_readers w' = rcu_readers w /\
  bh_refs w' = bh_refs w /\ bufs w' = bufs w /\ valid_blk_list w' = valid_blk_list w /\
  the_dev_superblock w' = the_dev_superblock w /\ module_refs w' = module_refs w.

(** The elements of the RCU list are immutable: no step writes one that is linked. *)
Definition same_nodes (w w' : world) : Prop :=
  forall p, p ∈ rl_nodes (valid_blk_list w) -> heap w' !! p = heap w !! p.

(** Block [n] is given the contents [d] in its buffer, which may then be flushed. *)
Definition rewritten (n : Z) (d : list byte) (c : bcache) : bcache := mark_dirty n (b_store n d c).
Definition flushed (n : Z) (c : bcache) : bcache := if SYNCHRONOUS_PUT_DATA then sync_dirty n c else c.

(** The buffers after a system call: at most one block of messages was written. *)
Definition after_call (c c' : bcache) : Prop :=
  c' = c \/ exists (i : nat) d, let n := Z.of_nat i + NUM_METADATA_BLKS in c' = flushed n (rewritten n d c).

(** What is on the medium of block [m] after block [n] is rewritten, and after it is
    flushed; its buffer is either there already or marked. *)
Definition pending (c : bcache) (m : Z) : Prop := b_dirty c m \/ on_disk c m = b_data c m.

Lemma on_disk_rewritten n m d c :
  on_disk (rewritten n d c) m = on_disk c m \/ on_disk (rewritten n d c) m = b_data c m \/
  on_disk (rewritten n d c) m = b_data (rewritten n d c) m.
Proof.
  unfold rewritten. rewrite b_data_mark.
  destruct (on_disk_mark n m (b_store n d c)) as [->|]; [apply on_disk_store|auto].
Qed.

Lemma b_data_rewritten n m d c : n <> m -> b_data (rewritten n d c) m = b_data c m.
Proof. intros. unfold rewritten. by rewrite b_data_mark, b_data_store_ne. Qed.

Lemma pending_rewritten n d c : pending (rewritten n d c) n.
Proof. unfold pending, rewritten. rewrite b_data_mark. apply b_dirty_mark. Qed.

Lemma agrees_rewritten n m d c :
  n <> m -> on_disk c m = b_data c m -> on_disk (rewritten n d c) m = b_data (rewritten n d c) m.
Proof.
  intros Hne Hm. rewrite b_data_rewritten by done.
  destruct (on_disk_rewritten n m d c) as [->|[->| ->]]; rewrite ?b_data_rewritten by done; done.
Qed.

Lemma pending_rewritten_ne n m d c : n <> m -> pending c m -> pending (rewritten n d c) m.
Proof.
  intros Hne [Hd|Hm]; [|right; by apply agrees_rewritten].
  assert (Hst : forall c', on_disk c' m = b_data c m -> b_data c' m = b_data c m ->
    pending (mark_dirty n c') m).
  { intros c' H1 H2. right. rewrite b_data_mark, H2.
    destruct (on_disk_mark n m c') as [->| ->]; congruence. }
  unfold rewritten. pose proof (b_data_store_ne n m d c Hne) as Hb.
  destruct (b_dirty_store_ne n m d c Hne Hd) as [Hd'|?]; [|by apply Hst].
  destruct (b_dirty_mark_ne n m _ Hne Hd') as [?|Hm]; [by left|right]. by rewrite b_data_mark.
Qed.

Lemma b_data_flushed n m c : b_data (flushed n c) m = b_data c m.
Proof. unfold flushed. destruct SYNCHRONOUS_PUT_DATA; [apply b_data_sync|done]. Qed.

Lemma on_disk_flushed n m c :
  on_disk (flushed n c) m = on_disk c m \/ on_disk (flushed n c) m = b_data c m.
Proof. unfold flushed. destruct SYNCHRONOUS_PUT_DATA; [apply on_disk_sync|by left]. Qed.

Lemma agrees_flushed n m c :
  on_disk c m = b_data c m -> on_disk (flushed n c) m = b_data (flushed n c) m.
Proof. intros Hm. rewrite b_data_flushed. destruct (on_disk_flushed n m c) as [->| ->]; done. Qed.

(** After the flush the buffer is on the medium. *)
Lemma flushed_written n c : pending c n -> on_disk (sync_dirty n c) n = b_data c n.
Proof.
  intros [Hd|Hm]; [by apply sync_dirty_written|]. by destruct (on_disk_sync n n c) as [->| ->].
Qed.

Lemma pending_flushed n m c : pending c m -> pending (flushed n c) m.
Proof.
  intros [Hd|Hm]; [|right; by apply agrees_flushed]. unfold pending. rewrite b_data_flushed.
  unfold flushed. destruct SYNCHRONOUS_PUT_DATA; [|by left].
  destruct (decide (n = m)) as [<-|Hne]; [right; by apply sync_dirty_written|by apply b_dirty_sync_ne].
Qed.

(** The device represents [s] with frame [F], and the rest is as in [w0]. *)
Definition dev_at (w0 : world) (F : gmap loc obj) (s : mstore) (w : world) : Prop :=
  dev_inv F w s /\ same_ctl w0 w /\ same_nodes w0 w.

#[export] Instance same_ctl_refl : Reflexive same_ctl.
Proof. by intros w. Qed.

#[export] Instance same_ctl_trans : Transitive same_ctl.
Proof.
  intros w1 w2 w3 H1 H2. unfold same_ctl in *. destruct_and!. split_and!; congruence.
Qed.

Lemma same_nodes_trans w1 w2 w3 :
  same_nodes w1 w2 -> valid_blk_list w2 = valid_blk_list w1 -> same_nodes w2 w3 -> same_nodes w1 w3.
Proof. intros H1 Hl H2 p Hp. rewrite H2 by (by rewrite Hl). auto. Qed.

Lemma dev_at_refl F w s : dev_inv F w s -> dev_at w F s w.
Proof. by split. Qed.

(** A step that changes the heap only outside the nodes. *)
Lemma dev_at_step w0 F F' w w' s :
  dev_at w0 F s w -> dev_inv F' w' s -> same_ctl w w' -> same_nodes w w' -> dev_at w0 F' s w'.
Proof.
  intros (_ & Hc & Hn) Hi Hc' Hn'. split_and!; [done|by etrans|].
  unfold same_ctl in Hc. destruct_and!. by eapply same_nodes_trans.
Qed.

Lemma same_nodes_change F w w' s l :
  dev_inv F w s -> l = brk w \/ (exists o, F !! l = Some o) ->
  (forall p, p <> l -> heap w' !! p = heap w !! p) -> same_nodes w w'.
Proof.
  intros Hi Hl Hh p Hp. apply Hh. intros ->.
  destruct (Hi) as (a & vm & mps & bs & es & [Hm _ _ _]).
  apply (footprint_node a mps) in Hp.
  destruct Hl as [->|[o Ho]]; [|by eapply dm_frame_lookup in Ho as [_ ?]].
  destruct (dm_footprint_live _ _ _ _ _ _ _ _ Hm Hp) as [o Ho].
  destruct (dev_inv_brk _ _ _ Hi). congruence.
Qed.

Lemma dev_at_frame w0 F F' s w : dev_at w0 F' s w -> F' = F -> dev_at w0 F s w.
Proof. by intros ? <-. Qed.

Lemma dwp_kzalloc w0 F w s o Q :
  dev_at w0 F s w ->
  (forall l w', F !! l = None -> dev_at w0 (<[l := o]> F) s w' -> Q (Some l) w') ->
  (forall w', (exists n, kzalloc_ok n = false) -> dev_at w0 F s w' -> Q None w') ->
  wp (kzalloc o) Q w.
Proof.
  intros Hd HS HN. pose proof Hd as (Hi & _ & _). apply wp_kzalloc.
  - apply HS; [by eapply dev_inv_brk|].
    eapply dev_at_step; [exact Hd|by apply dev_inv_alloc|done|].
    eapply same_nodes_change; [exact Hi|by left|]. intros p Hp. by apply lookup_insert_ne.
  - intros Hn. apply HN; [done|]. eapply dev_at_step; [exact Hd|by apply (dev_inv_ext F w)|done..].
Qed.

Lemma dwp_store w0 F w s l o o' Q :
  dev_at w0 F s w -> F !! l = Some o ->
  (forall w', dev_at w0 (<[l := o']> F) s w' -> Q tt w') -> wp (store (Some l) o') Q w.
Proof.
  intros Hd Hl HQ. pose proof Hd as (Hi & _ & _). eapply wp_store; [by eapply dev_inv_lookup|].
  apply HQ. eapply dev_at_step; [exact Hd|by eapply dev_inv_store|done|].
  eapply same_nodes_change; [exact Hi|by right; exists o|]. intros p Hp. by apply lookup_insert_ne.
Qed.

Lemma dwp_load_blk w0 F w s l b Q :
  dev_at w0 F s w -> F !! l = Some (OBlk b) -> Q b w -> wp (load_blk (Some l)) Q w.
Proof. intros [Hi _] Hl HQ. eapply wp_load_blk; [by eapply dev_inv_lookup|done]. Qed.

Lemma dwp_load_elem w0 F w s l e Q :
  dev_at w0 F s w -> F !! l = Some (OElem e) -> Q e w -> wp (load_elem (Some l)) Q w.
Proof. intros [Hi _] Hl HQ. eapply wp_load_elem; [by eapply dev_inv_lookup|done]. Qed.

Lemma dwp_load_buf w0 F w s l bs Q :
  dev_at w0 F s w -> F !! l = Some (OBuf bs) -> Q bs w -> wp (load_buf (Some l)) Q w.
Proof. intros [Hi _] Hl HQ. eapply wp_load_buf; [by eapply dev_inv_lookup|done]. Qed.

Lemma dwp_load_time w0 F w s l t Q :
  dev_at w0 F s w -> F !! l = Some (OTime t) -> Q t w -> wp (load_time (Some l)) Q w.
Proof. intros [Hi _] Hl HQ. eapply wp_load_time; [by eapply dev_inv_lookup|done]. Qed.

Lemma dwp_kfree w0 F w s l o Q :
  dev_at w0 F s w -> F !! l = Some o -> is_vmalloc o = false ->
  (forall w', dev_at w0 (delete l F) s w' -> Q tt w') -> wp (kfree (Some l)) Q w.
Proof.
  intros Hd Hl Hv HQ. pose proof Hd as (Hi & _ & _).
  eapply wp_kfree; [by eapply dev_inv_lookup|done|].
  apply HQ. eapply dev_at_step; [exact Hd|by eapply dev_inv_delete|done|].
  eapply same_nodes_change; [exact Hi|by right; exists o|]. intros p Hp. by apply lookup_delete_ne.
Qed.

Lemma dwp_ktime_get_real w0 F w s Q :
  dev_at w0 F s w ->
  (forall n w', dev_at w0 F s w' -> Q (clock n) w') -> wp ktime_get_real Q w.
Proof.
  intros Hd HQ. pose proof Hd as (Hi & _ & _). apply wp_ktime_get_real.
  apply HQ. eapply dev_at_step; [exact Hd|by apply (dev_inv_ext F w)|done..].
Qed.

Lemma dwp_copy_from_user w0 F w s l bs off src size Q :
  dev_at w0 F s w -> F !! l = Some (OBuf bs) -> off + size <= Z.of_nat (length bs) ->
  (forall w', dev_at w0
     (<[l := OBuf (splice (Z.to_nat off) (take (Z.to_nat size) src) bs)]> F) s w' ->
     Q (size - Z.of_nat (length (take (Z.to_nat size) src))) w') ->
  wp (copy_from_user (Some l) off src size) Q w.
Proof.
  intros Hd Hl Hb HQ. pose proof Hd as (Hi & _ & _).
  eapply wp_copy_from_user; [by eapply dev_inv_lookup|done|].
  apply HQ. eapply dev_at_step; [exact Hd|by eapply dev_inv_store|done|].
  eapply same_nodes_change; [exact Hi|by right; exists (OBuf bs)|].
  intros p Hp. by apply lookup_insert_ne.
Qed.

(** The lock, the reader count and the references are not part of the device. *)
Lemma dev_inv_set_lock F w s b : dev_inv F w s -> dev_inv F (set_lock b w) s.
Proof. intros. by apply (dev_inv_ext F w). Qed.
Lemma dev_inv_set_readers F w s n : dev_inv F w s -> dev_inv F (set_readers n w) s.
Proof. intros. by apply (dev_inv_ext F w). Qed.
Lemma dev_inv_set_bh_refs F w s n : dev_inv F w s -> dev_inv F (set_bh_refs n w) s.
Proof. intros. by apply (dev_inv_ext F w). Qed.
Lemma dev_inv_tick F w s : dev_inv F w s -> dev_inv F (tick w) s.
Proof. intros. by apply (dev_inv_ext F w). Qed.
End DeviceWp.

#[export] Hint Resolve dev_inv_set_lock dev_inv_set_readers dev_inv_set_bh_refs dev_inv_tick
  dev_at_refl : bldms.

(** Look-ups in the frame. *)
Ltac frame_lookup :=
  solve [ eassumption | apply lookup_insert_eq | by simplify_map_eq ].

(** One step on memory outside the device; the new state is again [dev_at]. *)
Ltac dwp_step :=
  lazymatch goal with
  | |- wp (bind _ _) _ _ => apply wp_bind
  | |- wp (ret _) _ _ => apply wp_ret
  | |- wp (store _ _) _ _ => eapply dwp_store; [eassumption|frame_lookup|]; intros ??
  | |- wp (load_blk _) _ _ => eapply dwp_load_blk; [eassumption|frame_lookup|]
  | |- wp (load_elem _) _ _ => eapply dwp_load_elem; [eassumption|frame_lookup|]
  | |- wp (load_buf _) _ _ => eapply dwp_load_buf; [eassumption|frame_lookup|]
  | |- wp (load_time _) _ _ => eapply dwp_load_time; [eassumption|frame_lookup|]
  | |- wp (kfree _) _ _ => eapply dwp_kfree; [eassumption|frame_lookup|reflexivity|]; intros ??
  end.
Ltac dwp_run := repeat (progress cbv beta || dwp_step).

(** Two frames built by insertions and deletions at different places. *)
Ltac frame_eq :=
  apply map_eq; intros ?k;
  repeat first [ rewrite lookup_insert | rewrite lookup_delete ];
  repeat case_decide; subst; congruence.
