(* ===== verification/PutData.v ===== *)
(** * put_data(): correctness

    put_data() implements [s_put] of the abstract store: it picks the next free
    slot, or fails with ENOMEM when there is none, in both cases without leaking
    or touching memory that is not the device's. *)
From S2P Require Import Prelude Layout Kernel KernelFacts Rcu Store Device Syscalls DeviceOps.
From S2P Require Import DeviceWp Sample.

Section PutData.
Context {K : Kernel} {KL : KernelLaws K} {C : Config}.
Implicit Types (F : gmap loc obj) (w : world) (s : mstore).

(** The block put_data() writes: metadata, message, zeros. *)
Definition put_block (t : Z) (size : Z) (source : list byte) : list byte :=
  encode_block (Blk t BLK_VALID size) ++ take (Z.to_nat size) source
    ++ zeros (Z.to_nat (DEFAULT_BLOCK_SIZE - METADATA_SIZE - size)).

(** The frame once everything has been prepared. *)
Definition put_frame (F : gmap loc obj) (buf el md : loc) (t size : Z) (source : list byte)
    : gmap loc obj :=
  <[md := OBlk (Blk t BLK_VALID size)]> (<[el := OElem (Elem 0 0 0)]>
    (<[buf := OBuf (put_block t size source)]> F)).

Lemma put_buffer t size source :
  0 <= size <= 4086 -> size <= Z.of_nat (length source) ->
  splice 0 (encode_block (Blk t BLK_VALID size))
    (splice 10 (take (Z.to_nat size) source) (zeros 4096)) = put_block t size source.
Proof.
  intros Hs Hl. unfold put_block. rewrite splice_0, length_encode_block. f_equal.
  unfold splice. rewrite drop_app_length'; [|by rewrite length_take, length_zeros].
  f_equal. unfold zeros. rewrite drop_replicate, length_take. f_equal.
  unfold DEFAULT_BLOCK_SIZE, METADATA_SIZE. lia.
Qed.

Lemma splice_full (new old : list byte) : length new = length old -> splice 0 new old = new.
Proof. intros Hl. rewrite splice_0, Hl, drop_all. apply app_nil_r. Qed.

Lemma take_payload_put_block t size source :
  0 <= size -> size <= Z.of_nat (length source) ->
  take (Z.to_nat size) (payload (put_block t size source)) = take (Z.to_nat size) source.
Proof.
  intros Hs Hl. unfold payload, put_block. rewrite drop_app_length' by (by rewrite length_encode_block).
  apply take_app_length'. rewrite length_take. lia.
Qed.

Lemma length_put_block t size source :
  0 <= size <= 4086 -> size <= Z.of_nat (length source) ->
  length (put_block t size source) = 4096%nat.
Proof.
  intros Hs Hl. unfold put_block, DEFAULT_BLOCK_SIZE, METADATA_SIZE.
  autorewrite with bldms. lia.
Qed.

Lemma put_frame_lookup F buf el md t size source :
  el <> buf -> md <> buf -> md <> el ->
  put_frame F buf el md t size source !! buf = Some (OBuf (put_block t size source)) /\
  put_frame F buf el md t size source !! el = Some (OElem (Elem 0 0 0)) /\
  put_frame F buf el md t size source !! md = Some (OBlk (Blk t BLK_VALID size)).
Proof.
  intros. unfold put_frame. split_and!; [| |apply lookup_insert_eq].
  - rewrite !lookup_insert_ne by done. apply lookup_insert_eq.
  - rewrite lookup_insert_ne by done. apply lookup_insert_eq.
Qed.

(** What put_prepare() guarantees, from a device that represents [s]. *)
Lemma wp_put_prepare w F s sb source size :
  dev_inv F w s -> the_dev_superblock w = Some sb ->
  0 <= size <= 4086 -> size <= Z.of_nat (length source) ->
  wp (put_prepare source size)
    (fun r w' =>
       match r with
       | inl err => err = - EADDRNOTAVAIL /\ (exists n, kzalloc_ok n = false) /\ dev_at w F s w'
       | inr a => exists buf el md t,
           a = PutArgs (Some sb) (Some buf) (Some el) (Some md) /\
           F !! buf = None /\ F !! el = None /\ F !! md = None /\
           el <> buf /\ md <> buf /\ md <> el /\ (exists n, t = clock n) /\
           dev_at w (put_frame F buf el md t size source) s w'
       end) w.
Proof.
  intros Hi Hsb Hs Hl. assert (Hd : dev_at w F s w) by auto with bldms.
  destruct (Hi) as (a & vm & mps & bs & es & [_ _ Hg _]).
  unfold put_prepare. wp_run. rewrite (dg_mounted _ _ _ Hg). simpl.
  rewrite (proj2 (Z.ltb_ge _ _)) by (unfold DEFAULT_BLOCK_SIZE, METADATA_SIZE; lia).
  wp_run. rewrite Hsb. wp_run.
  eapply dwp_kzalloc; [done| |intros w1 Hnk Hd1; simpl; by dwp_run].
  intros buf w1 Hbuf Hd1. simpl. wp_run.
  eapply dwp_copy_from_user; [done|frame_lookup|rewrite length_zeros; unfold METADATA_SIZE, DEFAULT_BLOCK_SIZE; lia|].
  intros w2 Hd2. rewrite length_take, (proj2 (Z.eqb_eq _ _)) by lia. simpl. wp_run.
  eapply dwp_kzalloc; [done| |].
  2: { intros w3 Hnk Hd3. simpl. dwp_run. split; [done|]. split; [done|].
       eapply dev_at_frame; [eassumption|frame_eq]. }
  intros el w3 [Hel Hne]%lookup_insert_None Hd3. simpl. wp_run.
  apply lookup_insert_None in Hel as [Hel _].
  eapply dwp_kzalloc; [done| |].
  2: { intros w4 Hnk Hd4. simpl. dwp_run. split; [done|]. split; [done|].
       eapply dev_at_frame; [eassumption|frame_eq]. }
  intros md w4 [[[Hmd _]%lookup_insert_None Hne1]%lookup_insert_None Hne2]%lookup_insert_None Hd4.
  simpl. wp_run. eapply dwp_ktime_get_real; [done|]. intros n w5 Hd5. simpl. dwp_run.
  exists buf, el, md, (clock n). split_and!; try done; [by exists n|].
  eapply dev_at_frame; [eassumption|]. unfold put_frame.
  assert (Hvb : set_is_valid BLK_VALID (set_valid_bytes size (set_nsec (clock n) (Blk 0 0 0)))
                = Blk (clock n) BLK_VALID size).
  { unfold set_is_valid, set_valid_bytes, set_nsec. simpl. rewrite Z.mod_small by lia. done. }
  rewrite Hvb. rewrite put_buffer by done. frame_eq.
Qed.

(** The frame once the new element and the new metadata belong to the device:
    the metadata they replace does not any more. *)
Definition done_frame (F : gmap loc obj) (buf oldp : loc) (oldb : bldms_block)
    (blk : list byte) : gmap loc obj :=
  <[oldp := OBlk oldb]> (<[buf := OBuf blk]> F).

(** The part of the critical section after the block has been found and read. *)
Lemma wp_put_commit w F s a vm mps bs es sb source size buf el md t i oldp oldb d Q :
  let blk := put_block t size source in
  dev_inv_at (put_frame F buf el md t size source) s a vm mps bs es w ->
  rcu_write_lock w = true -> next_free s = Some i ->
  mps !! i = Some oldp -> bs !! i = Some oldb ->
  0 <= size <= 4086 -> size <= Z.of_nat (length source) -> - 2 ^ 63 <= t < 2 ^ 63 ->
  F !! buf = None -> F !! el = None -> F !! md = None ->
  el <> buf -> md <> buf -> md <> el ->
  b_data (bufs w) (Z.of_nat i + NUM_METADATA_BLKS) = Some d -> length d = 4096%nat ->
  (forall lst h d', let w' := set_lock false (set_last_written_block (Z.of_nat i)
       (set_heap h (set_list lst (set_bufs (rewritten (Z.of_nat i + NUM_METADATA_BLKS) d' (bufs w)) w)))) in
     grows el (valid_blk_list w) lst -> same_nodes w w' ->
     b_data (bufs w') (Z.of_nat i + NUM_METADATA_BLKS) = Some blk ->
     dev_inv (done_frame F buf oldp oldb blk) w' (s_put t (take (Z.to_nat size) source) s).2 ->
     Q (PutDone (Z.of_nat i) (Some (Z.of_nat i + NUM_METADATA_BLKS)) (Some oldp)) w') ->
  let pa := PutArgs (Some sb) (Some buf) (Some el) (Some md) in
  wp (let* buf := load_buf (pa_buffer pa) in
      bh_write (Some (Z.of_nat i + NUM_METADATA_BLKS)) buf ;;;
      mark_buffer_dirty (Some (Z.of_nat i + NUM_METADATA_BLKS)) ;;;
      let* md := load_blk (pa_new_metadata pa) in
      add_valid_block_in_order_secure (pa_new_elem pa) (Z.of_nat i) (valid_bytes md) (nsec md) ;;;
      set_md_slot (Z.of_nat i) (pa_new_metadata pa) ;;;
      modify (set_last_written_block (u32 (Z.of_nat i))) ;;;
      spin_unlock ;;;
      ret (PutDone (Z.of_nat i) (Some (Z.of_nat i + NUM_METADATA_BLKS)) (Some oldp))) Q w.
Proof.
  intros blk Hi Hlk Hnf Hp Hb Hs Hsl Ht Hbuf Hel Hmd Hne1 Hne2 Hne3 Hd Hlen HQ pa.
  pose proof (di_mem _ _ _ _ _ _ _ _ Hi) as Hm.
  assert (HF : forall l o, put_frame F buf el md t size source !! l = Some o ->
                 heap w !! l = Some o /\ l ∉ footprint a mps w)
    by (intros l o; by eapply dm_frame_lookup).
  destruct (put_frame_lookup F buf el md t size source) as (Hfb & Hfe & Hfm); [done..|].
  destruct (HF buf (OBuf blk) Hfb) as [Hbufh _].
  destruct (HF el _ Hfe) as [Helh Helf]. destruct (HF md _ Hfm) as [Hmdh Hmdf].
  assert (Hblk : length blk = 4096%nat) by (by apply length_put_block).
  simpl. wp_step. eapply wp_load_buf; [done|]. wp_step.
  eapply wp_bh_write; [done|lia|]. do 2 wp_step. simpl. wp_run.
  set (e := elem_of_block i (Blk t BLK_VALID size)).
  destruct (dm_list _ _ _ _ _ _ _ Hm) as [Hnd Hels].
  eapply wp_add_in_order; simpl; [done|reflexivity|done| |exact Hels|].
  { intros Hin. apply Helf. auto with bldms. }
  intros lst ps1 ps2 es1 es2 Hps Hes Hl12 Hins Hlst Hgr.
  apply wp_bind. eapply wp_set_md_slot; simpl.
  - apply (dm_array _ _ _ _ _ _ _ Hm).
  - rewrite lookup_insert_ne; [apply (dm_heap_array _ _ _ _ _ _ _ Hm)|].
    intros ->. apply Helf. auto with bldms.
  - rewrite length_fmap. by eapply lookup_lt_Some.
  - wp_run. simpl. rewrite u32_small by (pose proof (dm_length _ _ _ _ _ _ _ Hm);
      pose proof NBLOCKS_range; pose proof (dg_bound _ _ _ (di_globals _ _ _ _ _ _ _ _ Hi));
      apply lookup_lt_Some in Hb; lia).
    rewrite splice_full by lia.
    set (n := Z.of_nat i + NUM_METADATA_BLKS) in *.
    assert (Hst : b_data (b_store n blk (bufs w)) n = Some blk)
      by (eapply b_data_store; [done|lia]).
    match goal with |- Q _ ?w' => apply (HQ lst (heap w') blk); simpl; unfold rewritten end.
    { done. }
    { intros p Hp'. simpl. rewrite lookup_insert_ne, lookup_insert_ne; [done| |].
      - intros ->. apply Helf. auto with bldms.
      - intros ->. by apply (dm_array_not_node _ _ _ _ _ _ _ Hm). }
    { by rewrite b_data_mark. }
    match goal with |- dev_inv _ ?w' _ => set (wf := w') end.
    assert (Hfree : bs !! i = Some oldb -> is_valid oldb = BLK_INVALID).
    { intros _. apply (msg_at_valid (bufs w) bs i oldb); [apply Hi|done|].
      rewrite <- (dg_msgs _ _ _ (di_globals _ _ _ _ _ _ _ _ Hi)). by apply next_free_Some. }
    unfold s_put. rewrite Hnf. simpl.
    eapply dev_inv_eq.
    + eapply (dev_inv_put _ _ _ _ _ _ _ w wf i oldp oldb el _ md (Blk t BLK_VALID size) blk);
        try done; try (by apply Hfree); try (by apply lookup_insert_eq).
      * unfold block_wf; simpl. split_and!; lia.
      * unfold DEFAULT_BLOCK_SIZE, METADATA_SIZE; simpl. lia.
      * simpl. by rewrite b_data_mark.
      * intros m Hm'. simpl. rewrite b_data_mark. by apply b_data_store_ne.
    + unfold done_frame, put_frame, blk. frame_eq.
    + simpl. unfold blk. rewrite take_payload_put_block by lia. done.
Qed.

(** The metadata of a slot is neither prepared memory nor the array. *)
Lemma put_old_metadata F buf el md t size source a vm mps bs es w i oldp :
  dev_mem (put_frame F buf el md t size source) a vm mps bs es w -> mps !! i = Some oldp ->
  F !! oldp = None /\ (oldp ∉ [buf; el; md; a]) /\ (a ∉ [buf; el; md]).
Proof.
  intros Hm Hp%list_elem_of_lookup_2.
  assert (Hown : forall l, l ∈ footprint a mps w -> F !! l = None /\ (l ∉ [buf; el; md])).
  { intros l Hl. pose proof (dm_owned _ _ _ _ _ _ _ Hm l Hl) as HF. unfold put_frame in HF.
    apply lookup_insert_None in HF as [HF ?]. apply lookup_insert_None in HF as [HF ?].
    apply lookup_insert_None in HF as [HF ?]. set_solver. }
  pose proof (dm_array_not_block _ _ _ _ _ _ _ Hm).
  destruct (Hown oldp) as [? ?]; [unfold footprint; set_solver|].
  destruct (Hown a) as [? ?]; [unfold footprint; set_solver|].
  split_and!; [done|set_solver|done].
Qed.

(** The critical section, from a state that represents [s]. *)
Lemma wp_put_critical w F s sb source size buf el md t :
  let blk := put_block t size source in
  dev_inv (put_frame F buf el md t size source) w s -> rcu_write_lock w = false ->
  0 <= size <= 4086 -> size <= Z.of_nat (length source) -> - 2 ^ 63 <= t < 2 ^ 63 ->
  F !! buf = None -> F !! el = None -> F !! md = None ->
  el <> buf -> md <> buf -> md <> el ->
  wp (put_critical (PutArgs (Some sb) (Some buf) (Some el) (Some md)))
    (fun o w' => the_dev_superblock w' = the_dev_superblock w /\ module_refs w' = module_refs w /\
       rcu_readers w' = rcu_readers w /\ same_nodes w w' /\
       match o with
       | PutError err old =>
         rcu_write_lock w' = true /\ dev_inv (put_frame F buf el md t size source) w' s /\
         bh_refs w' = bh_refs w /\ bufs w' = bufs w /\ valid_blk_list w' = valid_blk_list w /\
         match next_free s with
         | None => err = - ENOMEM /\ old = None
         | Some i => err = - 1 /\ (exists n, bread_ok n = false) /\ exists oldp oldb a vm ps, old = Some oldp /\
             metadata_array w' = Some a /\ heap w' !! a = Some (OArr vm ps) /\
             ps !! i = Some (Some oldp) /\ heap w' !! oldp = Some (OBlk oldb) /\ F !! oldp = None /\
             (oldp ∉ [buf; el; md; a]) /\ (a ∉ [buf; el; md])
         end
       | PutDone b bh old => exists i oldp oldb,
         (exists n, bread_ok n = true) /\
         next_free s = Some i /\ b = Z.of_nat i /\ bh = Some (Z.of_nat i + NUM_METADATA_BLKS) /\
         old = Some oldp /\ rcu_write_lock w' = false /\ bh_refs w' = bh_refs w + 1 /\
         (exists d, bufs w' = rewritten (Z.of_nat i + NUM_METADATA_BLKS) d (bufs w)) /\
         b_data (bufs w') (Z.of_nat i + NUM_METADATA_BLKS) = Some blk /\
         F !! oldp = None /\ oldp <> buf /\ grows el (valid_blk_list w) (valid_blk_list w') /\
         dev_inv (done_frame F buf oldp oldb blk) w' (s_put t (take (Z.to_nat size) source) s).2
       end) w.
Proof.
  intros blk Hi Hlk Hs Hsl Ht Hbuf Hel Hmd Hne1 Hne2 Hne3.
  destruct (Hi) as (a & vm & mps & bs & es & Hi').
  unfold put_critical. wp_run. simpl.
  change (md_array_size w) with (md_array_size (set_lock true w)).
  assert (HiL : dev_inv_at (put_frame F buf el md t size source) s a vm mps bs es (set_lock true w))
    by (by eapply dev_inv_at_ext).
  eapply wp_find_free; [exact HiL|].
  destruct (next_free s) as [i|] eqn:Hnf; simpl.
  2: { wp_run. simpl. by split_and!; auto with bldms. }
  rewrite (proj2 (Z.ltb_ge _ _)) by lia.
  pose proof (di_mem _ _ _ _ _ _ _ _ Hi') as Hm.
  destruct (next_free_Some _ _ Hnf) as [Hlt Hno].
  rewrite (dg_cap _ _ _ (di_globals _ _ _ _ _ _ _ _ Hi')) in Hlt.
  destruct (lookup_lt_is_Some_2 bs i Hlt) as [oldb Hb].
  destruct (dm_block_lookup _ _ _ _ _ _ _ _ _ Hm Hb) as (oldp & Hp & Hpb).
  wp_step. eapply wp_md_slot;
    [apply (dm_array _ _ _ _ _ _ _ Hm)|apply (dm_heap_array _ _ _ _ _ _ _ Hm)| |].
  { by rewrite list_lookup_fmap, Hp. }
  destruct (put_old_metadata _ _ _ _ _ _ _ _ _ _ _ _ _ _ _ Hm Hp) as (HFold & Hnin & Hnia).
  wp_step. apply wp_sb_bread.
  - intros Hbr [d Hd]. cbv beta. rewrite decide_False by done.
    destruct (dl_blocks _ _ _ (di_log _ _ _ _ _ _ _ _ Hi') i oldb Hb) as (_ & d' & Hd' & Hlen & _).
    eapply (wp_put_commit _ F s a vm mps bs es sb source size buf el md t i oldp oldb d'); try done.
    + by eapply dev_inv_at_ext.
    + intros lst h d1 w' Hgr Hsn Hblk Hw'. split_and!; try done.
      exists i, oldp, oldb. split_and!; try done; [by exists d1 | set_solver].
  - cbv beta. intros Hio. rewrite decide_True by done. wp_step. split_and!; try done.
    + eapply dev_inv_ext; [exact Hi|done..].
    + destruct Hio as [Hio|Hio]; [done|]. simpl in Hio.
      destruct (dl_blocks _ _ _ (di_log _ _ _ _ _ _ _ _ Hi') i oldb Hb) as (_ & d' & Hd' & _).
      congruence.
    + exists oldp, oldb, a, vm, (Some <$> mps). split_and!; try done.
      * apply (dm_array _ _ _ _ _ _ _ Hm).
      * apply (dm_heap_array _ _ _ _ _ _ _ Hm).
      * by rewrite list_lookup_fmap, Hp.
Qed.

(** The error path when there is no old metadata: everything prepared is released. *)
Lemma wp_put_error_full w F s sb source size buf el md t err :
  dev_inv (put_frame F buf el md t size source) w s -> rcu_write_lock w = true ->
  F !! buf = None -> F !! el = None -> F !! md = None ->
  el <> buf -> md <> buf -> md <> el ->
  wp (put_error (PutArgs (Some sb) (Some buf) (Some el) (Some md)) err None)
    (fun r w' => r = err /\ dev_at (set_lock false w) F s w') w.
Proof.
  intros Hi Hlk Hbuf Hel Hmd Hne1 Hne2 Hne3. unfold put_error. wp_run. simpl.
  assert (Hd : dev_at (set_lock false w) (put_frame F buf el md t size source) s (set_lock false w))
    by auto with bldms.
  unfold put_frame in Hd. dwp_run. split; [done|]. eapply dev_at_frame; [eassumption|frame_eq].
Qed.

(** The error path with an old metadata, which is freed although the array still
    refers to it. *)
Lemma wp_put_error_io w F s sb source size buf el md t err oldp oldb a vm ps :
  dev_inv (put_frame F buf el md t size source) w s -> rcu_write_lock w = true ->
  F !! buf = None -> F !! el = None -> F !! md = None ->
  el <> buf -> md <> buf -> md <> el ->
  heap w !! oldp = Some (OBlk oldb) -> heap w !! a = Some (OArr vm ps) ->
  oldp ∉ [buf; el; md; a] -> a ∉ [buf; el; md] ->
  wp (put_error (PutArgs (Some sb) (Some buf) (Some el) (Some md)) err (Some oldp))
    (fun r w' => r = err /\ same_ctl (set_lock false w) w' /\ heap w' !! oldp = None /\
       heap w' !! a = Some (OArr vm ps) /\ metadata_array w' = metadata_array w /\
       md_array_size w' = md_array_size w /\ last_written_block w' = last_written_block w /\
       bldms_mounted w' = bldms_mounted w) w.
Proof.
  intros Hi Hlk Hbuf Hel Hmd Hne1 Hne2 Hne3 Ho Ha Hno Hna.
  assert (HF : forall l o, put_frame F buf el md t size source !! l = Some o -> heap w !! l = Some o)
    by (intros l o; by eapply dev_inv_lookup).
  destruct (put_frame_lookup F buf el md t size source) as (Hbh & Heh & Hmh); [done..|].
  apply HF in Hbh, Heh, Hmh.
  apply not_elem_of_cons in Hno as [? Hno]. apply not_elem_of_cons in Hno as [? Hno].
  apply not_elem_of_cons in Hno as [? Hno]. apply not_elem_of_cons in Hno as [? _].
  apply not_elem_of_cons in Hna as [? Hna]. apply not_elem_of_cons in Hna as [? Hna].
  apply not_elem_of_cons in Hna as [? _].
  unfold put_error. simpl. wp_run. simpl. split_and!; try done; by simplify_map_eq.
Qed.

(** The end of a successful call: the buffer and the old metadata are freed. *)
Lemma wp_put_finish w F s sb buf el md blk i oldp oldb d c :
  let n := Z.of_nat i + NUM_METADATA_BLKS in
  dev_inv (done_frame F buf oldp oldb blk) w s -> Z.of_nat i < 2 ^ 31 ->
  F !! buf = None -> F !! oldp = None -> oldp <> buf ->
  bufs w = rewritten n d c -> b_data (bufs w) n = Some blk ->
  wp (put_finish (PutArgs (Some sb) (Some buf) (Some el) (Some md)) (Z.of_nat i) (Some n) (Some oldp))
    (fun r w' => r = Z.of_nat i /\ dev_inv F w' s /\ rcu_write_lock w' = rcu_write_lock w /\
       rcu_readers w' = rcu_readers w /\ bh_refs w' = bh_refs w - 1 /\
       the_dev_superblock w' = the_dev_superblock w /\ bufs w' = flushed n (bufs w) /\
       (SYNCHRONOUS_PUT_DATA = true -> on_disk (bufs w') n = Some blk)) w.
Proof.
  intros n Hi Hb Hbuf Hold Hne Hc Hblk. unfold put_finish. rewrite s32_small by lia.
  wp_step. apply (wp_mono _ (fun _ w1 => dev_inv (done_frame F buf oldp oldb blk) w1 s /\
    rcu_write_lock w1 = rcu_write_lock w /\ rcu_readers w1 = rcu_readers w /\
    bh_refs w1 = bh_refs w /\ the_dev_superblock w1 = the_dev_superblock w /\
    bufs w1 = flushed n (bufs w) /\ (SYNCHRONOUS_PUT_DATA = true -> on_disk (bufs w1) n = Some blk))).
  { unfold flushed. destruct SYNCHRONOUS_PUT_DATA; wp_step; split_and!; try done; simpl.
    - by apply dev_inv_sync.
    - intros _. rewrite Hc, flushed_written by apply pending_rewritten. by rewrite <- Hblk, Hc. }
  intros _ w1 (Hi1 & ? & ? & ? & ? & ? & Hd1). do 2 wp_step. wp_step.
  assert (Hd : dev_at (set_bh_refs (bh_refs w1 - 1) w1) (done_frame F buf oldp oldb blk) s
    (set_bh_refs (bh_refs w1 - 1) w1)) by auto with bldms.
  unfold done_frame in Hd. dwp_run.
  match goal with H : dev_at _ ?F' _ ?w' |- _ /\ dev_inv _ ?w' _ /\ _ =>
    destruct (dev_at_frame _ F _ _ _ H) as [Hi' Hc']; [frame_eq|] end.
  unfold same_ctl in Hc'. simpl in Hc'. destruct_and!.
  split_and!; try congruence. intros Hs. rewrite <- Hd1 by done. congruence.
Qed.

(** Reaching a slot whose metadata has been freed. *)
Lemma run_find_free_dangling w a vm ps i p fuel j :
  metadata_array w = Some a -> heap w !! a = Some (OArr vm ps) -> ps !! i = Some (Some p) ->
  heap w !! p = None -> u64 j <= md_array_size w ->
  s32 (u32 (last_written_block w + j) mod md_array_size w) = Z.of_nat i ->
  find_free (S fuel) j w = Fault (BadAccess p).
Proof.
  intros Ha Harr Hp Hnone Hj Hidx. simpl.
  unfold bind, gets. rewrite (proj2 (Z.leb_le _ _) Hj). simpl. rewrite Hidx.
  unfold md_slot, load_arr, deref, bind, gets. rewrite Ha, Harr. unfold ret. simpl.
  rewrite (proj2 (Z.leb_le _ _)) by lia. rewrite Nat2Z.id, Hp.
  unfold load_blk, deref, bind. by rewrite Hnone.
Qed.

(** The call on a state that represents a store, on every path. *)
Lemma wp_put_data w F s sb source size :
  dev_inv F w s -> unlocked w -> the_dev_superblock w = Some sb ->
  0 <= size <= DEFAULT_BLOCK_SIZE - METADATA_SIZE -> size <= Z.of_nat (length source) ->
  wp (put_data source size)
    (fun r w' => unlocked w' /\ the_dev_superblock w' = Some sb /\ bh_refs w' = bh_refs w /\
       after_call (bufs w) (bufs w') /\
       ((exists t, let d := take (Z.to_nat size) source in (exists n, t = clock n) /\
           r = (s_put t d s).1 /\ dev_inv F w' (s_put t d s).2 /\
           (SYNCHRONOUS_PUT_DATA = true -> forall i, next_free s = Some i ->
              on_disk (bufs w') (Z.of_nat i + NUM_METADATA_BLKS)
                = Some (put_block t size source))) \/
        (r = - EADDRNOTAVAIL /\ (exists n, kzalloc_ok n = false) /\ dev_inv F w' s) \/
        (r = - 1 /\ (exists n, bread_ok n = false) /\ next_free s <> None))) w.
Proof.
  unfold DEFAULT_BLOCK_SIZE, METADATA_SIZE.
  intros Hi [Hlk Hrd] Hsb Hs Hsl. unfold put_data. wp_step.
  eapply wp_mono; [by eapply wp_put_prepare|]. intros [err|pa] w1; cbv beta iota.
  { intros (-> & Hkz & Hi1 & Hc). wp_step. unfold same_ctl in Hc. destruct_and!.
    unfold unlocked. split_and!; try congruence; [by left|]. right; left. done. }
  intros (buf & el & md & t & -> & Hbuf & Hel & Hmd & Hne1 & Hne2 & Hne3 & Ht & Hi1 & Hc).
  pose proof Ht as [now ->]. pose proof (clock_range now).
  unfold same_ctl in Hc. destruct_and!. wp_step.
  eapply wp_mono; [eapply (wp_put_critical w1 F s sb source size buf el md (clock now)); try done; congruence|].
  intros [err old|b bh old] w2 (Hsb2 & _ & Hrd2 & _ & Ho).
  - destruct Ho as (Hlk2 & Hi2 & Hbh2 & Hbf2 & _ & Ho).
    destruct (next_free s) as [i|] eqn:Hnf.
    + destruct Ho as (-> & Hio & oldp & oldb & a & vm & ps & -> & Ha & Hha & Hpi & Hhp & HFo & Hno & Hna).
      eapply wp_mono; [by eapply wp_put_error_io|].
      intros r w3 (-> & Hc3 & _). unfold same_ctl in Hc3. simpl in Hc3. destruct_and!.
      unfold unlocked. split_and!; try congruence; [left; congruence|]. right; right. done.
    + destruct Ho as [-> ->]. eapply wp_mono; [by eapply wp_put_error_full|].
      intros r w3 [-> [Hi3 Hc3]]. unfold same_ctl in Hc3. simpl in Hc3. destruct_and!.
      unfold unlocked. split_and!; try congruence; [left; congruence|].
      left. exists (clock now). unfold s_put. by rewrite Hnf.
  - destruct Ho as (i & oldp & oldb & _ & Hnf & -> & -> & -> & Hlk2 & Hbh2 & [c Hc] & Hbd & HFo & Hno & _ & Hi2).
    assert (Hi31 : Z.of_nat i < 2 ^ 31)
      by (apply next_free_Some in Hnf as [? _]; apply dev_inv_cap in Hi; lia).
    eapply wp_mono; [by eapply wp_put_finish|].
    intros r w3 (-> & Hi3 & Hlk3 & Hrd3 & Hbh3 & Hsb3 & Hfl & Hdisk). unfold unlocked.
    split_and!; try congruence; [lia|right; exists i, c; cbv zeta; congruence|]. left.
    exists (clock now). unfold s_put at 1. rewrite Hnf. simpl.
    split_and!; [done|done|done|]. intros Hsync j [= <-]. by rewrite Hdisk.
Qed.


Lemma run_put_too_big w source size :
  bldms_mounted w <> 0 -> DEFAULT_BLOCK_SIZE - METADATA_SIZE < size ->
  put_data source size w = Ret (- E2BIG) w.
Proof.
  intros Hm%Z.eqb_neq Hs%Z.ltb_lt. unfold put_data, put_prepare, bind, gets, ret. by rewrite Hm, Hs.
Qed.

(** Before it allocates anything put_data() rejects a call on a device that is
    not mounted (ENODEV), a message that does not fit in a block (E2BIG) and a
    device without superblock (EINVAL), leaving the state untouched. *)
Theorem put_data_rejects w source size :
  (bldms_mounted w = 0 -> put_data source size w = Ret (- ENODEV) w) /\
  (bldms_mounted w <> 0 -> DEFAULT_BLOCK_SIZE - METADATA_SIZE < size ->
     put_data source size w = Ret (- E2BIG) w) /\
  (bldms_mounted w <> 0 -> size <= DEFAULT_BLOCK_SIZE - METADATA_SIZE ->
     the_dev_superblock w = None -> put_data source size w = Ret (- EINVAL) w).
Proof.
  split_and!.
  - intros Hm. unfold put_data, put_prepare, bind, gets, ret. by rewrite Hm.
  - apply run_put_too_big.
  - intros Hm%Z.eqb_neq Hs%Z.ltb_ge Hsb. unfold put_data, put_prepare, bind, gets, ret.
    by rewrite Hm, Hs, Hsb.
Qed.


(** C31: when sb_bread() fails, the error path of put_data() frees the metadata of the
    chosen free block although the metadata array keeps pointing to it, so the
    next search that reaches this block reads freed memory. *)
Theorem put_data_io_error_dangles w F s sb source size i :
  (forall n, kzalloc_ok n = true) -> (forall n, bread_ok n = false) ->
  dev_inv F w s -> unlocked w -> the_dev_superblock w = Some sb ->
  0 <= size <= DEFAULT_BLOCK_SIZE - METADATA_SIZE -> size <= Z.of_nat (length source) ->
  next_free s = Some i ->
  wp (put_data source size)
    (fun r w' => r = - 1 /\ exists oldp, forall fuel j, u64 j <= md_array_size w' ->
       s32 (u32 (last_written_block w' + j) mod md_array_size w') = Z.of_nat i ->
       find_free (S fuel) j w' = Fault (BadAccess oldp)) w.
Proof.
  unfold DEFAULT_BLOCK_SIZE, METADATA_SIZE.
  intros Hkz Hbr Hi [Hlk Hrd] Hsb Hs Hsl Hnf. unfold put_data. wp_step.
  eapply wp_mono; [by eapply wp_put_prepare|]. intros [err|pa] w1; cbv beta iota.
  { intros (_ & [n Hn] & _). by rewrite Hkz in Hn. }
  intros (buf & el & md & t & -> & Hbuf & Hel & Hmd & Hne1 & Hne2 & Hne3 & Ht & Hi1 & Hc).
  pose proof Ht as [now ->]. pose proof (clock_range now).
  unfold same_ctl in Hc. destruct_and!. wp_step.
  eapply wp_mono; [eapply (wp_put_critical w1 F s sb source size buf el md (clock now)); try done; congruence|].
  intros [err old|b bh old] w2 (_ & _ & Hrd2 & _ & Ho).
  2: { destruct Ho as (? & ? & ? & [n Hn] & _). by rewrite Hbr in Hn. }
  destruct Ho as (Hlk2 & Hi2 & _ & _ & _ & Ho). rewrite Hnf in Ho.
  destruct Ho as (-> & _ & oldp & oldb & a & vm & ps & -> & Ha & Hha & Hpi & Hhp & HFo & Hno & Hna).
  eapply wp_mono; [by eapply wp_put_error_io|].
  intros r w3 (-> & _ & Hold & Harr & Ema & Ems & Elast & _). split; [done|].
  exists oldp. intros fuel j Hj Hidx. simpl.
  eapply run_find_free_dangling; rewrite ?Ema; done.
Qed.
End PutData.

(** ** Witnesses *)

#[local] Existing Instance sample_config.



(** No block can be read: slot 2 is left with a dangling pointer. *)
Lemma put_data_io_error_dangles_witness :
  wp (K := no_disk_kernel) (put_data sample_data 2)
    (fun r w' => r = -1 /\ exists oldp, forall fuel j, u64 j <= md_array_size w' ->
       s32 (u32 (last_written_block w' + j) mod md_array_size w') = 2 ->
       find_free (S fuel) j w' = Fault (BadAccess oldp)) no_disk_world.
Proof.
  apply (put_data_io_error_dangles no_disk_world ∅ sample_store (SB MAGIC true) sample_data 2 2);
    [done|done|exact no_disk_world_inv|done|done|by vm_compute|by vm_compute|by vm_compute].
Defined.

Lemma put_data_rejects_witness :
  put_data (K := good_kernel) sample_data 5000 good_world = Ret (- E2BIG) good_world.
Proof.
  destruct (put_data_rejects (K := good_kernel) good_world sample_data 5000) as (_ & H & _).
  by apply H.
Defined.
