(* ===== verification/GetData.v ===== *)
(** * get_data(): correctness

    get_data() implements [s_get] of the abstract store and changes nothing. *)
From S2P Require Import Prelude Layout Kernel KernelFacts Rcu Store Device Syscalls DeviceOps.
From S2P Require Import DeviceWp Sample.

Section GetData.
Context {K : Kernel} {KL : KernelLaws K} {C : Config}.
Implicit Types (F : gmap loc obj) (w : world) (s : mstore).

(** What the search leaves behind: a reader, and the length of the message. *)
Lemma wp_get_find w F s sb offset :
  dev_inv F w s -> the_dev_superblock w = Some sb -> - 2 ^ 31 <= offset < 2 ^ 31 ->
  wp (get_find offset)
    (fun r w' =>
       match r with
       | inl err => forall size, s_get offset size s = (err, []) /\ same_state w w'
       | inr (sb', n) => exists i m blk, offset = Z.of_nat i /\ (i < s_cap s)%nat /\
           s_msgs s !! i = Some m /\ sb' = Some sb /\ n = Z.of_nat (length (m_data m)) /\
           n <= DEFAULT_BLOCK_SIZE - METADATA_SIZE /\ length blk = 4096%nat /\
           m_data m = take (Z.to_nat n) (payload blk) /\
           b_data (bufs w) (Z.of_nat i + NUM_METADATA_BLKS) = Some blk /\
           w' = set_readers (S (rcu_readers w)) w
       end) w.
Proof.
  intros Hi Hsb Ho. pose proof (dev_inv_cap _ _ _ Hi) as Hcap.
  destruct (Hi) as (a & vm & mps & bs & es & Hi'). pose proof (di_globals _ _ _ _ _ _ _ _ Hi') as Hg.
  unfold get_find. wp_run. rewrite (dg_mounted _ _ _ Hg). simpl. wp_run.
  rewrite (dg_size _ _ _ Hg), <- (dg_cap _ _ _ Hg), offset_in_range by lia.
  destruct ((0 <=? offset) && (offset <? Z.of_nat (s_cap s)))%bool eqn:Hr; simpl.
  2: { wp_run. intros size. unfold s_get. by rewrite Hr. }
  reflect_bools. wp_run. rewrite Hsb. wp_run.
  destruct (Z_of_nat_complete offset) as [i ->]; [lia|].
  rewrite u32_small by lia. simpl. set (w1 := set_readers _ w).
  assert (Hi1 : dev_inv_at F s a vm mps bs es w1) by (by eapply dev_inv_at_ext).
  eapply wp_find_block; [exact Hi1| |].
  - intros Hn. wp_run. intros size. rewrite s_get_in, Hn by lia. split; [done|].
    destruct w; reflexivity.
  - intros b blk ps1 el ps2 es1 es2 Hb Hv Hrep Hblk Hmsg Hps Hes Hlen Hel.
    destruct Hrep as ((_ & _ & Hvb0) & blk' & Hblk' & Hbl & _ & Hvb).
    rewrite Hblk in Hblk'. injection Hblk' as <-. specialize (Hvb Hv). unfold DEFAULT_BLOCK_SIZE, METADATA_SIZE in *.
    wp_run. simpl. rewrite s32_small by lia.
    eexists i, _, blk. split_and!; try done; simpl; try lia.
    unfold payload. rewrite length_take, length_drop. lia.
Qed.

(** Reading the block of a message of [n] bytes; the reader leaves. *)
Lemma wp_get_copy w i blk n sb cap size :
  b_data (bufs w) (Z.of_nat i + NUM_METADATA_BLKS) = Some blk -> length blk = 4096%nat ->
  Z.of_nat i < 2 ^ 31 -> 0 <= n <= DEFAULT_BLOCK_SIZE - METADATA_SIZE -> 0 <= size < 2 ^ 64 ->
  wp (get_copy (Z.of_nat i) cap size (Some sb) n)
    (fun r w' => same_state w w' /\
       let d := take (Nat.min cap (Z.to_nat size)) (take (Z.to_nat n) (payload blk)) in
       (r = (Z.of_nat (length d), d) \/ r = (-1, []) /\ exists k, bread_ok k = false))
    (set_readers (S (rcu_readers w)) w).
Proof.
  unfold DEFAULT_BLOCK_SIZE, METADATA_SIZE.
  intros Hblk Hlen Hi Hn Hs. unfold get_copy. rewrite u32_small by (unfold NUM_METADATA_BLKS; lia).
  apply wp_bind, wp_sb_bread; simpl.
  2: { intros Hio. destruct Hio as [Hio|Hio]; [|congruence]. wp_run.
       split; [|by right]. by destruct w. }
  intros _ _. wp_run.
  set (bytes := if u64 n <? size then n else s32 size).
  assert (Hb : bytes = Z.min n size).
  { unfold bytes. rewrite u64_small by lia. destruct (Z.ltb_spec n size); [lia|].
    rewrite s32_small; lia. }
  clearbody bytes. subst bytes. rewrite u64_small by lia. apply wp_copy_to_user; [unfold METADATA_SIZE; lia..|].
  cbv zeta. wp_run. split.
  { destruct w; unfold same_state; simpl. split_and!; try done; lia. }
  left. set (c := Z.min (Z.min n size) (Z.of_nat cap)). simpl.
  assert (Hc : take (Z.to_nat c) (payload blk)
    = take (Nat.min cap (Z.to_nat size)) (take (Z.to_nat n) (payload blk))).
  { rewrite take_take. f_equal. lia. }
  rewrite <- Hc. f_equal. unfold payload. rewrite length_take, length_drop.
  rewrite u64_small, s64_small by lia. lia.
Qed.

(** The search on a list whose elements need not agree with the blocks. *)
Lemma wp_get_find_elem w sb es1 e es2 offset :
  bldms_mounted w <> 0 -> the_dev_superblock w = Some sb ->
  0 <= offset < md_array_size w -> offset < 2 ^ 31 ->
  list_holds w (es1 ++ e :: es2) -> ndx e = offset -> offset ∉ ndx <$> es1 ->
  0 <= el_valid_bytes e < 2 ^ 15 ->
  wp (get_find offset) (fun r w' => r = inr (Some sb, el_valid_bytes e) /\
    w' = set_readers (S (rcu_readers w)) w) w.
Proof.
  intros Hmt%Z.eqb_neq Hsb Ho Ho31 [Hnd Hel] Hndx Hnin Hvb. unfold get_find. wp_run. rewrite Hmt.
  wp_run. rewrite u64_small, (proj2 (Z.leb_gt _ _)) by lia. wp_run. rewrite Hsb. wp_run.
  rewrite u32_small by lia. eapply wp_find_in_list; [exact Hel| |].
  - intros Hall%not_in_ndx. destruct Hall. rewrite fmap_app. simpl. set_solver.
  - intros ps1 p ps2 s1 x s2 _ Hes _ Hx Ht Hall.
    destruct (first_split (fun e => (ndx e =? offset) = false) es1 e es2 s1 x s2)
      as (_ & <- & _); try done; [|lia|congruence|wp_run; by rewrite s32_small by lia].
    apply Forall_forall. intros y Hy. apply Z.eqb_neq. intros <-. apply Hnin.
    by apply list_elem_of_fmap_2.
Qed.

(** The call on a state that represents a store, on every path. *)
Lemma wp_get_data w F s sb offset cap size :
  dev_inv F w s -> the_dev_superblock w = Some sb ->
  - 2 ^ 31 <= offset < 2 ^ 31 -> 0 <= size < 2 ^ 64 ->
  wp (get_data offset cap size)
    (fun r w' => same_state w w' /\ dev_inv F w' s /\
       (r = s_get offset (Nat.min cap (Z.to_nat size)) s \/
        r = (-1, []) /\ (exists k, bread_ok k = false) /\
          exists m, s_msgs s !! Z.to_nat offset = Some m)) w.
Proof.
  intros Hi Hsb Ho Hs. pose proof (dev_inv_cap _ _ _ Hi) as Hcap.
  unfold get_data. wp_step. eapply wp_mono; [by eapply wp_get_find|].
  intros [err|[sb' n]] w1; cbv beta iota.
  - intros Hr. destruct (Hr O) as [_ Hss]. wp_step. split_and!; [done| |].
    + by eapply dev_inv_same_state.
    + left. symmetry. apply Hr.
  - intros (i & m & blk & -> & Hlt & Hm & -> & Hn & Hle & Hbl & Hd & Hblk & ->).
    eapply wp_mono; [eapply wp_get_copy; try done; lia|].
    intros r w2 [Hss Hr]. split_and!; [done|by eapply dev_inv_same_state|].
    rewrite s_get_in, Hm, Hd by lia. destruct Hr as [->|[-> Hio]]; [by left|right].
    rewrite Nat2Z.id. eauto.
Qed.

(** C4: get_data() implements the specification of the abstract store: for any
    offset and size, negative offsets included, it returns min(size, length of
    the message, writable bytes) bytes of the message of the block, -E2BIG for a
    block that does not exist and -ENODATA for a block that holds no message (or
    -1 when the block cannot be read); it changes nothing, releases the buffer
    and leaves its read-side critical section. *)
Theorem get_data_refines w F s sb offset cap size :
  dev_inv F w s -> the_dev_superblock w = Some sb ->
  - 2 ^ 31 <= offset < 2 ^ 31 -> 0 <= size < 2 ^ 64 ->
  wp (get_data offset cap size)
    (fun r w' => same_state w w' /\ dev_inv F w' s /\
       (r = s_get offset (Nat.min cap (Z.to_nat size)) s \/
        r = (-1, []) /\ (exists k, bread_ok k = false) /\
          exists m, s_msgs s !! Z.to_nat offset = Some m)) w.
Proof. intros. by eapply wp_get_data. Qed.

(** get_data() refuses a device that is not mounted (ENODEV) and a device
    whose superblock is not known (EINVAL) before it enters its read-side
    critical section. *)
Theorem get_data_rejects w offset cap size :
  (bldms_mounted w = 0 -> get_data offset cap size w = Ret (- ENODEV, []) w) /\
  (bldms_mounted w <> 0 -> md_array_size w <= u64 offset ->
     get_data offset cap size w = Ret (- E2BIG, []) w) /\
  (bldms_mounted w <> 0 -> u64 offset < md_array_size w -> the_dev_superblock w = None ->
     get_data offset cap size w = Ret (- EINVAL, []) w).
Proof.
  unfold get_data, get_find, bind, gets, ret. split_and!.
  - by intros ->.
  - intros Hm%Z.eqb_neq Hs%Z.leb_le. by rewrite Hm, Hs.
  - intros Hm%Z.eqb_neq Hs%Z.leb_gt Hsb. by rewrite Hm, Hs, Hsb.
Qed.

(** C37: the length of a message is trusted: when the list holds an element that
    claims more bytes than a block has after its metadata, as a device with a
    corrupted length field gives at mount time, get_data() with a large size
    reads past the end of the buffer. *)
Theorem get_data_over_read w sb es1 e es2 offset cap size blk :
  (forall k, bread_ok k = true) ->
  bldms_mounted w <> 0 -> the_dev_superblock w = Some sb ->
  0 <= offset < md_array_size w -> offset < 2 ^ 31 -> 0 <= size < 2 ^ 64 ->
  list_holds w (es1 ++ e :: es2) -> ndx e = offset -> offset ∉ ndx <$> es1 ->
  DEFAULT_BLOCK_SIZE - METADATA_SIZE < el_valid_bytes e < 2 ^ 15 -> el_valid_bytes e <= size ->
  b_data (bufs w) (offset + NUM_METADATA_BLKS) = Some blk -> length blk = 4096%nat ->
  get_data offset cap size w = Fault OutOfBounds.
Proof.
  unfold DEFAULT_BLOCK_SIZE, METADATA_SIZE.
  intros Hbr Hmt Hsb Ho Ho31 Hs Hl Hndx Hnin Hvb Hsz Hblk Hlen.
  destruct (wp_elim (get_find offset) (fun r w' => r = inr (Some sb, el_valid_bytes e) /\
    w' = set_readers (S (rcu_readers w)) w) w) as (r & w' & Hrun & -> & ->).
  { eapply wp_get_find_elem; try done. lia. }
  unfold get_data, bind. rewrite Hrun. unfold get_copy, bind, sb_bread; simpl. rewrite Hbr.
  rewrite u32_small by (unfold NUM_METADATA_BLKS; lia). rewrite Hblk. simpl. rewrite Hblk.
  unfold copy_to_user. rewrite (u64_small (el_valid_bytes e)) by lia.
  assert (Hb : (if el_valid_bytes e <? size then el_valid_bytes e else s32 size) = el_valid_bytes e).
  { destruct (Z.ltb_spec (el_valid_bytes e) size); [done|]. rewrite s32_small; lia. }
  rewrite Hb, u64_small by lia. rewrite (proj2 (Z.leb_gt (_ + _) _)) by (unfold METADATA_SIZE; lia).
  by rewrite andb_false_r.
Qed.
End GetData.

(** ** Witnesses *)

#[local] Existing Instance sample_config.

(** Slot 1 of the sample device holds two bytes. *)
Lemma get_data_refines_witness :
  wp (K := good_kernel) (get_data 1 100 50)
    (fun r w' => r = (2, sample_data) /\ dev_inv ∅ w' sample_store) good_world.
Proof.
  eapply wp_mono.
  - apply (get_data_refines good_world ∅ sample_store (SB MAGIC true) 1 100 50);
      [exact good_world_inv|done|lia|lia].
  - intros r w' (_ & Hi & [->|(_ & Hk & _)]); [done|by destruct always_true].
Defined.

(** The element of slot 1 claims 5000 bytes. *)
Definition corrupt_world : @world good_kernel :=
  set_heap (<[6%positive := OElem (Elem 1 100 5000)]> (heap good_world)) good_world.

Lemma get_data_over_read_witness :
  get_data (K := good_kernel) 1 100 8000 corrupt_world = Fault OutOfBounds.
Proof.
  apply (get_data_over_read corrupt_world (SB MAGIC true) [] (Elem 1 100 5000) [later_elem] 1 100 8000 sample_blk);
    try done; try (by vm_compute); [|by apply not_elem_of_nil].
  split; [by apply NoDup_ListNoDup; repeat constructor; simpl; intuition congruence|].
  repeat constructor.
Defined.

Lemma get_data_rejects_witness :
  get_data (K := good_kernel) (-1) 10 10 good_world = Ret (- E2BIG, []) good_world.
Proof.
  destruct (get_data_rejects (K := good_kernel) good_world (-1) 10 10) as (_ & H & _).
  apply H; [done|by vm_compute].
Defined.
