(* ===== verification/InvalidateData.v ===== *)
(** * invalidate_data(): correctness

    invalidate_data() implements [s_invalidate] of the abstract store: the
    element of the block leaves the list, is freed after the grace period, and
    the metadata of the block say it is free, in memory and on the device. *)
From S2P Require Import Prelude Layout Kernel KernelFacts Rcu Store Device Syscalls DeviceOps.
From S2P Require Import DeviceWp Sample.

Section InvalidateData.
Context {K : Kernel} {KL : KernelLaws K} {C : Config}.
Implicit Types (F : gmap loc obj) (w : world) (s : mstore).

(** The block once its metadata have been rewritten with the validity bit cleared. *)
Definition invalid_block (blk : list byte) : list byte :=
  encode_block (set_is_valid BLK_INVALID (decode_block blk)) ++ payload blk.

Lemma invalid_block_splice b blk :
  block_wf b -> take 10 blk = encode_block b ->
  splice 0 (encode_block (set_is_valid BLK_INVALID b)) blk = invalid_block blk.
Proof.
  intros Hwf Htk. unfold invalid_block, payload. rewrite splice_0, length_encode_block.
  by rewrite <- (decode_block_take blk), Htk, decode_encode.
Qed.

Lemma length_invalid_block blk : length blk = 4096%nat -> length (invalid_block blk) = 4096%nat.
Proof.
  intros Hl. unfold invalid_block, payload. rewrite length_app, length_encode_block, length_drop. lia.
Qed.

(** The part of the critical section after the block has been found and read. *)
Lemma wp_invalidate_commit w F s a vm mps bs es1 es2 i b blk el ps1 ps2 Q :
  let n := Z.of_nat i + NUM_METADATA_BLKS in
  dev_inv_at F s a vm mps bs (es1 ++ elem_of_block i b :: es2) w -> rcu_write_lock w = true ->
  bs !! i = Some b -> is_valid b = BLK_VALID -> block_rep (bufs w) i b ->
  b_data (bufs w) n = Some blk -> heap w !! el = Some (OElem (elem_of_block i b)) ->
  rl_nodes (valid_blk_list w) = ps1 ++ el :: ps2 -> length ps1 = length es1 ->
  (forall h d, let w' := set_lock false (set_bufs (rewritten n d (bufs w))
       (set_heap h (set_list (list_del_rcu el (valid_blk_list w)) w))) in
     dev_inv (<[el := OElem (elem_of_block i b)]> F) w' (s_invalidate (Z.of_nat i) s).2 ->
     same_nodes w w' ->
     b_data (bufs w') n = Some (invalid_block blk) -> Q (inr (Some el, Some n)) w') ->
  wp (on_node list_del_rcu (Some el) ;;;
      let* e := load_elem (Some el) in
      let* p := md_slot (ndx e) in
      let* md := load_blk p in
      store p (OBlk (set_is_valid BLK_INVALID md)) ;;;
      let* e := load_elem (Some el) in
      let* p := md_slot (ndx e) in
      let* md := load_blk p in
      bh_write (Some n) (encode_block md) ;;;
      mark_buffer_dirty (Some n) ;;;
      spin_unlock ;;;
      ret (inr (A := Z) (Some el, Some n))) Q w.
Proof.
  intros n Hi Hlk Hb Hv Hrep Hblk Hel Hps Hlen HQ.
  pose proof (di_mem _ _ _ _ _ _ _ _ Hi) as Hm.
  destruct (dm_block_lookup _ _ _ _ _ _ _ _ _ Hm Hb) as (p & Hp & Hpb).
  pose proof (dm_array _ _ _ _ _ _ _ Hm) as Ha. pose proof (dm_heap_array _ _ _ _ _ _ _ Hm) as Hha.
  assert (p <> el /\ p <> a) as [Hpel Hpa] by (split; intros ->; congruence).
  destruct Hrep as (Hwf & blk' & Hblk' & Hbl & Htk & _).
  fold n in Hblk'. rewrite Hblk in Hblk'. injection Hblk' as <-.
  wp_step. eapply wp_on_node; [done|]. wp_run. simpl ndx.
  eapply wp_md_slot; [exact Ha|exact Hha|by rewrite list_lookup_fmap, Hp|]. wp_run. simpl ndx.
  eapply wp_md_slot; [exact Ha|by simpl; rewrite lookup_insert_ne|by rewrite list_lookup_fmap, Hp|].
  wp_step. eapply wp_load_blk; [simpl; apply lookup_insert_eq|].
  wp_step. eapply wp_bh_write; [exact Hblk|rewrite length_encode_block; lia|]. wp_run.
  rewrite (invalid_block_splice b blk) by done.
  assert (Hst : b_data (b_store n (invalid_block blk) (bufs w)) n = Some (invalid_block blk)).
  { eapply b_data_store; [done|]. rewrite <- (invalid_block_splice b) by done.
    apply length_splice. rewrite length_encode_block; lia. }
  match goal with |- Q _ ?w' => apply (HQ (heap w') (invalid_block blk)); simpl; unfold rewritten end.
  2: { intros q Hq. simpl. rewrite lookup_insert_ne; [done|]. intros ->.
       eapply (dm_block_not_node _ _ _ _ _ _ _ q Hm); [|done]. by eapply list_elem_of_lookup_2. }
  2: by rewrite b_data_mark.
  eapply (dev_inv_invalidate _ _ _ _ _ _ es1 es2 w _ i p b el ps1 ps2 (invalid_block blk));
    try done; cbn [bufs valid_blk_list set_bufs set_heap set_list set_lock].
  - apply rl_nodes_del; [done|]. destruct (dm_list _ _ _ _ _ _ _ Hm) as [Hnd _].
    rewrite Hps in Hnd. by apply NoDup_mid in Hnd as (? & _).
  - by rewrite b_data_mark.
  - by rewrite length_invalid_block.
  - unfold invalid_block. rewrite take_app_length' by (by rewrite length_encode_block).
    by rewrite <- (decode_block_take blk), Htk, decode_encode.
  - intros m Hm'. rewrite b_data_mark. by apply b_data_store_ne.
Qed.

(** The critical section, from a state that represents [s]. *)
Lemma wp_invalidate_critical w F s sb offset :
  dev_inv F w s -> rcu_write_lock w = false -> the_dev_superblock w = Some sb ->
  - 2 ^ 31 <= offset < 2 ^ 31 ->
  wp (invalidate_critical offset)
    (fun r w' => rcu_write_lock w' = false /\ rcu_readers w' = rcu_readers w /\
       the_dev_superblock w' = Some sb /\ same_nodes w w' /\
       match r with
       | inl err => dev_inv F w' s /\ valid_blk_list w' = valid_blk_list w /\
           bh_refs w' = bh_refs w /\ bufs w' = bufs w /\
           (s_invalidate offset s = (err, s) /\ err <> 0 \/
            err = -1 /\ (exists k, bread_ok k = false) /\ exists m, s_msgs s !! Z.to_nat offset = Some m)
       | inr (el, bh) => exists i l e blk c,
           offset = Z.of_nat i /\ el = Some l /\ F !! l = None /\
           l ∈ rl_nodes (valid_blk_list w) /\
           valid_blk_list w' = list_del_rcu l (valid_blk_list w) /\
           ndx e = offset /\ 0 <= el_valid_bytes e <= DEFAULT_BLOCK_SIZE - METADATA_SIZE /\
           bh = Some (Z.of_nat i + NUM_METADATA_BLKS) /\ bh_refs w' = bh_refs w + 1 /\
           (s_invalidate offset s).1 = 0 /\
           dev_inv (<[l := OElem e]> F) w' (s_invalidate offset s).2 /\
           b_data (bufs w) (Z.of_nat i + NUM_METADATA_BLKS) = Some blk /\
           bufs w' = rewritten (Z.of_nat i + NUM_METADATA_BLKS) c (bufs w) /\
           b_data (bufs w') (Z.of_nat i + NUM_METADATA_BLKS) = Some (invalid_block blk)
       end) w.
Proof.
  intros Hi Hlk Hsb Ho. pose proof (dev_inv_cap _ _ _ Hi) as Hcap.
  destruct (Hi) as (a & vm & mps & bs & es & Hi'). pose proof (di_globals _ _ _ _ _ _ _ _ Hi') as Hg.
  unfold invalidate_critical. wp_run. rewrite (dg_mounted _ _ _ Hg). simpl. wp_run.
  rewrite (dg_size _ _ _ Hg), <- (dg_cap _ _ _ Hg), offset_in_range by lia.
  destruct ((0 <=? offset) && (offset <? Z.of_nat (s_cap s)))%bool eqn:Hr; simpl.
  2: { wp_run. split_and!; try done. left. unfold s_invalidate. by rewrite Hr. }
  reflect_bools. wp_run. rewrite Hsb.
  destruct (Z_of_nat_complete offset) as [i ->]; [lia|].
  rewrite u32_small by lia. set (w1 := set_lock true w).
  assert (Hi1 : dev_inv_at F s a vm mps bs es w1) by (by eapply dev_inv_at_ext).
  eapply wp_find_block; [exact Hi1| |].
  { intros Hn. wp_run. split_and!; try done; [by eapply dev_inv_ext|].
    left. rewrite s_invalidate_in, Hn by lia. done. }
  intros b blk ps1 el ps2 es1 es2 Hb Hv Hrep Hblk Hmsg Hps Hes Hlen Hel.
  rewrite u32_small by (unfold NUM_METADATA_BLKS; lia).
  apply wp_bind, wp_sb_bread.
  2: { intros Hio. destruct Hio as [Hio|Hio]; [|congruence]. rewrite decide_True by done. wp_run.
       split_and!; try done; [by eapply dev_inv_ext|]. right. rewrite Nat2Z.id. eauto. }
  intros _ _. rewrite decide_False by done.
  eapply (wp_invalidate_commit _ F s a vm mps bs es1 es2 i b blk el ps1 ps2);
    [eapply dev_inv_at_ext; [rewrite <- Hes; exact Hi1|done..]|done..|].
  intros h c w' Hw' Hsn Hbw. split_and!; try done.
  assert (Hfr : F !! el = None).
  { apply (dm_owned _ _ _ _ _ _ _ (di_mem _ _ _ _ _ _ _ _ Hi1)). apply footprint_node.
    rewrite Hps. set_solver. }
  exists i, el, (elem_of_block i b), blk, c. split_and!; try done.
  - change (valid_blk_list w) with (valid_blk_list w1). rewrite Hps. set_solver.
  - destruct Hrep as [(_ & _ & ?) _]. simpl. lia.
  - destruct Hrep as [_ (? & _ & _ & _ & Hle)]. by apply Hle.
  - by rewrite s_invalidate_in, Hmsg by lia.
Qed.

(** After the grace period the element is freed and the buffer released. *)
Lemma wp_invalidate_finish w F s l e n blk d c :
  dev_inv (<[l := OElem e]> F) w s -> F !! l = None -> unlocked w ->
  bufs w = rewritten n d c -> b_data (bufs w) n = Some blk ->
  wp (invalidate_finish (Some l) (Some n))
    (fun r w' => r = 0 /\ dev_inv F w' s /\ unlocked w' /\ bh_refs w' = bh_refs w - 1 /\
       the_dev_superblock w' = the_dev_superblock w /\ bufs w' = flushed n (bufs w) /\
       (SYNCHRONOUS_PUT_DATA = true -> on_disk (bufs w') n = Some blk)) w.
Proof.
  intros Hi Hl [Hlk Hrd] Hc Hblk. unfold invalidate_finish, invalidate_free. wp_run.
  apply (wp_mono _ (fun _ w1 => dev_inv (<[l := OElem e]> F) w1 s /\ unlocked w1 /\
    bh_refs w1 = bh_refs w /\ the_dev_superblock w1 = the_dev_superblock w /\
    bufs w1 = flushed n (bufs w) /\ (SYNCHRONOUS_PUT_DATA = true -> on_disk (bufs w1) n = Some blk))).
  { unfold flushed. destruct SYNCHRONOUS_PUT_DATA; wp_step; split_and!; try done; simpl.
    - by apply dev_inv_sync.
    - intros _. rewrite Hc, flushed_written by apply pending_rewritten. by rewrite <- Hblk, Hc. }
  intros _ w1 (Hi1 & Hu & ? & ? & ? & Hd1). do 2 wp_step. wp_step.
  assert (Hd : dev_at (set_bh_refs (bh_refs w1 - 1) w1) (<[l := OElem e]> F) s
    (set_bh_refs (bh_refs w1 - 1) w1)) by auto with bldms.
  dwp_run.
  match goal with H : dev_at _ ?F' _ ?w' |- _ /\ dev_inv _ ?w' _ /\ _ =>
    destruct (dev_at_frame _ F _ _ _ H) as [Hi' Hc']; [frame_eq|] end.
  unfold same_ctl in Hc'. simpl in Hc'. destruct Hu. destruct_and!. unfold unlocked.
  split_and!; try congruence. intros Hs. rewrite <- Hd1 by done. congruence.
Qed.

(** The call on a state that represents a store, on every path. *)
Lemma wp_invalidate_data w F s sb offset :
  dev_inv F w s -> unlocked w -> the_dev_superblock w = Some sb ->
  - 2 ^ 31 <= offset < 2 ^ 31 ->
  wp (invalidate_data offset)
    (fun r w' => unlocked w' /\ the_dev_superblock w' = Some sb /\ bh_refs w' = bh_refs w /\
       after_call (bufs w) (bufs w') /\
       ((r = (s_invalidate offset s).1 /\ dev_inv F w' (s_invalidate offset s).2 /\
         (SYNCHRONOUS_PUT_DATA = true -> r = 0 -> exists blk,
            b_data (bufs w) (offset + NUM_METADATA_BLKS) = Some blk /\
            on_disk (bufs w') (offset + NUM_METADATA_BLKS) = Some (invalid_block blk))) \/
        (r = -1 /\ (exists k, bread_ok k = false) /\ dev_inv F w' s /\
           exists m, s_msgs s !! Z.to_nat offset = Some m))) w.
Proof.
  intros Hi [Hlk Hrd] Hsb Ho. unfold invalidate_data. wp_step.
  eapply wp_mono; [by eapply wp_invalidate_critical|].
  intros [err|[el bh]] w1 (Hlk1 & Hrd1 & Hsb1 & _ & Hr).
  all: assert (Hu1 : unlocked w1) by (unfold unlocked; split; congruence).
  - wp_step. destruct Hr as (Hi1 & _ & Hbh & Hbf & [[Hr Hne]|(-> & Hio & Hm)]);
      (split_and!; [done|done|done|by left|]).
    + left. rewrite Hr. split_and!; [done|done|]. simpl. intros _ ->. by destruct Hne.
    + right. done.
  - destruct Hr as (i & l & e & blk & c & -> & -> & Hl & _ & _ & _ & _ & -> & Hbh & Hr0 & Hi1 & Hblk & Hc & Hbd).
    eapply wp_mono; [by eapply wp_invalidate_finish|].
    intros r w2 (-> & Hi2 & Hu2 & Hbh2 & Hsb2 & Hfl & Hd).
    split_and!; try done; [congruence|lia|right; exists i, c; cbv zeta; congruence|].
    left. rewrite Hr0. split_and!; [done..|]. intros Hs _. exists blk. auto.
Qed.

(** C3: invalidate_data() implements the specification of the abstract store: it
    frees the slot of a valid block and returns 0, or returns -E2BIG for a block
    that does not exist, -ENODATA for a block that holds no message and -1 for a
    block that cannot be read, leaving the store unchanged; the removed element
    is freed, after a grace period, with neither a leak nor a double free. With
    SYNCHRONOUS_PUT_DATA the block on the medium is the old one with the
    validity bit cleared: its payload is untouched. *)
Theorem invalidate_data_refines w F s sb offset :
  dev_inv F w s -> unlocked w -> the_dev_superblock w = Some sb ->
  - 2 ^ 31 <= offset < 2 ^ 31 ->
  wp (invalidate_data offset)
    (fun r w' => unlocked w' /\ the_dev_superblock w' = Some sb /\ bh_refs w' = bh_refs w /\
       ((r = (s_invalidate offset s).1 /\ dev_inv F w' (s_invalidate offset s).2 /\
         (SYNCHRONOUS_PUT_DATA = true -> r = 0 -> exists blk,
            b_data (bufs w) (offset + NUM_METADATA_BLKS) = Some blk /\
            on_disk (bufs w') (offset + NUM_METADATA_BLKS) = Some (invalid_block blk))) \/
        (r = -1 /\ (exists k, bread_ok k = false) /\ dev_inv F w' s /\
           exists m, s_msgs s !! Z.to_nat offset = Some m))) w.
Proof. intros. eapply wp_mono; [by eapply wp_invalidate_data|]. by intros r w' (? & ? & ? & _ & ?). Qed.

(** While the file system is being mounted, after fill_super() has set
    bldms_mounted and before mount() has saved the superblock, invalidate_data()
    dereferences the NULL superblock on any valid block: unlike the other two
    calls it does not check it, and it does so with the write lock held. *)
Theorem invalidate_data_null_superblock w F s i m :
  dev_inv F w s -> unlocked w -> the_dev_superblock w = None -> s_msgs s !! i = Some m ->
  invalidate_data (Z.of_nat i) w = Fault NullDeref.
Proof.
  intros Hi [Hlk Hrd] Hsb Hm. pose proof (dev_inv_cap _ _ _ Hi) as Hcap.
  pose proof (dev_inv_wf _ _ _ Hi) as [Hwf _]. apply Hwf in Hm as Hlt.
  destruct (Hi) as (a & vm & mps & bs & es & Hi'). pose proof (di_globals _ _ _ _ _ _ _ _ Hi') as Hg.
  assert (Hi1 : dev_inv_at F s a vm mps bs es (set_lock true w)) by (by eapply dev_inv_at_ext).
  destruct (wp_elim (find_in_list (fun e => ndx e =? Z.of_nat i))
    (fun r w' => r <> None /\ w' = set_lock true w) (set_lock true w)) as (r & w' & Hrun & Hr & ->).
  { eapply wp_find_block; [exact Hi1|congruence|done]. }
  unfold invalidate_data, invalidate_critical, bind, gets, spin_lock, ret.
  rewrite (dg_mounted _ _ _ Hg). simpl.
  rewrite (dg_size _ _ _ Hg), <- (dg_cap _ _ _ Hg), offset_in_range by lia.
  rewrite (proj2 (Z.leb_le _ _)), (proj2 (Z.ltb_lt _ _)) by lia. simpl.
  rewrite u32_small by lia. rewrite Hlk. simpl. rewrite Hrun. destruct r; [|done]. by rewrite Hsb.
Qed.
End InvalidateData.

(** ** Witnesses *)

#[local] Existing Instance sample_config.

Lemma invalidate_data_refines_witness :
  wp (K := good_kernel) (invalidate_data 1)
    (fun r w' => r = 0 /\ dev_inv ∅ w' (MStore 4 0 {[ 0%nat := Msg 200 later_data ]})) good_world.
Proof.
  eapply wp_mono.
  - apply (invalidate_data_refines good_world ∅ sample_store (SB MAGIC true) 1);
      [exact good_world_inv|done|done|lia].
  - intros r w' (_ & _ & _ & [(-> & Hi & _)|(_ & Hk & _)]); [|by destruct always_true].
    split; [done|]. exact Hi.
Defined.

Lemma invalidate_data_null_superblock_witness :
  invalidate_data (K := good_kernel) 1 (set_the_dev_superblock None good_world) = Fault NullDeref.
Proof.
  apply (invalidate_data_null_superblock (set_the_dev_superblock None good_world) ∅ sample_store 1
    (Msg 100 sample_data)); [|done|done|done].
  apply (sample_inv always always Z.of_nat None ∅); done.
Defined.
