(* ===== verification/FileOps.v ===== *)
(** * The operations of the single file (file_ops.c)

    read(), lookup(), open(), release() and llseek().  An open file is a value
    of [file]; the memory its [private_data] points to, the timestamp of the next
    expected message, is in the heap. *)
From S2P Require Import Prelude Layout Kernel KernelFacts Rcu Store Device.
From Stdlib Require Import Strings.String.

Definition O_ACCMODE : Z := 3.
Definition O_RDONLY : Z := 0.
Definition O_RDWR : Z := 2.
Definition SEEK_SET : Z := 0.
Definition UNIQUE_FILE_NAME : string := "the_file"%string.

(** The part of [struct file] the driver uses; [i_size] and [i_sb] are those of
    its inode. *)
Record file := File {
  f_flags : Z;
  private_data : option loc;
  f_pos : Z;
  i_size : Z;
  i_sb : option super_block
}.

Definition set_private (p : option loc) (f : file) : file :=
  File (f_flags f) p (f_pos f) (i_size f) (i_sb f).
Definition set_pos (off : Z) (f : file) : file :=
  File (f_flags f) (private_data f) off (i_size f) (i_sb f).

Lemma set_pos_same f : set_pos (f_pos f) f = f.
Proof. by destruct f. Qed.

Section FileOps.
Context {K : Kernel}.

(** ** bldms_read() *)

(** Reading the local variable [ret], which one path leaves uninitialised. *)
Definition use_local (ret_ : option Z) : M Z :=
  match ret_ with Some r => ret r | None => fail UninitRead end.

(** Lines 192-201, the label [end_of_msgs]; [data] has been copied to the user. *)
Definition end_of_msgs (ret_ : option Z) (data : list byte) (f : file)
    : M (Z * list byte * file) :=
  let f := set_pos (i_size f) f in
  rcu_read_unlock ;;;
  let* r := use_local ret_ in
  ret (if 0 <? r then r else 0, data, f).

(** Line 161: rcu_next_elem(), the element after [rcu_el] if there is one. *)
Definition next_elem (rcu_el : loc) : M (option loc) :=
  let* _ := load_elem (Some rcu_el) in
  gets (fun w => rl_next (valid_blk_list w) rcu_el).

(** Lines 162-190: the session moves on to [next_el]. *)
Definition advance_session (next_el : option loc) (ret_ : option Z) (data : list byte) (f : file)
    : M (Z * list byte * file) :=
  if decide (next_el = None) then end_of_msgs ret_ data f else
  let* next_ts := kzalloc (OTime 0) in
  if decide (next_ts = None) then rcu_read_unlock ;;; ret (- ENOMEM, data, f) else
  let* next := load_elem next_el in
  store next_ts (OTime (el_nsec next)) ;;;
  let old_session_metadata := private_data f in
  let f := set_private next_ts f in
  kfree old_session_metadata ;;;
  let* next := load_elem next_el in
  let f := set_pos (s64 (u64 (u32 (ndx next * DEFAULT_BLOCK_SIZE) + METADATA_SIZE))) f in
  rcu_read_unlock ;;;
  let* r := use_local ret_ in
  ret (r, data, f).

(** Lines 159-190, the label [set_next_blk]. *)
Definition set_next_blk (rcu_el : loc) (ret_ : option Z) (data : list byte) (f : file)
    : M (Z * list byte * file) :=
  let* next_el := next_elem rcu_el in
  advance_session next_el ret_ data f.

(** Lines 93-113: the element to be read, and whether it is one later than the
    expected timestamp and not the requested block. *)
Fixpoint find_to_read (device_blk : Z) (next_ts : option loc) (nodes : list loc)
    : M (option (loc * bool)) :=
  match nodes with
  | [] => ret None
  | p :: nodes' =>
    let* e := load_elem (Some p) in
    if ndx e =? device_blk then ret (Some (p, false)) else
    let* t := load_time next_ts in
    if t <? el_nsec e then ret (Some (p, true)) else find_to_read device_blk next_ts nodes'
  end.

(** Lines 127-157: [rcu_el] is read at [offset] of its block; the result of the call,
    or the values with which it goes on at [set_next_blk]. *)
Definition read_copy (cap : nat) (rcu_el : loc) (block_to_read offset len : Z) (f : file)
    : M (Z * list byte * file + option Z * list byte * file) :=
  let* e := load_elem (Some rcu_el) in
  if el_valid_bytes e <? u64 (offset - METADATA_SIZE) then ret (inr (None, [], f)) else
  let len := if el_valid_bytes e <? u64 (len + offset - METADATA_SIZE)
             then u64 (el_valid_bytes e - u64 (offset - METADATA_SIZE)) else len in
  let* bh := sb_bread (i_sb f) block_to_read in
  if decide (bh = None) then rcu_read_unlock ;;; ret (inl (- EIO, [], f)) else
  let* d := bh_data bh in
  let* cu := copy_to_user cap d offset len in
  let ret_ := s32 cu.1 in
  let* e := load_elem (Some rcu_el) in
  if negb (ret_ =? 0) || (u64 (offset + len - ret_) <? u64 (el_valid_bytes e + METADATA_SIZE)) then
    let f := set_pos (s64 (f_pos f + u64 (len - ret_))) f in
    brelse bh ;;;
    rcu_read_unlock ;;;
    ret (inl (s64 (u64 (len - ret_)), cu.2, f))
  else
    brelse bh ;;;
    ret (inr (Some (s32 (len - ret_)), cu.2, f)).

Definition read_block (cap : nat) (rcu_el : loc) (block_to_read offset len : Z) (f : file)
    : M (Z * list byte * file) :=
  let* r := read_copy cap rcu_el block_to_read offset len f in
  match r with
  | inl r => ret r
  | inr (ret_, data, f) => set_next_blk rcu_el ret_ data f
  end.

(** Lines 107-111: the session skips to [rcu_el]; the block to read, the number of
    bytes and the file. *)
Definition skip_to (rcu_el : loc) (len : Z) (f : file) : M (Z * Z * file) :=
  let* e := load_elem (Some rcu_el) in
  let device_blk := ndx e in
  let block_to_read := u32 (device_blk + NUM_METADATA_BLKS) in
  let f := set_pos (s64 (u64 (u32 (device_blk * DEFAULT_BLOCK_SIZE) + METADATA_SIZE))) f in
  let len := if el_valid_bytes e <? len then el_valid_bytes e else len in
  ret (block_to_read, len, f).

(** Lines 64-83: [None] at the end of the file, and otherwise the file with its
    position past the metadata of the block, the offset in the block and the
    number of bytes to read. *)
Definition read_window (len : Z) (f : file) : option (file * Z * Z) :=
  let file_sz := u64 (i_size f) in
  let pos := s64 (f_pos f + NUM_METADATA_BLKS * DEFAULT_BLOCK_SIZE) in
  if file_sz <=? u64 pos then None else
  let len := if file_sz <? u64 (pos + len) then u64 (file_sz - f_pos f) else len in
  let offset := Z.rem (f_pos f) DEFAULT_BLOCK_SIZE in
  let '(f, offset) :=
    if u64 offset <? METADATA_SIZE
    then (set_pos (s64 (u64 (f_pos f + (METADATA_SIZE - offset)))) f, METADATA_SIZE)
    else (f, offset) in
  let len := if DEFAULT_BLOCK_SIZE <? u64 (offset + len) then u64 (DEFAULT_BLOCK_SIZE - offset)
             else len in
  Some (f, offset, len).

(** [read(filp, buf, len, off)], where [off] is [f_pos f] and [cap] bytes of the
    user buffer can be written: the result, the bytes copied and the file. *)
Definition bldms_read (cap : nat) (len : Z) (f : file) : M (Z * list byte * file) :=
  match read_window len f with
  | None => ret (0, [], f)
  | Some (f, offset, len) =>
  let device_blk := u32 (Z.quot (f_pos f) DEFAULT_BLOCK_SIZE) in
  let block_to_read := u32 (device_blk + NUM_METADATA_BLKS) in
  rcu_read_lock ;;;
  let* nodes := gets (fun w => rl_nodes (valid_blk_list w)) in
  let* found := find_to_read device_blk (private_data f) nodes in
  match found with
  | None => end_of_msgs (Some 0) [] f
  | Some (rcu_el, false) => read_block cap rcu_el block_to_read offset len f
  | Some (rcu_el, true) =>
    let* t := skip_to rcu_el len f in
    let '(block_to_read, len, f) := t in
    read_block cap rcu_el block_to_read METADATA_SIZE len f
  end
  end.

(** ** bldms_lookup() *)

(** The fields of a new inode the driver sets. *)
Record new_inode := NewInode { ni_ino : Z; ni_mode : Z; ni_nlink : Z; ni_size : Z }.

Inductive lookup_result :=
  | LookupNull                             (* NULL *)
  | LookupErr (err : Z)                    (* ERR_PTR(err) *)
  | LookupDentry (i : option new_inode).   (* the dentry, with its inode if new *)

Definition S_IFREG : Z := 0x8000.
Definition S_IFDIR : Z := 0x4000.
(** S_IRUSR | S_IRGRP | S_IROTH | S_IWUSR | S_IWGRP | S_IWOTH *)
Definition rw_for_all : Z := 0x1b6.

Definition bldms_lookup (sb : option super_block) (name : string) : M lookup_result :=
  if String.eqb UNIQUE_FILE_NAME name then
    let* var_inode := answer iget_locked in
    match var_inode with
    | None => ret (LookupErr (- ENOMEM))
    | Some is_new =>
      if negb is_new then ret (LookupDentry None) else
      let* bh := sb_bread sb BLDMS_INODES_BLOCK_NUMBER in
      if decide (bh = None) then ret (LookupErr (- EIO)) else
      let* d := bh_data bh in
      let size := s64 (inode_file_size d) in
      brelse bh ;;;
      ret (LookupDentry (Some (NewInode 1 (Z.lor S_IFREG rw_for_all) 1 size)))
    end
  else ret LookupNull.

(** ** bldms_open(), bldms_release(), bldms_llseek() *)

Definition opened_for_reading (f : file) : bool :=
  (Z.land (f_flags f) O_ACCMODE =? O_RDONLY) || (Z.land (f_flags f) O_ACCMODE =? O_RDWR).

Definition try_module_get : M unit := modify (fun w => set_module_refs (module_refs w + 1) w).
Definition module_put : M unit := modify (fun w => set_module_refs (module_refs w - 1) w).

Definition bldms_open (f : file) : M (Z * file) :=
  let* mounted := gets bldms_mounted in
  if mounted =? 0 then ret (- ENODEV, f) else
  try_module_get ;;;
  if opened_for_reading f then
    let* nsec := kzalloc (OTime 0) in
    if decide (nsec = None) then ret (- ENOMEM, f) else
    store nsec (OTime 0) ;;;
    ret (0, set_private nsec f)
  else ret (0, f).

Definition bldms_release (f : file) : M Z :=
  let* mounted := gets bldms_mounted in
  if mounted =? 0 then ret (- ENODEV) else
  (if opened_for_reading f then
     if decide (private_data f = None) then ret tt else kfree (private_data f)
   else ret tt) ;;;
  module_put ;;;
  ret 0.

Definition bldms_llseek (off whence : Z) (f : file) : M (Z * file) :=
  let* mounted := gets bldms_mounted in
  if mounted =? 0 then ret (- ENODEV, f) else
  if whence =? SEEK_SET then
    if (off =? 0) && bool_decide (private_data f <> None) then
      let* nsec := kzalloc (OTime 0) in
      if decide (nsec = None) then ret (- ENOMEM, f) else
      store nsec (OTime 0) ;;;
      let old_nsec := private_data f in
      let f := set_pos 0 (set_private nsec f) in
      kfree old_nsec ;;;
      ret (0, f)
    else ret (- EINVAL, f)
  else ret (- EINVAL, f).

(** ** A reader

    A process that calls read() with a buffer of [len] bytes until it returns 0
    (user/user.c, main()): the bytes of each call, in order, and what the last
    call returned. *)
Fixpoint read_until_eof (fuel : nat) (len : Z) (f : file) : M (Z * list (list byte) * file) :=
  match fuel with
  | O => fail NoFuel
  | S fuel' =>
    let* r := bldms_read (Z.to_nat len) len f in
    let '(n, data, f) := r in
    if n <=? 0 then ret (n, [], f) else
    let* rs := read_until_eof fuel' len f in
    let '(last, datas, f) := rs in
    ret (last, data :: datas, f)
  end.
End FileOps.
