(* ===== verification/ReadOrder.v ===== *)
(** * read(): correctness

    A session delivers the messages in timestamp order, each of them exactly
    once and in as many pieces as the buffer of the reader imposes. *)
From S2P Require Import Prelude Layout Kernel KernelFacts Rcu Store Device DeviceOps DeviceWp.
From S2P Require Import Sample FileOps.

Section ReadOrder.
Context {K : Kernel} {KL : KernelLaws K} {C : Config}.
Implicit Types (F : gmap loc obj) (w : world) (s : mstore) (f : file) (e : rcu_elem).

(** ** The search for the element to read *)

Definition skipped (k t : Z) (e : rcu_elem) : Prop := ndx e <> k /\ el_nsec e <= t.

Lemma wp_find_to_read k p t ps es w Q :
  heap w !! p = Some (OTime t) -> elems_at (heap w) ps es ->
  (Forall (skipped k t) es -> Q None w) ->
  (forall ps1 q ps2 es1 e es2, ps = ps1 ++ q :: ps2 -> es = es1 ++ e :: es2 ->
     length ps1 = length es1 -> heap w !! q = Some (OElem e) -> Forall (skipped k t) es1 ->
     ndx e = k \/ ndx e <> k /\ t < el_nsec e -> Q (Some (q, negb (ndx e =? k))) w) ->
  wp (find_to_read k (Some p) ps) Q w.
Proof.
  intros Hp Hel. revert Q. induction Hel as [|q e ps es Hq Hel IH]; intros Q HN HS; simpl.
  - wp_step. by apply HN.
  - wp_run. destruct (ndx e =? k) eqn:Hk; reflect_bools.
    { wp_step. pose proof (HS [] q ps [] e es) as H.
      rewrite (proj2 (Z.eqb_eq _ _) Hk) in H. apply H; auto. }
    wp_run. destruct (t <? el_nsec e) eqn:Ht; reflect_bools.
    { wp_step. pose proof (HS [] q ps [] e es) as H.
      rewrite (proj2 (Z.eqb_neq _ _) Hk) in H. apply H; auto. }
    apply IH.
    + intros Hall. apply HN. by constructor.
    + intros ps1 q' ps2 es1 x es2 -> -> Hlen Hq' Hall Hx.
      apply (HS (q :: ps1) q' ps2 (e :: es1) x es2); simpl; auto. by constructor.
Qed.

(** ** Moving to the next message *)

(** The list holds [es] and the rest is as in [w0]. *)
Definition reads_at (w0 : world) (F : gmap loc obj) (s : mstore) (es : list rcu_elem) (w : world)
    : Prop := dev_inv_es F s es w /\ same_ctl w0 w.

Lemma reads_at_set_readers w0 F s es w n :
  reads_at w0 F s es w -> reads_at (set_readers n w0) F s es (set_readers n w).
Proof.
  intros [Hi Hc]. split; [by eapply dev_inv_es_ext|].
  unfold same_ctl in *. simpl. by destruct_and!.
Qed.

Lemma reads_at_weaken w0 w1 F s es w n :
  same_ctl w0 w1 -> reads_at (set_readers n w1) F s es w -> reads_at (set_readers n w0) F s es w.
Proof.
  intros H [Hi Hc]. split; [done|]. unfold same_ctl in *. simpl in *. destruct_and!.
  split_and!; congruence.
Qed.

(** Where a session stands after it has read all of a message: at the end of the
    file or at the next message of the list. *)
Definition moved (F : gmap loc obj) (p : loc) (f : file) (es2 : list rcu_elem)
    (F' : gmap loc obj) (f' : file) : Prop :=
  match es2 with
  | [] => F' = F /\ f' = set_pos (i_size f) f
  | e' :: _ => exists p', F !! p' = None /\
      F' = <[p' := OTime (el_nsec e')]> (delete p F) /\
      f' = set_pos (4096 * ndx e' + 10) (set_private (Some p') f)
  end.

Lemma wp_set_next_blk F s a vm mps bs es w f p t n ps1 q ps2 es1 e es2 r data Q :
  dev_inv_at F s a vm mps bs es w -> F !! p = Some (OTime t) -> private_data f = Some p ->
  rcu_readers w = S n -> rl_nodes (valid_blk_list w) = ps1 ++ q :: ps2 ->
  es = es1 ++ e :: es2 -> length ps1 = length es1 -> 0 <= r ->
  (forall f' F' w', moved F p f es2 F' f' -> reads_at (set_readers n w) F' s es w' ->
     Q (r, data, f') w') ->
  (forall w', es2 <> [] -> (exists k, kzalloc_ok k = false) -> reads_at (set_readers n w) F s es w' ->
     Q (- ENOMEM, data, f) w') ->
  wp (set_next_blk q (Some r) data f) Q w.
Proof.
  intros Hi Hp Hf Hn Hps Hes Hlen Hr HS HN.
  pose proof (di_mem _ _ _ _ _ _ _ _ Hi) as Hm.
  assert (Hies : dev_inv_es F s es w) by (by do 4 eexists).
  assert (Hdi : dev_inv F w s) by (by eapply dev_inv_es_inv).
  destruct (dm_list _ _ _ _ _ _ _ Hm) as [Hnd Hel]. rewrite Hps in Hnd, Hel.
  destruct (dm_frame_lookup _ _ _ _ _ _ _ _ _ Hm Hp) as [Hph Hpf].
  apply NoDup_mid in Hnd as (Hq1 & Hq2 & _). rewrite Hes in Hel.
  apply elems_at_app in Hel as [_ Hel]; [|done].
  apply Forall2_cons in Hel as [Hq Hel].
  unfold set_next_blk, next_elem, advance_session, use_local. wp_run. rewrite (rl_next_spec q _ ps1 ps2) by done.
  destruct Hel as [|q' e' ps2 es2 Hq' _]; simpl.
  { unfold end_of_msgs, use_local. wp_run.
    replace (if 0 <? r then r else 0) with r by (destruct (Z.ltb_spec 0 r); lia).
    apply (HS _ F); [by split|]. by apply reads_at_set_readers. }
  wp_step. apply wp_kzalloc; cbv beta.
  2: { intros Hkz. rewrite decide_True by done. wp_run. simpl. apply HN; [done..|].
       apply (reads_at_set_readers w F s es (tick w)). split; [by eapply dev_inv_es_ext|done]. }
  rewrite decide_False by done. destruct (dev_inv_brk _ _ _ Hdi) as [Hb HFb].
  assert (Hqb : q' <> brk w) by congruence. assert (Hpb : p <> brk w) by congruence.
  assert (Hpq : p <> q').
  { intros ->. apply Hpf, footprint_node. rewrite Hps. set_solver. }
  rewrite Hf. wp_run. simpl.
  destruct (dev_elem _ _ _ _ _ _ _ _ e' Hi) as (i & b & _ & He' & _ & Hi' & _);
    [rewrite Hes; set_solver|].
  pose proof (dev_inv_cap _ _ _ Hdi) as Hcap.
  assert (Hpos : s64 (u64 (u32 (ndx e' * DEFAULT_BLOCK_SIZE) + METADATA_SIZE)) = 4096 * ndx e' + 10).
  { rewrite He'. simpl. unfold DEFAULT_BLOCK_SIZE, METADATA_SIZE.
    rewrite u32_small, u64_small, s64_small by lia. lia. }
  rewrite Hpos. eapply HS; [eexists; split_and!; done|].
  apply (reads_at_set_readers w). split; [|done].
  set (F1 := <[brk w := OTime 0]> F).
  set (F2 := <[brk w := OTime (el_nsec e')]> F1).
  assert (H1 : dev_inv_es F1 s es (alloc (OTime 0) (tick w))) by (by apply dev_inv_es_alloc).
  pose proof (dev_inv_es_store F1 _ s es (brk w) _ (OTime (el_nsec e')) (lookup_insert_eq _ _ _) H1) as H2.
  assert (Hp2 : F2 !! p = Some (OTime t)) by (unfold F2, F1; by rewrite !lookup_insert_ne).
  pose proof (dev_inv_es_delete _ _ s es p _ Hp2 H2) as H3.
  refine (eq_ind _ (fun F' => dev_inv_es F' s es _) H3 _ _). unfold F2, F1. frame_eq.
Qed.

(** The same jump without a value for [ret]. *)
Lemma fault_set_next_blk F s w f p t n q ps e es data :
  (forall k, kzalloc_ok k = true) -> dev_inv_es F s (e :: es) w -> F !! p = Some (OTime t) ->
  private_data f = Some p -> rcu_readers w = S n -> rl_nodes (valid_blk_list w) = q :: ps ->
  elems_at (heap w) (q :: ps) (e :: es) ->
  set_next_blk q None data f w = Fault UninitRead.
Proof.
  intros Hkz Hi Hp Hf Hn Hps Hel. apply Forall2_cons in Hel as [Hq Hel].
  assert (Hdi : dev_inv F w s) by (by eapply dev_inv_es_inv).
  destruct (dev_inv_brk _ _ _ Hdi) as [Hb _]. pose proof (dev_inv_lookup _ _ _ _ _ Hdi Hp) as Hph.
  unfold set_next_blk, next_elem, advance_session. apply fault_bind. wp_step. wp_step; [exact Hq|]. wp_step.
  rewrite (rl_next_spec q _ [] ps) by (done || apply not_elem_of_nil).
  destruct Hel as [|q' e' ps' es' Hq' _]; simpl.
  { unfold end_of_msgs. fault_step; [exact Hn|]. done. }
  fault_step; [|by intros [k Hk]; rewrite Hkz in Hk]. rewrite decide_False by done.
  assert (q' <> brk w) by congruence. assert (p <> brk w) by congruence.
  assert (p <> q') by congruence. rewrite Hf.
  fault_step; [heap_lookup|]. fault_step; [heap_lookup|]. fault_step; [heap_lookup|done|].
  fault_step; [heap_lookup|]. fault_step; [exact Hn|]. done.
Qed.

(** ** Reading from a block *)

(** The bytes of the message of block [b] from byte [d] on, [m] of them. *)
Definition piece (b : bldms_block) (blk : list byte) (d m : Z) : list byte :=
  take (Z.to_nat m) (drop (Z.to_nat d) (take (Z.to_nat (valid_bytes b)) (payload blk))).

Lemma piece_of_block b blk d m :
  0 <= d -> 0 <= m -> d + m <= valid_bytes b ->
  take (Z.to_nat m) (drop (Z.to_nat (10 + d)) blk) = piece b blk d m.
Proof.
  intros Hd Hm Hv. unfold piece, payload. rewrite skipn_firstn_comm, take_take.
  rewrite Nat.min_l by lia. rewrite drop_drop. f_equal. f_equal. lia.
Qed.

Section Block.
Context (F : gmap loc obj) (s : mstore) (a : loc) (vm : bool) (mps : list loc)
  (bs : list bldms_block) (es1 es2 : list rcu_elem) (w : world).
Context (p q : loc) (t : Z) (n i : nat) (ps1 ps2 : list loc) (b : bldms_block) (blk : list byte)
  (sb : super_block) (cap : nat).
Hypothesis Hi : dev_inv_at F s a vm mps bs (es1 ++ elem_of_block i b :: es2) w.
Hypothesis Hp : F !! p = Some (OTime t).
Hypothesis Hn : rcu_readers w = S n.
Hypothesis Hps : rl_nodes (valid_blk_list w) = ps1 ++ q :: ps2.
Hypothesis Hlen : length ps1 = length es1.
Hypothesis Hq : heap w !! q = Some (OElem (elem_of_block i b)).
Hypothesis Hblk : b_data (bufs w) (Z.of_nat i + NUM_METADATA_BLKS) = Some blk.
Hypothesis Hbl : length blk = 4096%nat.
Hypothesis Hvb : 0 <= valid_bytes b <= 4086.

(** The outcomes of reading [m] bytes from byte [d] of the message. *)
Definition read_outcome (f : file) (d m : Z) (r : Z * list byte * file) (w' : world) : Prop :=
  let es := es1 ++ elem_of_block i b :: es2 in
  (reads_at (set_readers n w) F s es w' /\ r = (- EIO, [], f) /\ exists k, bread_ok k = false) \/
  (reads_at (set_readers n w) F s es w' /\ d + m < valid_bytes b /\
     r = (m, piece b blk d m, set_pos (f_pos f + m) f)) \/
  (d + m = valid_bytes b /\ exists f' F', moved F p f es2 F' f' /\
     reads_at (set_readers n w) F' s es w' /\ r = (m, piece b blk d m, f')) \/
  (reads_at (set_readers n w) F s es w' /\ d + m = valid_bytes b /\ (exists k, kzalloc_ok k = false) /\
     r = (- ENOMEM, piece b blk d m, f)).

Lemma wp_read_block f d len :
  private_data f = Some p -> i_sb f = Some sb -> 0 <= d <= valid_bytes b -> 0 <= len <= 4096 ->
  0 <= f_pos f < 2 ^ 62 ->
  wp (read_block cap q (Z.of_nat i + NUM_METADATA_BLKS) (METADATA_SIZE + d) len f)
    (read_outcome f d (Z.min (Z.min len (valid_bytes b - d)) (Z.of_nat cap))) w.
Proof.
  intros Hf Hsb Hd Hl Hpos. set (es := es1 ++ elem_of_block i b :: es2).
  assert (Hdi : dev_inv_es F s es w) by (by do 4 eexists).
  unfold METADATA_SIZE, read_block, read_copy. wp_run. simpl el_valid_bytes.
  replace (10 + d - METADATA_SIZE) with d by (unfold METADATA_SIZE; lia).
  rewrite u64_small, (proj2 (Z.ltb_ge _ _)) by lia.
  replace (len + (10 + d) - METADATA_SIZE) with (len + d) by (unfold METADATA_SIZE; lia).
  rewrite !u64_small by lia.
  set (len' := if valid_bytes b <? len + d then valid_bytes b - d else len).
  assert (Hl' : len' = Z.min len (valid_bytes b - d)).
  { unfold len'. destruct (Z.ltb_spec (valid_bytes b) (len + d)); lia. }
  clearbody len'. rewrite Hsb. wp_step. apply wp_sb_bread; cbv beta.
  2: { intros [Hio|Hio]; [|congruence]. rewrite decide_True by done. wp_run.
       left. split_and!; [|done|done]. apply (reads_at_set_readers w F s es (tick w)).
       split; [by eapply dev_inv_es_ext|done]. }
  intros _ _. rewrite decide_False by done. wp_step. eapply wp_bh_data; [exact Hblk|].
  wp_step. apply wp_copy_to_user; [lia..|]. cbv zeta. cbn [fst snd].
  set (c := Z.min len' (Z.of_nat cap)).
  assert (Hc : 0 <= c <= len') by lia. rewrite s32_small by lia. wp_run. simpl el_valid_bytes.
  replace (10 + d + len' - (len' - c)) with (10 + d + c) by lia.
  replace (len' - (len' - c)) with c by lia.
  unfold METADATA_SIZE. rewrite !u64_small by lia.
  rewrite (piece_of_block b blk d c) by lia.
  replace (Z.min (Z.min len (valid_bytes b - d)) (Z.of_nat cap)) with c by lia.
  set (w2 := set_bh_refs (bh_refs w + 1) (tick w)).
  assert (Hbr : forall w', w' = set_bh_refs (bh_refs w2 - 1) w2 -> rcu_readers w' = S n /\
     dev_inv_at F s a vm mps bs (es1 ++ elem_of_block i b :: es2) w' /\ same_ctl w w').
  { intros w' ->. split_and!; [done|by eapply dev_inv_at_ext|].
    unfold same_ctl; simpl. split_and!; try done. lia. }
  destruct (negb (len' - c =? 0) || (10 + d + c <? valid_bytes b + 10)) eqn:Hcase.
  - wp_run. right; left. split_and!; [..|].
    + apply reads_at_set_readers. destruct (Hbr _ eq_refl) as (_ & Hi2 & Hc2).
      split; [by do 4 eexists|done].
    + apply orb_true_iff in Hcase as [Hcase|Hcase]; reflect_bools; lia.
    + rewrite !s64_small by lia. done.
  - reflect_bools. wp_step. wp_step. destruct (Hbr _ eq_refl) as (Hn2 & Hi2 & Hc2).
    rewrite s32_small by lia. eapply wp_set_next_blk; try done.
    + lia.
    + intros f' F' w' Hmv Hat. right; right; left. split; [lia|]. exists f', F'.
      split_and!; [done|by eapply reads_at_weaken|done].
    + intros w' _ Hkz Hat. right; right; right. split_and!; [by eapply reads_at_weaken|lia|done|done].
Qed.
End Block.

(** ** The session *)

(** The next read() of [f] will continue with byte [d] of the message of [e],
    whose position in the list is given by [es1]: either [e] is the element of
    the block of [f_pos f], or that block has no element before [e] and [e] is
    the first one later than the timestamp [t] saved in the session. *)
Definition at_message (F : gmap loc obj) (f : file) (p : loc) (t : Z) (es1 : list rcu_elem)
    (e : rcu_elem) (d : Z) : Prop :=
  let k := f_pos f / 4096 in
  private_data f = Some p /\ F !! p = Some (OTime t) /\
  Forall (skipped k t) es1 /\
  (ndx e = k /\ d = Z.max (f_pos f mod 4096 - 10) 0 \/ ndx e <> k /\ t < el_nsec e /\ d = 0).

(** The bytes one read() of [len] bytes returns, when [left] are left of the message. *)
Definition chunk (f : file) (cap : nat) (len left : Z) : Z :=
  Z.min (Z.min len left) (Z.min (Z.of_nat cap) (4086 - Z.max (f_pos f mod 4096 - 10) 0)).

(** The session is inside the part of the file read() serves. *)
Definition readable (s : mstore) (f : file) : Prop :=
  i_size f = 4096 * Z.of_nat (s_cap s) /\ 0 <= f_pos f /\ f_pos f + 8192 < i_size f.

Lemma read_window_spec s f len :
  readable s f -> Z.of_nat (s_cap s) < 2 ^ 19 -> 0 <= len < 2 ^ 31 ->
  read_window len f =
    Some (set_pos (f_pos f + Z.max (10 - f_pos f mod 4096) 0) f, Z.max (f_pos f mod 4096) 10,
          Z.min len (4096 - Z.max (f_pos f mod 4096) 10)).
Proof.
  intros (Hsz & Ho & Hlt) Hcap Hl. unfold read_window, NUM_METADATA_BLKS, DEFAULT_BLOCK_SIZE, METADATA_SIZE.
  rewrite Z.rem_mod_nonneg by lia. set (r := f_pos f mod 4096).
  assert (Hr : 0 <= r < 4096) by (apply Z.mod_pos_bound; lia).
  assert (Hq : f_pos f = 4096 * (f_pos f / 4096) + r) by (apply Z.div_mod; lia).
  rewrite (u64_small (i_size f)), s64_small by lia. change (2 * 4096) with 8192.
  rewrite (u64_small (f_pos f + 8192)), (proj2 (Z.leb_gt _ _)) by lia.
  rewrite (u64_small (f_pos f + 8192 + len)), (u64_small (i_size f - f_pos f)), (u64_small r) by lia.
  set (len1 := if i_size f <? f_pos f + 8192 + len then i_size f - f_pos f else len).
  assert (Hl1 : 0 <= len1 < 2 ^ 32 /\ (len1 = len \/ 4096 - r <= len /\ 4096 <= len1)).
  { unfold len1. destruct (Z.ltb_spec (i_size f) (f_pos f + 8192 + len)); [|lia].
    split; [lia|right]. rewrite Hsz in *. nia. }
  clearbody len1 r. destruct (Z.ltb_spec r 10).
  - rewrite (u64_small (f_pos f + (10 - r))), s64_small by lia. rewrite !u64_small by lia.
    rewrite (Z.max_r r), (Z.max_l (10 - r)) by lia.
    do 2 f_equal. destruct (Z.ltb_spec 4096 (10 + len1)); lia.
  - rewrite !u64_small by lia. rewrite (Z.max_l r), (Z.max_r (10 - r)) by lia.
    rewrite Z.add_0_r, set_pos_same.
    do 2 f_equal. destruct (Z.ltb_spec 4096 (r + len1)); lia.
Qed.

Lemma wp_bldms_read F s a vm mps bs es1 i b blk es2 w f p t d sb cap len :
  dev_inv_at F s a vm mps bs (es1 ++ elem_of_block i b :: es2) w ->
  bs !! i = Some b -> b_data (bufs w) (Z.of_nat i + NUM_METADATA_BLKS) = Some blk ->
  length blk = 4096%nat -> 0 <= valid_bytes b <= 4086 -> (i < s_cap s)%nat ->
  readable s f -> i_sb f = Some sb -> 0 <= len < 2 ^ 31 ->
  at_message F f p t es1 (elem_of_block i b) d -> d <= valid_bytes b ->
  wp (bldms_read cap len f)
    (read_outcome F s es1 es2 w p (rcu_readers w) i b blk
       (set_pos (4096 * Z.of_nat i + 10 + d) f) d (chunk f cap len (valid_bytes b - d))) w.
Proof.
  intros Hi Hb Hblk Hbl Hvb Hic Hrd Hsb Hl (Hf & Hp & Hall & He) Hd.
  assert (Hcap : Z.of_nat (s_cap s) < 2 ^ 19).
  { assert (dev_inv F w s) as Hdi by (by do 5 eexists). pose proof (dev_inv_cap _ _ _ Hdi). lia. }
  unfold bldms_read. rewrite (read_window_spec s f len) by done.
  destruct Hrd as (Hsz & Ho & Hlt). unfold chunk. set (o := f_pos f) in *. set (r := o mod 4096) in *.
  assert (Hr : 0 <= r < 4096) by (apply Z.mod_pos_bound; lia).
  set (k := o / 4096) in *. assert (Hq : o = 4096 * k + r) by (apply Z.div_mod; lia).
  clearbody k r. cbn [f_pos set_pos private_data].
  rewrite Z.quot_div_nonneg by (unfold DEFAULT_BLOCK_SIZE; lia).
  replace ((o + Z.max (10 - r) 0) / DEFAULT_BLOCK_SIZE) with k.
  2: { apply (Z.div_unique_pos _ _ _ (Z.max r 10)); unfold DEFAULT_BLOCK_SIZE; lia. }
  rewrite (u32_small k) by lia. wp_run. rewrite Hf.
  set (w1 := set_readers (S (rcu_readers w)) w).
  assert (Hi1 : dev_inv_at F s a vm mps bs (es1 ++ elem_of_block i b :: es2) w1)
    by (by eapply dev_inv_at_ext).
  pose proof (di_mem _ _ _ _ _ _ _ _ Hi1) as Hm.
  destruct (dm_list _ _ _ _ _ _ _ Hm) as [_ Hel].
  destruct (dm_frame_lookup _ _ _ _ _ _ _ _ _ Hm Hp) as [Hph _].
  eapply wp_find_to_read; [exact Hph|exact Hel|..].
  { intros Hno. apply Forall_app in Hno as [_ Hno]. apply Forall_cons in Hno as [[? ?] _].
    destruct He as [[? _]|(_ & ? & _)]; [done|]. simpl in *. lia. }
  intros ps1 q ps2 es1' e' es2' Hps Hes Hlen Hq' Hall' He'.
  destruct (first_split (skipped k t) es1 (elem_of_block i b) es2 es1' e' es2')
    as (<- & <- & <-); try done.
  { intros [? ?]. destruct He as [[? _]|(_ & ? & _)]; [done|]. simpl in *. lia. }
  { intros [? ?]. destruct He' as [?|[_ ?]]; [done|]. lia. }
  assert (Hblock : forall d' len', d' <= valid_bytes b -> 0 <= d' -> 0 <= len' <= 4096 ->
    wp (read_block cap q (Z.of_nat i + NUM_METADATA_BLKS) (METADATA_SIZE + d') len'
          (set_pos (4096 * Z.of_nat i + 10 + d') f))
      (read_outcome F s es1 es2 w p (rcu_readers w) i b blk (set_pos (4096 * Z.of_nat i + 10 + d') f) d'
         (Z.min (Z.min len' (valid_bytes b - d')) (Z.of_nat cap))) w1).
  { intros d' len' ???.
    apply (wp_read_block F s a vm mps bs es1 es2 w1 p q t (rcu_readers w) i ps1 ps2 b blk sb cap);
      try done; simpl; lia. }
  simpl ndx in *. destruct He as [[Hk ->]|(Hk & _ & ->)].
  - subst k. rewrite Z.eqb_refl. cbn [negb]. rewrite u32_small by (unfold NUM_METADATA_BLKS; lia).
    replace (Z.max r 10) with (METADATA_SIZE + Z.max (r - 10) 0) by (unfold METADATA_SIZE; lia).
    replace (o + Z.max (10 - r) 0) with (4096 * Z.of_nat i + 10 + Z.max (r - 10) 0) by lia.
    set (d := Z.max (r - 10) 0) in *. set (len' := Z.min len (4096 - (METADATA_SIZE + d))).
    replace (Z.min (Z.min len (valid_bytes b - d)) (Z.min (Z.of_nat cap) (4086 - d)))
      with (Z.min (Z.min len' (valid_bytes b - d)) (Z.of_nat cap)) by (unfold len', METADATA_SIZE; lia).
    apply Hblock; unfold len', METADATA_SIZE; lia.
  - rewrite (proj2 (Z.eqb_neq _ _) Hk). cbn [negb]. unfold skip_to. wp_run. simpl ndx. simpl el_valid_bytes.
    unfold DEFAULT_BLOCK_SIZE. rewrite (u32_small (Z.of_nat i * 4096)) by lia.
    rewrite (u32_small (Z.of_nat i + _)) by (unfold NUM_METADATA_BLKS; lia).
    rewrite u64_small, s64_small by (unfold METADATA_SIZE; lia).
    replace (Z.of_nat i * 4096 + METADATA_SIZE) with (4096 * Z.of_nat i + 10 + 0)
      by (unfold METADATA_SIZE; lia).
    set (L := Z.min len (4096 - Z.max r 10)).
    set (len' := if valid_bytes b <? L then valid_bytes b else L).
    assert (Hl' : len' = Z.min (valid_bytes b) L).
    { unfold len'. destruct (Z.ltb_spec (valid_bytes b) L); lia. }
    replace (Z.min (Z.min len (valid_bytes b - 0)) (Z.min (Z.of_nat cap) (4086 - Z.max (r - 10) 0)))
      with (Z.min (Z.min len' (valid_bytes b - 0)) (Z.of_nat cap)) by lia.
    apply (Hblock 0); lia.
Qed.
(** The bytes of the message of an element. *)
Definition text (s : mstore) (e : rcu_elem) : list byte :=
  match s_msgs s !! Z.to_nat (ndx e) with Some m => m_data m | None => [] end.

(** What one read() that continues with byte [d] of the message of [e] does: an
    I/O error, or a piece of the message; the session then stands after the
    piece, or, when the piece is the last one, where [moved] says. *)
Definition read_post (F : gmap loc obj) (s : mstore) (es es2 : list rcu_elem) (e : rcu_elem)
    (w : world) (f : file) (p : loc) (d m : Z) (r : Z * list byte * file) (w' : world) : Prop :=
  let '(n, out, f') := r in
  let here := set_pos (4096 * ndx e + 10 + d) f in
  same_ctl w w' /\
  ((n = - EIO /\ out = [] /\ f' = here /\ (exists k, bread_ok k = false) /\ dev_inv_es F s es w') \/
   (out = take (Z.to_nat m) (drop (Z.to_nat d) (text s e)) /\
    (n = m /\ d + m < el_valid_bytes e /\ f' = set_pos (f_pos here + m) here /\ dev_inv_es F s es w' \/
     n = m /\ d + m = el_valid_bytes e /\
       (exists F', moved F p here es2 F' f' /\ dev_inv_es F' s es w') \/
     n = - ENOMEM /\ d + m = el_valid_bytes e /\ f' = here /\ (exists k, kzalloc_ok k = false) /\
       dev_inv_es F s es w'))).

Lemma wp_read_session F s es1 e es2 w f p t d sb cap len :
  dev_inv_es F s (es1 ++ e :: es2) w -> readable s f -> i_sb f = Some sb -> 0 <= len < 2 ^ 31 ->
  at_message F f p t es1 e d -> d <= el_valid_bytes e ->
  wp (bldms_read cap len f)
    (read_post F s (es1 ++ e :: es2) es2 e w f p d (chunk f cap len (el_valid_bytes e - d))) w.
Proof.
  intros (a & vm & mps & bs & Hi) Hrd Hsb Hl Hat Hd.
  destruct (dev_elem _ _ _ _ _ _ _ _ e Hi) as (i & b & blk & -> & Hb & Hic & Hblk & Hbl & Hvb & Hmsg);
    [set_solver|].
  eapply wp_mono; [by eapply (wp_bldms_read F s a vm mps bs es1 i b blk es2)|].
  assert (Htext : text s (elem_of_block i b) = take (Z.to_nat (valid_bytes b)) (payload blk)).
  { unfold text. simpl. by rewrite Nat2Z.id, Hmsg. }
  intros [[n out] f'] w' Hr. unfold read_outcome in Hr. unfold read_post. rewrite Htext.
  destruct Hr as [([Hi' Hc] & [= -> -> ->] & Hio)|[([Hi' Hc] & Hlt & [= -> -> ->])|
    [(Heq & f1 & F1 & Hmv & [Hi' Hc] & [= -> -> ->])|([Hi' Hc] & Heq & Hkz & [= -> -> ->])]]];
    (split; [exact Hc|]); [left|right..]; (split; [done|]); eauto 10.
Qed.

(** C19: read() delivers messages faithfully and in timestamp order: when the session
    is at byte [d] of the message of [e], one call returns the next piece of that
    message, cut to the buffer, and the session moves on to the rest of the
    message or, once all of it has been delivered, to the next message of the
    time-ordered list (or to the end of the file after the last one).  If the
    block of the session has lost its message, the session resumes at the first
    later message.  The device is unchanged, and the reader and the buffer are
    released on every path. *)
Theorem read_delivers F s es1 e es2 w f p t d sb cap len :
  dev_inv_es F s (es1 ++ e :: es2) w -> readable s f -> i_sb f = Some sb -> 0 <= len < 2 ^ 31 ->
  at_message F f p t es1 e d -> d <= el_valid_bytes e ->
  wp (bldms_read cap len f)
    (read_post F s (es1 ++ e :: es2) es2 e w f p d (chunk f cap len (el_valid_bytes e - d))) w.
Proof. apply wp_read_session. Qed.

(** ** Reading everything *)

(** The messages read() can reach, and that it does not take for the end of the file. *)
Definition deliverable (s : mstore) (e : rcu_elem) : Prop :=
  0 <= ndx e < Z.of_nat (s_cap s) - 2 /\ 0 < el_valid_bytes e <= 4086.

Definition total_bytes (es : list rcu_elem) : Z := foldr (fun e n => el_valid_bytes e + n) 0 es.
Definition texts (s : mstore) (es : list rcu_elem) : list byte := concat (text s <$> es).

(** Everything before an element of the list is skipped by a session that expects it. *)
Lemma dev_skipped F s es1 e es2 w :
  dev_inv_es F s (es1 ++ e :: es2) w -> Forall (skipped (ndx e) (el_nsec e)) es1.
Proof.
  intros (a & vm & mps & bs & [_ Hlog _ _]). apply Forall_forall. intros x Hx.
  pose proof (valid_from_NoDup 0 bs) as Hnd. rewrite <- (dl_elems _ _ _ Hlog) in Hnd.
  rewrite fmap_app in Hnd. apply NoDup_app in Hnd as (_ & Hd & _). split.
  - intros Heq. apply (Hd (ndx x)); [by apply list_elem_of_fmap_2|]. rewrite Heq. by left.
  - pose proof (dl_sorted _ _ _ Hlog) as Hs. apply StronglySorted_app in Hs as (Hc & _).
    apply (Hc x e Hx). by left.
Qed.

Lemma length_text F s es e w :
  dev_inv_es F s es w -> e ∈ es -> Z.of_nat (length (text s e)) = el_valid_bytes e.
Proof.
  intros (a & vm & mps & bs & Hi) He.
  destruct (dev_elem _ _ _ _ _ _ _ _ e Hi He) as (i & b & blk & -> & _ & _ & _ & Hbl & Hvb & Hmsg).
  unfold text. simpl. rewrite Nat2Z.id, Hmsg. simpl. unfold payload.
  rewrite length_take, length_drop. lia.
Qed.

Lemma read_window_eof n f len :
  i_size f = 4096 * Z.of_nat n -> Z.of_nat n < 2 ^ 19 ->
  0 <= f_pos f < 2 ^ 62 -> i_size f <= f_pos f + 8192 -> read_window len f = None.
Proof.
  intros Hsz Hcap Hpos Heof. unfold read_window, NUM_METADATA_BLKS, DEFAULT_BLOCK_SIZE.
  rewrite (u64_small (i_size f)), s64_small by lia. change (2 * 4096) with 8192.
  by rewrite (u64_small (f_pos f + 8192)), (proj2 (Z.leb_le _ _)) by lia.
Qed.

Lemma read_at_eof s f cap len w :
  i_size f = 4096 * Z.of_nat (s_cap s) -> Z.of_nat (s_cap s) < 2 ^ 19 ->
  0 <= f_pos f < 2 ^ 62 -> i_size f <= f_pos f + 8192 -> bldms_read cap len f w = Ret (0, [], f) w.
Proof. intros. unfold bldms_read. by erewrite read_window_eof. Qed.

(** The session after one byte range of a message. *)
Lemma at_message_next F f p t es1 e d m :
  at_message F f p t es1 e d -> Forall (skipped (ndx e) (el_nsec e)) es1 ->
  0 <= d -> 0 <= m -> d + m < 4086 -> 0 <= ndx e ->
  at_message F (set_pos (4096 * ndx e + 10 + d + m) f) p t es1 e (d + m).
Proof.
  intros (Hf & Hp & Hall & He) Hsk Hd Hm Hlt Hn. unfold at_message. cbn [f_pos set_pos].
  assert (Hq : (4096 * ndx e + 10 + d + m) / 4096 = ndx e)
    by (symmetry; apply (Z.div_unique_pos _ _ _ (10 + d + m)); lia).
  assert (Hr : (4096 * ndx e + 10 + d + m) mod 4096 = 10 + d + m)
    by (symmetry; apply (Z.mod_unique_pos _ _ (ndx e)); lia).
  rewrite Hq, Hr. split_and!; [done|done| |left; split; [done|lia]].
  rewrite Forall_forall in *. intros x Hx. split; [apply (Hsk x Hx)|apply (Hall x Hx)].
Qed.

(** The session still owns one timestamp, and the rest of the memory is as it was. *)
Definition same_session (F : gmap loc obj) (p : loc) (f : file) (F' : gmap loc obj) (f' : file) : Prop :=
  f_flags f' = f_flags f /\
  exists p' t, private_data f' = Some p' /\ F' !! p' = Some (OTime t) /\ delete p' F' = delete p F.

Section Sequential.
Hypothesis kzalloc_always : forall n, kzalloc_ok n = true.
Hypothesis bread_always : forall n, bread_ok n = true.

Lemma wp_read_until_eof s sb len fuel : forall F w es1 e es2 f p t d,
  dev_inv_es F s (es1 ++ e :: es2) w -> i_size f = 4096 * Z.of_nat (s_cap s) ->
  i_sb f = Some sb -> 0 < len < 2 ^ 31 -> Forall (deliverable s) (e :: es2) ->
  0 <= d < el_valid_bytes e -> at_message F f p t es1 e d ->
  f_pos f = 4096 * ndx e + 10 + d \/ f_pos f = 0 ->
  el_valid_bytes e - d + total_bytes es2 < Z.of_nat fuel ->
  wp (read_until_eof fuel len f)
    (fun r w' => let '(n, datas, f') := r in n = 0 /\ f_pos f' = i_size f /\
       concat datas = drop (Z.to_nat d) (text s e) ++ texts s es2 /\
       exists F', dev_inv_es F' s (es1 ++ e :: es2) w' /\ same_ctl w w' /\
         same_session F p f F' f') w.
Proof.
  induction fuel as [|fuel IH]; intros F w es1 e es2 f p t d Hi Hsz Hsb Hl Hdel Hd Hat Hpos Hfuel.
  { apply Forall_cons in Hdel as [_ Hdel]. exfalso.
    assert (0 <= total_bytes es2); [|lia]. clear -Hdel.
    induction Hdel as [|x es [_ Hx] _ IH]; simpl; lia. }
  pose proof (proj1 (proj1 (Forall_cons _ _ _) Hdel)) as [Hndx Hvb].
  pose proof (dev_inv_cap _ _ _ (dev_inv_es_inv _ _ _ _ Hi)) as Hcap.
  assert (Hrd : readable s f) by (split; [done|]; destruct Hpos; lia).
  simpl. wp_step. eapply wp_mono; [eapply wp_read_session; [done..|lia|done|lia]|].
  intros [[n out] f'] w' [Hc Hr]. set (m := chunk f (Z.to_nat len) len (el_valid_bytes e - d)) in *.
  assert (Hm : 0 < m <= el_valid_bytes e - d).
  { unfold m, chunk. destruct Hpos as [->| ->]; [|rewrite Z.mod_0_l by lia; lia].
    assert (Hmod : (4096 * ndx e + 10 + d) mod 4096 = 10 + d)
      by (symmetry; apply (Z.mod_unique_pos _ _ (ndx e)); lia). rewrite Hmod. lia. }
  pose proof (length_text F s _ e w Hi ltac:(set_solver)) as Hlen.
  assert (Hgo : forall F' f' es1' e' es2' p' t' d',
    n = m -> dev_inv_es F' s (es1' ++ e' :: es2') w' -> es1' ++ e' :: es2' = es1 ++ e :: es2 ->
    i_size f' = i_size f -> i_sb f' = i_sb f -> f_flags f' = f_flags f ->
    delete p' F' = delete p F -> Forall (deliverable s) (e' :: es2') ->
    0 <= d' < el_valid_bytes e' -> at_message F' f' p' t' es1' e' d' ->
    f_pos f' = 4096 * ndx e' + 10 + d' ->
    el_valid_bytes e' - d' + total_bytes es2' < Z.of_nat fuel ->
    out ++ drop (Z.to_nat d') (text s e') ++ texts s es2'
      = drop (Z.to_nat d) (text s e) ++ texts s es2 ->
    wp (let* rs := read_until_eof fuel len f' in
        let '(last, datas, f0) := rs in ret (last, out :: datas, f0))
      (fun r w2 => let '(n, datas, f2) := r in n = 0 /\ f_pos f2 = i_size f /\
         concat datas = drop (Z.to_nat d) (text s e) ++ texts s es2 /\
         exists F2, dev_inv_es F2 s (es1 ++ e :: es2) w2 /\ same_ctl w w2 /\
           same_session F p f F2 f2) w').
  { intros F' f1 es1' e' es2' p' t' d' -> Hi' Hes Hsz' Hsb' Hfl' HF' Hdel' Hd' Hat' Hpos' Hf' Hout.
    wp_step. eapply wp_mono.
    - eapply (IH F' w' es1' e' es2' f1 p' t' d'); try done; try congruence. by left.
    - intros [[last datas] f2] w2 (-> & Hp2 & Hcat & F2 & Hi2 & Hc2 & Hfl2 & Hs2). wp_step.
      split_and!; [done|congruence|simpl; by rewrite Hcat|].
      exists F2. split_and!; [by rewrite <- Hes|by etrans|]. split; [congruence|].
      by rewrite HF' in Hs2. }
  destruct Hr as [(_ & _ & _ & [k Hk] & _)|(Hout & [(-> & Hlt & -> & Hi')|
    [(-> & Heq & F' & Hmv & Hi')|(_ & _ & _ & [k Hk] & _)]])];
    [by rewrite bread_always in Hk| | |by rewrite kzalloc_always in Hk];
    rewrite (proj2 (Z.leb_gt _ _)) by lia.
  - apply (Hgo F _ es1 e es2 p t (d + m)); try done; simpl; try lia.
    + apply (at_message_next F f p t es1 e d m); try done; try lia. by eapply dev_skipped.
    + rewrite app_assoc. f_equal. rewrite Hout, Z2Nat.inj_add, <- drop_drop by lia.
      apply take_drop.
  - assert (Hlast : out = drop (Z.to_nat d) (text s e)).
    { rewrite Hout. apply take_ge. rewrite length_drop. lia. }
    destruct es2 as [|e' es2]; simpl in Hmv.
    + destruct Hmv as [-> ->]. wp_step. destruct fuel as [|fuel]; [simpl in Hfuel; lia|].
      simpl. wp_step. eapply wp_intro; [by apply (read_at_eof s); simpl; lia|].
      simpl. do 2 wp_step. split_and!; [done|done|by rewrite Hlast|].
      exists F. split_and!; [done|done|]. split; [done|]. destruct Hat as (? & ? & _). by exists p, t.
    + destruct Hmv as (p' & Hp' & -> & ->).
      apply Forall_cons in Hdel as [_ Hdel]. apply Forall_cons in Hdel as Hdel'.
      destruct Hdel' as [[Hndx' Hvb'] _].
      assert (Hes : (es1 ++ [e]) ++ e' :: es2 = es1 ++ e :: e' :: es2) by (by rewrite <- app_assoc).
      apply (Hgo (<[p' := OTime (el_nsec e')]> (delete p F)) _ (es1 ++ [e]) e' es2 p' (el_nsec e') 0);
        try done; simpl in *; try lia.
      * by rewrite Hes.
      * rewrite delete_insert_id; [done|]. rewrite lookup_delete_None. by right.
      * unfold at_message. cbn [f_pos set_pos private_data set_private].
        assert (Hq : (4096 * ndx e' + 10) / 4096 = ndx e')
          by (symmetry; apply (Z.div_unique_pos _ _ _ 10); lia).
        assert (Hr : (4096 * ndx e' + 10) mod 4096 = 10)
          by (symmetry; apply (Z.mod_unique_pos _ _ (ndx e')); lia).
        rewrite Hq, Hr. split_and!; [done|apply lookup_insert_eq| |by left].
        eapply (dev_skipped F s _ e' es2 w). by rewrite Hes.
      * rewrite Hlast, drop_0. done.
Qed.

(** Reading from the start of the file to its end. *)
Lemma wp_read_all F s es w f p sb len fuel :
  dev_inv_es F s es w -> i_size f = 4096 * Z.of_nat (s_cap s) -> i_sb f = Some sb ->
  0 < len < 2 ^ 31 -> Forall (deliverable s) es -> Forall (fun e => 0 < el_nsec e) es ->
  private_data f = Some p -> F !! p = Some (OTime 0) -> f_pos f = 0 ->
  es <> [] -> total_bytes es < Z.of_nat fuel ->
  wp (read_until_eof fuel len f)
    (fun r w' => let '(n, datas, f') := r in n = 0 /\ f_pos f' = i_size f /\
       concat datas = texts s es /\ time_sorted es /\
       exists F', dev_inv_es F' s es w' /\ same_ctl w w' /\ same_session F p f F' f') w.
Proof.
  intros Hi Hsz Hsb Hl Hdel Hpos Hf Hp Hp0 Hne Hfuel. destruct es as [|e es]; [done|].
  pose proof (proj1 (proj1 (Forall_cons _ _ _) Hdel)) as [Hndx Hvb].
  apply Forall_cons in Hpos as [Hts _].
  eapply wp_mono; [eapply (wp_read_until_eof s sb len fuel F w [] e es f p 0 0); try done|].
  - lia.
  - unfold at_message. rewrite Hp0. split_and!; [done|done|constructor|].
    destruct (decide (ndx e = 0 / 4096)); [left; split; [done|by vm_compute]|by right].
  - by right.
  - simpl in Hfuel. lia.
  - intros [[n datas] f'] w' (-> & Hpos & Hcat & Hi'). split_and!; try done.
    destruct Hi as (a & vm & mps & bs & [_ Hlog _ _]). apply (dl_sorted _ _ _ Hlog).
Qed.
End Sequential.


(** C38: when the session is past the end of the message of its block, as after a
    pread() or when the message has been replaced by a shorter one, read() jumps
    over the assignment of its local [ret] and uses it uninitialised. *)
Theorem read_past_message_uninit F s e es w f p t cap len :
  (forall n, kzalloc_ok n = true) ->
  dev_inv_es F s (e :: es) w -> readable s f -> 0 <= len < 2 ^ 31 ->
  private_data f = Some p -> F !! p = Some (OTime t) ->
  ndx e = f_pos f / 4096 -> el_valid_bytes e < f_pos f mod 4096 - 10 ->
  bldms_read cap len f w = Fault UninitRead.
Proof.
  intros Hkz Hi Hrd Hl Hf Hp Hndx Hvb.
  pose proof (dev_inv_cap _ _ _ (dev_inv_es_inv _ _ _ _ Hi)) as Hcap.
  destruct Hi as (a & vm & mps & bs & Hi).
  destruct (dev_elem _ _ _ _ _ _ _ _ e Hi) as (i & b & blk & -> & _ & Hic & _ & _ & Hvb0 & _);
    [by left|]. simpl in Hndx, Hvb.
  unfold bldms_read. rewrite (read_window_spec s f len) by (done || lia).
  destruct Hrd as (Hsz & Ho & Hlt). cbn [f_pos set_pos].
  assert (Hr : 0 <= f_pos f mod 4096 < 4096) by (apply Z.mod_pos_bound; lia).
  rewrite (Z.max_l (f_pos f mod 4096)), (Z.max_r (10 - f_pos f mod 4096)), Z.add_0_r, set_pos_same by lia.
  rewrite Z.quot_div_nonneg by (unfold DEFAULT_BLOCK_SIZE; lia).
  change DEFAULT_BLOCK_SIZE with 4096. rewrite <- Hndx, u32_small by lia.
  pose proof (di_mem _ _ _ _ _ _ _ _ Hi) as Hm.
  destruct (dm_list _ _ _ _ _ _ _ Hm) as [Hnd Hel].
  destruct (dm_frame_lookup _ _ _ _ _ _ _ _ _ Hm Hp) as [Hph Hpf].
  fault_step. fault_step. simpl. apply fault_bind. rewrite Hf.
  destruct (rl_nodes (valid_blk_list w)) as [|q ps] eqn:Hps; [by inversion Hel|].
  apply Forall2_cons in Hel as [Hq Hel]. simpl.
  wp_run. simpl ndx. rewrite Z.eqb_refl. wp_step. unfold read_block, read_copy. apply fault_bind.
  wp_step. wp_step; [exact Hq|]. simpl.
  rewrite (u64_small (f_pos f mod 4096 - METADATA_SIZE)) by (unfold METADATA_SIZE; lia).
  assert (Hb : (valid_bytes b <? f_pos f mod 4096 - METADATA_SIZE) = true)
    by (apply Z.ltb_lt; unfold METADATA_SIZE; simpl; lia).
  rewrite Hb. clear Hb. wp_step. set (w1 := set_readers _ w).
  assert (Hi1 : dev_inv_es F s (elem_of_block i b :: es) w1)
    by (exists a, vm, mps, bs; by eapply dev_inv_at_ext).
  eapply (fault_set_next_blk F s w1 f p t); try done. by constructor.
Qed.
End ReadOrder.

(** ** Witnesses *)

#[local] Existing Instance sample_config.

Definition reader : file := File O_RDONLY (Some 50%positive) 0 16384 (Some (SB MAGIC true)).

(** The first read() of the sample device delivers the older message, of slot 1. *)
Lemma read_delivers_witness :
  wp (K := good_kernel) (bldms_read 100 100 reader)
    (fun r w' => r.1 = (2, sample_data) /\ f_pos r.2 = 10) reader_world.
Proof.
  eapply wp_mono.
  - apply (read_delivers reader_frame sample_store [] sample_elem [later_elem] reader_world reader
      50%positive 0 0 (SB MAGIC true) 100 100); [exact reader_world_inv|split_and!; simpl; lia|done|lia|..].
    + split_and!; [done|done|constructor|]. right. split_and!; by vm_compute.
    + simpl. lia.
  - intros [[n out] f'] w' (_ & [(_ & _ & _ & [k Hk] & _)|(-> & [(_ & Hlt & _)|
      [(-> & _ & F' & (p' & _ & _ & ->) & _)|(_ & _ & _ & [k Hk] & _)]])]); [done| |done|done].
    by vm_compute in Hlt.
Defined.



(** pread() at byte 100 of block 1, whose message has two bytes. *)
Lemma read_past_message_uninit_witness :
  bldms_read (K := good_kernel) 100 100 (set_pos 4196 reader) reader_world = Fault UninitRead.
Proof.
  apply (read_past_message_uninit reader_frame sample_store sample_elem [later_elem] reader_world
    (set_pos 4196 reader) 50%positive 0 100 100);
    [done|exact reader_world_inv|split_and!; simpl; lia|done|done|done|by vm_compute|by vm_compute].
Defined.
