(* ===== verification/Session.v ===== *)
(** * Sessions: open(), release(), llseek() and lookup()

    The life of the memory a session keeps for its reader. *)
From S2P Require Import Prelude Layout Kernel KernelFacts Rcu Store Device DeviceOps DeviceWp.
From S2P Require Import Sample FileOps.
From Stdlib Require Import Strings.String.

Section Session.
Context {K : Kernel} {KL : KernelLaws K} {C : Config}.
Implicit Types (F : gmap loc obj) (w : world) (s : mstore) (f : file).

(** The state apart from the device and the module's reference count. *)
Definition same_but_refs (w w' : world) (n : Z) : Prop :=
  rcu_write_lock w' = rcu_write_lock w /\ rcu_readers w' = rcu_readers w /\
  bh_refs w' = bh_refs w /\ the_dev_superblock w' = the_dev_superblock w /\
  module_refs w' = module_refs w + n /\ valid_blk_list w' = valid_blk_list w /\ same_nodes w w'.

Lemma dev_at_module_refs F s w n :
  dev_inv F w s -> dev_at (set_module_refs n w) F s (set_module_refs n w).
Proof. intros Hi. apply dev_at_refl. by apply (dev_inv_ext F w). Qed.

Lemma dev_at_same_but_refs F s w w' n :
  dev_at (set_module_refs (module_refs w + n) w) F s w' -> dev_inv F w' s /\ same_but_refs w w' n.
Proof. intros [Hi Hc]. unfold same_ctl, same_but_refs in *. simpl in *. by destruct_and!. Qed.

Lemma same_but_refs_trans w w1 w2 m n :
  same_but_refs w w1 m -> same_but_refs w1 w2 n -> same_but_refs w w2 (m + n).
Proof.
  unfold same_but_refs. intros H1 H2. destruct_and!. split_and!; try congruence; [lia|].
  by eapply same_nodes_trans.
Qed.

Lemma wp_bldms_open F s w f Q :
  dev_inv F w s ->
  (opened_for_reading f = false ->
     forall w', dev_inv F w' s -> same_but_refs w w' 1 -> Q (0, f) w') ->
  (opened_for_reading f = true -> forall p w', F !! p = None ->
     dev_inv (<[p := OTime 0]> F) w' s -> same_but_refs w w' 1 -> Q (0, set_private (Some p) f) w') ->
  (opened_for_reading f = true -> (exists n, kzalloc_ok n = false) ->
     forall w', dev_inv F w' s -> same_but_refs w w' 1 -> Q (- ENOMEM, f) w') ->
  wp (bldms_open f) Q w.
Proof.
  intros Hi HW HR HN. destruct (Hi) as (a & vm & mps & bs & es & [_ _ Hg _]).
  unfold bldms_open, try_module_get. wp_run. rewrite (dg_mounted _ _ _ Hg). simpl. wp_run.
  pose proof (dev_at_module_refs F s w (module_refs w + 1) Hi) as Hd.
  destruct (opened_for_reading f).
  - wp_step. eapply dwp_kzalloc; [exact Hd| |].
    + intros p w1 Hp Hd1. simpl. dwp_run. apply (HR eq_refl p); [done|..].
      all: match goal with H : dev_at _ _ _ ?w' |- context [?w'] =>
        apply (dev_at_frame _ (<[p := OTime 0]> F)) in H; [|frame_eq];
        by apply dev_at_same_but_refs in H as [? ?] end.
    + intros w1 Hkz Hd1. simpl. wp_step. by apply dev_at_same_but_refs in Hd1 as [? ?]; apply HN.
  - wp_step. apply dev_at_same_but_refs in Hd as [? ?]. by apply HW.
Qed.

(** open() of a mounted device gives a session opened for reading a fresh
    timestamp 0, which belongs to the session only, gives a write-only session
    nothing, and takes a reference on the module. When the allocation fails it
    returns -ENOMEM having kept the module reference, which no release() will
    ever give back. *)
Theorem open_starts_session F s w f :
  dev_inv F w s ->
  wp (bldms_open f)
    (fun r w' => same_but_refs w w' 1 /\
       (if opened_for_reading f
        then (exists p, F !! p = None /\ r = (0, set_private (Some p) f) /\
                dev_inv (<[p := OTime 0]> F) w' s) \/
             (r = (- ENOMEM, f) /\ (exists n, kzalloc_ok n = false) /\ dev_inv F w' s)
        else r = (0, f) /\ dev_inv F w' s)) w.
Proof.
  intros Hi. eapply wp_bldms_open; [done|..].
  - intros ->. auto.
  - intros ->. eauto 10.
  - intros -> Hkz w' Hi' Hs. eauto.
Qed.

Lemma wp_bldms_release F s w f Q :
  dev_inv F w s ->
  (forall p, opened_for_reading f = true -> private_data f = Some p -> exists t, F !! p = Some (OTime t)) ->
  (forall w', dev_inv (if opened_for_reading f
                       then match private_data f with Some p => delete p F | None => F end else F) w' s ->
     same_but_refs w w' (-1) -> Q 0 w') ->
  wp (bldms_release f) Q w.
Proof.
  intros Hi Hp HQ. destruct (Hi) as (a & vm & mps & bs & es & [_ _ Hg _]).
  unfold bldms_release, module_put. wp_run. rewrite (dg_mounted _ _ _ Hg). simpl. wp_step.
  assert (Hend : forall F' w1, dev_at w F' s w1 -> (dev_inv F' (set_module_refs (module_refs w1 - 1) w1) s ->
      same_but_refs w (set_module_refs (module_refs w1 - 1) w1) (-1) ->
      Q 0 (set_module_refs (module_refs w1 - 1) w1)) ->
    wp (modify (fun w => set_module_refs (module_refs w - 1) w) ;;; ret 0) Q w1).
  { intros F' w1 [Hi1 Hc1] HQ'. wp_run. apply HQ'; [by apply (dev_inv_ext F' w1)|].
    unfold same_ctl, same_but_refs in *. simpl. destruct_and!. split_and!; try done. lia. }
  assert (Hd : dev_at w F s w) by auto with bldms.
  revert HQ Hp. destruct (opened_for_reading f); intros HQ Hp.
  2: { wp_step. eapply Hend; [exact Hd|apply HQ]. }
  revert HQ Hp. destruct (private_data f) as [p|]; intros HQ Hp.
  2: { rewrite decide_True by done. wp_step. eapply Hend; [exact Hd|apply HQ]. }
  rewrite decide_False by done. destruct (Hp p) as [t Ht]; [done..|].
  eapply dwp_kfree; [exact Hd|exact Ht|done|]. intros w1 Hd1.
  eapply Hend; [exact Hd1|apply HQ].
Qed.

(** C24: a session neither leaks memory nor frees it twice: opening the file and
    closing it leave the memory outside the device and the module reference
    count as they were. *)
Theorem open_release_restores F s w f :
  dev_inv F w s -> private_data f = None ->
  wp (let* r := bldms_open f in
      if r.1 =? 0 then let* e := bldms_release r.2 in ret (r.1, e) else ret r.1 ;;; ret (r.1, r.1))
    (fun r w' => dev_inv F w' s /\
       (r = (0, 0) /\ same_but_refs w w' 0 \/
        r = (- ENOMEM, - ENOMEM) /\ (exists n, kzalloc_ok n = false) /\ same_but_refs w w' 1)) w.
Proof.
  intros Hi Hf. wp_step.
  assert (Hback : forall w1 w2, same_but_refs w w1 1 -> same_but_refs w1 w2 (-1) -> same_but_refs w w2 0)
    by (intros ?? H1 H2; apply (same_but_refs_trans _ _ _ _ _ H1 H2)).
  eapply wp_bldms_open; [done|..].
  - intros Ho w1 Hi1 Hs1. simpl. wp_step. eapply wp_bldms_release; [exact Hi1|congruence|].
    intros w2. rewrite Ho. intros Hi2 Hs2. wp_step. eauto.
  - intros Ho p w1 Hp Hi1 Hs1. simpl. wp_step. eapply wp_bldms_release; [exact Hi1| |].
    + intros q _ [= <-]. exists 0. apply lookup_insert_eq.
    + intros w2. change (opened_for_reading (set_private (Some p) f)) with (opened_for_reading f).
      rewrite Ho. cbn [private_data set_private]. rewrite delete_insert_id by done.
      intros Hi2 Hs2. wp_step. eauto.
  - intros _ Hkz w1 Hi1 Hs1. simpl. wp_run. auto.
Qed.

Lemma wp_bldms_llseek F s w f p t off whence :
  dev_inv F w s -> private_data f = Some p -> F !! p = Some (OTime t) ->
  wp (bldms_llseek off whence f)
    (fun r w' => same_but_refs w w' 0 /\
       (if (whence =? SEEK_SET) && (off =? 0)
        then (exists p', F !! p' = None /\ r = (0, set_pos 0 (set_private (Some p') f)) /\
                dev_inv (<[p' := OTime 0]> (delete p F)) w' s) \/
             (r = (- ENOMEM, f) /\ (exists n, kzalloc_ok n = false) /\ dev_inv F w' s)
        else r = (- EINVAL, f) /\ dev_inv F w' s)) w.
Proof.
  intros Hi Hf Hp. destruct (Hi) as (a & vm & mps & bs & es & [_ _ Hg _]).
  unfold bldms_llseek. wp_run. rewrite (dg_mounted _ _ _ Hg). simpl.
  assert (Hctl : forall w', same_ctl w w' -> same_nodes w w' -> same_but_refs w w' 0).
  { unfold same_ctl, same_but_refs. intros w' H Hn. destruct_and!. split_and!; done || lia. }
  assert (Hs0 : same_but_refs w w 0) by (by apply Hctl).
  destruct (whence =? SEEK_SET); simpl; [|by wp_run].
  destruct (off =? 0); simpl; [|by wp_run].
  rewrite Hf, bool_decide_true by done.
  assert (Hd : dev_at w F s w) by auto with bldms.
  wp_step. eapply dwp_kzalloc; [exact Hd| |].
  2: { intros w1 Hkz (Hi1 & Hc1 & Hn1). simpl. wp_run. split; [auto|]. right. auto. }
  intros p' w1 Hp' Hd1. assert (p' <> p) by congruence. simpl. dwp_run.
  match goal with H : dev_at _ _ _ ?w' |- same_but_refs _ ?w' _ /\ _ =>
    apply (dev_at_frame _ (<[p' := OTime 0]> (delete p F))) in H as (Hi' & Hc' & Hn'); [|frame_eq] end.
  split; [auto|]. left. eauto.
Qed.

(** llseek(0, SEEK_SET) puts a reading session back to its initial state,
    position 0 and expected timestamp 0, releasing the timestamp it had; every
    other request is refused with -EINVAL and leaves the session alone. *)
Theorem llseek_resets_session F s w f p t off whence :
  dev_inv F w s -> private_data f = Some p -> F !! p = Some (OTime t) ->
  wp (bldms_llseek off whence f)
    (fun r w' => same_but_refs w w' 0 /\
       (if (whence =? SEEK_SET) && (off =? 0)
        then (exists p', F !! p' = None /\ r = (0, set_pos 0 (set_private (Some p') f)) /\
                dev_inv (<[p' := OTime 0]> (delete p F)) w' s) \/
             (r = (- ENOMEM, f) /\ (exists n, kzalloc_ok n = false) /\ dev_inv F w' s)
        else r = (- EINVAL, f) /\ dev_inv F w' s)) w.
Proof. apply wp_bldms_llseek. Qed.

(** lookup() knows one name, "the_file": a new inode gets the size recorded on
    the device at format time, read and write permission for all and one link;
    any other name gives NULL without touching the device, and the buffer is
    released. *)
Theorem lookup_sets_size w sb name blk :
  b_data (bufs w) BLDMS_INODES_BLOCK_NUMBER = Some blk -> inode_file_size blk < 2 ^ 63 ->
  wp (bldms_lookup (Some sb) name)
    (fun r w' => same_state w w' /\
       if String.eqb UNIQUE_FILE_NAME name then
         r = LookupDentry (Some (NewInode 1 33206 1 (inode_file_size blk))) \/
         r = LookupDentry None /\ (exists n, iget_locked n = Some false) \/
         r = LookupErr (- ENOMEM) /\ (exists n, iget_locked n = None) \/
         r = LookupErr (- EIO) /\ (exists n, bread_ok n = false)
       else r = LookupNull) w.
Proof.
  intros Hb Hsz. unfold bldms_lookup. destruct (String.eqb UNIQUE_FILE_NAME name); [|by wp_run].
  wp_step. unfold wp at 1, answer. destruct (iget_locked (calls w)) as [[|]|] eqn:Hg; simpl;
    [|wp_step; split; [apply same_state_tick|right; left; eauto]
     |wp_step; split; [apply same_state_tick|right; right; left; eauto]].
  wp_step. apply wp_sb_bread; simpl.
  - intros _ _. wp_run. split.
    + destruct w; unfold same_state; simpl. split_and!; try done; lia.
    + left. rewrite s64_small; [done|]. split; [|done].
      transitivity 0; [lia|]. apply le_combine_bound.
  - intros [Hio|Hio]; [|congruence]. wp_run. split; [|eauto 10].
    destruct w; unfold same_state; simpl. split_and!; try done; lia.
Qed.
End Session.

(** ** Witnesses *)

#[local] Existing Instance sample_config.

Definition unopened : file := File O_RDWR None 0 16384 (Some (SB MAGIC true)).

Lemma open_starts_session_witness :
  wp (K := good_kernel) (bldms_open unopened)
    (fun r w' => r.1 = 0 /\ module_refs w' = 1) good_world.
Proof.
  eapply wp_mono.
  - apply (open_starts_session ∅ sample_store good_world unopened). exact good_world_inv.
  - intros [n f'] w' [(_ & _ & _ & _ & Hr & _) H]. simpl in H.
    destruct H as [(p & _ & [= -> _] & _)|(_ & Hk & _)]; [by split|by destruct always_true].
Defined.

Lemma open_release_restores_witness :
  wp (K := good_kernel)
    (let* r := bldms_open unopened in
     if r.1 =? 0 then let* e := bldms_release r.2 in ret (r.1, e) else ret r.1 ;;; ret (r.1, r.1))
    (fun r w' => r = (0, 0) /\ dev_inv ∅ w' sample_store /\ module_refs w' = 0) good_world.
Proof.
  eapply wp_mono.
  - apply (open_release_restores ∅ sample_store good_world unopened); [exact good_world_inv|done].
  - intros r w' [Hi [[-> (_ & _ & _ & _ & Hr & _)]|(_ & Hk & _)]]; [by split|by destruct always_true].
Defined.

Lemma llseek_resets_session_witness :
  wp (K := good_kernel)
    (bldms_llseek 0 SEEK_SET (File O_RDONLY (Some 50%positive) 5000 16384 (Some (SB MAGIC true))))
    (fun r w' => r.1 = 0 /\ f_pos r.2 = 0) reader_world.
Proof.
  eapply wp_mono.
  - apply (llseek_resets_session reader_frame sample_store reader_world
      (File O_RDONLY (Some 50%positive) 5000 16384 (Some (SB MAGIC true))) 50%positive 0 0 SEEK_SET);
      [eapply dev_inv_es_inv; exact reader_world_inv|done|done].
  - intros r w' [_ [(p' & _ & -> & _)|(_ & Hk & _)]]; [done|by destruct always_true].
Defined.

Lemma lookup_sets_size_witness :
  wp (K := good_kernel) (bldms_lookup (Some (SB MAGIC true)) "the_file"%string)
    (fun r w' => r = LookupDentry (Some (NewInode 1 33206 1 0))) good_world.
Proof.
  eapply wp_mono.
  - apply (lookup_sets_size good_world (SB MAGIC true) "the_file"%string (zeros 4096)); by vm_compute.
  - intros r w' [_ [->|[[_ [n Hn]]|[[_ [n Hn]]|[_ Hk]]]]]; [by vm_compute|done|done|by destruct always_true].
Defined.
