(* ===== verification/Threads.v ===== *)
(** * System calls in parallel: the threads

    A thread executes one system call, or one operation on an open file, in steps;
    between two steps another thread may run.  The critical section of a writer is one step, because the spinlock
    excludes the other writers and the readers look at the list only through the
    nodes it links; a reader of the list walks it node by node, holding nothing but
    a pointer; a thread that waits for a grace period waits for the readers that
    were already there. *)
From S2P Require Import Prelude Layout Kernel KernelFacts Rcu Store Device Syscalls FileOps.

(** A call on an open file. *)
Inductive file_call :=
| OpenCall
| ReadCall (cap : nat) (len : Z)
| SeekCall (off whence : Z)
| CloseCall.

(** A read() in its walk or about to copy: the space in the user buffer, the block it
    looks for (its index [device_blk] in the walk, [block_to_read] afterwards), the
    offset in it, the number of bytes to read and the file. *)
Record read_args := ReadArgs {
  ra_cap : nat;
  ra_blk : Z;
  ra_offset : Z;
  ra_len : Z;
  ra_file : file
}.

Section Threads.
Context {K : Kernel} {C : Config}.

(** ** The walk of get_data() *)

(** syscalls.c, lines 226-249: the checks, the beginning of the read-side critical
    section, and the first node of the list. *)
Definition get_enter (offset : Z) : M (Z + (option super_block * option loc)) :=
  let* mounted := gets bldms_mounted in
  if mounted =? 0 then ret (inl (- ENODEV)) else
  let* n := gets md_array_size in
  if n <=? u64 offset then ret (inl (- E2BIG)) else
  let* sb := gets the_dev_superblock in
  match sb with
  | None => ret (inl (- EINVAL))
  | Some _ =>
    rcu_read_lock ;;;
    let* first := gets (fun w => head (rl_nodes (valid_blk_list w))) in
    ret (inr (sb, first))
  end.

(** Lines 249-263: one round of list_for_each_entry_rcu(): the end of the list,
    the element sought, or the next node. *)
Inductive visit :=
| VisitEnd
| VisitFound (bytes_to_copy : Z)
| VisitNext (next : option loc).

Definition get_visit (offset : Z) (rcu_el : option loc) : M visit :=
  match rcu_el with
  | None => rcu_read_unlock ;;; ret VisitEnd
  | Some p =>
    let* e := load_elem rcu_el in
    if ndx e =? u32 offset then ret (VisitFound (s32 (el_valid_bytes e))) else
    let* next := gets (fun w => rl_next (valid_blk_list w) p) in
    ret (VisitNext next)
  end.

(** ** The walk of read() *)

(** file_ops.c, lines 52-93: the window of the file, the beginning of the read-side
    critical section and the first node of the list. *)
Definition read_enter (cap : nat) (len : Z) (f : file) : M (file + read_args * option loc) :=
  match read_window len f with
  | None => ret (inl f)
  | Some (f, offset, len) =>
    let device_blk := u32 (Z.quot (f_pos f) DEFAULT_BLOCK_SIZE) in
    rcu_read_lock ;;;
    let* first := gets (fun w => head (rl_nodes (valid_blk_list w))) in
    ret (inr (ReadArgs cap device_blk offset len f, first))
  end.

(** Lines 93-124: one round of list_for_each_entry_rcu(): the end of the list, with
    the result of the call, the element to read, or the next node. *)
Inductive rvisit :=
| RvisitEnd (r : Z) (data : list byte) (f : file)
| RvisitFound (a : read_args) (rcu_el : loc)
| RvisitNext (next : option loc).

Definition read_visit (a : read_args) (rcu_el : option loc) : M rvisit :=
  match rcu_el with
  | None => let* r := end_of_msgs (Some 0) [] (ra_file a) in ret (RvisitEnd r.1.1 r.1.2 r.2)
  | Some p =>
    let* e := load_elem rcu_el in
    if ndx e =? ra_blk a then
      ret (RvisitFound (ReadArgs (ra_cap a) (u32 (ra_blk a + NUM_METADATA_BLKS)) (ra_offset a)
                          (ra_len a) (ra_file a)) p)
    else
    let* next_ts := load_time (private_data (ra_file a)) in
    if next_ts <? el_nsec e then
      let* t := skip_to p (ra_len a) (ra_file a) in
      ret (RvisitFound (ReadArgs (ra_cap a) t.1.1 METADATA_SIZE t.1.2 t.2) p)
    else
    let* next := gets (fun w => rl_next (valid_blk_list w) p) in
    ret (RvisitNext next)
  end.

(** ** Threads *)

Inductive thread :=
| PutCall (source : list byte) (size : Z)
| PutReady (source : list byte) (size : Z) (a : put_args)
| PutWritten (source : list byte) (size : Z) (a : put_args) (b : Z) (bh : option Z) (old : option loc)
| GetCall (offset : Z) (cap : nat) (size : Z)
| GetWalk (offset : Z) (cap : nat) (size : Z) (sb : option super_block) (rcu_el : option loc)
| GetRead (offset : Z) (cap : nat) (size : Z) (sb : option super_block) (bytes_to_copy : Z)
| InvCall (offset : Z)
| InvWait (offset : Z) (el : option loc) (bh : option Z) (readers : list nat)
| FileCall (op : file_call) (f : file)
| ReadWalk (a : read_args) (rcu_el : option loc)
| ReadCopy (a : read_args) (rcu_el : loc)
| ReadNext (ret_ : option Z) (data : list byte) (f : file) (rcu_el : loc)
| ReadSession (ret_ : option Z) (data : list byte) (f : file) (next_el : option loc)
| FileDone (r : Z) (data : list byte) (f : file)
| Done (r : Z) (data : list byte).

(** Inside a read-side critical section. *)
Definition is_reader (t : thread) : bool :=
  match t with
  | GetWalk _ _ _ _ _ | GetRead _ _ _ _ _
  | ReadWalk _ _ | ReadCopy _ _ | ReadNext _ _ _ _ | ReadSession _ _ _ _ => true
  | _ => false
  end.

(** The threads that are readers. *)
Definition readers (ts : list thread) : list nat :=
  filter (fun i => is_reader <$> ts !! i = Some true) (seq 0 (length ts)).

(** The first step of a call on a file. *)
Definition file_step (op : file_call) (f : file) : M thread :=
  match op with
  | OpenCall => let* r := bldms_open f in ret (FileDone r.1 [] r.2)
  | ReadCall cap len =>
    let* r := read_enter cap len f in
    match r with
    | inl f => ret (FileDone 0 [] f)
    | inr (a, first) => ret (ReadWalk a first)
    end
  | SeekCall off whence => let* r := bldms_llseek off whence f in ret (FileDone r.1 [] r.2)
  | CloseCall => let* r := bldms_release f in ret (Done r [])
  end.

(** The next step of a thread among [ts]; [None] when it has finished or waits. *)
Definition thread_step (ts : list thread) (t : thread) : option (M thread) :=
  match t with
  | PutCall source size => Some (
      let* r := put_prepare source size in
      match r with
      | inl err => ret (Done err [])
      | inr a => ret (PutReady source size a)
      end)
  | PutReady source size a => Some (
      let* o := put_critical a in
      match o with
      | PutError err old => let* r := put_error a err old in ret (Done r [])
      | PutDone b bh old => ret (PutWritten source size a b bh old)
      end)
  | PutWritten source size a b bh old => Some (
      let* r := put_finish a b bh old in ret (Done r []))
  | GetCall offset cap size => Some (
      let* r := get_enter offset in
      match r with
      | inl err => ret (Done err [])
      | inr (sb, first) => ret (GetWalk offset cap size sb first)
      end)
  | GetWalk offset cap size sb rcu_el => Some (
      let* v := get_visit offset rcu_el in
      match v with
      | VisitEnd => ret (Done (- ENODATA) [])
      | VisitFound n => ret (GetRead offset cap size sb n)
      | VisitNext next => ret (GetWalk offset cap size sb next)
      end)
  | GetRead offset cap size sb n => Some (
      let* r := get_copy offset cap size sb n in ret (Done r.1 r.2))
  | InvCall offset => Some (
      let* r := invalidate_critical offset in
      match r with
      | inl err => ret (Done err [])
      | inr (el, bh) => ret (InvWait offset el bh (readers ts))
      end)
  | InvWait offset el bh waited =>
      if decide (Forall (fun i => i ∉ readers ts) waited)
      then Some (let* r := invalidate_free el bh in ret (Done r [])) else None
  | FileCall op f => Some (file_step op f)
  | ReadWalk a rcu_el => Some (
      let* v := read_visit a rcu_el in
      match v with
      | RvisitEnd r data f => ret (FileDone r data f)
      | RvisitFound a p => ret (ReadCopy a p)
      | RvisitNext next => ret (ReadWalk a next)
      end)
  | ReadCopy a p => Some (
      let* r := read_copy (ra_cap a) p (ra_blk a) (ra_offset a) (ra_len a) (ra_file a) in
      match r with
      | inl (r, data, f) => ret (FileDone r data f)
      | inr (ret_, data, f) => ret (ReadNext ret_ data f p)
      end)
  | ReadNext ret_ data f p => Some (
      let* next := next_elem p in ret (ReadSession ret_ data f next))
  | ReadSession ret_ data f next => Some (
      let* r := advance_session next ret_ data f in ret (FileDone r.1.1 r.1.2 r.2))
  | FileDone _ _ _ | Done _ _ => None
  end.

(** ** Executions *)

Definition config : Type := world * list thread.

(** One step of thread [i]. *)
Inductive cstep : config -> config -> Prop :=
| cstep_run w ts i t m t' w' :
    ts !! i = Some t -> thread_step ts t = Some m -> m w = Ret t' w' ->
    cstep (w, ts) (w', <[i := t']> ts).

(** Some thread can fault. *)
Inductive cfault : config -> Prop :=
| cfault_run w ts i t m f :
    ts !! i = Some t -> thread_step ts t = Some m -> m w = Fault f -> cfault (w, ts).

Definition finished (t : thread) : bool := match t with FileDone _ _ _ | Done _ _ => true | _ => false end.

(** A call that has not started. *)
Definition starting (t : thread) : bool :=
  match t with PutCall _ _ | GetCall _ _ _ | InvCall _ | FileCall _ _ => true | _ => false end.

(** The arguments of a system call. *)
Definition call_ok (t : thread) : Prop :=
  match t with
  | PutCall source size => 0 <= size < 2 ^ 64 /\ size <= Z.of_nat (length source)
  | GetCall offset _ size => - 2 ^ 31 <= offset < 2 ^ 31 /\ 0 <= size < 2 ^ 64
  | InvCall offset => - 2 ^ 31 <= offset < 2 ^ 31
  | _ => False
  end.

(** ** The abstract store under parallel calls

    What the calls do to the store: a put and an invalidation act at once, in the
    step that is their critical section; every other step leaves the store alone,
    and the values that the writers return are those of the abstract operations.
    The read() calls are those of sessions that read whole messages: the position
    is at the beginning of a block and the buffer has room for the block. *)
Inductive commits (s : mstore) : thread -> thread -> mstore -> Prop :=
| commit_put source size a t b bh old s' :
    (exists n, t = clock n) -> s_put t (take (Z.to_nat size) source) s = (b, s') -> 0 <= b ->
    commits s (PutReady source size a) (PutWritten source size a b bh old) s'
| commit_full source size a :
    next_free s = None -> commits s (PutReady source size a) (Done (- ENOMEM) []) s
| commit_invalidate offset el bh rs s' :
    s_invalidate offset s = (0, s') ->
    commits s (InvCall offset) (InvWait offset el bh rs) s'
| commit_invalidate_fails offset r :
    s_invalidate offset s = (r, s) -> r <> 0 -> commits s (InvCall offset) (Done r []) s
| commit_put_ready source size a :
    size <= DEFAULT_BLOCK_SIZE - METADATA_SIZE ->
    commits s (PutCall source size) (PutReady source size a) s
| commit_put_rejected source size r :
    (r = - EADDRNOTAVAIL /\ (exists n, kzalloc_ok n = false) \/
     r = - E2BIG /\ DEFAULT_BLOCK_SIZE - METADATA_SIZE < size) ->
    commits s (PutCall source size) (Done r []) s
| commit_put_end source size a b bh old :
    commits s (PutWritten source size a b bh old) (Done b []) s
| commit_get_enter offset cap size sb p :
    0 <= offset < Z.of_nat (s_cap s) ->
    commits s (GetCall offset cap size) (GetWalk offset cap size sb p) s
| commit_get_next offset cap size sb p q :
    commits s (GetWalk offset cap size sb p) (GetWalk offset cap size sb q) s
| commit_get_missing offset cap size sb :
    commits s (GetWalk offset cap size sb None) (Done (- ENODATA) []) s
| commit_get_found offset cap size sb p n :
    0 <= n <= DEFAULT_BLOCK_SIZE - METADATA_SIZE ->
    commits s (GetWalk offset cap size sb p) (GetRead offset cap size sb n) s
| commit_get_end offset cap size sb n d :
    Z.of_nat (length d) = Z.min n (Z.min (Z.of_nat cap) size) ->
    (forall m, s_msgs s !! Z.to_nat offset = Some m -> n <= Z.of_nat (length (m_data m)) ->
       d = take (Nat.min cap (Z.to_nat size)) (take (Z.to_nat n) (m_data m))) ->
    commits s (GetRead offset cap size sb n) (Done (Z.of_nat (length d)) d) s
| commit_get_rejected offset cap size :
    ~ (0 <= offset < Z.of_nat (s_cap s)) ->
    commits s (GetCall offset cap size) (Done (- E2BIG) []) s
| commit_invalidate_end offset el bh rs :
    commits s (InvWait offset el bh rs) (Done 0 []) s
| commit_open f r f' :
    (r = 0 /\ (exists p, f' = set_private (Some p) f) \/
     r = - ENOMEM /\ f' = f /\ (exists n, kzalloc_ok n = false)) ->
    commits s (FileCall OpenCall f) (FileDone r [] f') s
| commit_seek off whence f r f' :
    (if (whence =? SEEK_SET) && (off =? 0)
     then (r = 0 /\ (exists p, f' = set_pos 0 (set_private (Some p) f))) \/
          (r = - ENOMEM /\ f' = f /\ (exists n, kzalloc_ok n = false))
     else r = - EINVAL /\ f' = f) ->
    commits s (FileCall (SeekCall off whence) f) (FileDone r [] f') s
| commit_close f : commits s (FileCall CloseCall f) (Done 0 []) s
| commit_read_eof cap len f :
    4096 * Z.of_nat (s_cap s) <= f_pos f + 8192 ->
    commits s (FileCall (ReadCall cap len) f) (FileDone 0 [] f) s
| commit_read_enter cap len f p :
    f_pos f + 8192 < 4096 * Z.of_nat (s_cap s) ->
    commits s (FileCall (ReadCall cap len) f)
      (ReadWalk (ReadArgs cap (f_pos f / 4096) 10 4086 (set_pos (4096 * (f_pos f / 4096) + 10) f)) p) s
| commit_read_next a p q : commits s (ReadWalk a p) (ReadWalk a q) s
| commit_read_missing a :
    commits s (ReadWalk a None) (FileDone 0 [] (set_pos (i_size (ra_file a)) (ra_file a))) s
| commit_read_found a p i n :
    0 <= i < Z.of_nat (s_cap s) ->
    commits s (ReadWalk a (Some p))
      (ReadCopy (ReadArgs (ra_cap a) (i + 2) 10 n (set_pos (4096 * i + 10) (ra_file a))) p) s
| commit_read_copy a p d :
    Z.of_nat (length d) <= DEFAULT_BLOCK_SIZE - METADATA_SIZE ->
    (forall m, s_msgs s !! Z.to_nat (ra_blk a - 2) = Some m -> (length d <= length (m_data m))%nat ->
       d = take (length d) (m_data m)) ->
    commits s (ReadCopy a p) (ReadNext (Some (Z.of_nat (length d))) d (ra_file a) p) s
| commit_read_ahead r d f p q : commits s (ReadNext r d f p) (ReadSession r d f q) s
| commit_read_last d f :
    commits s (ReadSession (Some (Z.of_nat (length d))) d f None)
      (FileDone (Z.of_nat (length d)) d (set_pos (i_size f) f)) s
| commit_read_moved d f q p i :
    0 <= i < Z.of_nat (s_cap s) ->
    commits s (ReadSession (Some (Z.of_nat (length d))) d f (Some q))
      (FileDone (Z.of_nat (length d)) d (set_pos (4096 * i + 10) (set_private (Some p) f))) s
| commit_read_nomem r d f q :
    (exists n, kzalloc_ok n = false) ->
    commits s (ReadSession r d f (Some q)) (FileDone (- ENOMEM) d f) s.

(** What each of the calls can do next. *)
Lemma commits_put_call s source size t' s' :
  commits s (PutCall source size) t' s' ->
  s' = s /\ ((exists a, t' = PutReady source size a /\ size <= DEFAULT_BLOCK_SIZE - METADATA_SIZE) \/
    exists r, t' = Done r [] /\ (r = - EADDRNOTAVAIL /\ (exists n, kzalloc_ok n = false) \/
                              r = - E2BIG /\ DEFAULT_BLOCK_SIZE - METADATA_SIZE < size)).
Proof. inversion 1; subst; eauto 8. Qed.

Lemma commits_put_ready s source size a t' s' :
  commits s (PutReady source size a) t' s' ->
  (exists t b bh old, (exists n, t = clock n) /\ s_put t (take (Z.to_nat size) source) s = (b, s') /\
     0 <= b /\ t' = PutWritten source size a b bh old) \/
  (next_free s = None /\ s' = s /\ t' = Done (- ENOMEM) []).
Proof. inversion 1; subst; eauto 12. Qed.

Lemma commits_get_call s offset cap size t' s' :
  commits s (GetCall offset cap size) t' s' ->
  s' = s /\ ((exists sb p, t' = GetWalk offset cap size sb p /\ 0 <= offset < Z.of_nat (s_cap s)) \/
    (t' = Done (- E2BIG) [] /\ ~ (0 <= offset < Z.of_nat (s_cap s)))).
Proof. inversion 1; subst; eauto 8. Qed.

Lemma commits_get_read s offset cap size sb n t' s' :
  commits s (GetRead offset cap size sb n) t' s' ->
  s' = s /\ exists d, t' = Done (Z.of_nat (length d)) d /\
    Z.of_nat (length d) = Z.min n (Z.min (Z.of_nat cap) size) /\
    (forall m, s_msgs s !! Z.to_nat offset = Some m -> n <= Z.of_nat (length (m_data m)) ->
       d = take (Nat.min cap (Z.to_nat size)) (take (Z.to_nat n) (m_data m))).
Proof. inversion 1; subst; eauto 8. Qed.

Lemma commits_inv_call s offset t' s' :
  commits s (InvCall offset) t' s' ->
  (exists el bh rs, t' = InvWait offset el bh rs /\ s_invalidate offset s = (0, s')) \/
  (exists r, t' = Done r [] /\ s' = s /\ s_invalidate offset s = (r, s) /\ r <> 0).
Proof. inversion 1; subst; eauto 8. Qed.

Inductive astep : mstore * list thread -> mstore * list thread -> Prop :=
| astep_run s ts i t t' s' :
    ts !! i = Some t -> commits s t t' s' -> astep (s, ts) (s', <[i := t']> ts).
End Threads.
