(* ===== verification/Buffers.v ===== *)
(** * What the calls do to the buffers of the device

    A call writes at most one block, in its critical section, and flushes it
    afterwards: every other step of a thread leaves the buffers alone.  The proofs
    are about all the states, mounted or not: the functions of the driver are run
    through with a hint for each of them ([kept]). *)
From S2P Require Import Prelude Layout Kernel KernelFacts Rcu Store Device DeviceWp Syscalls FileOps.
From S2P Require Import Threads.

Create HintDb kept discriminated.

Section Buffers.
Context {K : Kernel} {C : Config}.

(** [m] does not touch the buffers. *)
Definition kept {A} (m : M A) : Prop := forall w a w', m w = Ret a w' -> bufs w' = bufs w.

Lemma bind_ret {A B} (m : M A) (k : A -> M B) w b w' :
  bind m k w = Ret b w' -> exists a w1, m w = Ret a w1 /\ k a w1 = Ret b w'.
Proof. unfold bind. destruct (m w) as [a w1|]; [eauto|done]. Qed.

Lemma kept_bind {A B} (m : M A) (k : A -> M B) : kept m -> (forall a, kept (k a)) -> kept (bind m k).
Proof. intros Hm Hk w b w' (a & w1 & H1 & H2)%bind_ret. by rewrite (Hk _ _ _ _ H2), (Hm _ _ _ H1). Qed.

Lemma kept_ret {A} (a : A) : kept (ret a).
Proof. by intros w b w' [= <- <-]. Qed.

Lemma kept_fail {A} f : kept (A := A) (fail f).
Proof. by intros w b w'. Qed.

Lemma kept_gets {A} (f : world -> A) : kept (gets f).
Proof. by intros w b w' [= <- <-]. Qed.

Lemma kept_modify f : (forall w, bufs (f w) = bufs w) -> kept (modify f).
Proof. intros Hf w b w' [= <- <-]. apply Hf. Qed.
End Buffers.

#[export] Hint Resolve kept_ret kept_fail kept_gets : kept.

(** One function of the driver, or the next step of a program. *)
Ltac kept_step :=
  first [ solve [auto with kept nocore]
        | apply kept_bind; [|intros ?]
        | apply kept_modify; intros ?; reflexivity
        | case_decide | case_if
        | match goal with |- kept (match ?x with _ => _ end) => destruct x end
        | match goal with |- kept (let '_ := ?x in _) => destruct x end ].

(** A primitive is a function on the state: every one of its branches is tried. *)
Ltac kept_prim :=
  intros ? ? ?; repeat case_match; intros; simplify_eq; reflexivity.

Section Primitives.
Context {K : Kernel} {C : Config}.

Lemma kept_deref p : kept (deref p).
Proof. unfold deref. kept_prim. Qed.
#[local] Hint Resolve kept_deref : kept.

Lemma kept_store p o : kept (store p o).
Proof. unfold store. repeat kept_step. Qed.

Lemma kept_load_blk p : kept (load_blk p).
Proof. unfold load_blk, type_error. repeat kept_step. Qed.
Lemma kept_load_elem p : kept (load_elem p).
Proof. unfold load_elem, type_error. repeat kept_step. Qed.
Lemma kept_load_buf p : kept (load_buf p).
Proof. unfold load_buf, type_error. repeat kept_step. Qed.
Lemma kept_load_time p : kept (load_time p).
Proof. unfold load_time, type_error. repeat kept_step. Qed.
Lemma kept_load_arr p : kept (load_arr p).
Proof. unfold load_arr, type_error. repeat kept_step. Qed.

Lemma kept_kzalloc o : kept (kzalloc o).
Proof. unfold kzalloc. kept_prim. Qed.
Lemma kept_kfree p : kept (kfree p).
Proof. unfold kfree, free_with. kept_prim. Qed.
Lemma kept_spin_lock : kept spin_lock.
Proof. unfold spin_lock. kept_prim. Qed.
Lemma kept_spin_unlock : kept spin_unlock.
Proof. unfold spin_unlock. kept_prim. Qed.
Lemma kept_rcu_read_lock : kept rcu_read_lock.
Proof. unfold rcu_read_lock. kept_prim. Qed.
Lemma kept_rcu_read_unlock : kept rcu_read_unlock.
Proof. unfold rcu_read_unlock. kept_prim. Qed.
Lemma kept_ktime_get_real : kept ktime_get_real.
Proof. unfold ktime_get_real, answer. kept_prim. Qed.
Lemma kept_sb_bread sb n : kept (sb_bread sb n).
Proof. unfold sb_bread. kept_prim. Qed.
Lemma kept_bh_data bh : kept (bh_data bh).
Proof. unfold bh_data. kept_prim. Qed.
#[local] Hint Resolve kept_store kept_load_blk kept_load_elem kept_load_buf kept_load_time
  kept_load_arr kept_kzalloc kept_kfree kept_spin_lock kept_spin_unlock kept_rcu_read_lock
  kept_rcu_read_unlock kept_ktime_get_real kept_sb_bread kept_bh_data : kept.

Lemma kept_brelse bh : kept (brelse bh).
Proof. unfold brelse. repeat kept_step. Qed.
Lemma kept_md_slot i : kept (md_slot i).
Proof. unfold md_slot. repeat kept_step. Qed.
Lemma kept_set_md_slot i p : kept (set_md_slot i p).
Proof. unfold set_md_slot. repeat kept_step. Qed.
Lemma kept_copy_from_user b off src size : kept (copy_from_user b off src size).
Proof. unfold copy_from_user. repeat kept_step. Qed.
Lemma kept_copy_to_user cap from off n : kept (copy_to_user cap from off n).
Proof. unfold copy_to_user. repeat kept_step. Qed.
End Primitives.

#[export] Hint Resolve kept_deref kept_store kept_load_blk kept_load_elem kept_load_buf kept_load_time
  kept_load_arr kept_kzalloc kept_kfree kept_spin_lock kept_spin_unlock kept_rcu_read_lock
  kept_rcu_read_unlock kept_ktime_get_real kept_sb_bread kept_bh_data kept_brelse kept_md_slot
  kept_set_md_slot kept_copy_from_user kept_copy_to_user : kept.

(** ** The functions of the driver *)

Section Functions.
Context {K : Kernel} {C : Config}.

Lemma kept_on_node f el : kept (on_node f el).
Proof. unfold on_node. repeat kept_step. Qed.
#[local] Hint Resolve kept_on_node : kept.

Lemma kept_find_older el nodes : kept (find_older el nodes).
Proof. induction nodes; cbn [find_older]; repeat kept_step. Qed.
Lemma kept_find_node test nodes : kept (find_node test nodes).
Proof. induction nodes; cbn [find_node]; repeat kept_step. Qed.
Lemma kept_find_free fuel : forall i, kept (find_free fuel i).
Proof. induction fuel; intros i; cbn [find_free]; repeat kept_step. Qed.
#[local] Hint Resolve kept_find_older kept_find_node kept_find_free : kept.

Lemma kept_find_in_list test : kept (find_in_list test).
Proof. unfold find_in_list. repeat kept_step. Qed.
Lemma kept_add_in_order el i vb t : kept (add_valid_block_in_order_secure el i vb t).
Proof. unfold add_valid_block_in_order_secure, fill_elem. repeat kept_step. Qed.
#[local] Hint Resolve kept_find_in_list kept_add_in_order : kept.

Lemma kept_put_prepare source size : kept (put_prepare source size).
Proof. unfold put_prepare. repeat kept_step. Qed.
Lemma kept_put_error a err old : kept (put_error a err old).
Proof. unfold put_error. repeat kept_step. Qed.
Lemma kept_get_enter offset : kept (get_enter offset).
Proof. unfold get_enter. repeat kept_step. Qed.
Lemma kept_get_visit offset el : kept (get_visit offset el).
Proof. unfold get_visit. repeat kept_step. Qed.
Lemma kept_get_copy offset cap size sb n : kept (get_copy offset cap size sb n).
Proof. unfold get_copy. repeat kept_step. Qed.

Lemma kept_end_of_msgs r d f : kept (end_of_msgs r d f).
Proof. unfold end_of_msgs, use_local. repeat kept_step. Qed.
#[local] Hint Resolve kept_end_of_msgs : kept.
Lemma kept_advance_session q r d f : kept (advance_session q r d f).
Proof. unfold advance_session, use_local. repeat kept_step. Qed.
Lemma kept_next_elem p : kept (next_elem p).
Proof. unfold next_elem. repeat kept_step. Qed.
Lemma kept_read_copy cap p b off len f : kept (read_copy cap p b off len f).
Proof. unfold read_copy. repeat kept_step. Qed.
Lemma kept_read_enter cap len f : kept (read_enter cap len f).
Proof. unfold read_enter. repeat kept_step. Qed.
Lemma kept_read_visit a el : kept (read_visit a el).
Proof. unfold read_visit, skip_to. repeat kept_step. Qed.
Lemma kept_open f : kept (bldms_open f).
Proof. unfold bldms_open. repeat kept_step. Qed.
Lemma kept_llseek off whence f : kept (bldms_llseek off whence f).
Proof. unfold bldms_llseek. repeat kept_step. Qed.
Lemma kept_release f : kept (bldms_release f).
Proof. unfold bldms_release. repeat kept_step. Qed.
#[local] Hint Resolve kept_open kept_llseek kept_release kept_read_enter : kept.
Lemma kept_file_step op f : kept (file_step op f).
Proof. unfold file_step. repeat kept_step. Qed.
End Functions.

#[export] Hint Resolve kept_on_node kept_find_free kept_find_in_list kept_add_in_order kept_put_prepare
  kept_put_error kept_get_enter kept_get_visit kept_get_copy kept_advance_session kept_next_elem
  kept_read_copy kept_read_visit kept_file_step : kept.

(** ** The steps of the threads *)

Section Moves.
Context {K : Kernel} {C : Config}.
Implicit Types (c : bcache) (w : world) (t : thread).

(** The block a thread has written and is going to flush. *)
Definition writes_back t : option Z :=
  match t with PutWritten _ _ _ _ bh _ | InvWait _ _ bh _ => bh | _ => None end.

(** What a step does to the buffers. *)
Inductive buf_moves : thread -> thread -> bcache -> bcache -> Prop :=
| moves_kept t t' c : writes_back t = None -> writes_back t' = None -> buf_moves t t' c c
| moves_put source size a b old d c :
    buf_moves (PutReady source size a) (PutWritten source size a b (Some (b + NUM_METADATA_BLKS)) old)
      c (rewritten (b + NUM_METADATA_BLKS) d c)
| moves_invalidate offset el rs d c :
    let n := u32 (offset + NUM_METADATA_BLKS) in
    buf_moves (InvCall offset) (InvWait offset el (Some n) rs) c (rewritten n d c)
| moves_flush t t' n c : writes_back t = Some n -> writes_back t' = None -> buf_moves t t' c (flushed n c).

(** Taking a run apart: the result of each step, with the buffers it leaves. *)
Ltac run_step :=
  match goal with
  | H : bind ?m _ ?w = Ret _ _ |- _ =>
    let Hm := fresh "Hm" in
    let Hb := fresh "Hb" in
    apply bind_ret in H as (? & ? & Hm & H);
    try (assert (Hb : kept m) by (solve [repeat kept_step]); apply Hb in Hm; clear Hb)
  | H : (if ?b then _ else _) _ = Ret _ _ |- _ => destruct b eqn:?
  | H : ret _ _ = Ret _ _ |- _ => injection H as; subst
  end.

Lemma sb_bread_block sb n w n' w' : sb_bread sb n w = Ret (Some n') w' -> n' = n /\ bufs w' = bufs w.
Proof. unfold sb_bread. repeat case_match; by intros [= <- <-]. Qed.

(** Writing a buffer and marking it dirty. *)
Lemma written_dirty n src w u w1 u' w2 :
  bh_write (Some n) src w = Ret u w1 -> mark_buffer_dirty (Some n) w1 = Ret u' w2 ->
  exists d, bufs w2 = rewritten n d (bufs w).
Proof.
  unfold bh_write, mark_buffer_dirty, on_bh. intros (d & w3 & Hd%kept_bh_data & H)%bind_ret H2.
  case_match; [|done]. injection H as _ <-. injection H2 as _ <-. rewrite <- Hd. by eexists.
Qed.
Lemma put_critical_moves a w o w' :
  put_critical a w = Ret o w' ->
  match o with
  | PutError _ _ => bufs w' = bufs w
  | PutDone b bh _ => bh = Some (b + NUM_METADATA_BLKS) /\
      exists d, bufs w' = rewritten (b + NUM_METADATA_BLKS) d (bufs w)
  end.
Proof.
  unfold put_critical. intros H. do 3 run_step. run_step; [run_step; congruence|]. run_step.
  apply bind_ret in H as (bh & wb & Hbh & H). run_step.
  { apply kept_sb_bread in Hbh. run_step. congruence. }
  destruct bh as [bn|]; [|done]. apply sb_bread_block in Hbh as [-> Hbh]. run_step.
  apply bind_ret in H as (u1 & w1 & H1 & H). apply bind_ret in H as (u2 & w2 & H2 & H).
  destruct (written_dirty _ _ _ _ _ _ _ H1 H2) as [d Hd]. repeat run_step.
  split; [done|]. exists d. congruence.
Qed.

Lemma invalidate_critical_moves offset w r w' :
  invalidate_critical offset w = Ret r w' ->
  let n := u32 (offset + NUM_METADATA_BLKS) in
  match r with
  | inl _ => bufs w' = bufs w
  | inr (_, bh) => bh = Some n /\ exists d, bufs w' = rewritten n d (bufs w)
  end.
Proof.
  unfold invalidate_critical. intros H. cbn zeta. run_step. run_step; [run_step; congruence|].
  run_step. run_step; [run_step; congruence|]. do 3 run_step.
  case_match; [|repeat run_step; congruence].
  apply bind_ret in H as (bh & wb & Hbh & H). run_step.
  { apply kept_sb_bread in Hbh. repeat run_step. congruence. }
  destruct bh as [bn|]; [|done]. apply sb_bread_block in Hbh as [-> Hbh]. do 8 run_step.
  apply bind_ret in H as (u1 & w1 & H1 & H). apply bind_ret in H as (u2 & w2 & H2 & H).
  destruct (written_dirty _ _ _ _ _ _ _ H1 H2) as [d Hd]. repeat run_step.
  split; [done|]. exists d. congruence.
Qed.

Lemma flush_moves (bh : option Z) (m : M Z) w r w' :
  bind (if SYNCHRONOUS_PUT_DATA then sync_dirty_buffer bh else ret tt) (fun _ => m) w = Ret r w' ->
  kept m -> (exists n, bh = Some n /\ bufs w' = flushed n (bufs w)) \/ bh = None /\ bufs w' = bufs w.
Proof.
  unfold flushed. intros (u & w1 & H1 & H2)%bind_ret Hm. apply Hm in H2. rewrite H2.
  destruct SYNCHRONOUS_PUT_DATA.
  - destruct bh as [n|]; [|done]. injection H1 as _ <-. left. by exists n.
  - injection H1 as _ <-. destruct bh as [n|]; [left; by exists n|by right].
Qed.

Lemma file_step_moves op f w t' w' :
  file_step op f w = Ret t' w' -> writes_back t' = None /\ bufs w' = bufs w.
Proof.
  intros H. split; [|by eapply kept_file_step].
  destruct op; simpl in H; apply bind_ret in H as (? & ? & _ & H); repeat case_match;
    by injection H as <- <-.
Qed.

(** Every step of a thread is one of these. *)
Lemma thread_step_moves ts t m w t' w' :
  thread_step ts t = Some m -> m w = Ret t' w' -> buf_moves t t' (bufs w) (bufs w').
Proof.
  intros Hm Hrun.
  assert (Hkept : writes_back t = None -> writes_back t' = None -> bufs w' = bufs w ->
    buf_moves t t' (bufs w) (bufs w')) by (intros ?? ->; by constructor).
  destruct t; simpl in Hm; try (case_decide; [|done]); try done; injection Hm as <-.
  all: try (assert (Hk : bufs w' = bufs w) by
         (revert Hrun; match goal with |- ?m _ = _ -> _ => enough (Hk : kept m) by apply Hk end;
          solve [repeat kept_step]);
       apply bind_ret in Hrun as (? & ? & _ & Hrun); repeat case_match;
       injection Hrun as; subst; by apply Hkept).
  - apply bind_ret in Hrun as (o & w1 & Ho%put_critical_moves & Hrun). destruct o as [err old|b bh old].
    + apply bind_ret in Hrun as (r & w2 & Hr%kept_put_error & Hrun). injection Hrun as <- <-.
      apply Hkept; [done..|congruence].
    + injection Hrun as <- <-. destruct Ho as [-> [d ->]]. constructor.
  - apply bind_ret in Hrun as (r & w1 & Hr & Hrun). injection Hrun as <- <-.
    apply flush_moves in Hr as [(n & -> & ->)|[-> Hr]]; [by constructor|by apply Hkept|].
    repeat kept_step.
  - apply bind_ret in Hrun as (r & w1 & Hr%invalidate_critical_moves & Hrun). destruct r as [err|[el bh]].
    + injection Hrun as <- <-. by apply Hkept.
    + injection Hrun as <- <-. destruct Hr as [-> [d ->]]. constructor.
  - apply bind_ret in Hrun as (r & w1 & Hr & Hrun). injection Hrun as <- <-.
    apply flush_moves in Hr as [(n & -> & ->)|[-> Hr]]; [by constructor|by apply Hkept|].
    repeat kept_step.
  - apply file_step_moves in Hrun as [??]. by apply Hkept.
Qed.
End Moves.
