(* ===== verification/Grace.v ===== *)
(** * System calls in parallel: disjoint memory and grace periods

    Two facts about threads whose steps interleave: the memory each one owns stays
    disjoint from that of the others, and a reader's pointer leads to a node of the
    list or to a removed node whose remover is waiting for this reader. *)
From S2P Require Import Prelude Layout Kernel KernelFacts Rcu Store Device Syscalls Threads.

(** ** Disjoint frames *)

Fixpoint disjoint_frames (Fs : list (gmap loc obj)) : Prop :=
  match Fs with [] => True | F :: Fs' => F ##ₘ ⋃ Fs' /\ disjoint_frames Fs' end.

Lemma disjoint_frames_perm Fs Fs' :
  Fs ≡ₚ Fs' -> disjoint_frames Fs -> disjoint_frames Fs' /\ ⋃ Fs = ⋃ Fs'.
Proof.
  induction 1 as [|F Fs Fs' _ IH|F G Fs|Fs1 Fs2 Fs3 _ IH1 _ IH2]; simpl.
  - done.
  - intros [Hd H]. destruct (IH H) as [? Heq]. rewrite <- Heq. done.
  - intros (Hd & HG & H). apply map_disjoint_union_r in Hd as [HFG HF].
    split; [split_and!; [|done..]|].
    + apply map_disjoint_union_r. split; [done|done].
    + rewrite !(assoc_L (∪)). f_equal. by apply map_union_comm.
  - intros H. destruct (IH1 H) as [H2 ->]. by apply IH2.
Qed.

(** A further thread that owns nothing. *)
Lemma frames_snoc Fs :
  disjoint_frames Fs -> disjoint_frames (Fs ++ [∅]) /\ ⋃ (Fs ++ [∅]) = ⋃ Fs.
Proof.
  intros Hd. destruct (disjoint_frames_perm (∅ :: Fs) (Fs ++ [∅])) as [Hd' Hu].
  - by rewrite Permutation_cons_append.
  - split; [apply map_disjoint_empty_l|done].
  - split; [done|]. rewrite <- Hu. apply (left_id_L ∅ (∪)).
Qed.

(** The frame of one thread among those of all. *)
Lemma disjoint_frames_focus Fs i Fi :
  disjoint_frames Fs -> Fs !! i = Some Fi ->
  exists Fr, Fi ##ₘ Fr /\ ⋃ Fs = Fi ∪ Fr /\
    forall Fi', Fi' ##ₘ Fr -> disjoint_frames (<[i := Fi']> Fs) /\ ⋃ (<[i := Fi']> Fs) = Fi' ∪ Fr.
Proof.
  intros Hd Hi. destruct (insert_split Fs i Fi Hi) as (l1 & l2 & -> & _ & Hins).
  assert (Hp : forall G, l1 ++ G :: l2 ≡ₚ G :: (l1 ++ l2)) by (intros; symmetry; apply Permutation_middle).
  destruct (disjoint_frames_perm _ _ (Hp Fi) Hd) as [[HFr Hr] ->].
  exists (⋃ (l1 ++ l2)). split_and!; [done|done|]. intros Fi' HFi'. rewrite Hins.
  assert (Hd' : disjoint_frames (Fi' :: (l1 ++ l2))) by done.
  by destruct (disjoint_frames_perm _ _ (symmetry (Hp Fi')) Hd') as [? <-].
Qed.

Lemma disjoint_frames_pair Fs i j Fi Fj :
  disjoint_frames Fs -> i <> j -> Fs !! i = Some Fi -> Fs !! j = Some Fj -> Fi ##ₘ Fj.
Proof.
  revert i j. induction Fs as [|G Fs IH]; [done|]. intros [|i] [|j] [Hd H] Hij Hi Hj; simpl in *.
  - done.
  - injection Hi as ->. apply map_disjoint_union_list_r in Hd. rewrite Forall_forall in Hd.
    symmetry. by eapply Hd, list_elem_of_lookup_2.
  - injection Hj as ->. apply map_disjoint_union_list_r in Hd. rewrite Forall_forall in Hd.
    by eapply Hd, list_elem_of_lookup_2.
  - apply (IH i j); (done || congruence).
Qed.

(** ** Threads among others *)

Section Grace.
Context {K : Kernel} {KL : KernelLaws K} {C : Config}.
Implicit Types (ts : list thread) (l : rlist) (s : mstore) (w : world).

Lemma elem_of_readers ts i :
  i ∈ readers ts <-> exists t, ts !! i = Some t /\ is_reader t = true.
Proof.
  unfold readers. rewrite list_elem_of_filter, elem_of_seq, fmap_Some. split.
  - intros [(t & ? & ?) _]. by exists t.
  - intros (t & Ht & ?). split; [by exists t|]. apply lookup_lt_Some in Ht. lia.
Qed.

(** How many of the threads are readers. *)
Definition count_readers ts : nat := length (filter (fun t => is_reader t = true) ts).

Lemma count_readers_update ts i t t' :
  ts !! i = Some t ->
  (count_readers (<[i := t']> ts) + Nat.b2n (is_reader t) = count_readers ts + Nat.b2n (is_reader t'))%nat.
Proof.
  intros Hi. destruct (insert_split _ _ _ Hi) as (l1 & l2 & -> & _ & ->).
  unfold count_readers. rewrite !filter_app, !filter_cons, !length_app.
  destruct (is_reader t), (is_reader t'); rewrite ?decide_True, ?decide_False by done; simpl; lia.
Qed.

Definition waits_for (t : thread) (p : option loc) (r : nat) : Prop :=
  match t with InvWait _ el _ rs => el = p /\ r ∈ rs | _ => False end.
Definition cursor (t : thread) : option loc :=
  match t with
  | GetWalk _ _ _ _ p | ReadWalk _ p | ReadSession _ _ _ p => p
  | ReadCopy _ p | ReadNext _ _ _ p => Some p
  | _ => None
  end.
Definition not_waiting (t : thread) : Prop := match t with InvWait _ _ _ _ => False | _ => True end.

(** Node [p] cannot be freed under reader [r]. *)
Definition visible l ts (r : nat) (p : loc) : Prop :=
  p ∈ rl_nodes l \/ exists j t, ts !! j = Some t /\ waits_for t (Some p) r.

Record readers_ok l ts : Prop := {
  ro_cursor r t p : ts !! r = Some t -> cursor t = Some p -> visible l ts r p;
  ro_next r t j t' p q :
    ts !! r = Some t -> is_reader t = true -> ts !! j = Some t' -> waits_for t' (Some p) r ->
    rl_next l p = Some q -> visible l ts r q;
  ro_past j t p r :
    ts !! j = Some t -> waits_for t p r ->
    exists t', ts !! r = Some t' /\ (is_reader t' = true \/ finished t' = true)
}.

Lemma cursor_reader t p : cursor t = Some p -> is_reader t = true.
Proof. by destruct t. Qed.

Lemma waits_not_waiting t p r : not_waiting t -> ~ waits_for t p r.
Proof. destruct t; simpl; tauto. Qed.

Lemma visible_update l l' ts i t t' r p :
  ts !! i = Some t -> not_waiting t -> (forall x, x ∈ rl_nodes l -> x ∈ rl_nodes l') ->
  visible l ts r p -> visible l' (<[i := t']> ts) r p.
Proof.
  intros Hi Hn Hl [Hp|(j & u & Hj & Hw)]; [left; auto|right]. exists j, u. split; [|done].
  destruct (decide (i = j)) as [->|]; [|by rewrite list_lookup_insert_ne].
  rewrite Hi in Hj. injection Hj as <-. by destruct (waits_not_waiting t (Some p) r Hn).
Qed.

Lemma insert_lookup ts i (t' : thread) j u :
  <[i := t']> ts !! j = Some u -> (i = j /\ u = t') \/ (i <> j /\ ts !! j = Some u).
Proof.
  intros H. destruct (decide (i = j)) as [->|Hne].
  - left. split; [done|]. apply list_lookup_insert_Some in H as [(_ & <- & _)|[? _]]; done.
  - right. rewrite list_lookup_insert_ne in H by done. done.
Qed.

Lemma insert_self ts i (t t' : thread) : ts !! i = Some t -> <[i := t']> ts !! i = Some t'.
Proof. intros Hi. apply list_lookup_insert_eq. by eapply lookup_lt_Some. Qed.

(** A step that leaves the list as it is, or adds a node: the thread neither waited
    nor waits, and its pointer, if any, is visible. *)
Lemma readers_ok_move l l' ts i t t' :
  readers_ok l ts -> ts !! i = Some t -> not_waiting t -> not_waiting t' ->
  (forall x, x ∈ rl_nodes l -> x ∈ rl_nodes l') ->
  (forall j u r p, ts !! j = Some u -> waits_for u (Some p) r -> rl_next l' p = rl_next l p) ->
  (forall p, cursor t' = Some p -> visible l ts i p) ->
  (is_reader t = true -> is_reader t' = true \/ finished t' = true) ->
  finished t = false ->
  readers_ok l' (<[i := t']> ts).
Proof.
  intros Hok Hi Hn Hn' Hl Hnext Hcur Hr Hfin.
  assert (Hw : forall j u p r, <[i := t']> ts !! j = Some u -> waits_for u p r ->
    i <> j /\ ts !! j = Some u).
  { intros j u p r [[<- ->]|?]%insert_lookup Hwu; [|done].
    by destruct (waits_not_waiting t' p r Hn'). }
  split.
  - intros r u p Hu Hp. eapply visible_update; [exact Hi|exact Hn|exact Hl|].
    apply insert_lookup in Hu as [[<- ->]|[_ Hu]]; [by apply Hcur|by eapply ro_cursor].
  - intros r u j u' p q Hu Hru Hj Hwt Hq. destruct (Hw _ _ _ _ Hj Hwt) as [Hij Hj'].
    eapply visible_update; [exact Hi|exact Hn|exact Hl|]. rewrite (Hnext _ _ _ _ Hj' Hwt) in Hq.
    apply insert_lookup in Hu as [[<- ->]|[_ Hu]]; [|by eapply (ro_next _ _ Hok r u)].
    destruct (ro_past _ _ Hok _ _ _ _ Hj' Hwt) as (t0 & Ht0 & Hrd). rewrite Hi in Ht0.
    injection Ht0 as <-. destruct (is_reader t) eqn:Et; [by eapply (ro_next _ _ Hok i t)|].
    destruct Hrd; congruence.
  - intros j u p r Hj Hwt. destruct (Hw _ _ _ _ Hj Hwt) as [Hij Hj'].
    destruct (ro_past _ _ Hok _ _ _ _ Hj' Hwt) as (t0 & Ht0 & Hrd).
    destruct (decide (i = r)) as [<-|Hne].
    + exists t'. rewrite Hi in Ht0. injection Ht0 as <-.
      split; [by eapply insert_self|]. destruct Hrd; [auto|congruence].
    + exists t0. by rewrite list_lookup_insert_ne.
Qed.

(** Removing node [x] and starting to wait for the readers there are. *)
Lemma readers_ok_remove l ts i t off x bh :
  readers_ok l ts -> ts !! i = Some t -> not_waiting t -> is_reader t = false -> finished t = false ->
  NoDup (rl_nodes l) -> x ∈ rl_nodes l ->
  (forall j u r p, ts !! j = Some u -> waits_for u (Some p) r -> p ∉ rl_nodes l) ->
  readers_ok (list_del_rcu x l) (<[i := InvWait off (Some x) bh (readers ts)]> ts).
Proof.
  intros Hok Hi Hn Hnr Hfin Hnd Hx Hout. set (t' := InvWait _ _ _ _).
  assert (Hit' : <[i := t']> ts !! i = Some t') by (by eapply insert_self).
  assert (Hother : forall r u, <[i := t']> ts !! r = Some u -> is_reader u = true -> ts !! r = Some u).
  { intros r u [[_ ->]|[_ ?]]%insert_lookup; done. }
  apply list_elem_of_split in Hx as Hsplit. destruct Hsplit as (l1 & l2 & Hl).
  assert (Hx1 : (x ∉ l1) /\ (x ∉ l2)).
  { rewrite Hl in Hnd. apply NoDup_app in Hnd as (_ & Hd & Hnd2).
    apply NoDup_cons in Hnd2 as [? _]. split; [|done]. intros Hin. apply (Hd x Hin). set_solver. }
  assert (Hdel : rl_nodes (list_del_rcu x l) = l1 ++ l2) by (apply rl_nodes_del; tauto).
  assert (Hvis : forall r u p, ts !! r = Some u -> is_reader u = true -> visible l ts r p ->
    visible (list_del_rcu x l) (<[i := t']> ts) r p).
  { intros r u p Hu Hru Hv. destruct (decide (p = x)) as [->|Hne].
    { right. exists i, t'. split; [done|]. split; [done|]. apply elem_of_readers. by exists u. }
    destruct Hv as [Hp|(j & v & Hj & Hw)].
    - left. rewrite Hdel. rewrite Hl in Hp. set_solver.
    - right. exists j, v. split; [|done]. rewrite list_lookup_insert_ne; [done|]. intros ->.
      rewrite Hi in Hj. injection Hj as ->. by destruct (waits_not_waiting v (Some p) r Hn). }
  split.
  - intros r u p Hu Hp. apply cursor_reader in Hp as Hru. pose proof (Hother _ _ Hu Hru) as Hu'.
    eapply Hvis; [done|done|by eapply ro_cursor].
  - intros r u j u' p q Hu Hru Hj Hwt Hq. pose proof (Hother _ _ Hu Hru) as Hu'.
    eapply Hvis; [exact Hu'|done|]. apply insert_lookup in Hj as [[<- ->]|[_ Hj]].
    + destruct Hwt as [[= <-] _]. rewrite rl_next_del in Hq by done. left.
      rewrite (rl_next_spec x l l1 l2) in Hq by tauto. rewrite Hl.
      destruct l2; [done|]. injection Hq as ->. set_solver.
    + rewrite rl_next_del_other in Hq; [exact (ro_next _ _ Hok r u j u' p q Hu' Hru Hj Hwt Hq)|exact (Hout _ _ _ _ Hj Hwt)|].
      intros ->. by apply (Hout _ _ _ _ Hj Hwt).
  - intros j u p r Hj Hwt. assert (Hold : exists t0, ts !! r = Some t0 /\ (is_reader t0 = true \/ finished t0 = true)).
    { apply insert_lookup in Hj as [[<- ->]|[_ Hj]]; [|exact (ro_past _ _ Hok _ _ _ _ Hj Hwt)].
      destruct Hwt as [_ (t0 & ? & ?)%elem_of_readers]. eauto. }
    destruct Hold as (t0 & Ht0 & Hrd). exists t0. split; [|done].
    rewrite list_lookup_insert_ne; [done|]. intros ->. rewrite Hi in Ht0. injection Ht0 as ->.
    destruct Hrd; congruence.
Qed.

(** The end of the wait: no reader is left of those that were waited for. *)
Lemma readers_ok_free l ts i off el bh rs r d :
  readers_ok l ts -> ts !! i = Some (InvWait off el bh rs) -> Forall (fun r => r ∉ readers ts) rs ->
  readers_ok l (<[i := Done r d]> ts).
Proof.
  intros Hok Hi Hfree. rewrite Forall_forall in Hfree.
  assert (Hother : forall j u, <[i := Done r d]> ts !! j = Some u -> finished u = false ->
    i <> j /\ ts !! j = Some u).
  { intros j u [[_ ->]|?]%insert_lookup Hu; done. }
  assert (Hrf : forall u, is_reader u = true -> finished u = false) by (by intros []).
  assert (Hvis : forall k u p, ts !! k = Some u -> is_reader u = true -> visible l ts k p ->
    visible l (<[i := Done r d]> ts) k p).
  { intros k u p Hk Hu [Hp|(j & v & Hj & Hw)]; [by left|right]. exists j, v. split; [|done].
    rewrite list_lookup_insert_ne; [done|]. intros <-. rewrite Hi in Hj. injection Hj as <-.
    destruct Hw as [_ Hin]. apply (Hfree k Hin), elem_of_readers. by exists u. }
  split.
  - intros k u p Hu Hp. apply cursor_reader in Hp as Hru. destruct (Hother _ _ Hu (Hrf _ Hru)).
    eapply Hvis; [done|done|by eapply ro_cursor].
  - intros k u j v p q Hu Hru Hj Hwt Hq. destruct (Hother _ _ Hu (Hrf _ Hru)) as [_ Hu'].
    assert (Hv : finished v = false) by (by destruct v).
    destruct (Hother _ _ Hj Hv) as [_ Hj']. eapply Hvis; [done|done|exact (ro_next _ _ Hok k u j v p q Hu' Hru Hj' Hwt Hq)].
  - intros j v p k Hj Hwt. assert (Hv : finished v = false) by (by destruct v).
    destruct (Hother _ _ Hj Hv) as [_ Hj']. destruct (ro_past _ _ Hok _ _ _ _ Hj' Hwt) as (t0 & Ht0 & Hrd).
    destruct (decide (i = k)) as [<-|Hne].
    + exists (Done r d). split; [by eapply insert_self|by right].
    + exists t0. by rewrite list_lookup_insert_ne.
Qed.

(** A finished thread replaced by another. *)
Lemma readers_ok_finished l ts i t t' :
  readers_ok l ts -> ts !! i = Some t -> finished t = true -> finished t' = true ->
  readers_ok l (<[i := t']> ts).
Proof.
  intros Hok Hi Hf Hf'.
  assert (Hrf : forall u, is_reader u = true -> finished u = false) by (by intros []).
  assert (Hwf : forall u p r, waits_for u p r -> finished u = false) by (by intros []).
  assert (Hn : not_waiting t) by (by destruct t).
  assert (Hother : forall j u, <[i := t']> ts !! j = Some u -> finished u = false -> ts !! j = Some u).
  { intros j u [[_ ->]|[_ ?]]%insert_lookup Hu; [congruence|done]. }
  assert (Hvis : forall k p, visible l ts k p -> visible l (<[i := t']> ts) k p)
    by (intros; by eapply visible_update).
  split.
  - intros k u p Hu Hp. apply Hvis. eapply ro_cursor; [done| |done].
    apply Hother; [done|]. apply cursor_reader in Hp. auto.
  - intros k u j v p q Hu Hru Hj Hwt Hq. apply Hvis.
    eapply (ro_next _ _ Hok k u j v p q); try done; eauto.
  - intros j v p k Hj Hwt.
    destruct (ro_past _ _ Hok j v p k) as (t0 & Ht0 & Hrd); [eauto|done|].
    destruct (decide (i = k)) as [<-|Hne].
    + exists t'. split; [by eapply insert_self|by right].
    + exists t0. by rewrite list_lookup_insert_ne.
Qed.
End Grace.
