(* ===== verification/Walk.v ===== *)
(** * System calls in parallel: the walk of a reader

    The nodes a reader of the RCU list has still to visit if the list does not
    change, from the node it has reached on, and what the insertion or the removal
    of a node by a writer does to them: an insertion adds at most one node to the
    walk, a removal takes away no other node than the removed one. *)
From S2P Require Import Prelude Layout Kernel KernelFacts Rcu.

Section Walk.
Context {K : Kernel} {KL : KernelLaws K}.
Implicit Types (l : rlist) (p q x : loc) (qs : list loc).

(** A link of a node of the list leads to the list. *)
Lemma rl_next_in l p q :
  NoDup (rl_nodes l) -> p ∈ rl_nodes l -> rl_next l p = Some q -> q ∈ rl_nodes l.
Proof.
  intros Hnd (l1 & l2 & Hl)%list_elem_of_split Hq. rewrite Hl in Hnd.
  apply NoDup_mid in Hnd as (H1 & _ & _). rewrite (rl_next_spec p l l1 l2) in Hq by done.
  rewrite Hl. destruct l2; [done|]. injection Hq as ->. set_solver.
Qed.

(** Following the links from [c] to the end of the list visits [qs]. *)
Fixpoint path l (c : option loc) qs : Prop :=
  match qs with
  | [] => c = None
  | q :: qs' => c = Some q /\ path l (rl_next l q) qs'
  end.

Lemma path_unique l c qs1 qs2 : path l c qs1 -> path l c qs2 -> qs1 = qs2.
Proof.
  revert c qs2. induction qs1 as [|q qs1 IH]; intros c [|q2 qs2]; simpl; try done.
  - intros -> [? _]. done.
  - intros [-> _] ?. done.
  - intros [-> H1] [[= <-] H2]. f_equal. by eapply IH.
Qed.

(** From a node of the list, the rest of the list. *)
Lemma path_list l qs1 qs2 :
  NoDup (rl_nodes l) -> rl_nodes l = qs1 ++ qs2 -> path l (head qs2) qs2.
Proof.
  intros Hnd. revert qs1. induction qs2 as [|q qs2 IH]; intros qs1 Hl; simpl; [done|].
  split; [done|]. rewrite (rl_next_spec q l qs1 qs2) by (rewrite ?Hl in Hnd; done || by apply NoDup_mid in Hnd as [? _]).
  apply (IH (qs1 ++ [q])). by rewrite <- (assoc_L (++)).
Qed.

Lemma path_node l q qs :
  NoDup (rl_nodes l) -> q ∈ rl_nodes l -> path l (Some q) qs ->
  exists qs1 qs2, rl_nodes l = qs1 ++ q :: qs2 /\ qs = q :: qs2.
Proof.
  intros Hnd (qs1 & qs2 & Hl)%list_elem_of_split Hq. exists qs1, qs2. split; [done|].
  eapply path_unique; [exact Hq|]. by apply (path_list l qs1 (q :: qs2)).
Qed.

(** An insertion. *)
Lemma path_grows el l l' c qs :
  NoDup (rl_nodes l) -> NoDup (rl_nodes l') -> grows el l l' -> el ∉ qs -> path l c qs ->
  exists qs', path l' c qs' /\ (forall x, x ∈ qs -> x ∈ qs') /\ (length qs' <= S (length qs))%nat.
Proof.
  intros Hnd Hnd' [(ps1 & ps2 & Hl & Hl') Hother]. revert c.
  induction qs as [|q qs IH]; intros c Hel; simpl.
  { intros ->. exists []. split_and!; [done|set_solver|simpl; lia]. }
  intros [-> Hp]. apply not_elem_of_cons in Hel as [Hne Hel].
  destruct (decide (q ∈ rl_nodes l)) as [Hin|Hout].
  - destruct (path_node l q (q :: qs) Hnd Hin) as (qs1 & qs2 & Hq & [= ->]); [done|].
    assert (Hsuf : exists qs1' qs2', rl_nodes l' = qs1' ++ q :: qs2' /\
      (forall x, x ∈ qs2 -> x ∈ qs2') /\ (length qs2' <= S (length qs2))%nat).
    { rewrite Hl in Hq. apply app_eq_inv in Hq as [(k & H1 & H2)|(k & H1 & H2)].
      - destruct k as [|y k]; simpl in *.
        + exists (ps1 ++ [el]), qs2. subst. rewrite Hl'. split_and!; [|auto|lia].
          by rewrite app_nil_r, <- (assoc_L (++)).
        + injection H2 as <- ->. exists qs1, (k ++ el :: ps2). rewrite Hl', H1.
          split_and!; [by rewrite <- (assoc_L (++))|set_solver|rewrite !length_app; simpl; lia].
      - exists (ps1 ++ el :: k), qs2. rewrite Hl', H2. split_and!; [|auto|lia].
        by rewrite <- (assoc_L (++)). }
    destruct Hsuf as (qs1' & qs2' & Hq' & Hsub & Hlen). exists (q :: qs2').
    split_and!; [by apply (path_list l' qs1' (q :: qs2'))|set_solver|simpl; lia].
  - destruct (IH (rl_next l q) Hel Hp) as (qs' & Hp' & Hsub & Hlen). exists (q :: qs').
    split_and!; [split; [done|by rewrite Hother by done]|set_solver|simpl; lia].
Qed.

(** A removal. *)
Lemma path_del x l c qs :
  NoDup (rl_nodes l) -> x ∈ rl_nodes l -> path l c qs ->
  exists qs', path (list_del_rcu x l) c qs' /\ (forall y, y ∈ qs -> y <> x -> y ∈ qs') /\
    (length qs' <= length qs)%nat.
Proof.
  intros Hnd Hx. apply list_elem_of_split in Hx as Hsplit. destruct Hsplit as (l1 & l2 & Hl).
  assert (Hx1 : (x ∉ l1) /\ (x ∉ l2) /\ NoDup (l1 ++ l2)) by (rewrite Hl in Hnd; by apply NoDup_mid).
  destruct Hx1 as (Hx1 & Hx2 & Hnd').
  assert (Hdel : rl_nodes (list_del_rcu x l) = l1 ++ l2) by (by apply rl_nodes_del).
  assert (Hndd : NoDup (rl_nodes (list_del_rcu x l))) by (by rewrite Hdel).
  revert c. induction qs as [|q qs IH]; intros c; simpl.
  { intros ->. exists []. split_and!; [done|set_solver|simpl; lia]. }
  intros [-> Hp]. destruct (decide (q = x)) as [->|Hne].
  { destruct (path_node l x (x :: qs) Hnd Hx) as (qs1 & qs2 & Hq & [= ->]); [done|].
    exists (x :: qs2). split_and!; [|auto|done]. split; [done|].
    rewrite rl_next_del by done. rewrite (rl_next_spec x l l1 l2) in * by done.
    assert (qs2 = l2) as ->; [|by apply (path_list _ l1)].
    eapply path_unique; [exact Hp|]. apply (path_list l (l1 ++ [x])); [done|].
    by rewrite <- (assoc_L (++)). }
  destruct (decide (q ∈ rl_nodes l)) as [Hin|Hout].
  - destruct (path_node l q (q :: qs) Hnd Hin) as (qs1 & qs2 & Hq & [= ->]); [done|].
    assert (Hsuf : exists qs1' qs2', rl_nodes (list_del_rcu x l) = qs1' ++ q :: qs2' /\
      (forall y, y ∈ qs2 -> y <> x -> y ∈ qs2') /\ (length qs2' <= length qs2)%nat).
    { rewrite Hdel. rewrite Hl in Hq. apply app_eq_inv in Hq as [(k & H1 & H2)|(k & H1 & H2)].
      - destruct k as [|y k]; simpl in *; [congruence|]. injection H2 as <- ->. subst.
        exists qs1, (k ++ l2). split_and!; [by rewrite <- (assoc_L (++))| |].
        + intros z. rewrite !elem_of_app, elem_of_cons. tauto.
        + rewrite !length_app. simpl. lia.
      - destruct k as [|y k]; simpl in *; [congruence|]. injection H2 as <- ->.
        exists (l1 ++ k), qs2. split_and!; [by rewrite <- (assoc_L (++))|auto|lia]. }
    destruct Hsuf as (qs1' & qs2' & Hq' & Hsub & Hlen). exists (q :: qs2').
    split_and!; [by apply (path_list _ qs1' (q :: qs2'))|set_solver|simpl; lia].
  - destruct (IH (rl_next l q) Hp) as (qs' & Hp' & Hsub & Hlen). exists (q :: qs').
    split_and!; [|set_solver|simpl; lia]. split; [done|]. by rewrite rl_next_del_other.
Qed.

(** ** The way to a node *)

(** Following the links from [c] passes [qs] and then comes to [x]. *)
Fixpoint reach l (c : option loc) qs x : Prop :=
  match qs with
  | [] => c = Some x
  | q :: qs' => c = Some q /\ reach l (rl_next l q) qs' x
  end.

Lemma reach_path l c qs x qs2 :
  path l c (qs ++ x :: qs2) <-> reach l c qs x /\ path l (rl_next l x) qs2.
Proof.
  revert c. induction qs as [|q qs IH]; intros c; simpl; [done|]. rewrite IH. tauto.
Qed.

Lemma reach_list l qs1 qs x qs2 :
  NoDup (rl_nodes l) -> rl_nodes l = qs1 ++ qs ++ x :: qs2 -> reach l (head (qs ++ x :: qs2)) qs x.
Proof. intros Hnd Hl. apply (reach_path l _ qs x qs2). by apply (path_list l qs1). Qed.

(** The way from a node of the list is a part of the list. *)
Lemma reach_node l q qs x :
  NoDup (rl_nodes l) -> q ∈ rl_nodes l -> x ∈ rl_nodes l -> reach l (Some q) qs x ->
  exists qs1 qs2, rl_nodes l = qs1 ++ qs ++ x :: qs2.
Proof.
  intros Hnd Hq Hx Hr. apply list_elem_of_split in Hx as (l1 & l2 & Hl).
  assert (Hp : path l (Some q) (qs ++ x :: l2)).
  { apply reach_path. split; [done|].
    pose proof (path_list l l1 (x :: l2) Hnd Hl) as [_ Hp]. done. }
  destruct (path_node l q _ Hnd Hq Hp) as (qs1 & qs2 & Hl' & Heq). exists qs1, l2. by rewrite Heq.
Qed.

(** An insertion. *)
Lemma reach_grows el l l' c qs x :
  NoDup (rl_nodes l) -> NoDup (rl_nodes l') -> grows el l l' -> x ∈ rl_nodes l -> el ∉ qs ->
  reach l c qs x ->
  exists qs', reach l' c qs' x /\ forall y, y ∈ qs' -> y ∈ qs \/ y ∈ rl_nodes l'.
Proof.
  intros Hnd Hnd' [(ps1 & ps2 & Hl & Hl') Hother] Hx. revert c.
  induction qs as [|q qs IH]; intros c Hel; simpl.
  { intros ->. exists []. split; [done|set_solver]. }
  intros [-> Hp]. apply not_elem_of_cons in Hel as [Hne Hel].
  destruct (decide (q ∈ rl_nodes l)) as [Hin|Hout].
  - destruct (reach_node l q (q :: qs) x Hnd Hin Hx) as (qs1 & qs2 & Hq); [done|].
    assert (Hsuf : exists qs1' qs' qs2', rl_nodes l' = qs1' ++ (q :: qs') ++ x :: qs2').
    { rewrite Hl in Hq. apply app_eq_inv in Hq as [(k & H1 & H2)|(k & H1 & H2)].
      - apply app_eq_inv in H2 as [(k2 & H2 & H3)|(k2 & H2 & H3)].
        + destruct k as [|y k]; simpl in *.
          * exists (qs1 ++ [el]), qs, qs2. rewrite Hl', H1, H3, <- H2, app_nil_r.
            by simplify_list_eq.
          * injection H2 as <- ->. exists qs1, (k ++ el :: k2), qs2. rewrite Hl', H1, H3.
            by simplify_list_eq.
        + destruct k2 as [|y k2]; simpl in *.
          * exists qs1, (qs ++ [el]), qs2. rewrite Hl', H1, H2, <- H3, app_nil_r.
            by simplify_list_eq.
          * injection H3 as <- ->. exists qs1, qs, (k2 ++ el :: ps2). rewrite Hl', H1, H2.
            by simplify_list_eq.
      - exists (ps1 ++ el :: k), qs, qs2. rewrite Hl', H2. by simplify_list_eq. }
    destruct Hsuf as (qs1' & qs' & qs2' & Hq'). exists (q :: qs'). split.
    + by apply (reach_list l' qs1' (q :: qs') x qs2').
    + intros y Hy. right. rewrite Hq'. set_solver.
  - destruct (IH (rl_next l q) Hel Hp) as (qs' & Hp' & Hsub). exists (q :: qs').
    split; [split; [done|by rewrite Hother by done]|set_solver].
Qed.

Lemma filter_not z (k : list loc) : z ∉ k -> filter (fun y => y <> z) k = k.
Proof.
  induction k as [|y k IH]; [done|]. intros [? ?]%not_elem_of_cons. rewrite filter_cons_True by done.
  by rewrite IH.
Qed.

(** The removal of another node. *)
Lemma reach_del z l c qs x :
  NoDup (rl_nodes l) -> z ∈ rl_nodes l -> x ∈ rl_nodes l -> x <> z -> reach l c qs x ->
  exists qs', reach (list_del_rcu z l) c qs' x /\
    forall y, y ∈ qs' -> y ∈ qs \/ y ∈ rl_nodes (list_del_rcu z l).
Proof.
  intros Hnd Hz Hx Hxz. apply list_elem_of_split in Hz as Hsplit. destruct Hsplit as (l1 & l2 & Hl).
  assert (Hz1 : (z ∉ l1) /\ (z ∉ l2) /\ NoDup (l1 ++ l2)) by (rewrite Hl in Hnd; by apply NoDup_mid).
  destruct Hz1 as (Hz1 & Hz2 & Hnd').
  assert (Hdel : rl_nodes (list_del_rcu z l) = l1 ++ l2) by (by apply rl_nodes_del).
  assert (Hndd : NoDup (rl_nodes (list_del_rcu z l))) by (by rewrite Hdel).
  assert (Hfil : rl_nodes (list_del_rcu z l) = filter (fun y => y <> z) (rl_nodes l)).
  { rewrite Hdel, Hl, filter_app, filter_cons_False by (by intros []).
    by rewrite !filter_not. }
  revert c. induction qs as [|q qs IH]; intros c; simpl.
  { intros ->. exists []. split; [done|set_solver]. }
  intros [-> Hp]. destruct (decide (q = z)) as [->|Hne].
  { destruct (IH (rl_next l z) Hp) as (qs' & Hp' & Hsub). exists (z :: qs').
    split; [split; [done|by rewrite rl_next_del]|set_solver]. }
  destruct (decide (q ∈ rl_nodes l)) as [Hin|Hout].
  - destruct (reach_node l q (q :: qs) x Hnd Hin Hx) as (qs1 & qs2 & Hq); [done|].
    rewrite Hq, !filter_app, (filter_cons_True _ x) in Hfil by done.
    rewrite (filter_cons_True _ q) in Hfil by done.
    exists (q :: filter (fun y => y <> z) qs). split.
    + by apply (reach_list _ (filter (fun y => y <> z) qs1) (q :: filter (fun y => y <> z) qs) x
        (filter (fun y => y <> z) qs2)).
    + intros y Hy. right. rewrite Hfil. set_solver.
  - destruct (IH (rl_next l q) Hp) as (qs' & Hp' & Hsub). exists (q :: qs').
    split; [split; [done|by rewrite rl_next_del_other]|set_solver].
Qed.
End Walk.
