(* ===== verification/Interleave.v ===== *)
(** * System calls in parallel: safety and refinement

    Any number of threads execute the three system calls, their steps interleaved
    in any way.  No thread faults, each step is a step of the same calls on the
    abstract store, and no thread waits for ever for another one. *)
From S2P Require Import Prelude Layout Kernel KernelFacts Rcu Store Device Syscalls DeviceOps.
From S2P Require Import DeviceWp PutData GetData InvalidateData FileOps Threads Grace.

Section Interleave.
Context {K : Kernel} {KL : KernelLaws K} {C : Config}.
Implicit Types (F : gmap loc obj) (ts : list thread) (s : mstore) (w : world).

(** The blocks of the device can be read. *)
Hypothesis sb_bread_works : forall n, bread_ok n = true.
Variable sb : super_block.

(** ** What a thread owns *)

Definition reads_ok (n : nat) (offset size : Z) (sb' : option super_block) : Prop :=
  sb' = Some sb /\ 0 <= offset < Z.of_nat n /\ 0 <= size < 2 ^ 64.

(** A file of the device, opened for reading and at the beginning of a block. *)
Definition file_ok (n : nat) (f : file) : Prop :=
  i_size f = 4096 * Z.of_nat n /\ i_sb f = Some sb /\ opened_for_reading f = true /\
  0 <= f_pos f <= i_size f /\ f_pos f mod 4096 <= 10.

(** The memory of the session of a file: its timestamp. *)
Definition session (f : file) (F : gmap loc obj) : Prop :=
  match private_data f with None => F = ∅ | Some p => exists t, F = {[ p := OTime t ]} end.

(** The calls on a file: read() has a buffer for a whole message. *)
Definition op_ok (op : file_call) (f : file) : Prop :=
  match op with
  | OpenCall => private_data f = None
  | ReadCall cap len => private_data f <> None /\ 4086 <= len < 2 ^ 31 /\ len <= Z.of_nat cap
  | SeekCall _ _ => private_data f <> None
  | CloseCall => True
  end.

(** A read() in its critical section: on block [k], and with [v] bytes to copy at most. *)
Definition read_ok (n : nat) (a : read_args) (k v : Z) : Prop :=
  file_ok n (ra_file a) /\ private_data (ra_file a) <> None /\ ra_offset a = 10 /\
  4086 <= Z.of_nat (ra_cap a) /\ 0 <= k < Z.of_nat n /\ f_pos (ra_file a) = 4096 * k + 10 /\
  0 <= v <= 4086 /\ ra_len a = v.

(** A read() that has copied [d]. *)
Definition copied_ok (n : nat) (r : option Z) (d : list byte) (f : file) : Prop :=
  file_ok n f /\ private_data f <> None /\ r = Some (Z.of_nat (length d)) /\ (length d <= 4086)%nat.

(** The memory of a thread, on a device of [n] slots. *)
Definition owns (n : nat) (t : thread) (F : gmap loc obj) : Prop :=
  match t with
  | PutReady source size a => exists buf el md now,
      a = PutArgs (Some sb) (Some buf) (Some el) (Some md) /\ el <> buf /\ md <> buf /\ md <> el /\
      (exists n, now = clock n) /\ 0 <= size <= 4086 /\ size <= Z.of_nat (length source) /\
      F = put_frame ∅ buf el md now size source
  | PutWritten source size a b bh old => exists buf el md oldp oldb blk i m,
      a = PutArgs (Some sb) (Some buf) (Some el) (Some md) /\ bh = Some m /\ old = Some oldp /\
      b = Z.of_nat i /\ Z.of_nat i < 2 ^ 31 /\ oldp <> buf /\ F = done_frame ∅ buf oldp oldb blk
  | GetWalk offset _ size sb' _ => reads_ok n offset size sb' /\ F = ∅
  | GetRead offset _ size sb' v => reads_ok n offset size sb' /\ 0 <= v <= 4086 /\ F = ∅
  | InvWait offset el bh _ => exists l e m, el = Some l /\ bh = Some m /\
      ndx e = offset /\ 0 <= offset < Z.of_nat n /\ 0 <= el_valid_bytes e <= 4086 /\
      F = {[ l := OElem e ]}
  | FileCall op f => file_ok n f /\ op_ok op f /\ session f F
  | ReadWalk a _ => read_ok n a (ra_blk a) 4086 /\ session (ra_file a) F
  | ReadCopy a _ => read_ok n a (ra_blk a - 2) (ra_len a) /\ session (ra_file a) F
  | ReadNext r d f _ | ReadSession r d f _ => copied_ok n r d f /\ session f F
  | FileDone _ _ f => file_ok n f /\ session f F
  | Done _ _ => F = ∅
  | _ => call_ok t /\ F = ∅
  end.

(** Where the pointer of a reader goes. *)
Definition walks (l : rlist) (t t' : thread) : Prop :=
  match t' with
  | GetWalk _ _ _ _ q | ReadWalk _ q =>
      (is_reader t = false /\ q = head (rl_nodes l)) \/
      (exists p, cursor t = Some p /\ q = rl_next l p)
  | ReadSession _ _ _ q => exists p, cursor t = Some p /\ q = rl_next l p
  | ReadCopy _ q | ReadNext _ _ _ q => cursor t = Some q
  | _ => True
  end.

(** What a step does to the list of valid blocks. *)
Definition list_moves ts (t t' : thread) (old new : rlist) : Prop :=
  match t, t' with
  | PutReady _ _ a, PutWritten _ _ _ _ _ _ => exists el, pa_new_elem a = Some el /\ grows el old new
  | InvCall _, InvWait _ el _ rs => rs = readers ts /\ exists l, el = Some l /\ l ∈ rl_nodes old /\ new = list_del_rcu l old
  | _, _ => new = old /\ walks old t t'
  end.

(** A step of a thread leaves the list, adds a node or removes one. *)
Lemma list_moves_cases ts s t t' s' old new :
  commits s t t' s' -> list_moves ts t t' old new ->
  new = old \/
  (exists source size a el, t = PutReady source size a /\ pa_new_elem a = Some el /\ grows el old new) \/
  (exists x, x ∈ rl_nodes old /\ new = list_del_rcu x old).
Proof.
  intros Hc Hmv. destruct Hc; simpl in Hmv; try (left; exact (proj1 Hmv)).
  - destruct Hmv as (el & ? & ?). right. left. eauto 8.
  - destruct Hmv as (_ & x & _ & ? & ?). right. right. eauto.
Qed.

(** The state of the driver between two steps, apart from the threads. *)
Definition quiet (F : gmap loc obj) (s : mstore) (w : world) : Prop :=
  dev_inv F w s /\ rcu_write_lock w = false /\ the_dev_superblock w = Some sb.

(** The element a read() has found: the one of its block, with as many bytes as it is
    going to copy. *)
Definition finds (w : world) (t : thread) : Prop :=
  match t with
  | ReadCopy a p => exists e, heap w !! p = Some (OElem e) /\ ndx e = ra_blk a - 2 /\
      0 <= el_valid_bytes e <= ra_len a
  | _ => True
  end.

(** A step of one thread, beside memory [F] that it does not own. *)
Definition stepped ts (F : gmap loc obj) (s : mstore) (w : world) (t t' : thread) (w' : world) : Prop :=
  exists s' F', commits s t t' s' /\ owns (s_cap s) t' F' /\ F' ##ₘ F /\ quiet (F' ∪ F) s' w' /\
    s_cap s' = s_cap s /\ same_nodes w w' /\ list_moves ts t t' (valid_blk_list w) (valid_blk_list w') /\
    (rcu_readers w' + Nat.b2n (is_reader t) = rcu_readers w + Nat.b2n (is_reader t'))%nat /\
    finds w' t'.

(** A finished thread owns nothing. *)
Lemma stepped_done ts F s w t r d w' :
  commits s t (Done r d) s -> quiet F s w' -> valid_blk_list w' = valid_blk_list w ->
  same_nodes w w' ->
  (rcu_readers w' + Nat.b2n (is_reader t) = rcu_readers w)%nat ->
  stepped ts F s w t (Done r d) w'.
Proof.
  intros Hc Hq Hl Hn Hr. exists s, ∅. split_and!; try done.
  - apply map_disjoint_empty_l.
  - by rewrite (left_id_L ∅ (∪)).
  - destruct t; simpl; try done; by case_match.
  - simpl. lia.
Qed.

(** ** The steps of put_data() *)

Lemma put_frame_union F buf el md t size source :
  put_frame ∅ buf el md t size source ∪ F = put_frame F buf el md t size source.
Proof. unfold put_frame. by rewrite <- !insert_union_l, (left_id_L ∅ (∪)). Qed.

Lemma put_frame_disjoint F buf el md t size source :
  put_frame ∅ buf el md t size source ##ₘ F <->
  F !! buf = None /\ F !! el = None /\ F !! md = None.
Proof.
  unfold put_frame. rewrite !map_disjoint_insert_l. pose proof (map_disjoint_empty_l F). tauto.
Qed.

Lemma done_frame_union F buf oldp oldb blk :
  done_frame ∅ buf oldp oldb blk ∪ F = done_frame F buf oldp oldb blk.
Proof. unfold done_frame. by rewrite <- !insert_union_l, (left_id_L ∅ (∪)). Qed.

Lemma done_frame_disjoint F buf oldp oldb blk :
  done_frame ∅ buf oldp oldb blk ##ₘ F <-> F !! buf = None /\ F !! oldp = None.
Proof.
  unfold done_frame. rewrite !map_disjoint_insert_l. pose proof (map_disjoint_empty_l F). tauto.
Qed.

(** Preparing a message. *)
Lemma step_put_call ts F s w source size :
  quiet F s w -> call_ok (PutCall source size) ->
  wp (let* r := put_prepare source size in
      match r with
      | inl err => ret (Done err [])
      | inr a => ret (PutReady source size a)
      end) (stepped ts F s w (PutCall source size)) w.
Proof.
  intros (Hi & Hlk & Hsb) [Hs Hl]. wp_step.
  destruct (decide (size <= DEFAULT_BLOCK_SIZE - METADATA_SIZE)) as [Hfit|Hbig].
  2: { apply (wp_intro _ _ _ (inl (- E2BIG)) w).
       - destruct (Hi) as (a & vm & mps & bs & es & [_ _ Hg _]).
         unfold put_prepare, bind, gets, ret. rewrite (dg_mounted _ _ _ Hg).
         rewrite (proj2 (Z.ltb_lt _ _)) by lia. done.
       - apply wp_ret, stepped_done; [|done..|simpl; lia]. apply commit_put_rejected. right. split; [done|lia]. }
  eapply wp_mono; [eapply wp_put_prepare; try done; unfold DEFAULT_BLOCK_SIZE, METADATA_SIZE in *; lia|].
  intros [err|pa] w1.
  - intros (-> & Hkz & Hi1 & Hc). unfold same_ctl in Hc. destruct_and!. apply wp_ret, stepped_done.
    + apply commit_put_rejected. by left.
    + unfold quiet. split_and!; (done || congruence).
    + congruence.
    + done.
    + simpl. lia.
  - intros (buf & el & md & t & -> & Hbuf & Hel & Hmd & Hne1 & Hne2 & Hne3 & Ht & Hi1 & Hc).
    unfold same_ctl in Hc. destruct_and!. apply wp_ret.
    exists s, (put_frame ∅ buf el md t size source). rewrite put_frame_union, put_frame_disjoint.
    unfold DEFAULT_BLOCK_SIZE, METADATA_SIZE in *. split_and!; try done; simpl; try congruence; try lia.
    + by apply commit_put_ready.
    + exists buf, el, md, t. split_and!; try done; lia.
    + unfold quiet. split_and!; (done || congruence).
Qed.

(** The critical section. *)
Lemma step_put_ready ts F Ft s w source size a :
  quiet (Ft ∪ F) s w -> Ft ##ₘ F -> owns (s_cap s) (PutReady source size a) Ft ->
  wp (let* o := put_critical a in
      match o with
      | PutError err old => let* r := put_error a err old in ret (Done r [])
      | PutDone b bh old => ret (PutWritten source size a b bh old)
      end) (stepped ts F s w (PutReady source size a)) w.
Proof.
  intros (Hi & Hlk & Hsb) Hdj (buf & el & md & t & -> & Hne1 & Hne2 & Hne3 & Ht & Hs & Hl & ->).
  assert (Htr : - 2 ^ 63 <= t < 2 ^ 63) by (destruct Ht as [n ->]; apply clock_range).
  rewrite put_frame_union in Hi. apply put_frame_disjoint in Hdj as (Hbuf & Hel & Hmd).
  wp_step. eapply wp_mono; [by eapply (wp_put_critical w F s sb source size buf el md t)|].
  intros [err old|b bh old] w1 (Hsb1 & _ & Hrd1 & Hsn1 & Ho).
  - destruct Ho as (Hlk1 & Hi1 & _ & _ & Hlst & Ho). destruct (next_free s) as [i|] eqn:Hnf.
    { destruct Ho as (_ & [n Hn] & _). by rewrite sb_bread_works in Hn. }
    destruct Ho as [-> ->]. wp_step. eapply wp_mono; [by eapply wp_put_error_full|].
    intros r w2 [-> [Hi2 Hc2]]. unfold same_ctl in Hc2. simpl in Hc2. destruct_and!.
    apply wp_ret, stepped_done; [by apply commit_full| |congruence| |simpl; lia].
    + unfold quiet. split_and!; (done || congruence).
    + by eapply same_nodes_trans.
  - destruct Ho as (i & oldp & oldb & _ & Hnf & -> & -> & -> & Hlk1 & _ & _ & _ & HFo & Hno & Hgr & Hi1).
    apply wp_ret. exists (s_put t (take (Z.to_nat size) source) s).2,
      (done_frame ∅ buf oldp oldb (put_block t size source)).
    rewrite done_frame_union, done_frame_disjoint.
    assert (Hput : s_put t (take (Z.to_nat size) source) s =
      (Z.of_nat i, (s_put t (take (Z.to_nat size) source) s).2)) by (unfold s_put; by rewrite Hnf).
    assert (Hi31 : Z.of_nat i < 2 ^ 31)
      by (apply next_free_Some in Hnf as [? _]; apply dev_inv_cap in Hi; lia).
    split_and!; try done; simpl.
    + by eapply commit_put; [exact Ht|exact Hput|lia].
    + exists buf, el, md, oldp, oldb, (put_block t size source), i, (Z.of_nat i + NUM_METADATA_BLKS).
      by split_and!.
    + unfold quiet. split_and!; (done || congruence).
    + unfold s_put. by rewrite Hnf.
    + by exists el.
    + lia.
Qed.

(** Flushing a buffer, or not. *)
Lemma wp_maybe_sync F s w n Q :
  quiet F s w ->
  (forall w', quiet F s w' -> rcu_readers w' = rcu_readers w ->
     valid_blk_list w' = valid_blk_list w -> heap w' = heap w -> Q tt w') ->
  wp (if SYNCHRONOUS_PUT_DATA then sync_dirty_buffer (Some n) else ret tt) Q w.
Proof.
  intros Hq HQ. destruct SYNCHRONOUS_PUT_DATA; wp_step; apply HQ; try done.
  destruct Hq as (Hi & ? & ?). split_and!; try done. by apply dev_inv_sync.
Qed.

(** The end of put_data(). *)
Lemma step_put_written ts F Ft s w source size a b bh old :
  quiet (Ft ∪ F) s w -> Ft ##ₘ F -> owns (s_cap s) (PutWritten source size a b bh old) Ft ->
  wp (let* r := put_finish a b bh old in ret (Done r []))
    (stepped ts F s w (PutWritten source size a b bh old)) w.
Proof.
  intros Hq Hdj (buf & el & md & oldp & oldb & blk & i & n & -> & -> & -> & -> & Hi31 & Hno & ->).
  rewrite done_frame_union in Hq. apply done_frame_disjoint in Hdj as (Hbuf & Hold).
  unfold put_finish. rewrite s32_small by lia. do 2 wp_step.
  eapply wp_maybe_sync; [exact Hq|]. intros w1 (Hi1 & Hlk1 & Hsb1) Hrd1 Hl1 Hh1. wp_step. wp_step.
  assert (Hd : dev_at (set_bh_refs (bh_refs w1 - 1) w1) (done_frame F buf oldp oldb blk) s
    (set_bh_refs (bh_refs w1 - 1) w1)) by auto with bldms.
  unfold done_frame in Hd. dwp_run.
  match goal with H : dev_at _ ?F' _ ?w' |- stepped _ _ _ _ _ _ ?w' =>
    destruct (dev_at_frame _ F _ _ _ H) as [Hi' Hc']; [frame_eq|] end.
  unfold same_ctl in Hc'. simpl in Hc'. destruct_and!. apply stepped_done.
  - constructor.
  - unfold quiet. split_and!; (done || congruence).
  - congruence.
  - intros p Hp. rewrite <- Hh1. match goal with H : same_nodes _ _ |- _ => apply H end.
    simpl. by rewrite Hl1.
  - simpl. lia.
Qed.

(** ** The steps of invalidate_data() *)

Lemma step_inv_call ts F s w offset :
  quiet F s w -> call_ok (InvCall offset) ->
  wp (let* r := invalidate_critical offset in
      match r with
      | inl err => ret (Done err [])
      | inr (el, bh) => ret (InvWait offset el bh (readers ts))
      end) (stepped ts F s w (InvCall offset)) w.
Proof.
  intros (Hi & Hlk & Hsb) Ho. simpl in Ho. wp_step.
  eapply wp_mono; [by eapply wp_invalidate_critical|].
  intros [err|[el bh]] w1 (Hlk1 & Hrd1 & Hsb1 & Hsn1 & Hr).
  - destruct Hr as (Hi1 & Hl1 & _ & _ & [[Hr Hne]|(_ & [n Hn] & _)]).
    2: by rewrite sb_bread_works in Hn.
    apply wp_ret, stepped_done; [by apply commit_invalidate_fails|by split_and!|done..|simpl; lia].
  - destruct Hr as (i & l & e & blk & c & -> & -> & Hl & Hin & Hlst & Hndx & Hvb & -> & _ & Hr & Hi1 & _).
    apply wp_ret. exists (s_invalidate (Z.of_nat i) s).2, {[ l := OElem e ]}.
    unfold DEFAULT_BLOCK_SIZE, METADATA_SIZE in Hvb.
    assert (Hcap : s_cap (s_invalidate (Z.of_nat i) s).2 = s_cap s)
      by (unfold s_invalidate; by repeat case_match).
    assert (Hlt : 0 <= Z.of_nat i < Z.of_nat (s_cap s)).
    { unfold s_invalidate in Hr. destruct (_ && _)%bool eqn:Hb in Hr; [reflect_bools; lia|done]. }
    split_and!; simpl.
    + apply commit_invalidate. by rewrite <- Hr, <- surjective_pairing.
    + exists l, e, (Z.of_nat i + NUM_METADATA_BLKS). split_and!; try done; rewrite ?Hcap; lia.
    + by apply map_disjoint_singleton_l.
    + split_and!; try done. by rewrite <- insert_union_singleton_l.
    + done.
    + done.
    + split; [done|by exists l].
    + lia.
    + done.
Qed.

Lemma step_inv_wait ts F Ft s w offset el bh rs :
  quiet (Ft ∪ F) s w -> Ft ##ₘ F -> owns (s_cap s) (InvWait offset el bh rs) Ft ->
  wp (let* r := invalidate_free el bh in ret (Done r []))
    (stepped ts F s w (InvWait offset el bh rs)) w.
Proof.
  intros Hq Hdj (l & e & n & -> & -> & _ & _ & _ & ->). apply map_disjoint_singleton_l in Hdj as Hl.
  rewrite <- insert_union_singleton_l in Hq. unfold invalidate_free. do 2 wp_step.
  eapply wp_maybe_sync; [exact Hq|]. intros w1 (Hi1 & Hlk1 & Hsb1) Hrd1 Hl1 Hh1. wp_step. wp_step.
  assert (Hd : dev_at (set_bh_refs (bh_refs w1 - 1) w1) (<[l := OElem e]> F) s
    (set_bh_refs (bh_refs w1 - 1) w1)) by auto with bldms.
  dwp_run.
  match goal with H : dev_at _ ?F' _ ?w' |- stepped _ _ _ _ _ _ ?w' =>
    destruct (dev_at_frame _ F _ _ _ H) as [Hi' Hc']; [frame_eq|] end.
  unfold same_ctl in Hc'. simpl in Hc'. destruct_and!. apply stepped_done.
  - constructor.
  - unfold quiet. split_and!; (done || congruence).
  - congruence.
  - intros p Hp. rewrite <- Hh1. match goal with H : same_nodes _ _ |- _ => apply H end.
    simpl. by rewrite Hl1.
  - simpl. lia.
Qed.

(** ** The steps of get_data() *)

Lemma quiet_ext F s w w' :
  quiet F s w -> same_state w w' -> quiet F s w'.
Proof.
  intros (Hi & ? & ?) Hs. split; [by eapply dev_inv_same_state|].
  unfold same_state in Hs. destruct_and!. split; congruence.
Qed.

Lemma quiet_readers F s w n : quiet F s w -> quiet F s (set_readers n w).
Proof. intros (Hi & ? & ?). split; [by apply dev_inv_set_readers|done]. Qed.

Lemma step_get_call ts F s w offset cap size :
  quiet F s w -> call_ok (GetCall offset cap size) ->
  wp (let* r := get_enter offset in
      match r with
      | inl err => ret (Done err [])
      | inr (sb, first) => ret (GetWalk offset cap size sb first)
      end) (stepped ts F s w (GetCall offset cap size)) w.
Proof.
  intros Hq [Ho Hs]. pose proof Hq as (Hi & Hlk & Hsb). pose proof (dev_inv_cap _ _ _ Hi) as Hcap.
  destruct (Hi) as (a & vm & mps & bs & es & [_ _ Hg _]).
  unfold get_enter. wp_run. rewrite (dg_mounted _ _ _ Hg). simpl. wp_run.
  rewrite (dg_size _ _ _ Hg), <- (dg_cap _ _ _ Hg), offset_in_range by lia.
  destruct ((0 <=? offset) && (offset <? Z.of_nat (s_cap s)))%bool eqn:Hr; simpl.
  2: { wp_run. apply stepped_done; [|done..|simpl; lia]. apply commit_get_rejected.
       apply andb_false_iff in Hr as [?|?]; reflect_bools; lia. }
  reflect_bools. wp_run. rewrite Hsb. wp_run. exists s, ∅.
  rewrite (left_id_L ∅ (∪)). split_and!; try done; simpl.
  - by apply commit_get_enter.
  - apply map_disjoint_empty_l.
  - by apply quiet_readers.
  - split; [done|by left].
  - lia.
Qed.

Lemma step_get_walk ts F s w offset cap size sb' p :
  quiet F s w -> owns (s_cap s) (GetWalk offset cap size sb' p) ∅ -> rcu_readers w <> O ->
  (forall l, p = Some l -> exists e, heap w !! l = Some (OElem e) /\ 0 <= el_valid_bytes e <= 4086) ->
  wp (let* v := get_visit offset p in
      match v with
      | VisitEnd => ret (Done (- ENODATA) [])
      | VisitFound n => ret (GetRead offset cap size sb' n)
      | VisitNext next => ret (GetWalk offset cap size sb' next)
      end) (stepped ts F s w (GetWalk offset cap size sb' p)) w.
Proof.
  intros Hq [Hok _] Hrd Hp. destruct p as [l|]; unfold get_visit.
  - destruct (Hp l eq_refl) as (e & He & Hvb). wp_step. wp_step. eapply wp_load_elem; [exact He|].
    destruct (ndx e =? u32 offset); wp_run; exists s, ∅;
      rewrite (left_id_L ∅ (∪)); (split_and!; try done; simpl; try apply map_disjoint_empty_l; try lia).
    + apply commit_get_found. unfold DEFAULT_BLOCK_SIZE, METADATA_SIZE. rewrite s32_small; lia.
    + split; [done|]. split; [|done]. rewrite s32_small; lia.
    + constructor.
    + split; [done|]. right. by exists l.
  - destruct (rcu_readers w) as [|n] eqn:Hn; [done|]. wp_step. wp_step.
    eapply wp_rcu_read_unlock; [exact Hn|]. wp_run.
    apply stepped_done; [constructor|by apply quiet_readers|done..|simpl; lia].
Qed.

Lemma block_of_slot F s w i :
  dev_inv F w s -> (i < s_cap s)%nat ->
  exists blk, b_data (bufs w) (Z.of_nat i + NUM_METADATA_BLKS) = Some blk /\ length blk = 4096%nat /\
    forall m, s_msgs s !! i = Some m -> m_data m = take (length (m_data m)) (payload blk).
Proof.
  intros (a & vm & mps & bs & es & [_ Hlog Hg _]) Hi. rewrite (dg_cap _ _ _ Hg) in Hi.
  destruct (lookup_lt_is_Some_2 bs i Hi) as [b Hb].
  destruct (dl_blocks _ _ _ Hlog i b Hb) as (_ & blk & Hblk & Hlen & _).
  exists blk. split_and!; [done|done|]. intros m. rewrite (dg_msgs _ _ _ Hg). unfold msg_at, msg_of.
  rewrite Hb, Hblk. destruct (is_valid b =? BLK_VALID); [|done]. intros [= <-]. simpl.
  by rewrite length_take, <- take_take, firstn_all.
Qed.

Lemma step_get_read ts F s w offset cap size sb' n :
  quiet F s w -> owns (s_cap s) (GetRead offset cap size sb' n) ∅ -> rcu_readers w <> O ->
  wp (let* r := get_copy offset cap size sb' n in ret (Done r.1 r.2))
    (stepped ts F s w (GetRead offset cap size sb' n)) w.
Proof.
  intros Hq ((-> & Ho & Hs) & Hn & _) Hrd.
  destruct (rcu_readers w) as [|k] eqn:Hk; [done|].
  destruct (Z_of_nat_complete offset) as [i ->]; [lia|].
  assert (Hq0 := quiet_readers F s w k Hq). destruct Hq0 as (Hi & _ & _).
  pose proof (dev_inv_cap _ _ _ Hi) as Hcap.
  destruct (block_of_slot _ _ _ i Hi) as (blk & Hblk & Hlen & Hmsg); [lia|].
  assert (Hw : set_readers (S (rcu_readers (set_readers k w))) (set_readers k w) = w)
    by (destruct w; simpl in *; by subst).
  pose proof (wp_get_copy (set_readers k w) i blk n sb cap size) as Hcopy. rewrite Hw in Hcopy.
  wp_step. eapply wp_mono; [apply Hcopy; try done; unfold DEFAULT_BLOCK_SIZE, METADATA_SIZE; lia|].
  intros r w1 [Hss [->|[_ [m Hm]]]]; [|by rewrite sb_bread_works in Hm].
  apply wp_ret. cbn [fst snd]. set (d := take _ (take _ _)).
  assert (Hpl : length (payload blk) = 4086%nat) by (unfold payload; rewrite length_drop; lia).
  apply stepped_done.
  - apply commit_get_end.
    + unfold d. rewrite !length_take, Hpl. lia.
    + intros m Hm Hle. rewrite Nat2Z.id in Hm. rewrite (Hmsg m Hm).
      rewrite (take_take (payload blk)), (Nat.min_l (Z.to_nat n)) by lia. done.
  - eapply quiet_ext; [by apply (quiet_readers F s w k)|done].
  - unfold same_state in Hss. destruct_and!. simpl in *. congruence.
  - intros p _. unfold same_state in Hss. destruct_and!. simpl in *. congruence.
  - unfold same_state in Hss. destruct_and!. simpl in *. lia.
Qed.
End Interleave.
