(* ===== verification/ReadSteps.v ===== *)
(** * System calls in parallel: the steps of read()

    What one step of a call on an open file does beside the other threads: open(),
    llseek() and release() work on the session's own memory only; a read() walks
    the list, copies a block and moves the session on, on nodes that may have been
    removed under it. *)
From S2P Require Import Prelude Layout Kernel KernelFacts Rcu Store Device Syscalls DeviceOps.
From S2P Require Import DeviceWp FileOps ReadOrder Session Threads Grace Interleave.

Section ReadSteps.
Context {K : Kernel} {KL : KernelLaws K} {C : Config}.
Implicit Types (F : gmap loc obj) (ts : list thread) (s : mstore) (w : world) (f : file).

Hypothesis sb_bread_works : forall n, bread_ok n = true.
Variable sb : super_block.

(** A step that changes neither the store nor the list. *)
Lemma stepped_file ts F F' s w t t' w' :
  commits s t t' s -> owns sb (s_cap s) t' F' -> F' ##ₘ F -> quiet sb (F' ∪ F) s w' ->
  list_moves ts t t' (valid_blk_list w) (valid_blk_list w') -> same_nodes w w' ->
  (rcu_readers w' + Nat.b2n (is_reader t) = rcu_readers w + Nat.b2n (is_reader t'))%nat ->
  finds w' t' -> stepped sb ts F s w t t' w'.
Proof. intros. exists s, F'. by split_and!. Qed.

(** ** Sessions *)

Lemma session_union F p t : {[ p := OTime t ]} ∪ F = <[p := OTime t]> F.
Proof. by rewrite insert_union_singleton_l. Qed.

Lemma quiet_refs F F' s w w' n :
  quiet sb F s w -> dev_inv F' w' s -> same_but_refs w w' n -> quiet sb F' s w'.
Proof.
  intros (_ & Hlk & Hsb) Hi Hs. unfold same_but_refs in Hs. destruct_and!.
  unfold quiet. split_and!; (done || congruence).
Qed.

Lemma stepped_refs ts F F' s w t t' w' n :
  commits s t t' s -> owns sb (s_cap s) t' F' -> F' ##ₘ F -> quiet sb (F' ∪ F) s w' ->
  same_but_refs w w' n -> is_reader t = false -> is_reader t' = false ->
  (forall l, list_moves ts t t' l l) -> stepped sb ts F s w t t' w'.
Proof.
  intros Hc Ho Hd Hq Hs Hr Hr' Hl. unfold same_but_refs in Hs. destruct_and!.
  eapply stepped_file; try done.
  - by match goal with H : valid_blk_list _ = _ |- _ => rewrite H end.
  - rewrite Hr, Hr'. lia.
  - by destruct t'.
Qed.

Lemma step_open ts F s w f :
  quiet sb F s w -> file_ok sb (s_cap s) f -> private_data f = None ->
  wp (file_step OpenCall f) (stepped sb ts F s w (FileCall OpenCall f)) w.
Proof.
  intros Hq Hf Hp. pose proof Hq as [Hi _]. pose proof Hf as (Hsz & Hsb & Hop & Hpos & Hmod).
  simpl. wp_step. eapply wp_bldms_open; [exact Hi|by rewrite Hop|..].
  - intros _ p w1 Hpn Hi1 Hs1. apply wp_ret. cbn [fst snd].
    eapply (stepped_refs ts F {[ p := OTime 0 ]}); [..|exact Hs1|done|done|done].
    + apply commit_open. left. eauto.
    + split; [done|]. by exists 0.
    + by apply map_disjoint_singleton_l.
    + rewrite session_union. by eapply quiet_refs.
  - intros _ Hkz w1 Hi1 Hs1. apply wp_ret. cbn [fst snd].
    eapply (stepped_refs ts F ∅); [..|exact Hs1|done|done|done].
    + apply commit_open. right. eauto.
    + split; [done|]. unfold session. by rewrite Hp.
    + apply map_disjoint_empty_l.
    + rewrite (left_id_L ∅ (∪)). by eapply quiet_refs.
Qed.

Lemma step_seek ts F Ft s w off whence f :
  quiet sb (Ft ∪ F) s w -> Ft ##ₘ F -> owns sb (s_cap s) (FileCall (SeekCall off whence) f) Ft ->
  wp (file_step (SeekCall off whence) f) (stepped sb ts F s w (FileCall (SeekCall off whence) f)) w.
Proof.
  intros Hq Hd (Hf & Hop & Hse). simpl in Hop. unfold session in Hse.
  destruct (private_data f) as [p|] eqn:Hp; [|done]. destruct Hse as [t ->].
  rewrite session_union in Hq. apply map_disjoint_singleton_l in Hd as HFp.
  simpl. wp_step. eapply wp_mono.
  { eapply (wp_bldms_llseek (<[p := OTime t]> F)); [by apply Hq|exact Hp|apply lookup_insert_eq]. }
  intros [r f'] w1 [Hs1 Hr]. apply wp_ret. cbn [fst snd].
  assert (Hsame : dev_inv (<[p := OTime t]> F) w1 s -> f' = f ->
    commits s (FileCall (SeekCall off whence) f) (FileDone r [] f') s ->
    stepped sb ts F s w (FileCall (SeekCall off whence) f) (FileDone r [] f') w1).
  { intros Hi1 -> Hc. eapply (stepped_refs ts F {[ p := OTime t ]}); [exact Hc|..|exact Hs1|done|done|done].
    - split; [done|]. unfold session. rewrite Hp. eauto.
    - done.
    - rewrite session_union. by eapply quiet_refs. }
  destruct ((whence =? SEEK_SET) && (off =? 0))%bool eqn:Hcase.
  2: { destruct Hr as [[= -> ->] Hi1]. apply Hsame; [done..|]. apply commit_seek. by rewrite Hcase. }
  destruct Hr as [(p' & Hp' & [= -> ->] & Hi1)|([= -> ->] & Hkz & Hi1)].
  2: { apply Hsame; [done..|]. apply commit_seek. rewrite Hcase. right. eauto. }
  rewrite delete_insert_id in Hi1 by done. apply lookup_insert_None in Hp' as [Hp' Hne].
  eapply (stepped_refs ts F {[ p' := OTime 0 ]}); [..|exact Hs1|done|done|done].
  - apply commit_seek. rewrite Hcase. left. eauto.
  - split; [|by exists 0]. destruct Hf as (? & ? & ? & ? & ?). split_and!; simpl; (done || lia).
  - by apply map_disjoint_singleton_l.
  - rewrite session_union. by eapply quiet_refs.
Qed.

Lemma step_close ts F Ft s w f :
  quiet sb (Ft ∪ F) s w -> Ft ##ₘ F -> owns sb (s_cap s) (FileCall CloseCall f) Ft ->
  wp (file_step CloseCall f) (stepped sb ts F s w (FileCall CloseCall f)) w.
Proof.
  intros Hq Hd ((Hsz & Hsb & Hop & Hpos & Hmod) & _ & Hse). unfold session in Hse.
  simpl. wp_step. eapply (wp_bldms_release (Ft ∪ F)); [by apply Hq|..].
  - intros p _ Hp. rewrite Hp in Hse. destruct Hse as [t ->]. exists t.
    apply lookup_union_Some_l, lookup_singleton_eq.
  - rewrite Hop. intros w1 Hi1 Hs1. apply wp_ret.
    eapply (stepped_refs ts F ∅); [constructor|done|apply map_disjoint_empty_l|..|exact Hs1|done|done|done].
    rewrite (left_id_L ∅ (∪)). destruct (private_data f) as [p|].
    + destruct Hse as [t ->]. apply map_disjoint_singleton_l in Hd.
      rewrite session_union, delete_insert_id in Hi1 by done. by eapply quiet_refs.
    + subst Ft. rewrite (left_id_L ∅ (∪)) in Hi1. by eapply quiet_refs.
Qed.

(** ** read() *)

Lemma quiet_cap F s w : quiet sb F s w -> Z.of_nat (s_cap s) < 2 ^ 19.
Proof. intros [Hi _]. apply dev_inv_cap in Hi. lia. Qed.

(** The window of a session that stands at the beginning of a block. *)
Lemma window_at_block n f len :
  file_ok sb n f -> Z.of_nat n < 2 ^ 19 -> 4086 <= len < 2 ^ 31 -> f_pos f + 8192 < 4096 * Z.of_nat n ->
  let k := f_pos f / 4096 in
  0 <= k < Z.of_nat n /\ read_window len f = Some (set_pos (4096 * k + 10) f, 10, 4086) /\
  file_ok sb n (set_pos (4096 * k + 10) f).
Proof.
  intros (Hsz & Hsb & Hop & Hpos & Hmod) Hn Hl Hin k.
  pose proof (Z.mod_pos_bound (f_pos f) 4096 ltac:(lia)) as Hr.
  assert (Hq : f_pos f = 4096 * k + f_pos f mod 4096) by (apply Z.div_mod; lia).
  split; [lia|]. split.
  - pose proof (read_window_spec (MStore n 0 ∅) f len) as Hw. rewrite Hw; [|split_and!; simpl; lia|simpl; lia|lia].
    rewrite (Z.max_l (10 - _)), (Z.max_r _ 10), Z.min_r by lia.
    by replace (f_pos f + (10 - f_pos f mod 4096)) with (4096 * k + 10) by lia.
  - assert ((4096 * k + 10) mod 4096 = 10) as Hm by (symmetry; apply (Z.mod_unique_pos _ _ k); lia).
    unfold file_ok. cbn [f_pos set_pos i_size i_sb]. rewrite Hm. split_and!; (done || lia).
Qed.

Lemma step_read_enter ts F Ft s w cap len f :
  quiet sb (Ft ∪ F) s w -> Ft ##ₘ F -> owns sb (s_cap s) (FileCall (ReadCall cap len) f) Ft ->
  wp (file_step (ReadCall cap len) f) (stepped sb ts F s w (FileCall (ReadCall cap len) f)) w.
Proof.
  intros Hq Hd (Hf & (Hp & Hl & Hc) & Hse). pose proof (quiet_cap _ _ _ Hq) as Hcap.
  pose proof Hf as (Hsz & Hsb & Hop & Hpos & Hmod). simpl. wp_step. unfold read_enter.
  destruct (Z.ltb_spec (f_pos f + 8192) (4096 * Z.of_nat (s_cap s))) as [Hin|Heof].
  - destruct (window_at_block _ _ len Hf Hcap Hl Hin) as (Hk & -> & Hf'). set (k := f_pos f / 4096) in *.
    cbn [f_pos set_pos]. rewrite Z.quot_div_nonneg by (unfold DEFAULT_BLOCK_SIZE; lia).
    assert (Hdiv : (4096 * k + 10) / DEFAULT_BLOCK_SIZE = k)
      by (symmetry; apply (Z.div_unique_pos _ _ _ 10); unfold DEFAULT_BLOCK_SIZE; lia).
    rewrite Hdiv, u32_small by lia. wp_run.
    eapply stepped_file; [by apply commit_read_enter| |exact Hd|by apply quiet_readers|..]; try done.
    + split; [|done]. unfold read_ok. simpl. split_and!; (done || lia).
    + split; [done|by left].
    + simpl. lia.
  - rewrite (read_window_eof (s_cap s)) by lia. do 2 wp_step.
    eapply stepped_file; [by apply commit_read_eof|by split|done..].
Qed.

(** The position of block [i]. *)
Lemma file_ok_block n f i :
  file_ok sb n f -> 0 <= i < Z.of_nat n -> file_ok sb n (set_pos (4096 * i + 10) f).
Proof.
  intros (Hsz & Hsb & Hop & Hpos & Hmod) Hi. unfold file_ok. cbn [f_pos set_pos i_size i_sb].
  assert ((4096 * i + 10) mod 4096 = 10) as Hm by (symmetry; apply (Z.mod_unique_pos _ _ i); lia).
  rewrite Hm. split_and!; (done || lia).
Qed.
Lemma file_ok_end n f : file_ok sb n f -> file_ok sb n (set_pos (i_size f) f).
Proof.
  intros (Hsz & Hsb & Hop & Hpos & Hmod). unfold file_ok. cbn [f_pos set_pos i_size i_sb].
  assert (i_size f mod 4096 = 0) as Hm by (rewrite Hsz, Z.mul_comm; apply Z.mod_mul; lia).
  rewrite Hm. split_and!; (done || lia).
Qed.

Lemma block_pos i :
  0 <= i < 2 ^ 19 -> s64 (u64 (u32 (i * DEFAULT_BLOCK_SIZE) + METADATA_SIZE)) = 4096 * i + 10.
Proof.
  intros Hi. unfold DEFAULT_BLOCK_SIZE, METADATA_SIZE. rewrite u32_small, u64_small, s64_small by lia. lia.
Qed.

(** One round of the walk: [p], if there is one, is an element of the device. *)
Lemma step_read_walk ts F Ft s w a p :
  quiet sb (Ft ∪ F) s w -> Ft ##ₘ F -> owns sb (s_cap s) (ReadWalk a p) Ft -> rcu_readers w <> O ->
  (forall l, p = Some l -> exists e, heap w !! l = Some (OElem e) /\ 0 <= el_valid_bytes e <= 4086 /\
     0 <= ndx e < Z.of_nat (s_cap s)) ->
  wp (let* v := read_visit a p in
      match v with
      | RvisitEnd r data f => ret (FileDone r data f)
      | RvisitFound a p => ret (ReadCopy a p)
      | RvisitNext next => ret (ReadWalk a next)
      end) (stepped sb ts F s w (ReadWalk a p)) w.
Proof.
  intros Hq Hd [(Hf & Hpr & Hoff & Hc & Hk & Hpos & _ & Hlen) Hse] Hrd Hp.
  pose proof (quiet_cap _ _ _ Hq) as Hcap. destruct p as [p|]; unfold read_visit.
  2: { destruct (rcu_readers w) as [|n] eqn:Hn; [done|]. unfold end_of_msgs, use_local.
       wp_step. wp_step. wp_step. wp_step; [exact Hn|]. wp_run.
       eapply (stepped_file ts F Ft); [apply commit_read_missing|split; [by apply file_ok_end|done]|..]; try done.
       - by apply quiet_readers.
       - simpl. lia. }
  destruct (Hp p eq_refl) as (e & He & Hvb & Hndx). destruct a as [cap blk off len f]. simpl in *. subst off len.
  wp_step. wp_step. eapply wp_load_elem; [exact He|].
  destruct (Z.eqb_spec (ndx e) blk) as [Heq|Hne].
  { do 2 wp_step. assert (Hfp : set_pos (4096 * blk + 10) f = f) by (rewrite <- Hpos; apply set_pos_same).
    rewrite u32_small by (unfold NUM_METADATA_BLKS; lia). unfold NUM_METADATA_BLKS.
    eapply (stepped_file ts F Ft); try done.
    - rewrite <- Hfp at 2. by apply (commit_read_found s (ReadArgs cap blk 10 4086 f) p blk 4086).
    - split; [|done]. unfold read_ok. simpl. replace (blk + 2 - 2) with blk by lia. split_and!; (done || lia).
    - exists e. simpl. split_and!; (done || lia). }
  unfold session in Hse. destruct (private_data f) as [l|] eqn:Hl; [|done]. destruct Hse as [t ->].
  assert (Ht : heap w !! l = Some (OTime t)).
  { eapply dev_inv_lookup; [apply Hq|]. apply lookup_union_Some_l, lookup_singleton_eq. }
  wp_step. eapply wp_load_time; [exact Ht|]. destruct (Z.ltb_spec t (el_nsec e)).
  - unfold skip_to. wp_run. rewrite block_pos, u32_small by (unfold NUM_METADATA_BLKS; lia).
    unfold NUM_METADATA_BLKS, METADATA_SIZE.
    set (v := if el_valid_bytes e <? 4086 then el_valid_bytes e else 4086).
    assert (Hv : v = el_valid_bytes e) by (unfold v; destruct (Z.ltb_spec (el_valid_bytes e) 4086); lia).
    eapply (stepped_file ts F {[ l := OTime t ]}); try done.
    + by apply (commit_read_found s (ReadArgs cap blk 10 4086 f) p (ndx e) v).
    + split; [|simpl; unfold session; simpl; rewrite Hl; eauto]. unfold read_ok. simpl.
      replace (ndx e + 2 - 2) with (ndx e) by lia.
      split_and!; try done; try lia; [by apply file_ok_block|congruence].
    + exists e. simpl. split_and!; (done || lia).
  - wp_run. eapply (stepped_file ts F {[ l := OTime t ]}); try done.
    + constructor.
    + split; [|simpl; unfold session; rewrite Hl; eauto]. unfold read_ok. simpl.
      split_and!; try done; try lia; congruence.
    + split; [done|]. right. by exists p.
Qed.

(** The copy of the block: the whole message of the element the walk has found. *)
Lemma wp_read_copy F s w cap i p len f e d :
  quiet sb F s w -> i_sb f = Some sb -> heap w !! p = Some (OElem e) ->
  0 <= el_valid_bytes e <= len -> len <= 4086 -> 4086 <= Z.of_nat cap ->
  b_data (bufs w) (Z.of_nat i + NUM_METADATA_BLKS) = Some d -> length d = 4096%nat ->
  let data := take (Z.to_nat (el_valid_bytes e)) (payload d) in
  wp (read_copy cap p (Z.of_nat i + NUM_METADATA_BLKS) 10 len f)
    (fun r w' => r = inr (Some (el_valid_bytes e), data, f) /\ quiet sb F s w' /\
       heap w' = heap w /\ valid_blk_list w' = valid_blk_list w /\ rcu_readers w' = rcu_readers w) w.
Proof.
  intros Hq Hsb He Hvb Hlen Hc Hblk Hd data. unfold read_copy. wp_step. wp_step; [exact He|].
  unfold METADATA_SIZE. replace (len + 10 - 10) with len by lia. change (u64 (10 - 10)) with 0.
  rewrite (proj2 (Z.ltb_ge _ 0)), (u64_small len), Z.sub_0_r, (u64_small (el_valid_bytes e)) by lia.
  set (v := if el_valid_bytes e <? len then el_valid_bytes e else len).
  assert (Hv' : v = el_valid_bytes e) by (unfold v; destruct (Z.ltb_spec (el_valid_bytes e) len); lia).
  clearbody v. subst v. rewrite Hsb. wp_step. wp_step.
  2: { intros [[k Hk']|Hno]; [by rewrite sb_bread_works in Hk'|congruence]. }
  intros _ _. rewrite decide_False by done. wp_step. wp_step; [exact Hblk|].
  wp_step. wp_step; [lia..|]. cbv zeta. cbn [fst snd]. rewrite Z.min_l, Z.sub_diag by lia.
  change (s32 0) with 0. wp_step. wp_step; [exact He|]. rewrite !Z.sub_0_r, !u64_small by lia.
  rewrite (proj2 (Z.ltb_ge _ _)) by lia. cbn [negb orb Z.eqb]. wp_run. rewrite s32_small by lia.
  split; [done|]. split; [|done]. destruct Hq as (? & ? & ?). split_and!; [auto with bldms|done..].
Qed.

Lemma step_read_copy ts F Ft s w a p :
  quiet sb (Ft ∪ F) s w -> Ft ##ₘ F -> owns sb (s_cap s) (ReadCopy a p) Ft -> finds w (ReadCopy a p) ->
  wp (let* r := read_copy (ra_cap a) p (ra_blk a) (ra_offset a) (ra_len a) (ra_file a) in
      match r with
      | inl (r, data, f) => ret (FileDone r data f)
      | inr (ret_, data, f) => ret (ReadNext ret_ data f p)
      end) (stepped sb ts F s w (ReadCopy a p)) w.
Proof.
  intros Hq Hd [(Hf & Hpr & Hoff & Hc & Hk & Hpos & Hv & _) Hse] (e & He & Hndx & Hvb).
  pose proof (quiet_cap _ _ _ Hq) as Hcap. pose proof Hf as (_ & Hsb & _).
  destruct a as [cap blk off len f]. simpl in *. subst off.
  destruct (Z_of_nat_complete (blk - 2)) as [i Hi]; [lia|].
  destruct (block_of_slot (Ft ∪ F) s w i) as (d & Hblk & Hlen & Hmsg); [apply Hq|lia|].
  assert (Hn : blk = Z.of_nat i + NUM_METADATA_BLKS) by (unfold NUM_METADATA_BLKS; lia).
  subst blk. wp_step. eapply wp_mono; [eapply wp_read_copy; try done; lia|].
  intros r w' (-> & Hq' & Hh & Hl & Hr). wp_step. set (data := take _ _).
  assert (Hdl : Z.of_nat (length data) = el_valid_bytes e)
    by (unfold data, payload; rewrite length_take, length_drop; lia).
  rewrite <- Hdl. eapply (stepped_file ts F Ft); try done.
  - apply (commit_read_copy s (ReadArgs cap _ 10 len f) p data).
    + unfold DEFAULT_BLOCK_SIZE, METADATA_SIZE. lia.
    + simpl. intros m Hm Hle. replace (Z.to_nat _) with i in Hm by (unfold NUM_METADATA_BLKS; lia).
      rewrite (Hmsg m Hm), take_take, Nat.min_l by done.
      by replace (length data) with (Z.to_nat (el_valid_bytes e)) by lia.
  - split; [|done]. unfold copied_ok. split_and!; (done || lia).
  - intros x _. by rewrite Hh.
  - by rewrite Hr.
Qed.

Lemma step_read_ahead ts F Ft s w r d f p :
  quiet sb (Ft ∪ F) s w -> Ft ##ₘ F -> owns sb (s_cap s) (ReadNext r d f p) Ft ->
  (exists e, heap w !! p = Some (OElem e)) ->
  wp (let* next := next_elem p in ret (ReadSession r d f next)) (stepped sb ts F s w (ReadNext r d f p)) w.
Proof.
  intros Hq Hd Hown [e He]. unfold next_elem. wp_run.
  eapply (stepped_file ts F Ft); try done; [constructor|]. split; [done|]. by exists p.
Qed.

(** The session moves on to element [q], if there is one. *)
Lemma wp_advance_session F s w p t n r d f q e :
  quiet sb (<[p := OTime t]> F) s w -> F !! p = None -> private_data f = Some p -> rcu_readers w = S n ->
  heap w !! q = Some (OElem e) -> 0 <= ndx e < 2 ^ 19 ->
  wp (advance_session (Some q) (Some r) d f)
    (fun r' w' => same_nodes w w' /\ valid_blk_list w' = valid_blk_list w /\ rcu_readers w' = n /\
       ((r' = (- ENOMEM, d, f) /\ (exists n, kzalloc_ok n = false) /\ quiet sb (<[p := OTime t]> F) s w') \/
        exists p', r' = (r, d, set_pos (4096 * ndx e + 10) (set_private (Some p') f)) /\ F !! p' = None /\
          quiet sb (<[p' := OTime (el_nsec e)]> F) s w')) w.
Proof.
  intros Hq HFp Hp Hn He Hndx. unfold advance_session, end_of_msgs, use_local.
  rewrite decide_False by done. wp_step. apply wp_kzalloc.
  2: { intros Hkz. rewrite decide_True by done. wp_run. split_and!; try done. left. split_and!; try done.
       apply (quiet_readers sb _ s (tick w) n). destruct Hq as (Hi & ? & ?). split_and!; try done.
       by apply dev_inv_tick. }
  pose proof Hq as (Hi & Hlk & Hsb0). destruct (dev_inv_brk _ _ _ Hi) as [Hb HFb].
  apply lookup_insert_None in HFb as [HFb Hpb].
  pose proof (dev_inv_lookup _ _ _ _ _ Hi (lookup_insert_eq _ _ _)) as Hph.
  assert (Hqb : q <> brk w) by congruence. assert (Hqp : q <> p) by congruence.
  rewrite decide_False by done. wp_run. rewrite Hp. wp_run. rewrite block_pos by lia. set (w1 := set_readers n _).
  assert (Hi1 : dev_inv (<[brk w := OTime (el_nsec e)]> F) w1 s).
  { pose proof (dev_inv_alloc _ _ _ (OTime 0) Hi) as H1.
    pose proof (dev_inv_store _ _ _ (brk w) _ (OTime (el_nsec e)) (lookup_insert_eq _ _ _) H1) as H2.
    eapply (dev_inv_delete _ _ _ p) in H2; [|by rewrite 2!lookup_insert_ne, lookup_insert_eq].
    apply (dev_inv_set_readers _ _ _ n) in H2. refine (eq_ind _ (fun F' => dev_inv F' w1 s) H2 _ _).
    frame_eq. }
  split_and!; try done; [|right; exists (brk w); by split_and!].
  intros x Hx. unfold w1. simpl.
  destruct Hi as (a & vm & mps & bs & es & [Hm _ _ _]). apply (footprint_node a mps) in Hx as Hx'.
  destruct (dm_footprint_live _ _ _ _ _ _ _ _ Hm Hx') as [o Ho].
  rewrite lookup_delete_ne, !lookup_insert_ne; [done|congruence..|].
  intros <-. destruct (dm_frame_lookup _ _ _ _ _ _ _ _ _ Hm (lookup_insert_eq _ _ _)). done.
Qed.

Lemma step_read_session ts F Ft s w r d f q :
  quiet sb (Ft ∪ F) s w -> Ft ##ₘ F -> owns sb (s_cap s) (ReadSession r d f q) Ft -> rcu_readers w <> O ->
  (forall l, q = Some l -> exists e, heap w !! l = Some (OElem e) /\ 0 <= ndx e < Z.of_nat (s_cap s)) ->
  wp (let* r := advance_session q r d f in ret (FileDone r.1.1 r.1.2 r.2))
    (stepped sb ts F s w (ReadSession r d f q)) w.
Proof.
  intros Hq Hd [(Hf & Hpr & -> & Hdl) Hse] Hrd Hel. pose proof (quiet_cap _ _ _ Hq) as Hcap.
  destruct (rcu_readers w) as [|n] eqn:Hn; [done|]. destruct q as [q|].
  2: { unfold advance_session, end_of_msgs, use_local. rewrite decide_True by done. wp_run.
       replace (if 0 <? Z.of_nat (length d) then Z.of_nat (length d) else 0) with (Z.of_nat (length d))
         by (destruct (Z.ltb_spec 0 (Z.of_nat (length d))); lia).
       eapply (stepped_file ts F Ft); [constructor|split; [by apply file_ok_end|done]|..]; try done.
       - by apply quiet_readers.
       - simpl. lia. }
  destruct (Hel q eq_refl) as (e & He & Hndx). unfold session in Hse.
  destruct (private_data f) as [p|] eqn:Hp; [|done]. destruct Hse as [t ->].
  rewrite session_union in Hq. apply map_disjoint_singleton_l in Hd as HFp.
  wp_step. eapply wp_mono; [eapply wp_advance_session; try done; lia|].
  intros r' w1 (Hsn & Hl & Hr & [(-> & Hkz & Hq1)|(p' & -> & Hp' & Hq1)]); wp_step; cbn [fst snd].
  - eapply (stepped_file ts F {[ p := OTime t ]}); try done; [by apply commit_read_nomem|..].
    + split; [done|]. unfold session. rewrite Hp. eauto.
    + by rewrite session_union.
    + simpl. lia.
  - eapply (stepped_file ts F {[ p' := OTime (el_nsec e) ]}); try done.
    + by apply commit_read_moved.
    + split; [|simpl; by eexists]. by apply (file_ok_block _ (set_private (Some p') f)).
    + by apply map_disjoint_singleton_l.
    + by rewrite session_union.
    + simpl. lia.
Qed.
End ReadSteps.
