(* ===== verification/Parallel.v ===== *)
(** * System calls in parallel: all the threads

    The invariant of an execution in which any number of threads call put_data(),
    get_data(), invalidate_data() and the operations of the file, and the theorem
    about such executions: no step faults and each is a step of the calls on the
    abstract store. *)
From S2P Require Import Prelude Layout Kernel KernelFacts Rcu Store Device Syscalls DeviceOps.
From S2P Require Import DeviceWp PutData GetData InvalidateData FileOps Threads Grace Walk Interleave ReadSteps Sample.

Section Parallel.
Context {K : Kernel} {KL : KernelLaws K} {C : Config}.
Implicit Types (F : gmap loc obj) (Fs : list (gmap loc obj)) (ts : list thread).
Implicit Types (s : mstore) (w : world).

Variable sb : super_block.

(** ** The invariant *)

(** Thread [i] owns [Fs !! i]; [F] is the memory of the rest of the kernel. *)
Record cinv F s w ts Fs : Prop := {
  ci_quiet : quiet sb (⋃ (F :: Fs)) s w;
  ci_disjoint : disjoint_frames (F :: Fs);
  ci_owns : Forall2 (owns sb (s_cap s)) ts Fs;
  ci_readers : rcu_readers w = count_readers ts;
  ci_ok : readers_ok (valid_blk_list w) ts;
  ci_finds : Forall (finds w) ts
}.

(** The memory of one thread is among the memory outside the device. *)
Lemma ci_frame F s w ts Fs i t :
  cinv F s w ts Fs -> ts !! i = Some t ->
  exists Fi, Fs !! i = Some Fi /\ owns sb (s_cap s) t Fi /\
    forall l o, Fi !! l = Some o -> (⋃ (F :: Fs)) !! l = Some o.
Proof.
  intros [_ Hd Ho _ _ _] Hi. destruct (Forall2_lookup_l _ _ _ _ _ Ho Hi) as (Fi & HFi & Hown).
  exists Fi. split_and!; [done..|]. intros l o Hl.
  destruct (disjoint_frames_focus (F :: Fs) (S i) Fi Hd HFi) as (Fr & _ & -> & _).
  by apply lookup_union_Some_l.
Qed.

(** A thread that waits keeps a node that is no longer on the list. *)
Lemma ci_waited F s w ts Fs j t p r :
  cinv F s w ts Fs -> ts !! j = Some t -> waits_for t (Some p) r ->
  exists Fj e off, Fs !! j = Some Fj /\ Fj !! p = Some (OElem e) /\
    (p ∉ rl_nodes (valid_blk_list w)) /\ heap w !! p = Some (OElem e) /\
    (0 <= el_valid_bytes e <= 4086 /\ 0 <= off < Z.of_nat (s_cap s)) /\ ndx e = off /\
    exists bh rs, t = InvWait off (Some p) bh rs.
Proof.
  intros Hc Hj Hw. destruct (ci_frame _ _ _ _ _ _ _ Hc Hj) as (Fj & HFj & Hown & Hsub).
  destruct t; try done. destruct Hw as [-> Hr].
  destruct Hown as (l & e & m & [= <-] & -> & Hndx & Hoff & Hvb & ->).
  pose proof (ci_quiet _ _ _ _ _ Hc) as [(a & vm & mps & bs & es & [Hm _ _ _]) _].
  destruct (dm_frame_lookup _ _ _ _ _ _ _ p (OElem e) Hm) as [Hh Hn];
    [apply Hsub, lookup_singleton_eq|].
  exists {[ p := OElem e ]}, e, (ndx e). split_and!; try done.
  - apply lookup_singleton_eq.
  - intros Hin. apply Hn. by apply footprint_node.
  - lia.
  - lia.
  - lia.
  - lia.
  - rewrite Hndx. eauto.
Qed.

(** Where a reader looks there is an element. *)
Lemma ci_visible F s w ts Fs r p :
  cinv F s w ts Fs -> visible (valid_blk_list w) ts r p ->
  exists e, heap w !! p = Some (OElem e) /\ 0 <= el_valid_bytes e <= 4086 /\
    0 <= ndx e < Z.of_nat (s_cap s).
Proof.
  intros Hc [Hp|(j & t & Hj & Hw)].
  - pose proof (ci_quiet _ _ _ _ _ Hc) as [(a & vm & mps & bs & es & Hi) _].
    destruct (dm_list _ _ _ _ _ _ _ (di_mem _ _ _ _ _ _ _ _ Hi)) as [_ Hel].
    destruct (elems_at_elem_of _ _ _ _ Hel Hp) as (e & He & Hh).
    destruct (dev_elem _ _ _ _ _ _ _ _ _ Hi He) as (i & b & blk & -> & _ & Hic & _ & _ & Hvb & _).
    eexists. split; [exact Hh|]. simpl. lia.
  - destruct (ci_waited _ _ _ _ _ _ _ _ _ Hc Hj Hw) as (_ & e & off & _ & _ & _ & Hh & [Hvb Hoff] & <- & _).
    by exists e.
Qed.

(** ** One step of one thread *)

Lemma count_readers_pos ts i t :
  ts !! i = Some t -> is_reader t = true -> count_readers ts <> O.
Proof.
  intros Hi Ht Hz. pose proof (count_readers_update ts i t (Done 0 []) Hi) as H.
  rewrite Ht in H. simpl in H. lia.
Qed.

(** The list of valid blocks has no repetition. *)
Lemma ci_NoDup F s w ts Fs : cinv F s w ts Fs -> NoDup (rl_nodes (valid_blk_list w)).
Proof.
  intros Hc. pose proof (ci_quiet _ _ _ _ _ Hc) as [(a & vm & mps & bs & es & [Hm _ _ _]) _].
  by destruct (dm_list _ _ _ _ _ _ _ Hm).
Qed.

(** The new element of a put is seen by nobody. *)
Lemma ci_new_node F s w ts Fs i source size a el :
  cinv F s w ts Fs -> ts !! i = Some (PutReady source size a) -> pa_new_elem a = Some el ->
  forall r, ~ visible (valid_blk_list w) ts r el.
Proof.
  intros Hc Hi Hel r. destruct (ci_frame _ _ _ _ _ _ _ Hc Hi) as (Fi & HFi & Hown & Hsub).
  destruct Hown as (buf & el' & md & t & -> & Hne1 & Hne2 & Hne3 & _ & _ & _ & ->). injection Hel as ->.
  intros [Hin|(j & u & Hj & Hw)].
  - pose proof (ci_quiet _ _ _ _ _ Hc) as [(a & vm & mps & bs & es & [Hm _ _ _]) _].
    destruct (dm_frame_lookup _ _ _ _ _ _ _ el (OElem (Elem 0 0 0)) Hm) as [_ Hn];
      [by apply Hsub, put_frame_lookup|]. by apply Hn, footprint_node.
  - destruct (ci_waited _ _ _ _ _ _ _ _ _ Hc Hj Hw)
      as (Fj & e & off & HFj & Hp & _ & _ & _ & _ & bh & rs & ->).
    assert (Hd : put_frame ∅ buf el md t size source ##ₘ Fj).
    { destruct (ci_disjoint _ _ _ _ _ Hc) as [_ Hd].
      apply (disjoint_frames_pair Fs i j); try done. intros ->. by rewrite Hi in Hj. }
    apply put_frame_disjoint in Hd as (_ & Hd & _). congruence.
Qed.

(** The nodes ahead of a reader are visible to it. *)
Lemma path_visible (l : rlist) ts r t c qs :
  NoDup (rl_nodes l) -> readers_ok l ts -> ts !! r = Some t -> is_reader t = true ->
  (forall p, c = Some p -> visible l ts r p) -> path l c qs -> Forall (visible l ts r) qs.
Proof.
  intros Hnd Hok Hr Ht. revert c. induction qs as [|q qs IH]; intros c Hc Hp; [constructor|].
  destruct Hp as [-> Hp]. specialize (Hc q eq_refl). constructor; [done|].
  apply (IH (rl_next l q)); [|done]. intros p Hq.
  destruct Hc as [Hin|(j & u & Hj & Hw)]; [left; exact (rl_next_in l q p Hnd Hin Hq)|exact (ro_next _ _ Hok r t j u q p Hr Ht Hj Hw Hq)].
Qed.

(** The new element is not ahead of a reader. *)
Lemma ci_walk_avoids F s w ts Fs i source size a el k u qs :
  cinv F s w ts Fs -> ts !! i = Some (PutReady source size a) -> pa_new_elem a = Some el ->
  ts !! k = Some u -> is_reader u = true -> path (valid_blk_list w) (cursor u) qs -> el ∉ qs.
Proof.
  intros Hc Hi Hel Hk Hu Hp Hin. assert (Hv : Forall (visible (valid_blk_list w) ts k) qs).
  { eapply path_visible; [by eapply ci_NoDup|apply Hc|exact Hk|done| |exact Hp].
    intros q Hq. by apply (ro_cursor _ _ (ci_ok _ _ _ _ _ Hc) k _ q Hk). }
  rewrite Forall_forall in Hv. by apply (ci_new_node _ _ _ _ _ _ _ _ _ _ Hc Hi Hel k (Hv el Hin)).
Qed.

(** A waited node keeps its link when another node is added. *)
Lemma ci_waited_next F s w ts Fs i source size a el l' :
  cinv F s w ts Fs -> ts !! i = Some (PutReady source size a) -> pa_new_elem a = Some el ->
  grows el (valid_blk_list w) l' ->
  forall j u r p, ts !! j = Some u -> waits_for u (Some p) r -> rl_next l' p = rl_next (valid_blk_list w) p.
Proof.
  intros Hc Hi Hel [_ Hg] j u r p Hj Hw.
  destruct (ci_waited _ _ _ _ _ _ _ _ _ Hc Hj Hw) as (_ & _ & _ & _ & _ & Hn & _).
  apply Hg; [done|]. intros ->. apply (ci_new_node _ _ _ _ _ _ _ _ _ _ Hc Hi Hel r). right. eauto.
Qed.

(** What the readers may see survives the step. *)
Lemma ci_ok_step F s w ts Fs i t m Fr t' w' :
  cinv F s w ts Fs -> ts !! i = Some t -> thread_step ts t = Some m ->
  stepped sb ts Fr s w t t' w' -> readers_ok (valid_blk_list w') (<[i := t']> ts).
Proof.
  intros Hc Hi Hm (s' & F' & Hcm & _ & _ & _ & _ & _ & Hmv & _ & _).
  pose proof (ci_ok _ _ _ _ _ Hc) as Hok. pose proof (ci_NoDup _ _ _ _ _ Hc) as Hnd.
  assert (Hsame : forall u, ts !! i = Some u -> not_waiting u -> not_waiting t' -> finished u = false ->
    (is_reader u = true -> is_reader t' = true \/ finished t' = true) ->
    (forall p, cursor t' = Some p -> visible (valid_blk_list w) ts i p) ->
    readers_ok (valid_blk_list w) (<[i := t']> ts))
    by (intros; by eapply (readers_ok_move _ _ ts i u t')).
  assert (Hwk : walks (valid_blk_list w) t t' -> forall p, cursor t' = Some p -> visible (valid_blk_list w) ts i p).
  { assert (Hcur : forall p, cursor t = Some p -> visible (valid_blk_list w) ts i p)
      by (intros p; by eapply ro_cursor).
    assert (Hnext : forall p q, cursor t = Some p -> rl_next (valid_blk_list w) p = Some q ->
      visible (valid_blk_list w) ts i q).
    { intros p q Hp Hq. destruct (Hcur p Hp) as [Hin|(j & u & Hj & Hw)].
      - left. by eapply rl_next_in.
      - eapply (ro_next _ _ Hok i _ j u p q Hi); try done. by eapply cursor_reader. }
    destruct t'; simpl; try done; intros Hw q Hq; try (destruct Hw as [[_ ->]|Hw]; [left; by apply head_Some_elem_of|]);
      try (destruct Hw as (p & Hp & ->); eauto); apply Hcur; congruence. }
  destruct Hcm; simpl in Hmv;
    try (destruct Hmv as [-> Hw]; apply (Hsame _ Hi); auto; done).
  - destruct Hmv as (el & Hel & Hg).
    eapply readers_ok_move; try done; [|by eapply ci_waited_next].
    destruct Hg as [(ps1 & ps2 & -> & ->) _]. set_solver.
  - destruct Hmv as (-> & l & -> & Hin & ->). eapply readers_ok_remove; try done.
    intros j u r p Hj Hw. by destruct (ci_waited _ _ _ _ _ _ _ _ _ Hc Hj Hw) as (? & ? & ? & ? & ? & ? & _).
  - destruct Hmv as [-> _]. simpl in Hm. case_decide; [|done]. by eapply readers_ok_free.
Qed.

Lemma empty_frames n : disjoint_frames (replicate n ∅) /\ ⋃ (replicate n (∅ : gmap loc obj)) = ∅.
Proof.
  induction n as [|n [IH1 IH2]]; [done|]. simpl. rewrite IH2, (left_id_L ∅ (∪)).
  split; [split; [apply map_disjoint_empty_l|done]|done].
Qed.

(** Before the calls: nobody is in the driver, and each call on a file owns the
    memory of its session. *)
Record calls_start F Fs s w ts : Prop := {
  cs_dev : dev_inv (⋃ (F :: Fs)) w s;
  cs_unlocked : unlocked w;
  cs_super : the_dev_superblock w = Some sb;
  cs_disjoint : disjoint_frames (F :: Fs);
  cs_calls : Forall2 (fun t Ft => starting t = true /\ owns sb (s_cap s) t Ft) ts Fs
}.

(** After them: what is left is the sessions of the files that are still open. *)
Record calls_end F Fs s w ts : Prop := {
  ce_dev : dev_inv (⋃ (F :: Fs)) w s;
  ce_unlocked : unlocked w;
  ce_disjoint : disjoint_frames (F :: Fs);
  ce_sessions : Forall2 (fun t Ft => match t with
    | FileDone _ _ f => file_ok sb (s_cap s) f /\ session f Ft | _ => Ft = ∅ end) ts Fs
}.

(** Calls that own nothing before they start. *)
Lemma calls_start_idle F s w ts :
  dev_inv F w s -> unlocked w -> the_dev_superblock w = Some sb ->
  Forall (fun t => starting t = true /\ owns sb (s_cap s) t ∅) ts ->
  calls_start F (replicate (length ts) ∅) s w ts.
Proof.
  intros Hi Hu Hsb Hok. destruct (empty_frames (length ts)) as [Hd Hun].
  split; try done; simpl; rewrite ?Hun, ?(right_id_L ∅ (∪)); try done.
  - split; [apply map_disjoint_empty_r|done].
  - apply Forall2_same_length_lookup. split; [by rewrite length_replicate|].
    intros i t Fi Ht [-> _]%lookup_replicate. exact (proj1 (Forall_lookup _ _) Hok i t Ht).
Qed.

(** So do the system calls. *)
Lemma calls_start_syscalls F s w ts :
  dev_inv F w s -> unlocked w -> the_dev_superblock w = Some sb -> Forall call_ok ts ->
  calls_start F (replicate (length ts) ∅) s w ts.
Proof.
  intros Hi Hu Hsb Hok. apply calls_start_idle; try done.
  eapply Forall_impl; [exact Hok|]. by intros [].
Qed.

Lemma starting_quiet t :
  starting t = true -> is_reader t = false /\ not_waiting t /\ cursor t = None /\ forall w, finds w t.
Proof. by destruct t. Qed.

Lemma ci_start F Fs s w ts : calls_start F Fs s w ts -> cinv F s w ts Fs.
Proof.
  intros [Hi [Hlk Hrd] Hsb Hd Hts].
  assert (Hst : forall i t, ts !! i = Some t -> starting t = true).
  { intros i t Ht. by destruct (Forall2_lookup_l _ _ _ _ _ Hts Ht) as (Ft & _ & ? & _). }
  assert (Hnr : forall i t, ts !! i = Some t -> is_reader t = false /\ not_waiting t /\ cursor t = None /\
    forall w, finds w t) by (intros i t Ht; by eapply starting_quiet, Hst).
  split; try done.
  - eapply Forall2_impl; [exact Hts|]. by intros ?? [_ ?].
  - rewrite Hrd. unfold count_readers. rewrite filter_none; [done|]. apply Forall_lookup.
    intros i t Ht. destruct (Hnr i t Ht) as (-> & _). done.
  - split.
    + intros r t p Ht Hp. destruct (Hnr r t Ht) as (_ & _ & ? & _). congruence.
    + intros r t j t' p q Ht Hr. destruct (Hnr r t Ht). congruence.
    + intros j t p r Ht Hw. destruct (Hnr j t Ht) as (_ & Hn & _).
      by destruct (waits_not_waiting t p r Hn).
  - apply Forall_lookup. intros i t Ht. by destruct (Hnr i t Ht) as (_ & _ & _ & ?).
Qed.

(** The end: everything but the open sessions has been given back. *)
Lemma ci_end F s w ts Fs :
  cinv F s w ts Fs -> Forall (fun t => finished t = true) ts -> calls_end F Fs s w ts.
Proof.
  intros [(Hi & Hlk & Hsb) Hd Hown Hrd _ _] Hfin. split; try done.
  - split; [done|]. rewrite Hrd. unfold count_readers. rewrite filter_none; [done|].
    apply (Forall_impl _ _ _ Hfin). by intros [].
  - apply Forall2_same_length_lookup. split; [by eapply Forall2_length|].
    intros i t Ft Ht HFt. destruct (Forall2_lookup_l _ _ _ _ _ Hown Ht) as (Ft' & HFt' & Ho).
    rewrite HFt in HFt'. injection HFt' as <-.
    pose proof (proj1 (Forall_lookup _ _) Hfin _ _ Ht). by destruct t.
Qed.

(** When no file is left open, all the memory has been given back. *)
Lemma calls_end_closed F Fs s w ts :
  calls_end F Fs s w ts -> Forall (fun t => forall r d f, t <> FileDone r d f) ts -> dev_inv F w s.
Proof.
  intros [Hi _ _ Hs] Hno. assert (Hu : ⋃ Fs = ∅).
  { clear -Hs Hno. induction Hs as [|t Ft ts Fs Ht _ IH]; [done|].
    apply Forall_cons in Hno as [Hf Hno]. simpl. rewrite IH by done.
    destruct t; try (by rewrite Ht, (left_id_L ∅ (∪))). by destruct (Hf r data f). }
  simpl in Hi. by rewrite Hu, (right_id_L ∅ (∪)) in Hi.
Qed.

(** Another thread among those there are. *)
Lemma visible_app l ts t r p : visible l ts r p -> visible l (ts ++ [t]) r p.
Proof.
  intros [Hp|(j & u & Hj & Hw)]; [by left|right]. exists j, u. split; [|done].
  by apply lookup_app_l_Some.
Qed.

(** A new call starts. *)
Lemma ci_spawn F s w ts Fs t :
  cinv F s w ts Fs -> starting t = true -> owns sb (s_cap s) t ∅ -> cinv F s w (ts ++ [t]) (Fs ++ [∅]).
Proof.
  intros [Hqt Hd Hown Hrd [Hcur Hnext Hpast] Hfi] Ht Ho.
  destruct (starting_quiet t Ht) as (Hnr & Hnw & Hnc & Hnf).
  pose proof (frames_snoc (F :: Fs) Hd) as [Hd' Hu]. simpl in Hd', Hu.
  split.
  - simpl. by rewrite Hu.
  - done.
  - apply Forall2_app; [done|]. by constructor.
  - rewrite Hrd. unfold count_readers. rewrite filter_app, length_app, filter_cons, Hnr.
    simpl. lia.
  - split.
    + intros r u p [Hr|[_ Hr]]%lookup_app_Some Hp; [by apply visible_app; eauto|].
      apply list_lookup_singleton_Some in Hr as [_ <-]. congruence.
    + intros r u j v p q [Hr|[_ Hr]]%lookup_app_Some Hru [Hj|[_ Hj]]%lookup_app_Some Hw Hq;
        try (apply list_lookup_singleton_Some in Hr as [_ <-]; congruence); [by apply visible_app; eauto|].
      apply list_lookup_singleton_Some in Hj as [_ <-]. by destruct (waits_not_waiting t (Some p) r).
    + intros j u p r [Hj|[_ Hj]]%lookup_app_Some Hw.
      * destruct (Hpast _ _ _ _ Hj Hw) as (v & Hv & ?). exists v. split; [|done].
        by apply lookup_app_l_Some.
      * apply list_lookup_singleton_Some in Hj as [_ <-]. by destruct (waits_not_waiting t p r).
  - apply Forall_app. by repeat constructor.
Qed.

(** The holder of an open file makes another call on it. *)
Lemma ci_hand_over F s w ts Fs j r d f op :
  cinv F s w ts Fs -> ts !! j = Some (FileDone r d f) -> op_ok op f ->
  exists Fs', cinv F s w (<[j := Done r d]> ts ++ [FileCall op f]) Fs'.
Proof.
  intros Hc Hj Hop. destruct (ci_frame _ _ _ _ _ _ _ Hc Hj) as (Fj & HFj & [Hf Hse] & _).
  destruct Hc as [Hqt Hd Hown Hrd Hok Hfi].
  destruct (disjoint_frames_focus (F :: Fs) (S j) Fj Hd HFj) as (Fr & Hdj & Heq & Hput).
  destruct (Hput ∅) as [Hd0 Hu0]; [apply map_disjoint_empty_l|].
  change (<[S j := ∅]> (F :: Fs)) with (F :: <[j := ∅]> Fs) in Hd0, Hu0.
  rewrite (left_id_L ∅ (∪)) in Hu0.
  destruct (disjoint_frames_perm (Fj :: F :: <[j := ∅]> Fs) ((F :: <[j := ∅]> Fs) ++ [Fj])) as [Hd1 Hu1].
  { by rewrite Permutation_cons_append. }
  { split; [by rewrite Hu0|done]. }
  exists (<[j := ∅]> Fs ++ [Fj]). pose proof (count_readers_update ts j _ (Done r d) Hj) as Hcr.
  pose proof (readers_ok_finished _ _ _ _ (Done r d) Hok Hj eq_refl eq_refl) as [Hcur Hnext Hpast].
  split.
  - change (F :: <[j := ∅]> Fs ++ [Fj]) with ((F :: <[j := ∅]> Fs) ++ [Fj]).
    rewrite <- Hu1. change (⋃ (Fj :: F :: <[j := ∅]> Fs)) with (Fj ∪ ⋃ (F :: <[j := ∅]> Fs)).
    by rewrite Hu0, <- Heq.
  - done.
  - apply Forall2_app; [by apply Forall2_insert|]. constructor; [by split_and!|constructor].
  - unfold count_readers in *. rewrite filter_app, length_app. simpl in *. lia.
  - split.
    + intros k u p [Hr|[_ Hr]]%lookup_app_Some Hp; [by apply visible_app; eauto|].
      by apply list_lookup_singleton_Some in Hr as [_ <-].
    + intros k u i v p q [Hr|[_ Hr]]%lookup_app_Some Hru [Hi|[_ Hi]]%lookup_app_Some Hw Hq;
        try (by apply list_lookup_singleton_Some in Hr as [_ <-]); [by apply visible_app; eauto|].
      by apply list_lookup_singleton_Some in Hi as [_ <-].
    + intros i u p k [Hi|[_ Hi]]%lookup_app_Some Hw.
      * destruct (Hpast _ _ _ _ Hi Hw) as (v & Hv & ?). exists v. split; [|done].
        by apply lookup_app_l_Some.
      * by apply list_lookup_singleton_Some in Hi as [_ <-].
  - apply Forall_app. split; [by apply Forall_insert|]. by constructor.
Qed.

(** The blocks of the device can be read. *)
Hypothesis sb_bread_works : forall n, bread_ok n = true.

(** The step of a thread, beside the memory [Fr] of everybody else. *)
Lemma ci_step F s w ts Fs i t m Ft Fr :
  cinv F s w ts Fs -> ts !! i = Some t -> thread_step ts t = Some m ->
  owns sb (s_cap s) t Ft -> Ft ##ₘ Fr -> quiet sb (Ft ∪ Fr) s w ->
  wp m (stepped sb ts Fr s w t) w.
Proof.
  intros Hc Hi Hm Hown Hdj Hq.
  assert (Hempty : Ft = ∅ -> quiet sb Fr s w) by (intros ->; by rewrite (left_id_L ∅ (∪)) in Hq).
  assert (Hrd : is_reader t = true -> rcu_readers w <> O).
  { rewrite (ci_readers _ _ _ _ _ Hc). by apply count_readers_pos with i. }
  assert (Hvis : forall l, cursor t = Some l -> exists e, heap w !! l = Some (OElem e) /\
    0 <= el_valid_bytes e <= 4086 /\ 0 <= ndx e < Z.of_nat (s_cap s)).
  { intros l Hl. eapply ci_visible; [exact Hc|]. by eapply (ro_cursor _ _ (ci_ok _ _ _ _ _ Hc)). }
  destruct t; simpl in Hm; try (injection Hm as <-).
  - destruct Hown as [? ?%Hempty]. by apply step_put_call.
  - by eapply step_put_ready.
  - by eapply step_put_written.
  - destruct Hown as [? ?%Hempty]. by apply step_get_call.
  - pose proof Hown as [_ ->]. eapply step_get_walk; [by auto|done|by auto|].
    intros l ->. destruct (Hvis l eq_refl) as (e & ? & ? & _). eauto.
  - pose proof Hown as (_ & _ & ->). eapply step_get_read; auto.
  - destruct Hown as [? ?%Hempty]. by apply step_inv_call.
  - case_decide; [|done]. injection Hm as <-. by eapply step_inv_wait.
  - destruct op.
    + destruct Hown as (Hf & Hop & Hse). simpl in Hop. unfold session in Hse. rewrite Hop in Hse.
      apply step_open; auto.
    + by eapply step_read_enter.
    + by eapply step_seek.
    + by eapply step_close.
  - eapply step_read_walk; try done; auto.
  - eapply step_read_copy; try done. exact (proj1 (Forall_lookup _ _) (ci_finds _ _ _ _ _ Hc) _ _ Hi).
  - eapply step_read_ahead; try done. destruct (Hvis rcu_el eq_refl) as (e & ? & _). eauto.
  - eapply step_read_session; try done; [by auto|]. intros l ->. destruct (Hvis l eq_refl) as (e & ? & _ & ?). eauto.
  - done.
  - done.
Qed.

(** The step of a thread leaves the nodes that the others may look at. *)
Lemma ci_stable F s w ts Fs i t m Ft Fr t' w' r u p :
  cinv F s w ts Fs -> ts !! i = Some t -> thread_step ts t = Some m -> Fs !! i = Some Ft ->
  Ft ##ₘ Fr -> ⋃ (F :: Fs) = Ft ∪ Fr -> stepped sb ts Fr s w t t' w' ->
  i <> r -> ts !! r = Some u -> is_reader u = true -> visible (valid_blk_list w) ts r p ->
  heap w' !! p = heap w !! p.
Proof.
  intros Hc Hi Hm HFt Hdj Heq (s' & F' & _ & _ & Hdj' & [Hi' _] & _ & Hsn & _) Hir Hr Hu [Hp|(j & v & Hj & Hw)].
  { by apply Hsn. }
  destruct (decide (i = j)) as [<-|Hij].
  { rewrite Hi in Hj. injection Hj as <-. destruct t; try done. destruct Hw as [-> Hin]. simpl in Hm.
    case_decide as Hno; [|done]. rewrite Forall_forall in Hno. destruct (Hno r Hin).
    apply elem_of_readers. by exists u. }
  destruct (ci_waited _ _ _ _ _ _ _ _ _ Hc Hj Hw) as (Fj & e & off & HFj & Hpe & _ & Hh & _).
  rewrite Hh. eapply dev_inv_lookup; [exact Hi'|]. apply lookup_union_Some_raw. right.
  assert (HFr : Fr !! p = Some (OElem e)).
  { destruct (ci_frame _ _ _ _ _ _ _ Hc Hj) as (Fj' & HFj' & _ & Hsub). rewrite HFj in HFj'.
    injection HFj' as <-. specialize (Hsub _ _ Hpe). rewrite Heq in Hsub.
    apply lookup_union_Some_raw in Hsub as [Hbad|[_ ?]]; [|done].
    destruct (ci_disjoint _ _ _ _ _ Hc) as [_ Hd].
    pose proof (disjoint_frames_pair Fs i j Ft Fj Hd Hij HFt HFj) as Hdd.
    by destruct (map_disjoint_spec Ft Fj) as [Hno _]; destruct (Hno Hdd p _ _ Hbad Hpe). }
  split; [|done]. by eapply map_disjoint_Some_r.
Qed.

(** What the step of thread [i] leaves alone: the memory of the other threads and the
    nodes that the readers among them may look at. *)
Record undisturbed ts i w w' Fs Fs' : Prop := {
  un_frame r : i <> r -> Fs' !! r = Fs !! r;
  un_node r u p : i <> r -> ts !! r = Some u -> is_reader u = true ->
    visible (valid_blk_list w) ts r p -> heap w' !! p = heap w !! p
}.

(** The step keeps the invariant. *)
Lemma ci_preserved_beside F s w ts Fs i t m :
  cinv F s w ts Fs -> ts !! i = Some t -> thread_step ts t = Some m ->
  wp m (fun t' w' => exists s' Fs', commits s t t' s' /\ s_cap s' = s_cap s /\ same_nodes w w' /\
    list_moves ts t t' (valid_blk_list w) (valid_blk_list w') /\
    cinv F s' w' (<[i := t']> ts) Fs' /\ undisturbed ts i w w' Fs Fs') w.
Proof.
  intros Hc Hi Hm. destruct (ci_frame _ _ _ _ _ _ _ Hc Hi) as (Ft & HFt & Hown & _).
  destruct (disjoint_frames_focus (F :: Fs) (S i) Ft (ci_disjoint _ _ _ _ _ Hc) HFt)
    as (Fr & Hdj & Heq & Hput).
  pose proof (ci_quiet _ _ _ _ _ Hc) as Hq. rewrite Heq in Hq.
  eapply wp_mono; [by eapply ci_step|]. intros t' w' Hst.
  pose proof (ci_ok_step _ _ _ _ _ _ _ _ _ _ _ Hc Hi Hm Hst) as Hok'.
  assert (Hstable : forall r u p, i <> r -> ts !! r = Some u -> is_reader u = true ->
    visible (valid_blk_list w) ts r p -> heap w' !! p = heap w !! p).
  { intros r u p Hir Hr Hp Hv. by eapply (ci_stable F s w ts Fs i t m Ft Fr t' w' r u). }
  destruct Hst as (s' & F' & Hcm & Hown' & Hdj' & Hq' & Hcap & Hsn & Hmv & Hrd & Hfi).
  destruct (Hput F' Hdj') as [Hdis Hun]. exists s', (<[i := F']> Fs). do 4 (split; [done|]).
  split; [split; try done|split; [|done]].
  - change (<[S i := F']> (F :: Fs)) with (F :: <[i := F']> Fs) in Hun. by rewrite Hun.
  - rewrite Hcap. apply Forall2_insert; [apply Hc|done].
  - pose proof (count_readers_update ts i t t' Hi). rewrite (ci_readers _ _ _ _ _ Hc) in Hrd. lia.
  - apply Forall_lookup. intros r u [[_ ->]|[Hir Hr]]%insert_lookup; [done|].
    pose proof (proj1 (Forall_lookup _ _) (ci_finds _ _ _ _ _ Hc) _ _ Hr) as Hu.
    destruct u; try done. destruct Hu as (e & He & ?). exists e. split; [|done].
    rewrite (Hstable r _ rcu_el Hir Hr); [done|done|]. by eapply (ro_cursor _ _ (ci_ok _ _ _ _ _ Hc)).
  - intros r Hir. by rewrite list_lookup_insert_ne.
Qed.

Lemma ci_preserved F s w ts Fs i t m :
  cinv F s w ts Fs -> ts !! i = Some t -> thread_step ts t = Some m ->
  wp m (fun t' w' => exists s' Fs', commits s t t' s' /\ s_cap s' = s_cap s /\ same_nodes w w' /\
    list_moves ts t t' (valid_blk_list w) (valid_blk_list w') /\
    cinv F s' w' (<[i := t']> ts) Fs') w.
Proof.
  intros Hc Hi Hm. eapply wp_mono; [by eapply ci_preserved_beside|].
  intros t' w' (s' & Fs' & ? & ? & ? & ? & ? & _). by exists s', Fs'.
Qed.
(** ** Executions *)

(** A step of the execution: which thread moves, and what it does. *)
Lemma ci_cstep_beside F s w ts Fs w' ts' :
  cinv F s w ts Fs -> cstep (w, ts) (w', ts') ->
  exists i t t' m s' Fs', ts !! i = Some t /\ ts' = <[i := t']> ts /\
    thread_step ts t = Some m /\ m w = Ret t' w' /\ commits s t t' s' /\ s_cap s' = s_cap s /\
    same_nodes w w' /\ list_moves ts t t' (valid_blk_list w) (valid_blk_list w') /\
    cinv F s' w' ts' Fs' /\ undisturbed ts i w w' Fs Fs'.
Proof.
  intros Hc Hst. inversion Hst as [? ? i t m t' ? Hi Hm Hrun]; subst.
  pose proof (ci_preserved_beside _ _ _ _ _ _ _ _ Hc Hi Hm) as Hwp.
  unfold wp in Hwp. rewrite Hrun in Hwp.
  destruct Hwp as (s' & Fs' & Hcm & Hcap & Hsn & Hmv & Hc').
  by exists i, t, t', m, s', Fs'.
Qed.

Lemma ci_cstep F s w ts Fs w' ts' :
  cinv F s w ts Fs -> cstep (w, ts) (w', ts') ->
  exists i t t' m s' Fs', ts !! i = Some t /\ ts' = <[i := t']> ts /\
    thread_step ts t = Some m /\ m w = Ret t' w' /\ commits s t t' s' /\ s_cap s' = s_cap s /\
    same_nodes w w' /\ list_moves ts t t' (valid_blk_list w) (valid_blk_list w') /\
    cinv F s' w' ts' Fs'.
Proof.
  intros Hc Hst.
  destruct (ci_cstep_beside _ _ _ _ _ _ _ Hc Hst) as (i & t & t' & m & s' & Fs' & H). destruct_and!.
  by exists i, t, t', m, s', Fs'.
Qed.

Lemma ci_rtc F s c c' Fs :
  cinv F s c.1 c.2 Fs -> rtc cstep c c' ->
  exists s' Fs', rtc astep (s, c.2) (s', c'.2) /\ cinv F s' c'.1 c'.2 Fs'.
Proof.
  intros Hc H. revert s Fs Hc. induction H as [c|[w ts] [w1 ts1] c Hst _ IH]; intros s Fs Hc.
  - by exists s, Fs.
  - destruct (ci_cstep _ _ _ _ _ _ _ Hc Hst)
      as (i & t & t' & m & s1 & Fs1 & Hi & -> & _ & _ & Hcm & _ & _ & _ & Hc1).
    destruct (IH s1 Fs1 Hc1) as (s' & Fs' & Has & Hc'). exists s', Fs'. split; [|done].
    eapply rtc_l; [by econstructor|done].
Qed.

Lemma ci_no_fault F s w ts Fs : cinv F s w ts Fs -> ~ cfault (w, ts).
Proof.
  intros Hc Hf. inversion Hf as [? ? i t m f Hi Hm Hrun]; subst.
  pose proof (ci_preserved _ _ _ _ _ _ _ _ Hc Hi Hm) as Hwp.
  unfold wp in Hwp. by rewrite Hrun in Hwp.
Qed.

End Parallel.

(** ** Witness *)

#[local] Existing Instance sample_config.
#[local] Existing Instance good_kernel.

(** An invalidation and a read in parallel, and their first step. *)
Definition sample_calls : list thread := [InvCall 1; GetCall 1 2 2].

Lemma sample_calls_ok : Forall call_ok sample_calls.
Proof. by repeat constructor. Qed.

Lemma sample_calls_start :
  calls_start (SB MAGIC true) ∅ [∅; ∅] sample_store good_world sample_calls.
Proof.
  apply (calls_start_syscalls (SB MAGIC true) ∅ sample_store good_world sample_calls); try done.
  - exact good_world_inv.
  - exact sample_calls_ok.
Qed.

Lemma sample_step :
  exists t w', cstep (good_world, sample_calls) (w', [t; GetCall 1 2 2]) /\ t <> InvCall 1.
Proof.
  assert (Hc := ci_start _ _ _ _ _ _ sample_calls_start).
  pose proof (ci_preserved _ always_reads _ _ _ _ _ 0 _ _ Hc eq_refl eq_refl) as Hwp.
  apply wp_elim in Hwp as (t & w' & Hrun & s1 & Fs1 & Hcm & _). exists t, w'.
  split; [exact (cstep_run good_world sample_calls 0 _ _ t w' eq_refl eq_refl Hrun)|].
  by inversion Hcm.
Qed.

