(* ===== verification/Progress.v ===== *)
(** * System calls in parallel: every call returns

    No thread waits for ever and no reader walks for ever: the steps of an
    execution are at most a number that depends only on the number of calls and
    on the size of the device, and an execution stops only when all the calls
    have returned. *)
From S2P Require Import Prelude Layout Kernel KernelFacts Rcu Store Device Syscalls DeviceOps.
From S2P Require Import DeviceWp Threads Grace Walk Interleave Parallel Sample.

Section Progress.
Context {K : Kernel} {KL : KernelLaws K} {C : Config}.
Implicit Types (F : gmap loc obj) (Fs : list (gmap loc obj)) (ts : list thread).
Implicit Types (s : mstore) (w : world) (l : rlist).

(** ** The weight of a thread

    How many steps a thread can still make, where [T] is the number of threads and
    [cap] that of the slots; an insertion costs its thread one more step for each
    reader, whose walk it may lengthen. *)
Definition weight (T cap : nat) l (t : thread) (k : nat) : Prop :=
  match t with
  | PutCall _ _ => k = (T + 3)%nat
  | PutReady _ _ _ => k = (T + 2)%nat
  | PutWritten _ _ _ _ _ _ => k = 1%nat
  | GetCall _ _ _ => k = (cap + 3)%nat
  | GetWalk _ _ _ _ p => exists qs, path l p qs /\ k = (length qs + 2)%nat
  | GetRead _ _ _ _ _ => k = 1%nat
  | InvCall _ => k = 2%nat
  | FileCall (ReadCall _ _) _ => k = (cap + 4)%nat
  | FileCall _ _ => k = 1%nat
  | ReadWalk _ p => exists qs, path l p qs /\ k = (length qs + 3)%nat
  | ReadCopy _ _ => k = 3%nat
  | ReadNext _ _ _ _ => k = 2%nat
  | ReadSession _ _ _ _ => k = 1%nat
  | FileDone _ _ _ => k = 0%nat
  | InvWait _ _ _ _ => k = 1%nat
  | Done _ _ => k = 0%nat
  end.

Definition total (T cap : nat) l ts (n : nat) : Prop :=
  exists ks, Forall2 (weight T cap l) ts ks /\ n = sum_list ks.

(** The weights after a step that adds at most [d] to each. *)
Lemma weights_grow (W W' : thread -> nat -> Prop) d ts ks :
  Forall2 W ts ks ->
  (forall j u k, ts !! j = Some u -> W u k -> exists k', W' u k' /\ (k' <= k + d)%nat) ->
  exists ks', Forall2 W' ts ks' /\ (sum_list ks' <= sum_list ks + d * length ts)%nat.
Proof.
  induction 1 as [|u k ts ks Hu _ IH]; intros Hall; [exists []; simpl; split; [done|lia]|].
  destruct (Hall 0%nat u k eq_refl Hu) as (k' & Hk' & Hle).
  destruct IH as (ks' & Hks' & Hsum); [intros j; apply (Hall (S j))|].
  exists (k' :: ks'). split; [by constructor|simpl; lia].
Qed.

Lemma sum_list_insert (ks : list nat) i k k' :
  ks !! i = Some k -> (sum_list (<[i := k']> ks) + k = sum_list ks + k')%nat.
Proof.
  revert i. induction ks as [|x ks IH]; intros [|i] Hi; simpl in *; try done.
  - injection Hi as ->. lia.
  - specialize (IH i Hi). lia.
Qed.

Lemma total_step T cap l l' ts i t t' d n :
  total T cap l ts n -> ts !! i = Some t -> length ts = T ->
  (forall j u k, ts !! j = Some u -> weight T cap l u k ->
     exists k', weight T cap l' u k' /\ (k' <= k + d)%nat) ->
  (forall k, weight T cap l' t k -> exists k', weight T cap l' t' k' /\ (k' + d * T < k)%nat) ->
  exists n', total T cap l' (<[i := t']> ts) n' /\ (n' < n)%nat.
Proof.
  intros (ks & Hks & ->) Hi HT Hall Ht.
  destruct (weights_grow _ _ d _ _ Hks Hall) as (ks1 & Hks1 & Hsum).
  destruct (Forall2_lookup_l _ _ _ _ _ Hks1 Hi) as (k & Hk & Hwk).
  destruct (Ht k Hwk) as (k' & Hk' & Hlt).
  exists (sum_list (<[i := k']> ks1)). split.
  - exists (<[i := k']> ks1). split; [|done]. by apply Forall2_insert.
  - pose proof (sum_list_insert ks1 i k k' Hk). rewrite HT in Hsum. lia.
Qed.

Hypothesis sb_bread_works : forall n, bread_ok n = true.
Variable sb : super_block.

(** The list is not longer than the device. *)
Lemma ci_length F s w ts Fs :
  cinv sb F s w ts Fs -> (length (rl_nodes (valid_blk_list w)) <= s_cap s)%nat.
Proof.
  intros Hc. pose proof (ci_quiet _ _ _ _ _ _ Hc) as [(a & vm & mps & bs & es & [Hm Hlog Hg _]) _].
  destruct (dm_list _ _ _ _ _ _ _ Hm) as [_ Hel]. rewrite (Forall2_length _ _ _ Hel).
  rewrite (dl_elems _ _ _ Hlog), (dg_cap _ _ _ Hg). generalize 0%nat. clear.
  induction bs as [|b bs IH]; intros k; simpl; [done|].
  case_match; simpl; specialize (IH (S k)); lia.
Qed.

(** Each step makes the total weight smaller. *)
Lemma ci_total F s w ts Fs w' ts' n :
  cinv sb F s w ts Fs -> cstep (w, ts) (w', ts') ->
  total (length ts) (s_cap s) (valid_blk_list w) ts n ->
  exists s' Fs' n', cinv sb F s' w' ts' Fs' /\ s_cap s' = s_cap s /\ length ts' = length ts /\
    total (length ts) (s_cap s) (valid_blk_list w') ts' n' /\ (n' < n)%nat.
Proof.
  intros Hc Hst Htot.
  destruct (ci_cstep sb sb_bread_works _ _ _ _ _ _ _ Hc Hst)
    as (i & t & t' & m & s' & Fs' & Hi & -> & Hm & _ & Hcm & Hcap & _ & Hmv & Hc').
  pose proof (ci_NoDup _ _ _ _ _ _ Hc) as Hnd. pose proof (ci_NoDup _ _ _ _ _ _ Hc') as Hnd'.
  cut (exists n', total (length ts) (s_cap s) (valid_blk_list w') (<[i := t']> ts) n' /\ (n' < n)%nat).
  { intros (n' & ? & ?). exists s', Fs', n'. split_and!; try done. apply length_insert. }
  assert (Hsame : forall u, ts !! i = Some u -> valid_blk_list w' = valid_blk_list w ->
    (forall k, weight (length ts) (s_cap s) (valid_blk_list w) u k ->
       exists k', weight (length ts) (s_cap s) (valid_blk_list w) t' k' /\ (k' < k)%nat) ->
    exists n', total (length ts) (s_cap s) (valid_blk_list w') (<[i := t']> ts) n' /\ (n' < n)%nat).
  { intros u Hu -> Hk. eapply (total_step _ _ _ _ _ _ u t' 0); try done.
    - intros j v k _ Hv. exists k. split; [done|lia].
    - intros k Hwk. destruct (Hk k Hwk) as (k' & ? & ?). exists k'. split; [done|lia]. }
  assert (Hgrow : forall j u p qs el, ts !! j = Some u -> is_reader u = true -> cursor u = p ->
    (exists source size a, t = PutReady source size a /\ pa_new_elem a = Some el) ->
    grows el (valid_blk_list w) (valid_blk_list w') -> path (valid_blk_list w) p qs ->
    exists qs', path (valid_blk_list w') p qs' /\ (length qs' <= S (length qs))%nat).
  { intros j u p qs el Hj Hu <- (source & size & a & -> & Hel) Hg Hp.
    destruct (path_grows el (valid_blk_list w) (valid_blk_list w') (cursor u) qs) as (qs' & ? & _ & ?);
      try done; [by apply (ci_walk_avoids sb F s w ts Fs i source size a el j u)|eauto]. }
  assert (Hcut : forall p qs x, x ∈ rl_nodes (valid_blk_list w) ->
    valid_blk_list w' = list_del_rcu x (valid_blk_list w) -> path (valid_blk_list w) p qs ->
    exists qs', path (valid_blk_list w') p qs' /\ (length qs' <= length qs)%nat).
  { intros p qs x Hx -> Hp. destruct (path_del x (valid_blk_list w) p qs) as (qs' & ? & _ & ?); try done. eauto. }
  assert (Hbegin : forall c k, k = (s_cap s + c + 1)%nat -> exists k',
    (exists qs, path (valid_blk_list w) (head (rl_nodes (valid_blk_list w))) qs /\ k' = (length qs + c)%nat) /\
    (k' < k)%nat).
  { intros c k ->. exists (length (rl_nodes (valid_blk_list w)) + c)%nat.
    pose proof (ci_length _ _ _ _ _ Hc). split; [|lia]. eexists. split; [by apply (path_list _ [])|done]. }
  assert (Hmove : forall c x k, (exists qs, path (valid_blk_list w) (Some x) qs /\ k = (length qs + c)%nat) ->
    exists k', (exists qs, path (valid_blk_list w) (rl_next (valid_blk_list w) x) qs /\ k' = (length qs + c)%nat) /\
    (k' < k)%nat).
  { intros c x k ([|q qs] & Hp & ->); [done|]. destruct Hp as [[= <-] Hp].
    exists (length qs + c)%nat. split; [by exists qs|simpl; lia]. }
  destruct Hcm; simpl in Hmv;
    try (apply (Hsame _ Hi); [exact (proj1 Hmv)|]; simpl; intros ? ->; eexists; split; [reflexivity|lia]).
  - destruct Hmv as (el & Hel & Hg).
    eapply (total_step _ _ _ _ _ _ _ _ 1 _ Htot Hi); [done| |].
    + intros j u k Hj Hu.
      destruct u; simpl in Hu; try (exists k; simpl; split; [done|lia]).
      all: destruct Hu as (qs & Hp & ->).
      all: edestruct (Hgrow j _ _ qs el Hj eq_refl eq_refl) as (qs' & Hp' & Hlen); [eauto 8|done|done|].
      all: eexists; split; [by exists qs'|lia].
    + simpl. intros k ->. exists 1%nat. split; [done|lia].
  - destruct Hmv as (-> & x & -> & Hin & Hl).
    eapply (total_step _ _ _ _ _ _ _ _ 0 _ Htot Hi); [done| |].
    + intros j u k Hj Hu. destruct u; simpl in Hu; try (exists k; simpl; split; [done|lia]).
      all: destruct Hu as (qs & Hp & ->); edestruct (Hcut _ qs x Hin Hl Hp) as (qs' & Hp' & Hlen).
      all: eexists; split; [by exists qs'|lia].
    + simpl. intros k ->. exists 1%nat. split; [done|lia].
  (* the walk begins, or goes on, at get_data() and at read() *)
  - destruct Hmv as [Hl [[_ ->]|(x & Hx & _)]]; [|done]. apply (Hsame _ Hi Hl). simpl. intros k ->. apply Hbegin. lia.
  - destruct Hmv as [Hl [[Hr _]|(x & Hx & ->)]]; [done|]. simpl in Hx. subst p.
    apply (Hsame _ Hi Hl). intros k. apply Hmove.
  - destruct Hmv as [Hl _]. apply (Hsame _ Hi Hl). simpl. intros k (qs & _ & ->). exists 0%nat. split; [done|lia].
  - destruct Hmv as [Hl _]. apply (Hsame _ Hi Hl). simpl. intros k (qs & _ & ->). exists 1%nat. split; [done|lia].
  - destruct Hmv as [Hl [[_ ->]|(x & Hx & _)]]; [|done]. apply (Hsame _ Hi Hl). simpl. intros k ->. apply Hbegin. lia.
  - destruct Hmv as [Hl [[Hr _]|(x & Hx & ->)]]; [done|]. simpl in Hx. subst p.
    apply (Hsame _ Hi Hl). intros k. apply Hmove.
  - destruct Hmv as [Hl _]. apply (Hsame _ Hi Hl). simpl. intros k (qs & _ & ->). exists 0%nat. split; [done|lia].
  - destruct Hmv as [Hl _]. apply (Hsame _ Hi Hl). simpl. intros k ([|q qs] & Hp & ->); [done|].
    exists 3%nat. split; [done|simpl; lia].
Qed.

(** Somebody can move unless all have finished. *)
Lemma ci_progress F s w ts Fs :
  cinv sb F s w ts Fs -> (forall c, ~ cstep (w, ts) c) -> Forall (fun t => finished t = true) ts.
Proof.
  intros Hc Hno. assert (Hstuck : forall i t, ts !! i = Some t -> thread_step ts t = None).
  { intros i t Hi. destruct (thread_step ts t) as [m|] eqn:Hm; [|done].
    pose proof (ci_preserved sb sb_bread_works _ _ _ _ _ _ _ _ Hc Hi Hm) as Hwp.
    apply wp_elim in Hwp as (t' & w' & Hrun & _). destruct (Hno (w', <[i := t']> ts)).
    by econstructor. }
  assert (Hnr : readers ts = []).
  { destruct (readers ts) as [|r rs] eqn:Hr; [done|].
    assert (r ∈ readers ts) as (t & Ht & Hrd)%elem_of_readers by (rewrite Hr; set_solver).
    specialize (Hstuck r t Ht). by destruct t. }
  apply Forall_lookup. intros i t Hi. specialize (Hstuck i t Hi). destruct t; try done.
  simpl in Hstuck. case_decide as Hw; [done|]. destruct Hw. rewrite Hnr.
  apply Forall_forall. set_solver.
Qed.

(** The weight of the calls before they start. *)
Lemma total_start T cap l ts :
  Forall (fun t => starting t = true) ts ->
  exists n, total T cap l ts n /\ (n <= length ts * (T + cap + 4))%nat.
Proof.
  induction 1 as [|t ts Ht _ (n & (ks & Hks & ->) & Hn)]; [exists 0%nat; split; [by exists []|simpl; lia]|].
  assert (Hk : exists k, weight T cap l t k /\ (k <= T + cap + 4)%nat).
  { destruct t as [| | | | | | | |op| | | | | |]; try done; simpl; try (eexists; split; [reflexivity|lia]).
    destruct op; eexists; (split; [reflexivity|lia]). }
  destruct Hk as (k & Hk & Hle). exists (sum_list (k :: ks)). split; [|simpl; lia].
  exists (k :: ks). split; [by constructor|done].
Qed.

Lemma ci_bounded F s c c' Fs n k :
  cinv sb F s c.1 c.2 Fs -> total (length c.2) (s_cap s) (valid_blk_list c.1) c.2 n ->
  nsteps cstep k c c' -> (k <= n)%nat /\ exists s' Fs', cinv sb F s' c'.1 c'.2 Fs'.
Proof.
  intros Hc Htot H. revert s Fs n Hc Htot.
  induction H as [c|k [w ts] [w1 ts1] c Hst _ IH]; intros s Fs n Hc Htot; [split; [lia|eauto]|].
  destruct (ci_total _ _ _ _ _ _ _ _ Hc Hst Htot) as (s1 & Fs1 & n1 & Hc1 & Hcap & Hlen & Htot1 & Hlt).
  destruct (IH s1 Fs1 n1) as [? ?]; [done|simpl; by rewrite Hlen, Hcap|]. split; [lia|done].
Qed.

(** C8: whatever the scheduling, the calls of any number of threads all return: an
    execution of [length ts] system calls and file operations on a device of
    [s_cap s] slots has at most [length ts * (length ts + s_cap s + 4)] steps, a
    reader that walks the list while others add nodes to it included, and an
    execution that cannot go on is one in which every call has returned: no thread
    waits for ever for the lock or for the end of a grace period. *)
Theorem concurrent_calls_terminate F Fs s w ts n w' ts' :
  calls_start sb F Fs s w ts -> nsteps cstep n (w, ts) (w', ts') ->
  (n <= length ts * (length ts + s_cap s + 4))%nat /\
  ((forall c, ~ cstep (w', ts') c) -> Forall (fun t => finished t = true) ts').
Proof.
  intros Hst Hrun. pose proof (ci_start sb _ _ _ _ _ Hst) as Hc.
  destruct (total_start (length ts) (s_cap s) (valid_blk_list w) ts) as (k & Htot & Hk).
  { apply Forall_lookup. intros i t Ht.
    by destruct (Forall2_lookup_l _ _ _ _ _ (cs_calls _ _ _ _ _ _ Hst) Ht) as (Ft & _ & ? & _). }
  destruct (ci_bounded F s (w, ts) (w', ts') _ k n Hc Htot Hrun) as [Hn (s' & Fs' & Hc')].
  split; [lia|]. by eapply ci_progress.
Qed.
End Progress.

(** ** Witness *)

#[local] Existing Instance sample_config.
#[local] Existing Instance good_kernel.

Lemma concurrent_calls_terminate_witness :
  exists c, nsteps cstep 1 (good_world, sample_calls) c /\
    ((forall c', ~ cstep c c') -> Forall (fun t => finished t = true) c.2).
Proof.
  destruct sample_step as (t & w' & Hst & _). exists (w', [t; GetCall 1 2 2]).
  assert (Hn : nsteps cstep 1 (good_world, sample_calls) (w', [t; GetCall 1 2 2]))
    by (by apply nsteps_once).
  split; [done|].
  apply (concurrent_calls_terminate always_reads (SB MAGIC true) ∅ [∅; ∅] sample_store good_world
    sample_calls 1 w' [t; GetCall 1 2 2] sample_calls_start Hn).
Defined.
