(* ===== verification/Isolation.v ===== *)
(** * System calls in parallel: what a reader gets

    A get_data() that runs in parallel with any other calls returns the message of
    its block, whole and unchanged, as long as nobody invalidates that block: the
    writers of the other blocks, which insert and remove nodes around the reader,
    do not disturb it.  When the block is invalidated and written again during the
    call, the reader may copy bytes of the second message under the length of the
    first one. *)
From S2P Require Import Prelude Layout Kernel KernelFacts Rcu Store Device Syscalls DeviceOps.
From S2P Require Import DeviceWp Threads Grace Walk Interleave Parallel Sample.

Section Isolation.
Context {K : Kernel} {KL : KernelLaws K} {C : Config}.
Implicit Types (F : gmap loc obj) (Fs : list (gmap loc obj)) (ts : list thread).
Implicit Types (s : mstore) (w : world) (l : rlist).

(** ** The node of a block *)

Definition slot_node w (i : nat) (x : loc) (e : rcu_elem) : Prop :=
  x ∈ rl_nodes (valid_blk_list w) /\ heap w !! x = Some (OElem e) /\ ndx e = Z.of_nat i.

Lemma slot_node_of F s w i m :
  dev_inv F w s -> s_msgs s !! i = Some m ->
  exists x e, slot_node w i x e /\
    forall y e', slot_node w i y e' -> y = x /\ el_valid_bytes e' = Z.of_nat (length (m_data m)).
Proof.
  intros (a & vm & mps & bs & es & Hi) Hm. pose proof Hi as [Hmem Hlog Hg _].
  destruct (dm_list _ _ _ _ _ _ _ Hmem) as [Hnd Hel].
  assert (Hnde : NoDup (ndx <$> es)) by (rewrite (dl_elems _ _ _ Hlog); apply valid_from_NoDup).
  destruct (dev_slot_elem _ _ _ _ _ _ _ _ _ _ Hi Hm) as (b & Hb & He).
  apply list_elem_of_lookup in He as [k Hk].
  destruct (Forall2_lookup_r _ _ _ _ _ Hel Hk) as (x & Hx & Hhx).
  exists x, (elem_of_block i b). split; [split_and!; [by eapply list_elem_of_lookup_2|done..]|].
  intros y e' (Hy & Hhy & Hn). apply list_elem_of_lookup in Hy as [k' Hk'].
  destruct (Forall2_lookup_l _ _ _ _ _ Hel Hk') as (e2 & He2 & Hh2).
  rewrite Hhy in Hh2. injection Hh2 as <-.
  assert (k' = k) as ->.
  { eapply (NoDup_lookup (ndx <$> es)); [done|by rewrite list_lookup_fmap, He2|].
    rewrite list_lookup_fmap, Hk. simpl. by rewrite Hn. }
  split; [congruence|]. assert (e' = elem_of_block i b) as -> by congruence.
  destruct (dev_elem _ _ _ _ _ _ _ _ _ Hi (list_elem_of_lookup_2 _ _ _ Hk))
    as (j & b' & blk & Heq & Hb' & _ & _ & Hlen & Hvb & Hmj).
  injection Heq as Hj _ _. apply Nat2Z.inj in Hj as <-. rewrite Hb in Hb'. injection Hb' as <-.
  rewrite Hm in Hmj. injection Hmj as ->. simpl.
  unfold payload. rewrite length_take, length_drop. lia.
Qed.

(** ** The reader among the others *)

(** The thread has not just invalidated block [i]; nor is it going to. *)
Definition waits_elsewhere (i : nat) (t : thread) : Prop :=
  match t with InvWait off _ _ _ => off <> Z.of_nat i | _ => True end.
Definition spares (i : nat) (t : thread) : Prop :=
  match t with InvCall off => off <> Z.of_nat i | _ => waits_elsewhere i t end.

Lemma spares_waits i ts : Forall (spares i) ts -> Forall (waits_elsewhere i) ts.
Proof. intros H. apply (Forall_impl _ _ _ H). by intros []. Qed.

(** Progress of a read of block [i], which holds [m]. *)
Definition on_track (i : nat) (m : message) (cap : nat) (size : Z) s w (t : thread) : Prop :=
  match t with
  | GetCall off cap' size' => off = Z.of_nat i /\ cap' = cap /\ size' = size
  | GetWalk off cap' size' _ p => off = Z.of_nat i /\ cap' = cap /\ size' = size /\
      exists qs x e, path (valid_blk_list w) p qs /\ x ∈ qs /\ slot_node w i x e
  | GetRead off cap' size' _ n => off = Z.of_nat i /\ cap' = cap /\ size' = size /\
      n = Z.of_nat (length (m_data m))
  | Done r d => (r, d) = s_get (Z.of_nat i) (Nat.min cap (Z.to_nat size)) s
  | _ => False
  end.

Lemma spares_commit i t t' s s' m :
  spares i t -> commits s t t' s' -> s_msgs s !! i = Some m ->
  spares i t' /\ s_msgs s' !! i = Some m.
Proof.
  intros Hs Hc Hm. destruct Hc; simpl in *; try done.
  - rename H0 into Hput. split; [done|]. unfold s_put in Hput. destruct (next_free s) as [j|] eqn:Hj.
    + injection Hput as <- <-. simpl. apply next_free_Some in Hj as [_ Hj].
      rewrite lookup_insert_ne; [done|]. intros ->. congruence.
    + injection Hput as <- <-. done.
  - rename H into Hinv. split; [done|]. unfold s_invalidate in Hinv. destruct (_ && _)%bool eqn:Hr; [|done].
    reflect_bools. destruct (s_msgs s !! Z.to_nat offset); [|done]. injection Hinv as <-. simpl.
    rewrite lookup_delete_ne; [done|]. intros <-. rewrite Z2Nat.id in Hs by lia. done.
Qed.

Lemma s_get_same s s' i size m :
  s_cap s' = s_cap s -> s_msgs s !! i = Some m -> s_msgs s' !! i = Some m ->
  s_get (Z.of_nat i) size s' = s_get (Z.of_nat i) size s.
Proof. intros Hcap H H'. unfold s_get. rewrite Hcap, Nat2Z.id, H, H'. done. Qed.

Hypothesis sb_bread_works : forall n, bread_ok n = true.
Variable sb : super_block.

(** The node of a message that stays is not moved. *)
Lemma slot_stable F s w ts Fs F' s' w' ts' Fs' t t' i x e m :
  cinv sb F s w ts Fs -> cinv sb F' s' w' ts' Fs' ->
  commits s t t' s' -> same_nodes w w' -> list_moves ts t t' (valid_blk_list w) (valid_blk_list w') ->
  s_msgs s !! i = Some m -> s_msgs s' !! i = Some m -> slot_node w i x e -> slot_node w' i x e.
Proof.
  intros Hc Hc' Hcm Hsn Hmv Hm Hm' (Hin & Hh & Hn).
  assert (Hkeep : x ∈ rl_nodes (valid_blk_list w') -> slot_node w' i x e)
    by (intros; split_and!; [done|by rewrite Hsn|done]).
  apply Hkeep. destruct (list_moves_cases _ _ _ _ _ _ _ Hcm Hmv)
    as [->|[(source & sz & a & el & -> & Hel & [(ps1 & ps2 & Ho & ->) _])|(y & Hy & Hl)]].
  - done.
  - rewrite Ho in Hin. set_solver.
  - pose proof (ci_NoDup _ _ _ _ _ _ Hc) as Hnd.
    destruct (ci_quiet _ _ _ _ _ _ Hc) as [Hi _]. destruct (ci_quiet _ _ _ _ _ _ Hc') as [Hi' _].
    destruct (slot_node_of _ _ _ _ _ Hi' Hm') as (x' & e' & (Hx' & Hh' & Hn') & _).
    apply list_elem_of_split in Hy as (l1 & l2 & Hsp). rewrite Hsp in Hnd. apply NoDup_mid in Hnd as (H1 & H2 & _).
    assert (Hdel : rl_nodes (valid_blk_list w') = l1 ++ l2) by (rewrite Hl; by apply rl_nodes_del).
    assert (Hx'o : x' ∈ rl_nodes (valid_blk_list w)) by (rewrite Hsp; rewrite Hdel in Hx'; set_solver).
    rewrite Hsn in Hh' by done. destruct (slot_node_of _ _ _ _ _ Hi Hm) as (z & ez & _ & Hz).
    destruct (Hz x' e') as [-> _]; [done|]. by destruct (Hz x e) as [-> _].
Qed.

(** What the reader has ahead of it is still there after the step of another thread. *)
Lemma walk_stable F s w ts Fs F' s' w' ts' Fs' j t t' k u i x e m qs :
  cinv sb F s w ts Fs -> cinv sb F' s' w' ts' Fs' ->
  ts !! j = Some t -> ts !! k = Some u -> is_reader u = true ->
  commits s t t' s' -> same_nodes w w' -> list_moves ts t t' (valid_blk_list w) (valid_blk_list w') ->
  s_msgs s !! i = Some m -> s_msgs s' !! i = Some m ->
  path (valid_blk_list w) (cursor u) qs -> x ∈ qs -> slot_node w i x e ->
  (exists qs', path (valid_blk_list w') (cursor u) qs' /\ x ∈ qs') /\ slot_node w' i x e.
Proof.
  intros Hc Hc' Hj Hk Hru Hcm Hsn Hmv Hm0 Hm Hp Hx Hsl.
  assert (Hsl' : slot_node w' i x e)
    by (eapply slot_stable; [exact Hc|exact Hc'|exact Hcm|exact Hsn|exact Hmv|exact Hm0|exact Hm|exact Hsl]).
  split; [|done]. pose proof (ci_NoDup _ _ _ _ _ _ Hc) as Hnd. pose proof (ci_NoDup _ _ _ _ _ _ Hc') as Hnd'.
  destruct (list_moves_cases _ _ _ _ _ _ _ Hcm Hmv)
    as [Hl|[(source & sz & a & el & -> & Hel & Hg)|(y & Hy & Hl)]].
  - rewrite Hl. eauto.
  - destruct (path_grows el (valid_blk_list w) (valid_blk_list w') (cursor u) qs) as (qs' & ? & Hsub & _);
      try done; [|eauto]. by apply (ci_walk_avoids sb F s w ts Fs j source sz a el k u).
  - rewrite Hl in *. destruct (path_del y (valid_blk_list w) (cursor u) qs) as (qs' & Hp' & Hsub & _); try done.
    exists qs'. split; [done|]. apply Hsub; [done|]. intros ->.
    apply list_elem_of_split in Hy as (l1 & l2 & Hsp). rewrite Hsp in Hnd.
    apply NoDup_mid in Hnd as (H1 & H2 & _). destruct Hsl' as (Hx' & _).
    rewrite Hl, (rl_nodes_del y _ l1 l2) in Hx' by done. set_solver.
Qed.
(** One round of the walk. *)
Lemma run_get_visit off p e w :
  heap w !! p = Some (OElem e) ->
  get_visit off (Some p) w =
    Ret (if ndx e =? u32 off then VisitFound (s32 (el_valid_bytes e))
         else VisitNext (rl_next (valid_blk_list w) p)) w.
Proof.
  intros He. unfold get_visit. erewrite run_bind by (by apply run_load_elem).
  by destruct (ndx e =? u32 off).
Qed.

(** The reader finds its node: it passes the others by, and the nodes that other
    threads have removed are not those of its block. *)
Lemma on_track_walk F s w ts Fs k off cap1 size1 sb' p w' t' m i msg cap size :
  cinv sb F s w ts Fs -> Forall (waits_elsewhere i) ts -> s_msgs s !! i = Some msg ->
  ts !! k = Some (GetWalk off cap1 size1 sb' p) ->
  thread_step ts (GetWalk off cap1 size1 sb' p) = Some m -> m w = Ret t' w' ->
  on_track i msg cap size s w (GetWalk off cap1 size1 sb' p) -> w' = w /\ on_track i msg cap size s w t'.
Proof.
  intros Hc Hsp Hm Hk [= <-] Hrun (-> & -> & -> & qs & x & e & Hp & Hx & Hsn).
  destruct p as [p|]; [|destruct qs as [|? ?]; [set_solver|by destruct Hp]].
  pose proof (ci_quiet _ _ _ _ _ _ Hc) as [Hi _]. pose proof (dev_inv_cap _ _ _ Hi) as Hcap.
  pose proof (dev_inv_wf _ _ _ Hi) as [Hwf _]. apply Hwf in Hm as Hlt.
  pose proof (ro_cursor _ _ (ci_ok _ _ _ _ _ _ Hc) k _ p Hk eq_refl) as Hvis.
  destruct (ci_visible _ _ _ _ _ _ _ _ Hc Hvis) as (ep & Hep & Hvb & _).
  destruct qs as [|q qs]; [set_solver|]. destruct Hp as [[= <-] Hp].
  destruct (slot_node_of _ _ _ _ _ Hi Hm) as (z & ez & _ & Hz).
  unfold bind in Hrun. rewrite (run_get_visit _ p ep w Hep), u32_small in Hrun by lia.
  destruct (Z.eqb_spec (ndx ep) (Z.of_nat i)) as [Heq|Hne]; injection Hrun as <- <-; (split; [done|]).
  - split_and!; try done. destruct Hvis as [Hin|(j & u & Hj & Hw)].
    + destruct (Hz p ep) as [_ <-]; [done|]. rewrite s32_small; lia.
    + destruct (ci_waited _ _ _ _ _ _ _ _ _ _ Hc Hj Hw)
        as (_ & e' & off' & _ & _ & _ & He' & _ & Hn & bh & rs & ->).
      rewrite Forall_forall in Hsp. pose proof (Hsp _ (list_elem_of_lookup_2 _ _ _ Hj)) as Hs.
      simpl in Hs. congruence.
  - split_and!; try done. exists qs, x, e. split_and!; try done.
    apply elem_of_cons in Hx as [->|Hx]; [|done]. destruct Hsn as (_ & He & Hn). congruence.
Qed.

(** The reader's own steps. *)
Lemma on_track_self F s w ts Fs s' w' Fs' k u t' mm i msg cap size :
  cinv sb F s w ts Fs -> cinv sb F s' w' (<[k := t']> ts) Fs' ->
  Forall (spares i) ts -> s_msgs s !! i = Some msg -> s_msgs s' !! i = Some msg ->
  ts !! k = Some u -> thread_step ts u = Some mm -> mm w = Ret t' w' -> commits s u t' s' ->
  list_moves ts u t' (valid_blk_list w) (valid_blk_list w') -> on_track i msg cap size s w u ->
  on_track i msg cap size s' w' t'.
Proof.
  intros Hc Hc' Hsp Hm Hm' Hk Hmm Hrun Hcm Hmv Hu.
  pose proof (ci_quiet _ _ _ _ _ _ Hc) as [Hi _].
  pose proof (dev_inv_wf _ _ _ Hi) as [Hwf _]. apply Hwf in Hm as Hlt.
  destruct u as [| | |off cap1 size1|off cap1 size1 sb' p|off cap1 size1 sb' n| | | | | | | | |]; try done.
  - destruct Hu as (-> & -> & ->).
    destruct (commits_get_call _ _ _ _ _ _ Hcm) as [-> [(sb1 & p & -> & _)|[_ Hno]]]; [|lia].
    destruct Hmv as [Hl [[_ ->]|(? & ? & _)]]; [|done]. split_and!; try done.
    destruct (ci_quiet _ _ _ _ _ _ Hc') as [Hi' _].
    destruct (slot_node_of _ _ _ _ _ Hi' Hm') as (x & e & Hx & _).
    exists (rl_nodes (valid_blk_list w')), x, e. split_and!; [|by destruct Hx|done].
    rewrite <- Hl. apply (path_list _ []); [by eapply ci_NoDup|done].
  - destruct (on_track_walk _ _ _ _ _ _ _ _ _ _ _ _ _ _ _ _ _ _ Hc (spares_waits _ _ Hsp) Hm Hk Hmm Hrun Hu) as [-> Ht'].
    by inversion Hcm; subst.
  - destruct Hu as (-> & -> & -> & ->).
    destruct (commits_get_read _ _ _ _ _ _ _ _ Hcm) as [-> (d & -> & Hlen & Hd)].
    rewrite Nat2Z.id in Hd. specialize (Hd msg Hm ltac:(lia)). simpl.
    rewrite s_get_in, Hm by done. rewrite Nat2Z.id, firstn_all in Hd. by rewrite <- Hd.
Qed.

(** The read stays on track whoever moves. *)
Lemma on_track_step F s w ts Fs w' ts' k u i msg cap size :
  cinv sb F s w ts Fs -> cstep (w, ts) (w', ts') ->
  Forall (spares i) ts -> s_msgs s !! i = Some msg ->
  ts !! k = Some u -> on_track i msg cap size s w u ->
  exists s' Fs' u', cinv sb F s' w' ts' Fs' /\ s_cap s' = s_cap s /\ Forall (spares i) ts' /\
    s_msgs s' !! i = Some msg /\ ts' !! k = Some u' /\ on_track i msg cap size s' w' u'.
Proof.
  intros Hc Hst Hsp Hm Hk Hu.
  destruct (ci_cstep sb sb_bread_works _ _ _ _ _ _ _ Hc Hst)
    as (j & t & t' & mm & s' & Fs' & Hj & -> & Hmm & Hrun & Hcm & Hcap & Hsn & Hmv & Hc').
  pose proof (proj1 (Forall_lookup _ _) Hsp _ _ Hj) as Hspt.
  destruct (spares_commit _ _ _ _ _ _ Hspt Hcm Hm) as [Hspt' Hm'].
  assert (Hsp' : Forall (spares i) (<[j := t']> ts)).
  { by apply Forall_insert. }
  exists s', Fs'. destruct (decide (j = k)) as [->|Hjk].
  - exists t'. split_and!; try done; [by eapply insert_self|]. rewrite Hk in Hj. injection Hj as ->.
    exact (on_track_self _ _ _ _ _ _ _ _ _ _ _ _ _ _ _ _ Hc Hc' Hsp Hm Hm' Hk Hmm Hrun Hcm Hmv Hu).
  - exists u. split_and!; try done; [by rewrite list_lookup_insert_ne|].
    destruct u; try done; simpl in *.
    + destruct Hu as (-> & -> & -> & qs & x & e & Hp & Hx & Hsl).
      destruct (walk_stable _ _ _ _ _ _ _ _ _ _ _ _ _ _ _ _ _ _ _ _ Hc Hc' Hj Hk eq_refl Hcm Hsn Hmv Hm Hm'
        Hp Hx Hsl) as ((qs' & Hp' & Hx') & Hsl'). split_and!; try done. by exists qs', x, e.
    + by rewrite (s_get_same s s' i _ msg).
Qed.

Lemma on_track_rtc F s c c' Fs k u i msg cap size :
  cinv sb F s c.1 c.2 Fs -> rtc cstep c c' -> Forall (spares i) c.2 -> s_msgs s !! i = Some msg ->
  c.2 !! k = Some u -> on_track i msg cap size s c.1 u ->
  exists s' u', s_cap s' = s_cap s /\ s_msgs s' !! i = Some msg /\ c'.2 !! k = Some u' /\
    on_track i msg cap size s' c'.1 u'.
Proof.
  intros Hc H. revert s Fs u Hc.
  induction H as [c|[w ts] [w1 ts1] c Hst _ IH]; intros s Fs u Hc Hsp Hm Hk Hu; [by exists s, u|].
  destruct (on_track_step _ _ _ _ _ _ _ _ _ _ _ _ _ Hc Hst Hsp Hm Hk Hu)
    as (s1 & Fs1 & u1 & Hc1 & Hcap1 & Hsp1 & Hm1 & Hk1 & Hu1).
  destruct (IH s1 Fs1 u1 Hc1 Hsp1 Hm1 Hk1 Hu1) as (s' & u' & ? & ? & ? & ?).
  exists s', u'. split_and!; (done || congruence).
Qed.

(** Before the calls nobody has invalidated the block. *)
Lemma starting_spares F Fs s w ts i :
  calls_start sb F Fs s w ts -> Forall (fun t => t <> InvCall (Z.of_nat i)) ts -> Forall (spares i) ts.
Proof.
  intros Hst Hno. rewrite Forall_lookup in *. intros j t Hj. specialize (Hno j t Hj).
  destruct (Forall2_lookup_l _ _ _ _ _ (cs_calls _ _ _ _ _ _ Hst) Hj) as (Ft & _ & Ht & _).
  destruct t; simpl in *; try done. congruence.
Qed.

(** C6: a get_data() that runs in parallel with any number of other calls, none of
    which invalidates its block, returns exactly what it would return alone: the
    message of the block, whole and unchanged, whatever the insertions and
    removals of nodes around the reader, and however they interleave with its
    walk of the list. *)
Theorem parallel_get_isolated F Fs s w ts w' ts' k i m cap size r d :
  calls_start sb F Fs s w ts -> s_msgs s !! i = Some m -> Forall (fun t => t <> InvCall (Z.of_nat i)) ts ->
  ts !! k = Some (GetCall (Z.of_nat i) cap size) ->
  rtc cstep (w, ts) (w', ts') -> ts' !! k = Some (Done r d) ->
  (r, d) = s_get (Z.of_nat i) (Nat.min cap (Z.to_nat size)) s.
Proof.
  intros Hst Hm Hno Hk Hrun Hd.
  pose proof (starting_spares _ _ _ _ _ i Hst Hno) as Hsp.
  destruct (on_track_rtc F s (w, ts) (w', ts') Fs k _ i m cap size
    (ci_start sb _ _ _ _ _ Hst) Hrun Hsp Hm Hk) as (s' & u' & Hcap & Hm' & Hk' & Hu').
  { done. }
  simpl in Hk'. rewrite Hd in Hk'. injection Hk' as <-. simpl in Hu'. rewrite Hu'.
  by apply (s_get_same s s' i _ m).
Qed.
(** ** A torn read *)

(** One thread runs its next step. *)
Lemma ci_run F s w ts Fs i t m :
  cinv sb F s w ts Fs -> ts !! i = Some t -> thread_step ts t = Some m ->
  exists t' w' s' Fs', cstep (w, ts) (w', <[i := t']> ts) /\ m w = Ret t' w' /\ commits s t t' s' /\
    list_moves ts t t' (valid_blk_list w) (valid_blk_list w') /\
    cinv sb F s' w' (<[i := t']> ts) Fs'.
Proof.
  intros Hc Hi Hm. pose proof (ci_preserved sb sb_bread_works _ _ _ _ _ _ _ _ Hc Hi Hm) as Hwp.
  apply wp_elim in Hwp as (t' & w' & Hrun & s' & Fs' & Hcm & _ & _ & Hmv & Hc').
  exists t', w', s', Fs'. split_and!; try done. by econstructor.
Qed.

(** A reader that runs alone finds the element of its block. *)
Lemma walk_finds F s w ts Fs k i m cap size sb' p qs x e :
  cinv sb F s w ts Fs -> Forall (waits_elsewhere i) ts -> s_msgs s !! i = Some m ->
  ts !! k = Some (GetWalk (Z.of_nat i) cap size sb' p) ->
  path (valid_blk_list w) p qs -> x ∈ qs -> slot_node w i x e ->
  exists w' Fs', let ts' := <[k := GetRead (Z.of_nat i) cap size sb' (Z.of_nat (length (m_data m)))]> ts in
    rtc cstep (w, ts) (w', ts') /\ cinv sb F s w' ts' Fs'.
Proof.
  revert w ts Fs p x e. induction qs as [|q qs IH]; intros w ts Fs p x e Hc Hsp Hm Hk Hp Hx Hn; [set_solver|].
  destruct (ci_run F s w ts Fs k _ _ Hc Hk eq_refl) as (t' & w' & s' & Fs' & Hst & Hrun & Hcm & Hmv & Hc').
  destruct (on_track_walk _ _ _ _ _ _ _ _ _ _ _ _ _ _ _ m cap size Hc Hsp Hm Hk eq_refl Hrun)
    as [-> Ht']; [split_and!; try done; by exists (q :: qs), x, e|].
  destruct Hp as [-> Hp]. inversion Hcm; subst.
  - destruct Hmv as [_ [[? _]|(? & [= <-] & ->)]]; [done|].
    destruct Ht' as (_ & _ & _ & qs' & x' & e' & Hp' & Hx' & Hn').
    assert (qs' = qs) as -> by (by eapply path_unique).
    destruct (IH w _ Fs' (rl_next (valid_blk_list w) q) x' e' Hc') as (w2 & Fs2 & Hrun2 & Hc2); try done.
    { by apply Forall_insert. }
    { by eapply insert_self. }
    rewrite list_insert_insert_eq in Hrun2, Hc2. exists w2, Fs2. split; [by eapply rtc_l|done].
  - destruct Ht' as (_ & _ & _ & ->). exists w, Fs'. split; [|done]. by eapply rtc_once.
Qed.

(** A read that starts and runs alone up to the block. *)
Lemma read_finds F s w ts Fs k i m cap size :
  cinv sb F s w ts Fs -> Forall (waits_elsewhere i) ts -> s_msgs s !! i = Some m ->
  ts !! k = Some (GetCall (Z.of_nat i) cap size) ->
  exists w' sb' Fs', let ts' := <[k := GetRead (Z.of_nat i) cap size sb' (Z.of_nat (length (m_data m)))]> ts in
    rtc cstep (w, ts) (w', ts') /\ cinv sb F s w' ts' Fs'.
Proof.
  intros Hc Hsp Hm Hk. destruct (ci_run F s w ts Fs k _ _ Hc Hk eq_refl)
    as (t & w1 & s1 & Fs1 & Hst & _ & Hcm & Hmv & Hc1).
  destruct (ci_quiet _ _ _ _ _ _ Hc) as [Hi _]. destruct (dev_inv_wf _ _ _ Hi) as [Hwf _].
  apply Hwf in Hm as Hlt.
  destruct (commits_get_call _ _ _ _ _ _ Hcm) as [-> [(sb1 & p & -> & _)|[_ Hno]]]; [|lia].
  destruct Hmv as [Hl [[_ ->]|(? & ? & _)]]; [|done]. destruct (ci_quiet _ _ _ _ _ _ Hc1) as [Hi1 _].
  destruct (slot_node_of _ _ _ _ _ Hi1 Hm) as (x & e & Hx & _).
  destruct (walk_finds F s w1 _ Fs1 k i m cap size sb1 (head (rl_nodes (valid_blk_list w)))
    (rl_nodes (valid_blk_list w1)) x e Hc1) as (w2 & Fs2 & Hrun & Hc2); try done.
  - by apply Forall_insert.
  - by eapply insert_self.
  - rewrite <- Hl. apply (path_list _ []); [by eapply ci_NoDup|done].
  - by destruct Hx.
  - rewrite list_insert_insert_eq in Hrun, Hc2. exists w2, sb1, Fs2. split; [by eapply rtc_l|done].
Qed.

(** The same, to its end. *)
Lemma read_returns F s w ts Fs k i m cap size :
  cinv sb F s w ts Fs -> Forall (waits_elsewhere i) ts -> s_msgs s !! i = Some m ->
  ts !! k = Some (GetCall (Z.of_nat i) cap size) ->
  exists w' ts' r d, rtc cstep (w, ts) (w', ts') /\ ts' !! k = Some (Done r d).
Proof.
  intros Hc Hsp Hm Hk.
  destruct (read_finds F s w ts Fs k i m cap size Hc Hsp Hm Hk) as (w1 & sb1 & Fs1 & Hrun & Hc1).
  destruct (ci_run _ _ _ _ _ k _ _ Hc1 (insert_self _ _ _ _ Hk) eq_refl)
    as (t & w2 & s2 & Fs2 & Hst & _ & Hcm & _ & Hc2).
  destruct (commits_get_read _ _ _ _ _ _ _ _ Hcm) as [-> (d & -> & _)]. do 4 eexists. split; [eapply rtc_r; [exact Hrun|exact Hst]|].
  by eapply insert_self, insert_self.
Qed.

(** C30: when block [i] is invalidated and then written again while a get_data() of it is
    between the list and the block, the reader copies the bytes of the second
    message under the length of the first one: it returns a part of the second
    message as if it were the whole one.  The grace period does not prevent it,
    because invalidate_data() marks the block free before it starts. *)
Theorem get_data_torn_read F s w i m source size cap gsize :
  (forall n, kzalloc_ok n = true) ->
  dev_inv F w s -> unlocked w -> the_dev_superblock w = Some sb ->
  s_msgs s !! i = Some m -> next_free (s_invalidate (Z.of_nat i) s).2 = Some i ->
  Z.of_nat (length (m_data m)) <= size <= DEFAULT_BLOCK_SIZE - METADATA_SIZE ->
  size <= Z.of_nat (length source) -> 0 <= gsize < 2 ^ 64 ->
  let d := take (Nat.min cap (Z.to_nat gsize)) (take (length (m_data m)) source) in
  exists w' ts',
    rtc cstep (w, [GetCall (Z.of_nat i) cap gsize; InvCall (Z.of_nat i); PutCall source size]) (w', ts') /\
    ts' !! 0%nat = Some (Done (Z.of_nat (length d)) d).
Proof.
  intros Hkz Hi Hu Hsb Hm Hnf Hs Hsrc Hg d.
  set (ts0 := [GetCall _ _ _; _; _]).
  pose proof (dev_inv_cap _ _ _ Hi) as Hcap. pose proof (dev_inv_wf _ _ _ Hi) as [Hwf _].
  apply Hwf in Hm as Hlt.
  assert (Hok : Forall call_ok ts0) by (unfold DEFAULT_BLOCK_SIZE, METADATA_SIZE in *; repeat constructor; lia).
  pose proof (ci_start sb _ _ _ _ _ (calls_start_syscalls sb F s w ts0 Hi Hu Hsb Hok)) as Hc0. unfold ts0 in *.
  destruct (read_finds F s w _ _ 0 i m cap gsize Hc0) as (w1 & sb1 & Fs1 & Hrun1 & Hc1); try done.
  { by repeat constructor. }
  destruct (ci_run _ _ _ _ _ 1 _ _ Hc1 eq_refl eq_refl) as (t2 & w2 & s2 & Fs2 & Hrun2 & _ & Hcm2 & _ & Hc2).
  rewrite s_invalidate_in, Hm in Hnf by done. simpl in Hnf.
  destruct (commits_inv_call _ _ _ _ Hcm2) as [(el & bh & rs & -> & Hinv2)|(r2 & _ & _ & Hinv2 & Hr2)];
    rewrite s_invalidate_in, Hm in Hinv2 by done; injection Hinv2 as ?; [subst s2|congruence]. simpl in *.
  destruct (ci_run _ _ _ _ _ 2 _ _ Hc2 eq_refl eq_refl) as (t3 & w3 & s3 & Fs3 & Hrun3 & _ & Hcm3 & _ & Hc3).
  destruct (commits_put_call _ _ _ _ _ Hcm3) as [-> [(a & -> & Hfit)|(r3 & _ & [[_ [n Hn]]|[_ Hbig]])]];
    [|by rewrite Hkz in Hn|lia]. simpl in *.
  destruct (ci_run _ _ _ _ _ 2 _ _ Hc3 eq_refl eq_refl) as (t4 & w4 & s4 & Fs4 & Hrun4 & _ & Hcm4 & _ & Hc4).
  destruct (commits_put_ready _ _ _ _ _ _ Hcm4) as [(now & b & bh4 & old & _ & Hput & _ & ->)|[Hfull _]];
    [|congruence].
  unfold s_put in Hput. rewrite Hnf in Hput. injection Hput as <- <-. simpl in *.
  destruct (ci_run _ _ _ _ _ 0 _ _ Hc4 eq_refl eq_refl) as (t5 & w5 & s5 & Fs5 & Hrun5 & _ & Hcm5 & _ & Hc5).
  destruct (commits_get_read _ _ _ _ _ _ _ _ Hcm5) as [-> (d5 & -> & Hlen & Hd5)]. simpl in *.
  exists w5. eexists. split.
  - etrans; [exact Hrun1|]. do 3 (eapply rtc_l; [eassumption|]).
    eapply rtc_once. exact Hrun5.
  - simpl. rewrite Nat2Z.id in Hd5. specialize (Hd5 _ (lookup_insert_eq _ _ _)). simpl in Hd5.
    rewrite Hd5; [|rewrite length_take; lia]. rewrite Nat2Z.id, (take_take source), (Nat.min_l (length (m_data m))) by lia. done.
Qed.
End Isolation.

(** ** Witnesses *)

#[local] Existing Instance sample_config.
#[local] Existing Instance good_kernel.

Lemma parallel_get_isolated_witness :
  exists w' ts' r d, rtc cstep (good_world, [GetCall 1 2 2; InvCall 0]) (w', ts') /\
    ts' !! 0%nat = Some (Done r d) /\ (r, d) = s_get 1 2 sample_store.
Proof.
  assert (Hst : calls_start (SB MAGIC true) ∅ [∅; ∅] sample_store good_world [GetCall 1 2 2; InvCall 0])
    by (apply (calls_start_syscalls (SB MAGIC true) ∅ sample_store good_world [GetCall 1 2 2; InvCall 0]);
        [exact good_world_inv|done|done|by repeat constructor]).
  destruct (read_returns always_reads _ _ _ _ _ _ 0 1 (Msg 100 sample_data) 2 2 (ci_start _ _ _ _ _ _ Hst))
    as (w' & ts' & r & d & Hrun & Hd); [by repeat constructor|done|done|].
  exists w', ts', r, d. split_and!; [done..|].
  apply (parallel_get_isolated always_reads (SB MAGIC true) ∅ [∅; ∅] sample_store good_world
    [GetCall 1 2 2; InvCall 0] w' ts' 0 1 (Msg 100 sample_data) 2 2 r d); try done.
  by repeat constructor.
Defined.

Lemma get_data_torn_read_witness :
  exists w' ts', rtc cstep (good_world, [GetCall 1 2 2; InvCall 1; PutCall later_data 2]) (w', ts') /\
    ts' !! 0%nat = Some (Done 2 later_data).
Proof.
  apply (get_data_torn_read always_reads (SB MAGIC true) ∅ sample_store good_world 1
    (Msg 100 sample_data) later_data 2 2 2); try done.
  exact good_world_inv.
Defined.
