(* ===== verification/ReadIsolation.v ===== *)
(** * System calls in parallel: what read() delivers

    A read() of a session that expects a message, in parallel with any other calls
    none of which invalidates the message, delivers it whole, and then stands at the
    next message: it skips none of the later ones that stay on the device. *)
From S2P Require Import Prelude Layout Kernel KernelFacts Rcu Store Device Syscalls DeviceOps.
From S2P Require Import DeviceWp FileOps Threads Grace Walk Interleave ReadSteps Parallel Progress Isolation Sample.

Section ReadIsolation.
Context {K : Kernel} {KL : KernelLaws K} {C : Config}.
Implicit Types (F : gmap loc obj) (Fs : list (gmap loc obj)) (ts : list thread).
Implicit Types (s : mstore) (w : world) (l : rlist) (f : file) (L : gmap nat message).

(** ** The order of the nodes *)

(** The node of a message is the element of its metadata, at its place in the order. *)
Lemma slot_node_elem F s w i m x e :
  dev_inv F w s -> s_msgs s !! i = Some m -> slot_node w i x e ->
  el_nsec e = m_time m /\ el_valid_bytes e = Z.of_nat (length (m_data m)).
Proof.
  intros (a & vm & mps & bs & es & Hi) Hm (Hin & Hh & Hn). pose proof Hi as [Hmem _ _ _].
  destruct (dm_list _ _ _ _ _ _ _ Hmem) as [_ Hel].
  destruct (elems_at_elem_of _ _ _ _ Hel Hin) as (e' & He & Hh'). rewrite Hh in Hh'. injection Hh' as <-.
  destruct (dev_elem _ _ _ _ _ _ _ _ _ Hi He) as (j & b & blk & -> & _ & _ & _ & Hlen & Hvb & Hmj).
  simpl in Hn. apply Nat2Z.inj in Hn as ->. rewrite Hm in Hmj. injection Hmj as ->. simpl.
  split; [done|]. unfold payload. rewrite length_take, length_drop. lia.
Qed.

(** A node the walk for block [i], with the timestamp [t], passes by. *)
Definition passed_by w (i : nat) (t : Z) (y : loc) : Prop :=
  exists e, heap w !! y = Some (OElem e) /\ ndx e <> Z.of_nat i /\ el_nsec e <= t.

Lemma node_order F s w ps1 ps2 :
  dev_inv F w s -> rl_nodes (valid_blk_list w) = ps1 ++ ps2 ->
  forall x y ex ey, x ∈ ps1 -> y ∈ ps2 -> heap w !! x = Some (OElem ex) -> heap w !! y = Some (OElem ey) ->
    el_nsec ex <= el_nsec ey /\ ndx ex <> ndx ey.
Proof.
  intros (a & vm & mps & bs & es & Hi) Hl x y ex ey Hx Hy Hhx Hhy. pose proof Hi as [Hmem Hlog _ _].
  destruct (dm_list _ _ _ _ _ _ _ Hmem) as [_ Hel]. unfold elems_at in Hel. rewrite Hl in Hel.
  apply Forall2_app_inv_l in Hel as (es1 & es2 & H1 & H2 & ->).
  destruct (elems_at_elem_of _ _ _ _ H1 Hx) as (ex' & Hex & Hhx').
  destruct (elems_at_elem_of _ _ _ _ H2 Hy) as (ey' & Hey & Hhy').
  assert (ex' = ex) as -> by congruence. assert (ey' = ey) as -> by congruence. split.
  - by apply (StronglySorted_app_1_elem_of _ _ _ ex ey (dl_sorted _ _ _ Hlog)).
  - assert (Hnd : NoDup (ndx <$> es1 ++ es2)) by (rewrite (dl_elems _ _ _ Hlog); apply valid_from_NoDup).
    rewrite fmap_app in Hnd. apply NoDup_app in Hnd as (_ & Hnd & _). intros Heq.
    apply (Hnd (ndx ex)); [by apply list_elem_of_fmap_2|]. rewrite Heq. by apply list_elem_of_fmap_2.
Qed.

(** The way to a part of it. *)
Lemma reach_mid l c qs1 y qs2 x :
  reach l c (qs1 ++ y :: qs2) x -> reach l (Some y) (y :: qs2) x.
Proof.
  revert c. induction qs1 as [|q qs1 IH]; intros c; simpl; [by intros [-> ?]|]. intros [_ H]. by eapply IH.
Qed.

(** The walk to the node of message [m] passes the other nodes by. *)
Lemma way_passed_by F s w i m x e c qs :
  dev_inv F w s -> NoDup (rl_nodes (valid_blk_list w)) -> s_msgs s !! i = Some m -> slot_node w i x e ->
  reach (valid_blk_list w) c qs x ->
  (forall y, y ∈ qs -> y ∈ rl_nodes (valid_blk_list w) \/ passed_by w i (m_time m) y) ->
  Forall (passed_by w i (m_time m)) qs.
Proof.
  intros Hi Hnd Hm Hsl Hr Hall. apply Forall_forall. intros y Hy.
  destruct (Hall y Hy) as [Hin|]; [|done]. apply list_elem_of_split in Hy as (qs1 & qs2 & ->).
  apply reach_mid in Hr. destruct (slot_node_elem _ _ _ _ _ _ _ Hi Hm Hsl) as [Ht _].
  destruct Hsl as (Hx & Hh & Hn).
  destruct (reach_node _ y (y :: qs2) x Hnd Hin Hx Hr) as (l1 & l2 & Hl).
  pose proof Hi as (a & vm & mps & bs & es & [Hmem _ _ _]).
  destruct (dm_list _ _ _ _ _ _ _ Hmem) as [_ Hel].
  destruct (elems_at_elem_of _ _ _ _ Hel Hin) as (ey & _ & Hhy).
  destruct (node_order _ _ _ (l1 ++ y :: qs2) (x :: l2) Hi ltac:(by rewrite Hl, (assoc_L (++))) y x ey e)
    as [Hle Hne]; [set_solver|set_solver|done|done|].
  exists ey. split_and!; [done|congruence|lia].
Qed.

Hypothesis sb_bread_works : forall n, bread_ok n = true.
Variable sb : super_block.

(** ** The session *)

(** The session of [f] expects the timestamp [t]. *)
Definition expects w f (t : Z) : Prop :=
  exists p, private_data f = Some p /\ heap w !! p = Some (OTime t).

(** The open file of a thread. *)
Definition file_of (u : thread) : option file :=
  match u with
  | FileCall _ f | ReadNext _ _ f _ | ReadSession _ _ f _ | FileDone _ _ f => Some f
  | ReadWalk a _ | ReadCopy a _ => Some (ra_file a)
  | _ => None
  end.

Lemma owns_session n u f Ft : file_of u = Some f -> owns sb n u Ft -> session f Ft.
Proof. destruct u; intros [= <-]; simpl; tauto. Qed.

Lemma ci_expects F s w ts Fs k u f :
  cinv sb F s w ts Fs -> ts !! k = Some u -> file_of u = Some f -> private_data f <> None ->
  exists p t, private_data f = Some p /\ Fs !! k = Some {[ p := OTime t ]} /\ heap w !! p = Some (OTime t).
Proof.
  intros Hc Hk Hf Hp. destruct (ci_frame _ _ _ _ _ _ _ _ Hc Hk) as (Ft & HFt & Ho & Hsub).
  apply (owns_session _ _ f) in Ho; [|done]. unfold session in Ho.
  destruct (private_data f) as [p|]; [|done]. destruct Ho as [t ->]. exists p, t. split_and!; [done..|].
  destruct (ci_quiet _ _ _ _ _ _ Hc) as [Hi _]. eapply dev_inv_lookup; [exact Hi|].
  apply Hsub, lookup_singleton_eq.
Qed.

(** The other threads do not touch it. *)
Lemma expects_stable F s w ts Fs s' w' ts' Fs' k u f t :
  cinv sb F s w ts Fs -> cinv sb F s' w' ts' Fs' -> Fs' !! k = Fs !! k ->
  ts !! k = Some u -> ts' !! k = Some u -> file_of u = Some f -> expects w f t -> expects w' f t.
Proof.
  intros Hc Hc' HF Hk Hk' Hf (p & Hp & Hh).
  destruct (ci_expects _ _ _ _ _ _ _ _ Hc Hk Hf) as (p1 & t1 & Hp1 & HF1 & Hh1); [congruence|].
  destruct (ci_expects _ _ _ _ _ _ _ _ Hc' Hk' Hf) as (p2 & t2 & Hp2 & HF2 & Hh2); [congruence|].
  exists p. split; [done|]. assert (p1 = p) as -> by congruence. assert (p2 = p) as -> by congruence.
  assert (Heq : ({[p := OTime t1]} : gmap loc obj) !! p = ({[p := OTime t2]} : gmap loc obj) !! p).
  { f_equal. apply (inj Some). congruence. }
  rewrite !lookup_singleton_eq in Heq. congruence.
Qed.

(** ** The read *)

(** The messages of [L] stay on the device. *)
Definition stays L ts s : Prop :=
  forall j m, L !! j = Some m -> s_msgs s !! j = Some m /\ Forall (spares j) ts.

Lemma stays_commit L ts s j t t' s' :
  stays L ts s -> ts !! j = Some t -> commits s t t' s' -> stays L (<[j := t']> ts) s'.
Proof.
  intros Hs Hj Hc i m Hm. destruct (Hs i m Hm) as [Hm1 Hsp].
  destruct (spares_commit i t t' s s' m (proj1 (Forall_lookup _ _) Hsp _ _ Hj) Hc Hm1) as [Hsp' ?].
  split; [done|]. by apply Forall_insert.
Qed.

(** The session of [f], which has delivered [m], skips none of the messages of [L]. *)
Definition stands_next L m w f : Prop :=
  forall j m2, L !! j = Some m2 -> m_time m < m_time m2 ->
    f_pos f < i_size f /\ exists t, expects w f t /\ m_time m <= t <= m_time m2.

(** Progress of a read() of the message [m] of block [i]. *)
Definition read_track L (i : nat) (m : message) w (u : thread) : Prop :=
  match u with
  | FileCall (ReadCall _ _) f =>
      expects w f (m_time m) /\ f_pos f / 4096 = Z.of_nat i /\ f_pos f + 8192 < i_size f
  | ReadWalk a p => expects w (ra_file a) (m_time m) /\ ra_blk a = Z.of_nat i /\
      exists qs x e, reach (valid_blk_list w) p qs x /\ Forall (passed_by w i (m_time m)) qs /\
        slot_node w i x e
  | ReadCopy a p => expects w (ra_file a) (m_time m) /\ ra_blk a = Z.of_nat i + 2 /\ ra_len a = 4086 /\
      exists e, slot_node w i p e
  | ReadNext r d f p => expects w f (m_time m) /\ f_pos f < i_size f /\
      r = Some (Z.of_nat (length (m_data m))) /\ d = m_data m /\ exists e, slot_node w i p e
  | ReadSession r d f q => expects w f (m_time m) /\ f_pos f < i_size f /\
      r = Some (Z.of_nat (length (m_data m))) /\ d = m_data m /\
      forall j m2, L !! j = Some m2 -> m_time m < m_time m2 -> exists x e,
        q = Some x /\ heap w !! x = Some (OElem e) /\ m_time m <= el_nsec e <= m_time m2
  | FileDone r d f => d = m_data m /\ stands_next L m w f /\
      (r = Z.of_nat (length (m_data m)) \/ r = - ENOMEM /\ exists n, kzalloc_ok n = false)
  | _ => False
  end.

Lemma wp_ret_elim {A} (m : M A) Q w a w' : wp m Q w -> m w = Ret a w' -> Q a w'.
Proof. unfold wp. by intros H Hr; rewrite Hr in H. Qed.

(** ** The steps of the others *)

(** The walk, after the step of another thread. *)
Lemma way_stable F s w ts Fs s' w' Fs' j t t' k u i m qs x e :
  cinv sb F s w ts Fs -> cinv sb F s' w' (<[j := t']> ts) Fs' ->
  ts !! j = Some t -> ts !! k = Some u -> is_reader u = true ->
  commits s t t' s' -> list_moves ts t t' (valid_blk_list w) (valid_blk_list w') ->
  (forall p, visible (valid_blk_list w) ts k p -> heap w' !! p = heap w !! p) ->
  s_msgs s' !! i = Some m -> slot_node w i x e -> slot_node w' i x e ->
  reach (valid_blk_list w) (cursor u) qs x -> Forall (passed_by w i (m_time m)) qs ->
  exists qs', reach (valid_blk_list w') (cursor u) qs' x /\ Forall (passed_by w' i (m_time m)) qs'.
Proof.
  intros Hc Hc' Hj Hk Hru Hcm Hmv Hun Hm' (Hin & Hh & Hn) Hsl' Hr Hps.
  pose proof (ci_NoDup _ _ _ _ _ _ Hc) as Hnd. pose proof (ci_NoDup _ _ _ _ _ _ Hc') as Hnd'.
  destruct (ci_quiet _ _ _ _ _ _ Hc') as [Hi' _].
  assert (Hvis : Forall (visible (valid_blk_list w) ts k) qs).
  { apply list_elem_of_split in Hin as (l1 & l2 & Hl).
    cut (Forall (visible (valid_blk_list w) ts k) (qs ++ x :: l2)); [by intros [? _]%Forall_app|].
    eapply (path_visible _ ts k u (cursor u)); [done|apply Hc|done|done| |].
    - intros p Hp. by apply (ro_cursor _ _ (ci_ok _ _ _ _ _ _ Hc) k u p).
    - apply reach_path. split; [done|]. by pose proof (path_list _ l1 (x :: l2) Hnd Hl) as [_ ?]. }
  assert (Hold : forall y, y ∈ qs -> passed_by w' i (m_time m) y).
  { intros y Hy. rewrite Forall_forall in Hps, Hvis. destruct (Hps y Hy) as (ey & He & ?).
    exists ey. by rewrite Hun by auto. }
  assert (Hnew : forall qs', reach (valid_blk_list w') (cursor u) qs' x ->
    (forall y, y ∈ qs' -> y ∈ qs \/ y ∈ rl_nodes (valid_blk_list w')) ->
    exists qs', reach (valid_blk_list w') (cursor u) qs' x /\ Forall (passed_by w' i (m_time m)) qs').
  { intros qs' Hr' Hsub. exists qs'. split; [done|]. eapply way_passed_by; [exact Hi'|done..|].
    intros y Hy. destruct (Hsub y Hy) as [?|?]; [right; auto|by left]. }
  destruct (list_moves_cases _ _ _ _ _ _ _ Hcm Hmv)
    as [Hl|[(source & sz & a & el & -> & Hel & Hg)|(z & Hz & Hl)]].
  - apply (Hnew qs); [by rewrite Hl|auto].
  - destruct (reach_grows el (valid_blk_list w) (valid_blk_list w') (cursor u) qs x) as (qs' & Hr' & Hsub); try done.
    { intros Hel'. rewrite Forall_forall in Hvis.
      by apply (ci_new_node _ _ _ _ _ _ _ _ _ _ _ Hc Hj Hel k (Hvis el Hel')). }
    by apply (Hnew qs').
  - destruct Hsl' as (Hx' & _). rewrite Hl in *.
    destruct (reach_del z (valid_blk_list w) (cursor u) qs x) as (qs' & Hr' & Hsub); try done.
    + intros ->. apply list_elem_of_split in Hz as (l1 & l2 & Hsp). rewrite Hsp in Hnd.
      apply NoDup_mid in Hnd as (H1 & H2 & _). rewrite (rl_nodes_del z _ l1 l2) in Hx' by done. set_solver.
    + by apply (Hnew qs').
Qed.

(** What the read has seen is where it was. *)
Lemma read_track_other F s w ts Fs s' w' Fs' j t t' k u L i m :
  cinv sb F s w ts Fs -> cinv sb F s' w' (<[j := t']> ts) Fs' ->
  ts !! j = Some t -> ts !! k = Some u -> j <> k ->
  commits s t t' s' -> same_nodes w w' -> list_moves ts t t' (valid_blk_list w) (valid_blk_list w') ->
  undisturbed ts j w w' Fs Fs' -> s_msgs s !! i = Some m -> s_msgs s' !! i = Some m ->
  read_track L i m w u -> read_track L i m w' u.
Proof.
  intros Hc Hc' Hj Hk Hjk Hcm Hsn Hmv [HF Hun] Hm Hm' Hu.
  assert (Hk' : <[j := t']> ts !! k = Some u) by (by rewrite list_lookup_insert_ne).
  assert (Hex : forall f t0, file_of u = Some f -> expects w f t0 -> expects w' f t0).
  { intros f t0 Hf. by apply (expects_stable _ _ _ _ _ _ _ _ _ _ _ _ _ Hc Hc' (HF k Hjk) Hk Hk'). }
  assert (Hsl : forall x e, slot_node w i x e -> slot_node w' i x e).
  { intros x e. eapply slot_stable; [exact sb_bread_works|exact Hc|exact Hc'|exact Hcm|exact Hsn|exact Hmv|exact Hm|exact Hm']. }
  assert (Hcur : forall p, cursor u = Some p -> heap w' !! p = heap w !! p).
  { intros p Hp. apply (Hun k u p Hjk Hk); [by eapply cursor_reader|].
    by apply (ro_cursor _ _ (ci_ok _ _ _ _ _ _ Hc) k u p). }
  destruct u; simpl in Hu; try done.
  - destruct op; try done. simpl. intuition eauto.
  - destruct Hu as (He & Hb & qs & x & e & Hr & Hps & Hn). split; [by apply Hex|]. split; [done|].
    destruct (way_stable _ _ _ _ _ _ _ _ _ _ _ _ _ _ _ _ _ _ Hc Hc' Hj Hk eq_refl Hcm Hmv
      (fun p => Hun k _ p Hjk Hk eq_refl) Hm' Hn (Hsl _ _ Hn) Hr Hps) as (qs' & Hr' & Hps').
    exists qs', x, e. auto.
  - destruct Hu as (He & Hb & Hl & e & Hn). split_and!; [by apply Hex|done|done|eauto].
  - destruct Hu as (He & Hp & -> & -> & e & Hn). split_and!; [by apply Hex|done|done|done|eauto].
  - destruct Hu as (He & Hp & -> & -> & Hq). split_and!; [by apply Hex|done|done|done|].
    intros j2 m2 Hj2 Hlt. destruct (Hq j2 m2 Hj2 Hlt) as (x & e & -> & Hx & ?).
    exists x, e. by rewrite Hcur.
  - destruct Hu as (-> & Hst & Hr). split_and!; [done| |done].
    intros j2 m2 Hj2 Hlt. destruct (Hst j2 m2 Hj2 Hlt) as (? & t0 & ? & ?). split; [done|].
    exists t0. split; [by apply Hex|done].
Qed.

(** ** The steps of the read *)

Lemma wp_enter_same cap len f w :
  wp (file_step (ReadCall cap len) f)
    (fun _ w' => heap w' = heap w /\ valid_blk_list w' = valid_blk_list w) w.
Proof. unfold file_step, read_enter. destruct (read_window len f) as [[[f1 o] n]|]; by wp_run. Qed.

Lemma wp_visit_found a p e w :
  heap w !! p = Some (OElem e) -> ndx e = ra_blk a ->
  wp (read_visit a (Some p)) (fun v w' => w' = w /\ v = RvisitFound
    (ReadArgs (ra_cap a) (u32 (ra_blk a + NUM_METADATA_BLKS)) (ra_offset a) (ra_len a) (ra_file a)) p) w.
Proof.
  intros He Hb. unfold read_visit. wp_step. eapply wp_load_elem; [exact He|].
  rewrite (proj2 (Z.eqb_eq _ _) Hb). by wp_run.
Qed.

Lemma wp_visit_next a p e t w :
  heap w !! p = Some (OElem e) -> ndx e <> ra_blk a -> expects w (ra_file a) t -> el_nsec e <= t ->
  wp (read_visit a (Some p)) (fun v w' => w' = w /\ v = RvisitNext (rl_next (valid_blk_list w) p)) w.
Proof.
  intros He Hb%Z.eqb_neq (q & Hq & Hh) Ht. unfold read_visit. wp_step. eapply wp_load_elem; [exact He|].
  rewrite Hb, Hq. wp_step. eapply wp_load_time; [exact Hh|]. rewrite (proj2 (Z.ltb_ge _ _)) by done. by wp_run.
Qed.

(** It begins. *)
Lemma read_track_enter F s w ts Fs s' w' Fs' k t' L i m cap len f :
  cinv sb F s w ts Fs -> cinv sb F s' w' (<[k := t']> ts) Fs' -> s_msgs s' !! i = Some m ->
  ts !! k = Some (FileCall (ReadCall cap len) f) -> file_step (ReadCall cap len) f w = Ret t' w' ->
  commits s (FileCall (ReadCall cap len) f) t' s' ->
  list_moves ts (FileCall (ReadCall cap len) f) t' (valid_blk_list w) (valid_blk_list w') ->
  read_track L i m w (FileCall (ReadCall cap len) f) -> read_track L i m w' t'.
Proof.
  intros Hc Hc' Hm' Hk Hrun Hcm Hmv (He & Hpos & Hin).
  destruct (ci_frame _ _ _ _ _ _ _ _ Hc Hk) as (Ft & _ & ((Hsz & _) & _) & _).
  destruct (wp_ret_elim _ _ _ _ _ (wp_enter_same cap len f w) Hrun) as [Hh Hl].
  pose proof (ci_NoDup _ _ _ _ _ _ Hc') as Hnd'. destruct (ci_quiet _ _ _ _ _ _ Hc') as [Hi' _].
  inversion Hcm; subst; [lia|]. destruct Hmv as [_ [[_ ->]|(? & ? & _)]]; [|done].
  destruct (slot_node_of _ _ _ _ _ Hi' Hm') as (x & e & Hn & _).
  split; [|split; [done|]].
  - destruct He as (q & Hq & Hhq). exists q. split; [done|]. by rewrite Hh.
  - pose proof Hn as (Hx & _). apply list_elem_of_split in Hx as (l1 & l2 & Hsp).
    exists l1, x, e. rewrite <- Hl.
    assert (Hr : reach (valid_blk_list w') (head (rl_nodes (valid_blk_list w'))) l1 x).
    { rewrite Hsp. by apply (reach_list _ [] l1 x l2). }
    split_and!; [done| |done]. eapply way_passed_by; [exact Hi'|done|done|exact Hn|exact Hr|].
    intros y Hy. left. rewrite Hsp. set_solver.
Qed.

(** The walk ends at the node of the message. *)
Lemma read_track_walk F s w ts Fs k a p mm w' t' L i m :
  cinv sb F s w ts Fs -> s_msgs s !! i = Some m -> ts !! k = Some (ReadWalk a p) ->
  thread_step ts (ReadWalk a p) = Some mm -> mm w = Ret t' w' ->
  read_track L i m w (ReadWalk a p) -> read_track L i m w' t'.
Proof.
  intros Hc Hm Hk [= <-] Hrun (He & Hb & qs & x & e & Hr & Hps & Hn).
  destruct (ci_frame _ _ _ _ _ _ _ _ Hc Hk) as (Ft & _ & ((Hf & Hpr & Hoff & Hcap & Hi & Hpos & _ & Hlen) & _) & _).
  pose proof (ci_quiet _ _ _ _ _ _ Hc) as [Hdev _]. pose proof (dev_inv_cap _ _ _ Hdev) as Hc31.
  assert (Hrv : exists v, read_visit a p w = Ret v w' /\ t' = match v with
    | RvisitEnd r data f => FileDone r data f
    | RvisitFound a p => ReadCopy a p
    | RvisitNext next => ReadWalk a next end).
  { unfold bind in Hrun. destruct (read_visit a p w) as [v w1|]; [|done]. exists v.
    destruct v; unfold ret in Hrun; by injection Hrun as <- <-. }
  destruct Hrv as (v & Hv & ->). destruct qs as [|q qs].
  - simpl in Hr. subst p. pose proof Hn as (_ & Hh & Hnx).
    destruct (wp_ret_elim _ _ _ _ _ (wp_visit_found a x e w Hh ltac:(congruence)) Hv) as [-> ->].
    simpl. rewrite u32_small, Hb by (unfold NUM_METADATA_BLKS; lia). split_and!; [done|done|done|eauto].
  - destruct Hr as [-> Hr]. apply Forall_cons in Hps as [(eq & Hh & Hne & Ht) Hps].
    destruct (wp_ret_elim _ _ _ _ _ (wp_visit_next a q eq (m_time m) w Hh ltac:(congruence) He Ht) Hv) as [-> ->].
    split_and!; [done|done|]. by exists qs, x, e.
Qed.

(** The block is copied. *)
Lemma read_track_copy F s w ts Fs s' w' Fs' k a p mm t' L i m :
  cinv sb F s w ts Fs -> s_msgs s !! i = Some m -> ts !! k = Some (ReadCopy a p) ->
  thread_step ts (ReadCopy a p) = Some mm -> mm w = Ret t' w' ->
  cinv sb F s' w' (<[k := t']> ts) Fs' ->
  read_track L i m w (ReadCopy a p) -> read_track L i m w' t'.
Proof.
  intros Hc Hm Hk [= <-] Hrun Hc' (He & Hb & Hl & e & Hn).
  destruct (ci_frame _ _ _ _ _ _ _ _ Hc Hk) as (Ft & _ & ((Hf & Hpr & Hoff & Hcap & Hi & Hpos & _ & _) & _) & _).
  pose proof (ci_quiet _ _ _ _ _ _ Hc) as Hq. pose proof Hq as [Hdev _].
  pose proof Hf as (Hsz & Hsb & _). destruct a as [cap blk off len f]. simpl in *. subst blk off len.
  destruct (slot_node_elem _ _ _ _ _ _ _ Hdev Hm Hn) as [_ Hvb]. pose proof Hn as (Hx & Hh & Hnx).
  destruct (block_of_slot _ s w i Hdev) as (d & Hd & Hlen & Hmd); [lia|]. specialize (Hmd m Hm).
  assert (Hml : (length (m_data m) <= 4086)%nat).
  { rewrite Hmd. unfold payload. rewrite length_take, length_drop. lia. }
  assert (Hwp := wp_read_copy sb_bread_works sb _ s w cap i p 4086 f e d Hq Hsb Hh
    ltac:(lia) ltac:(lia) Hcap Hd Hlen). cbv zeta in Hwp.
  replace (Z.of_nat i + NUM_METADATA_BLKS) with (Z.of_nat i + 2) in Hwp by (unfold NUM_METADATA_BLKS; lia).
  unfold bind in Hrun. destruct (read_copy cap p _ 10 4086 f w) as [v w1|] eqn:Hv; [|done].
  destruct (wp_ret_elim _ _ _ _ _ Hwp Hv) as (-> & _ & Hh1 & Hl1 & _).
  unfold ret in Hrun. injection Hrun as <- <-. rewrite Hvb in *.
  rewrite Nat2Z.id, <- Hmd. unfold read_track. split_and!; [|lia|done|done|].
  - destruct He as (q & ? & ?). exists q. by rewrite Hh1.
  - exists e. unfold slot_node. by rewrite Hl1, Hh1.
Qed.

(** The next message is looked for. *)
Lemma read_track_ahead F s w ts Fs k r d f p mm w' t' L i m :
  cinv sb F s w ts Fs -> stays L ts s -> s_msgs s !! i = Some m -> ts !! k = Some (ReadNext r d f p) ->
  thread_step ts (ReadNext r d f p) = Some mm -> mm w = Ret t' w' ->
  read_track L i m w (ReadNext r d f p) -> read_track L i m w' t'.
Proof.
  intros Hc HL Hm Hk [= <-] Hrun (He & Hp & -> & -> & e & Hn).
  pose proof (ci_quiet _ _ _ _ _ _ Hc) as [Hdev _]. pose proof (ci_NoDup _ _ _ _ _ _ Hc) as Hnd.
  destruct (slot_node_elem _ _ _ _ _ _ _ Hdev Hm Hn) as [Het _]. pose proof Hn as (Hx & Hh & Hnx).
  assert (Hv : next_elem p w = Ret (rl_next (valid_blk_list w) p) w).
  { unfold next_elem. erewrite run_bind by (by apply run_load_elem). done. }
  unfold bind in Hrun. rewrite Hv in Hrun. unfold ret in Hrun. injection Hrun as <- <-.
  split_and!; try done. intros j m2 Hj Hlt. destruct (HL j m2 Hj) as [Hmj _].
  destruct (slot_node_of _ _ _ _ _ Hdev Hmj) as (y & ey & Hny & _).
  destruct (slot_node_elem _ _ _ _ _ _ _ Hdev Hmj Hny) as [Heyt _]. destruct Hny as (Hy & Hhy & _).
  apply list_elem_of_split in Hx as (l1 & l2 & Hl). rewrite Hl in Hnd. apply NoDup_mid in Hnd as (H1 & _ & _).
  rewrite (rl_next_spec p _ l1 l2) by done.
  assert (Hy2 : y ∈ l2).
  { rewrite Hl in Hy. apply elem_of_app in Hy as [Hy|[->|Hy]%elem_of_cons]; [|assert (ey = e) as -> by congruence; lia|done].
    assert (Hl' : rl_nodes (valid_blk_list w) = l1 ++ (p :: l2)) by done.
    destruct (node_order _ _ _ _ _ Hdev Hl' y p ey e) as [? _]; [done|left|done|done|lia]. }
  destruct l2 as [|x l2]; [set_solver|]. simpl.
  destruct (ci_visible _ _ _ _ _ _ k x Hc) as (ex & Hhx & _); [left; rewrite Hl; set_solver|].
  exists x, ex. split_and!; [done|done| |].
  - assert (Hl' : rl_nodes (valid_blk_list w) = (l1 ++ [p]) ++ x :: l2) by (by rewrite <- (assoc_L (++))).
    destruct (node_order _ _ _ _ _ Hdev Hl' p x e ex) as [? _]; [set_solver|left|done|done|lia].
  - apply elem_of_cons in Hy2 as [->|Hy2]; [assert (ex = ey) by congruence; subst; lia|].
    assert (Hl' : rl_nodes (valid_blk_list w) = (l1 ++ [p; x]) ++ l2) by (by rewrite <- (assoc_L (++))).
    destruct (node_order _ _ _ _ _ Hdev Hl' x y ex ey) as [? _]; [set_solver|done|done|done|lia].
Qed.

(** The session moves on. *)
Lemma read_track_session F s w ts Fs k r d f q mm w' t' L i m :
  cinv sb F s w ts Fs -> ts !! k = Some (ReadSession r d f q) ->
  thread_step ts (ReadSession r d f q) = Some mm -> mm w = Ret t' w' ->
  read_track L i m w (ReadSession r d f q) -> read_track L i m w' t'.
Proof.
  intros Hc Hk [= <-] Hrun ((p & Hp & Hph) & Hpos & -> & -> & Hq).
  destruct (rcu_readers w) as [|n] eqn:Hrd.
  { rewrite (ci_readers _ _ _ _ _ _ Hc) in Hrd. by destruct (count_readers_pos ts k _ Hk eq_refl). }
  unfold bind in Hrun. destruct (advance_session q _ _ f w) as [v w1|] eqn:Hv; [|done].
  unfold ret in Hrun. injection Hrun as <- <-. destruct q as [q|].
  2: { assert (Hno : forall j m2, L !! j = Some m2 -> ~ m_time m < m_time m2).
       { intros j m2 Hj Hlt. by destruct (Hq j m2 Hj Hlt) as (? & ? & ? & _). }
       assert (Hwp : wp (advance_session None (Some (Z.of_nat (length (m_data m)))) (m_data m) f)
         (fun v _ => v.1.1 = Z.of_nat (length (m_data m)) /\ v.1.2 = m_data m) w).
       { unfold advance_session, end_of_msgs, use_local. rewrite decide_True by done. wp_run.
         split; [|done]. cbn [fst snd]. destruct (Z.ltb_spec 0 (Z.of_nat (length (m_data m)))); lia. }
       destruct (wp_ret_elim _ _ _ _ _ Hwp Hv) as [-> ->].
       split_and!; [done| |by left]. intros j m2 Hj Hlt. by destruct (Hno j m2 Hj). }
  destruct (ci_visible _ _ _ _ _ _ k q Hc) as (e & He & _ & Hndx).
  { by apply (ro_cursor _ _ (ci_ok _ _ _ _ _ _ Hc) k _ q Hk). }
  destruct (ci_expects _ _ _ _ _ _ _ _ Hc Hk eq_refl) as (p1 & t & Hp1 & HFt & Hh1); [congruence|].
  assert (p1 = p) as -> by congruence. assert (t = m_time m) as -> by congruence.
  destruct (disjoint_frames_focus (F :: Fs) (S k) _ (ci_disjoint _ _ _ _ _ _ Hc) HFt)
    as (Fr & Hdj & Heq & _).
  pose proof (ci_quiet _ _ _ _ _ _ Hc) as Hqt. pose proof Hqt as [Hdev _].
  pose proof (dev_inv_cap _ _ _ Hdev) as Hcap.
  rewrite Heq, session_union in Hqt. apply map_disjoint_singleton_l in Hdj.
  destruct (ci_frame _ _ _ _ _ _ _ _ Hc Hk) as (Ft & _ & ((Hf & _) & _) & _).
  assert (Hwp := wp_advance_session sb Fr s w p (m_time m) n (Z.of_nat (length (m_data m)))
    (m_data m) f q e Hqt Hdj Hp Hrd He ltac:(lia)).
  destruct (wp_ret_elim _ _ _ _ _ Hwp Hv) as (_ & _ & _ & [(-> & Hkz & Hq1 & _)|(p' & -> & Hp' & Hq1 & _)]).
  - split_and!; [done| |by right]. intros j m2 Hj Hlt. split; [done|]. exists (m_time m).
    split; [|lia]. exists p. split; [done|]. eapply dev_inv_lookup; [exact Hq1|apply lookup_insert_eq].
  - split_and!; [done| |by left]. intros j m2 Hj Hlt.
    destruct (Hq j m2 Hj Hlt) as (x & e2 & [= <-] & He2 & Hle). assert (e2 = e) as -> by congruence.
    destruct Hf as (Hsz & _). split; [simpl; lia|]. exists (el_nsec e). split; [|done].
    exists p'. split; [done|]. eapply dev_inv_lookup; [exact Hq1|apply lookup_insert_eq].
Qed.

(** The read goes on whoever moves. *)
Lemma read_track_step F s w ts Fs w' ts' k u L i m :
  cinv sb F s w ts Fs -> cstep (w, ts) (w', ts') -> stays L ts s -> L !! i = Some m ->
  ts !! k = Some u -> read_track L i m w u ->
  exists s' Fs' u', cinv sb F s' w' ts' Fs' /\ stays L ts' s' /\ ts' !! k = Some u' /\
    read_track L i m w' u'.
Proof.
  intros Hc Hst HL HLm Hk Hu.
  destruct (ci_cstep_beside sb sb_bread_works _ _ _ _ _ _ _ Hc Hst)
    as (j & t & t' & mm & s' & Fs' & Hj & -> & Hmm & Hrun & Hcm & Hcap & Hsn & Hmv & Hc' & Hun).
  pose proof (stays_commit _ _ _ _ _ _ _ HL Hj Hcm) as HL'.
  destruct (HL i m HLm) as [Hm _]. destruct (HL' i m HLm) as [Hm' _].
  exists s', Fs'. destruct (decide (j = k)) as [->|Hjk].
  - exists t'. split_and!; try done; [by eapply insert_self|]. rewrite Hk in Hj. injection Hj as ->.
    destruct t; try done.
    + destruct op; try done. injection Hmm as <-. eapply read_track_enter; [exact Hc|exact Hc'|exact Hm'|exact Hk|exact Hrun|exact Hcm|exact Hmv|exact Hu].
    + eapply read_track_walk; [exact Hc|exact Hm|exact Hk|exact Hmm|exact Hrun|exact Hu].
    + eapply read_track_copy; [exact Hc|exact Hm|exact Hk|exact Hmm|exact Hrun|exact Hc'|exact Hu].
    + eapply read_track_ahead; [exact Hc|exact HL|exact Hm|exact Hk|exact Hmm|exact Hrun|exact Hu].
    + eapply read_track_session; [exact Hc|exact Hk|exact Hmm|exact Hrun|exact Hu].
  - exists u. split_and!; try done; [by rewrite list_lookup_insert_ne|].
    by eapply (read_track_other F s w ts Fs s' w' Fs' j t t' k u L i m).
Qed.

Lemma read_track_rtc F s c c' Fs k u L i m :
  cinv sb F s c.1 c.2 Fs -> rtc cstep c c' -> stays L c.2 s -> L !! i = Some m ->
  c.2 !! k = Some u -> read_track L i m c.1 u ->
  exists u', c'.2 !! k = Some u' /\ read_track L i m c'.1 u'.
Proof.
  intros Hc H. revert s Fs u Hc.
  induction H as [c|[w ts] [w1 ts1] c Hst _ IH]; intros s Fs u Hc HL HLm Hk Hu; [by exists u|].
  destruct (read_track_step _ _ _ _ _ _ _ _ _ _ _ _ Hc Hst HL HLm Hk Hu)
    as (s1 & Fs1 & u1 & Hc1 & HL1 & Hk1 & Hu1).
  by apply (IH s1 Fs1 u1).
Qed.

(** The thread is reading, or has read. *)
Definition in_read (u : thread) : Prop :=
  match u with
  | FileCall (ReadCall _ _) _ | ReadWalk _ _ | ReadCopy _ _ | ReadNext _ _ _ _
  | ReadSession _ _ _ _ | FileDone _ _ _ => True
  | _ => False
  end.

(** A read that runs alone returns. *)
Lemma read_runs n : forall F s w ts Fs k u,
  cinv sb F s w ts Fs -> total (length ts) (s_cap s) (valid_blk_list w) ts n ->
  ts !! k = Some u -> in_read u ->
  exists w' ts' r d f, rtc cstep (w, ts) (w', ts') /\ ts' !! k = Some (FileDone r d f).
Proof.
  induction (lt_wf n) as [n _ IH]. intros F s w ts Fs k u Hc Htot Hk Hu.
  destruct (thread_step ts u) as [mm|] eqn:Hmm.
  2: { destruct u; try done. by do 5 eexists. }
  destruct (ci_run sb_bread_works sb _ _ _ _ _ _ _ _ Hc Hk Hmm) as (t' & w1 & s1 & Fs1 & Hst & _ & Hcm & _ & _).
  assert (Hu' : in_read t') by (by inversion Hcm; subst).
  destruct (ci_total sb_bread_works sb _ _ _ _ _ _ _ _ Hc Hst Htot)
    as (s2 & Fs2 & n' & Hc2 & Hcap & Hlen & Htot2 & Hlt).
  destruct (IH n' Hlt F s2 w1 (<[k := t']> ts) Fs2 k t' Hc2) as (w' & ts' & r & d & f & Hrun & Hd).
  - by rewrite Hlen, Hcap.
  - by eapply insert_self.
  - done.
  - exists w', ts', r, d, f. split; [by eapply rtc_l|done].
Qed.

Lemma read_returns_file F Fs s w ts k cap len f :
  calls_start sb F Fs s w ts -> ts !! k = Some (FileCall (ReadCall cap len) f) ->
  exists w' ts' r d f', rtc cstep (w, ts) (w', ts') /\ ts' !! k = Some (FileDone r d f').
Proof.
  intros Hst Hk. destruct (total_start (length ts) (s_cap s) (valid_blk_list w) ts) as (n & Htot & _).
  { apply Forall_lookup. intros i t Ht.
    by destruct (Forall2_lookup_l _ _ _ _ _ (cs_calls _ _ _ _ _ _ Hst) Ht) as (Ft & _ & ? & _). }
  eapply read_runs; [exact (ci_start sb _ _ _ _ _ Hst)|exact Htot|exact Hk|done].
Qed.

(** C7: a read() of a session that expects the message [m], in parallel with any
    other calls, none of which invalidates a message of [L], delivers [m] whole,
    and leaves the session at a message that is not older than [m] and not newer
    than any later message of [L]: whatever the other calls insert and remove
    around the reader, it misses none of the messages that stay. *)
Theorem parallel_read_delivers F Fs s w ts w' ts' k i m cap len f L r d f' :
  calls_start sb F Fs s w ts -> L ⊆ s_msgs s -> L !! i = Some m ->
  (forall j, is_Some (L !! j) -> Forall (fun t => t <> InvCall (Z.of_nat j)) ts) ->
  ts !! k = Some (FileCall (ReadCall cap len) f) ->
  expects w f (m_time m) -> f_pos f / 4096 = Z.of_nat i -> f_pos f + 8192 < i_size f ->
  rtc cstep (w, ts) (w', ts') -> ts' !! k = Some (FileDone r d f') ->
  d = m_data m /\
  (r = Z.of_nat (length (m_data m)) \/ r = - ENOMEM /\ exists n, kzalloc_ok n = false) /\
  forall j m2, L !! j = Some m2 -> m_time m < m_time m2 ->
    f_pos f' < i_size f' /\ exists t, expects w' f' t /\ m_time m <= t <= m_time m2.
Proof.
  intros Hst HL HLm Hno Hk He Hpos Hin Hrun Hd.
  destruct (read_track_rtc F s (w, ts) (w', ts') Fs k (FileCall (ReadCall cap len) f) L i m
    (ci_start sb _ _ _ _ _ Hst) Hrun)
    as (u & Hu & Ht); [|done|exact Hk|by split_and!|].
  - intros j m2 Hj. split; [by eapply lookup_weaken|]. eapply starting_spares; [exact Hst|eauto].
  - simpl in Hu. rewrite Hd in Hu. injection Hu as <-. destruct Ht as (-> & Hs & Hr). done.
Qed.
End ReadIsolation.

(** ** Witness *)

#[local] Existing Instance sample_config.
#[local] Existing Instance good_kernel.

(** A session that expects the message of slot 1, beside a put. *)
Definition sample_session : gmap loc obj := {[ 50%positive := OTime 100 ]}.
Definition session_world : @world good_kernel :=
  sample_world_with always always Z.of_nat (Some (SB MAGIC true)) sample_session.
Definition session_file : file := File O_RDONLY (Some 50%positive) 4106 16384 (Some (SB MAGIC true)).
Definition session_calls : list thread := [FileCall (ReadCall 4086 4086) session_file; PutCall later_data 2].

Lemma session_calls_start :
  calls_start (SB MAGIC true) ∅ [sample_session; ∅] sample_store session_world session_calls.
Proof.
  assert (Hu : ⋃ (∅ :: [sample_session; ∅]) = sample_session).
  { simpl. by rewrite (left_id_L ∅ (∪)), !(right_id_L ∅ (∪)). }
  split.
  - rewrite Hu. apply sample_inv; intros l Hl; apply lookup_singleton_ne; lia.
  - done.
  - done.
  - simpl. split_and!; [apply map_disjoint_empty_l|apply map_disjoint_union_r; split; apply map_disjoint_empty_r|apply map_disjoint_empty_l|done].
  - constructor; [|constructor; [by repeat constructor|constructor]].
    split; [done|]. split; [split_and!; done|]. split; [split_and!; done|]. by exists 100.
Qed.

Lemma parallel_read_delivers_witness :
  exists w' ts' r f' t, rtc cstep (session_world, session_calls) (w', ts') /\
    ts' !! 0%nat = Some (FileDone r sample_data f') /\ expects w' f' t /\ 100 <= t <= 200.
Proof.
  destruct (read_returns_file always_reads _ _ _ _ _ _ 0 4086 4086 session_file session_calls_start eq_refl)
    as (w' & ts' & r & d & f' & Hrun & Hd).
  destruct (parallel_read_delivers always_reads (SB MAGIC true) ∅ [sample_session; ∅] sample_store
    session_world session_calls w' ts' 0 1 (Msg 100 sample_data) 4086 4086 session_file
    (s_msgs sample_store) r d f' session_calls_start) as (-> & _ & Hn).
  - done.
  - done.
  - intros j _. by repeat constructor.
  - done.
  - by exists 50%positive.
  - done.
  - done.
  - exact Hrun.
  - exact Hd.
  - destruct (Hn 0%nat (Msg 200 later_data)) as (_ & t & Ht & Hle); [done|done|].
    exists w', ts', r, f', t. done.
Defined.
