(* ===== verification/Mount.v ===== *)
(** * Mounting and unmounting (bldms.c)

    fill_super(), which reads the metadata of all the blocks of the device and
    builds the metadata array and the list of the valid blocks, and mount() and
    kill_sb() around it. *)
From S2P Require Import Prelude Layout Kernel KernelFacts Rcu Store Device.

(** mount_bdev() of the VFS, which runs the callback of the file system on a new
    superblock and, when it fails, its kill_sb(). *)
Class Vfs (K : Kernel) := {
  mount_bdev : (super_block -> M Z) -> (super_block -> M unit) -> M (Z + unit)
}.

Class VfsLaws (K : Kernel) (V : Vfs K) := {
  mount_bdev_runs fill kill : exists sb,
    mount_bdev fill kill =
      (let* r := fill sb in
       if r =? 0 then ret (inr tt) else kill sb ;;; ret (inl r))
}.

Section Mount.
Context {K : Kernel} {C : Config}.

(** ** bldms_fs_fill_super() *)

(** Lines 163-174: vzalloc() or kzalloc() of the array. *)
Definition alloc_array (n : Z) : M (option loc) :=
  kzalloc (OArr (array_is_big n) (replicate (Z.to_nat n) None)).

(** Lines 239-243 and 256-260. *)
Definition free_array : M unit :=
  let* n := gets md_array_size in
  let* a := gets metadata_array in
  if array_is_big n then vfree a else kfree a.

(** Lines 183-217: [None] when all blocks have been loaded, or the error and the
    value of [i] with which the label [err_and_clean_rcu] is reached. *)
Fixpoint fill_loop (fuel : nat) (sb : super_block) (i : Z) : M (option (Z * Z)) :=
  match fuel with
  | O => fail NoFuel
  | S fuel' =>
    let* n := gets md_array_size in
    if negb (u64 i <? n) then ret None else
    let* bh := sb_bread (Some sb) (i + NUM_METADATA_BLKS) in
    let* md := kzalloc (OBlk (Blk 0 0 0)) in
    set_md_slot i md ;;;
    if decide (md = None) then ret (Some (- ENOMEM, i - 1)) else
    if decide (bh = None) then ret (Some (- EIO, i)) else
    let* d := bh_data bh in
    let* p := md_slot i in
    store p (OBlk (decode_block (take 10 d))) ;;;
    brelse bh ;;;
    let* p := md_slot i in
    let* md := load_blk p in
    if is_valid md =? BLK_VALID then
      let* rcu_el := kzalloc (OElem (Elem 0 0 0)) in
      if decide (rcu_el = None) then ret (Some (- ENOMEM, i)) else
      add_valid_block_in_order_secure rcu_el i (valid_bytes md) (nsec md) ;;;
      fill_loop fuel' sb (i + 1)
    else fill_loop fuel' sb (i + 1)
  end.

(** Lines 230-233: [list_for_each_entry] with a body that frees the element. *)
Fixpoint clean_list (fuel : nat) (rcu_el : option loc) : M unit :=
  match rcu_el with
  | None => ret tt
  | Some p =>
    match fuel with
    | O => fail NoFuel
    | S fuel' =>
      on_node list_del rcu_el ;;;
      kfree rcu_el ;;;
      let* _ := load_elem rcu_el in
      let* next := gets (fun w => rl_next (valid_blk_list w) p) in
      clean_list fuel' next
    end
  end.

(** Lines 235-237: from [metadata_array[i]] down to [metadata_array[0]]. *)
Fixpoint free_blocks (fuel : nat) (i : Z) : M unit :=
  match fuel with
  | O => fail NoFuel
  | S fuel' =>
    if negb (0 <=? i) then ret tt else
    let* p := md_slot i in
    kfree p ;;;
    free_blocks fuel' (i - 1)
  end.

(** Lines 228-245. *)
Definition err_and_clean_rcu (err i : Z) : M Z :=
  let* nodes := gets (fun w => rl_nodes (valid_blk_list w)) in
  clean_list (length nodes) (head nodes) ;;;
  free_blocks (S (Z.to_nat (i + 1))) i ;;;
  free_array ;;;
  ret err.

(** Line 221: the block written last. *)
Definition init_last_written : M unit :=
  let* nodes := gets (fun w => rl_nodes (valid_blk_list w)) in
  let* n := gets md_array_size in
  match last nodes with
  | Some p => let* e := load_elem (Some p) in modify (set_last_written_block (ndx e))
  | None => modify (set_last_written_block (u32 (u64 (n - 1))))
  end.

(** Lines 137-226: loading the blocks. *)
Definition load_blocks (sb : super_block) : M Z :=
  let* bh := sb_bread (Some sb) BLDMS_SINGLEFILE_INODE_NUMBER in
  if decide (bh = None) then ret (- EIO) else
  let* d := bh_data bh in
  if NBLOCKS * DEFAULT_BLOCK_SIZE <? inode_file_size d then ret (- E2BIG) else
  let n := inode_file_size d / DEFAULT_BLOCK_SIZE in
  modify (set_md_array_size n) ;;;
  brelse bh ;;;
  let* a := alloc_array n in
  modify (set_metadata_array a) ;;;
  if decide (a = None) then ret (- EINVAL) else
  modify (set_lock false) ;;;                       (* rcu_init(): spin_lock_init() *)
  let* err := fill_loop (S (Z.to_nat n)) sb 0 in
  match err with
  | Some (err, i) => err_and_clean_rcu err i
  | None =>
    init_last_written ;;;
    modify (set_mounted 1) ;;;
    ret 0
  end.

Definition bldms_fs_fill_super (sb : super_block) : M Z :=
  let sb := SB MAGIC (s_bdev sb) in
  let* bh := sb_bread (Some sb) SB_BLOCK_NUMBER in
  let* d := bh_data bh in
  let magic := sb_info_magic d in
  brelse bh ;;;
  if negb (magic =? s_magic sb) then ret (- EBADF) else
  let* root_inode := answer iget_locked in
  if decide (root_inode = None) then ret (- ENOMEM) else
  let* s_root := answer d_make_root_ok in
  if negb s_root then ret (- ENOMEM) else
  load_blocks sb.

(** ** free_data_structures(), kill_sb() and mount() *)

Definition free_data_structures : M unit :=
  spin_lock ;;;
  remove_all_entries_secure ;;;
  free_array ;;;
  modify (set_metadata_array None) ;;;
  modify (set_md_array_size 0) ;;;
  modify (set_the_dev_superblock None) ;;;
  modify (set_mounted 0) ;;;
  spin_unlock.

(** kill_block_super() and blkdev_put() only touch objects of the kernel. *)
Definition bldms_fs_kill_sb (sb : super_block) : M unit := free_data_structures.

Definition bldms_fs_mount {V : Vfs K} : M (Z + unit) :=
  let* mounted := gets bldms_mounted in
  if negb (mounted =? 0) then ret (inl (- EBUSY)) else
  let* r := mount_bdev bldms_fs_fill_super bldms_fs_kill_sb in
  match r with
  | inl err => ret (inl err)
  | inr _ =>
    let* the_device := answer blkdev_get_by_path in
    match the_device with
    | None => free_data_structures ;;; ret (inl (- EINVAL))
    | Some bd_super =>
      modify (set_the_dev_superblock bd_super) ;;;
      let* sb := gets the_dev_superblock in
      if bool_decide (s_bdev <$> sb = Some true) then ret (inr tt)
      else free_data_structures ;;; ret (inl (- EINVAL))
    end
  end.

(** ** The store on a device *)

(** The metadata of the first [n] blocks. *)
Definition image_mds (c : bcache) (n : nat) : list bldms_block :=
  (fun i => decode_block (default [] (b_data c (Z.of_nat i + NUM_METADATA_BLKS)))) <$> seq 0 n.

(** The elements the mount puts in the list: those of the valid blocks, in the
    order in which they are inserted. *)
Definition mount_elems (bs : list bldms_block) : list rcu_elem :=
  foldl (fun es e => insert_in_order e es) [] (valid_from 0 bs).

Definition image_msgs (c : bcache) (n : nat) : gmap nat message :=
  omap id (map_seq 0 (msg_at c (image_mds c n) <$> seq 0 n) : gmap nat (option message)).

(** The messages of the valid blocks; the newest one was written last. *)
Definition image_store (c : bcache) (n : nat) : mstore :=
  MStore n
    (match last (mount_elems (image_mds c n)) with Some e => Z.to_nat (ndx e) | None => n - 1 end)%nat
    (image_msgs c n).

(** All blocks exist and no valid message is longer than a block. *)
Definition image_ok (c : bcache) (n : nat) : Prop :=
  forall i, (i < n)%nat -> exists blk, b_data c (Z.of_nat i + NUM_METADATA_BLKS) = Some blk /\
    length blk = 4096%nat /\
    (is_valid (decode_block blk) = BLK_VALID ->
     valid_bytes (decode_block blk) <= DEFAULT_BLOCK_SIZE - METADATA_SIZE).
End Mount.
