(* ===== verification/MountOk.v ===== *)
(** * Mounting: correctness

    fill_super() turns a device into a state that represents the messages stored
    on it; what a failing mount and an unmount do. *)
From S2P Require Import Prelude Layout Kernel KernelFacts Rcu Store Device DeviceOps DeviceWp.
From S2P Require Import Sample Mount.

Section MountOk.
Context {K : Kernel} {KL : KernelLaws K} {C : Config}.
Implicit Types (F : gmap loc obj) (w : world) (bs : list bldms_block) (es : list rcu_elem).

(** ** The store of an image *)

Lemma foldl_insert_spec new es :
  time_sorted es ->
  time_sorted (foldl (fun es e => insert_in_order e es) es new) /\
  foldl (fun es e => insert_in_order e es) es new ≡ₚ new ++ es.
Proof.
  revert es. induction new as [|e new IH]; intros es Hs; simpl; [done|].
  destruct (IH (insert_in_order e es)) as [Hs' Hp]; [auto with bldms|]. split; [done|].
  rewrite Hp, (insert_in_order_perm e es). by rewrite <- Permutation_middle.
Qed.

Lemma mount_elems_spec bs : time_sorted (mount_elems bs) /\ mount_elems bs ≡ₚ valid_from 0 bs.
Proof.
  destruct (foldl_insert_spec (valid_from 0 bs) []) as [? Hp]; [constructor|].
  split; [done|]. unfold mount_elems. by rewrite Hp, app_nil_r.
Qed.

Lemma mount_elems_snoc bs b :
  mount_elems (bs ++ [b]) =
    if is_valid b =? BLK_VALID then insert_in_order (elem_of_block (length bs) b) (mount_elems bs)
    else mount_elems bs.
Proof.
  unfold mount_elems. rewrite valid_from_app, foldl_app. simpl.
  by destruct (is_valid b =? BLK_VALID).
Qed.

Lemma length_image_mds c n : length (image_mds c n) = n.
Proof. unfold image_mds. by rewrite length_fmap, length_seq. Qed.

Lemma image_mds_lookup c n i :
  (i < n)%nat ->
  image_mds c n !! i = Some (decode_block (default [] (b_data c (Z.of_nat i + NUM_METADATA_BLKS)))).
Proof. intros Hi. unfold image_mds. by rewrite list_lookup_fmap, lookup_seq_lt. Qed.

Lemma image_mds_snoc c n i :
  (i < n)%nat ->
  take (S i) (image_mds c n) = take i (image_mds c n)
    ++ [decode_block (default [] (b_data c (Z.of_nat i + NUM_METADATA_BLKS)))].
Proof. intros Hi. apply take_S_r. by apply image_mds_lookup. Qed.

Lemma image_msgs_lookup c n i : image_msgs c n !! i = msg_at c (image_mds c n) i.
Proof.
  unfold image_msgs. rewrite lookup_omap, lookup_map_seq_0, list_lookup_fmap.
  destruct (decide (i < n)%nat).
  - rewrite lookup_seq_lt by done. simpl. by destruct (msg_at _ _ i).
  - rewrite lookup_seq_ge by lia. simpl. unfold msg_at.
    rewrite lookup_ge_None_2; [done|]. rewrite length_image_mds. lia.
Qed.

Lemma block_rep_image c n i b : image_ok c n -> image_mds c n !! i = Some b -> block_rep c i b.
Proof.
  intros Hok Hb. assert (Hi : (i < n)%nat).
  { apply lookup_lt_Some in Hb. by rewrite length_image_mds in Hb. }
  destruct (Hok i Hi) as (blk & Hblk & Hlen & Hvb).
  rewrite image_mds_lookup, Hblk in Hb by done. simpl in Hb. injection Hb as <-.
  split; [apply decode_block_wf|]. exists blk. split_and!; [done|done| |done].
  rewrite <- decode_block_take. symmetry. apply encode_decode. rewrite length_take. lia.
Qed.

Lemma image_store_wf c n : image_ok c n -> store_wf (image_store c n).
Proof.
  intros Hok. split; simpl.
  - intros i m Hm. rewrite image_msgs_lookup in Hm. unfold msg_at in Hm.
    destruct (image_mds c n !! i) eqn:Hi; [|done].
    apply lookup_lt_Some in Hi. by rewrite length_image_mds in Hi.
  - destruct (last (mount_elems (image_mds c n))) as [e|] eqn:Hl; [|lia]. right.
    apply last_Some_elem_of in Hl. rewrite (proj2 (mount_elems_spec _)) in Hl.
    apply elem_of_valid_from in Hl as (i & b & Hi & _ & ->). simpl. rewrite Nat2Z.id.
    apply lookup_lt_Some in Hi. by rewrite length_image_mds in Hi.
Qed.

(** ** The invariant of the loading loop *)

(** The first blocks have been loaded: their metadata [bs] are in the array, the
    other [n - length bs] pointers are NULL, and the list holds [es]. *)
Record loading (F : gmap loc obj) (a : loc) (vm : bool) (n : nat) (mps : list loc)
    (bs : list bldms_block) (es : list rcu_elem) (w : world) : Prop := {
  ld_array : metadata_array w = Some a;
  ld_heap_array : heap w !! a = Some (OArr vm ((Some <$> mps) ++ replicate (n - length mps) None));
  ld_blocks : Forall2 (fun p b => heap w !! p = Some (OBlk b)) mps bs;
  ld_list : list_holds w es;
  ld_nodup : NoDup mps;
  ld_owned l : l ∈ footprint a mps w -> F !! l = None;
  ld_frame l : l ∉ footprint a mps w -> heap w !! l = F !! l;
  ld_fresh l : (brk w <= l)%positive -> heap w !! l = None;
  ld_live l : l ∈ footprint a mps w -> is_Some (heap w !! l)
}.

Lemma loading_done F a vm mps bs es w :
  loading F a vm (length bs) mps bs es w -> vm = array_is_big (Z.of_nat (length bs)) ->
  dev_mem F a vm mps bs es w.
Proof.
  intros [] Hvm. split; try done. rewrite ld_heap_array0.
  rewrite (Forall2_length _ _ _ ld_blocks0), Nat.sub_diag. simpl. by rewrite app_nil_r.
Qed.

Lemma array_append {A} (mps : list A) n l :
  (length mps < n)%nat ->
  <[length mps := Some l]> ((Some <$> mps) ++ replicate (n - length mps) None)
    = (Some <$> (mps ++ [l])) ++ replicate (n - length (mps ++ [l])) None.
Proof.
  intros Hl. rewrite insert_app_r_alt by (by rewrite length_fmap).
  rewrite length_fmap, Nat.sub_diag. rewrite length_app. simpl.
  replace (n - length mps)%nat with (S (n - (length mps + 1))) by lia. simpl.
  rewrite fmap_app. simpl. by rewrite <- app_assoc.
Qed.

(** The metadata of one more block. *)
Lemma loading_append F a vm n mps bs es w w' l b :
  loading F a vm n mps bs es w -> (length mps < n)%nat -> l = brk w ->
  metadata_array w' = metadata_array w -> valid_blk_list w' = valid_blk_list w ->
  brk w' = Pos.succ l ->
  heap w' = <[l := OBlk b]> (<[a := OArr vm ((Some <$> (mps ++ [l]))
     ++ replicate (n - length (mps ++ [l])) None)]> (heap w)) ->
  loading F a vm n (mps ++ [l]) (bs ++ [b]) es w'.
Proof.
  intros [Ha Hha Hb [Hnd Hel] Hndm Ho Hf Hfr Hlv] Hlt -> Ea El Eb Eh.
  assert (Hn : heap w !! brk w = None) by (apply Hfr; lia).
  assert (Hni : brk w ∉ footprint a mps w) by (intros [? ?]%Hlv; congruence).
  assert (Hmps : forall p, p ∈ mps -> p <> brk w /\ p <> a).
  { intros p Hp. split; [intros ->; auto with bldms|]. intros ->.
    apply list_elem_of_lookup in Hp as [j Hj].
    destruct (Forall2_lookup_l _ _ _ _ _ Hb Hj) as (x & _ & Hx). congruence. }
  assert (Hns : forall p, p ∈ rl_nodes (valid_blk_list w) -> p <> brk w /\ p <> a).
  { intros p Hp. split; [intros ->; auto with bldms|]. intros ->.
    destruct (elems_at_elem_of _ _ _ _ Hel Hp) as (x & _ & Hx). congruence. }
  assert (Hba : brk w <> a) by (intros <-; auto with bldms).
  split; unfold footprint, list_holds in *; rewrite ?El; try congruence.
  - rewrite Eh, lookup_insert_ne by done. apply lookup_insert_eq.
  - apply Forall2_app; [|constructor; [rewrite Eh; apply lookup_insert_eq|constructor]].
    apply (Forall2_impl_in _ _ _ _ Hb). intros p x Hp _ Hx. rewrite Eh, !lookup_insert_ne; [done|..].
    all: symmetry; by apply Hmps.
  - split; [done|]. apply (Forall2_impl_in _ _ _ _ Hel). intros p x Hp _ Hx.
    rewrite Eh, !lookup_insert_ne; [done|..]. all: symmetry; by apply Hns.
  - apply NoDup_app. split_and!; [done| |apply NoDup_singleton].
    intros p Hp ->%list_elem_of_singleton. by apply Hmps in Hp as [? _].
  - intros k Hk. destruct (decide (k = brk w)) as [->|Hkb].
    + rewrite <- Hf by done. done.
    + apply Ho. set_solver.
  - intros k Hk. rewrite Eh, !lookup_insert_ne by set_solver. apply Hf. set_solver.
  - intros k Hk. rewrite Eb in Hk. rewrite Eh, !lookup_insert_ne; [apply Hfr; lia|..].
    + intros <-. assert (is_Some (heap w !! a)) as [? Hx] by (apply Hlv; by left).
      rewrite Hfr in Hx by lia. done.
    + lia.
  - intros k Hk. rewrite Eh. destruct (decide (brk w = k)) as [->|]; [by rewrite lookup_insert_eq|].
    rewrite lookup_insert_ne by done. destruct (decide (a = k)) as [->|]; [by rewrite lookup_insert_eq|].
    rewrite lookup_insert_ne by done. apply Hlv. set_solver.
Qed.

(** One more element of the list. *)
Lemma loading_insert F a vm n mps bs es es' w w' l e ps1 ps2 es1 es2 :
  loading F a vm n mps bs es w -> l = brk w ->
  rl_nodes (valid_blk_list w) = ps1 ++ ps2 -> es = es1 ++ es2 -> length ps1 = length es1 ->
  es' = es1 ++ e :: es2 -> rl_nodes (valid_blk_list w') = ps1 ++ l :: ps2 ->
  metadata_array w' = metadata_array w -> brk w' = Pos.succ l ->
  heap w' = <[l := OElem e]> (heap w) ->
  loading F a vm n mps bs es' w'.
Proof.
  intros [Ha Hha Hb [Hnd Hel] Hndm Ho Hf Hfr Hlv] -> Hps Hes Hlen -> Hps' Ea Eb Eh.
  assert (Hn : heap w !! brk w = None) by (apply Hfr; lia).
  assert (Hni : brk w ∉ footprint a mps w) by (intros [? ?]%Hlv; congruence).
  assert (Hold : forall k, k ∈ footprint a mps w -> k <> brk w) by (intros k ? ->; done).
  assert (Hfoot : forall k, k ∈ footprint a mps w' <-> k = brk w \/ k ∈ footprint a mps w).
  { intros k. unfold footprint. rewrite Hps, Hps', !elem_of_cons, !elem_of_app, elem_of_cons. tauto. }
  assert (Hlook : forall k, k <> brk w -> heap w' !! k = heap w !! k).
  { intros k Hk. rewrite Eh. by apply lookup_insert_ne. }
  split.
  - congruence.
  - rewrite Hlook; [done|]. auto with bldms.
  - apply (Forall2_impl_in _ _ _ _ Hb). intros p x Hp _ Hx. rewrite Hlook; auto with bldms.
  - unfold list_holds. rewrite Hps'. rewrite Hps in Hnd, Hel.
    assert (Hnl : brk w ∉ ps1 ++ ps2).
    { rewrite <- Hps. intros Hin. by apply Hni, footprint_node. }
    split; [rewrite <- Permutation_middle; by apply NoDup_cons|]. subst es.
    apply elems_at_app in Hel as [H1 H2]; [|done]. rewrite Eh.
    apply Forall2_app; [apply elems_at_insert; [set_solver|done]|].
    constructor; [apply lookup_insert_eq|]. apply elems_at_insert; [set_solver|done].
  - done.
  - intros k [->|Hk]%Hfoot; [|by apply Ho]. rewrite <- Hf by done. done.
  - intros k Hk. rewrite Hfoot in Hk. rewrite Hlook by tauto. apply Hf. tauto.
  - intros k Hk. rewrite Eb in Hk. rewrite Hlook by lia. apply Hfr. lia.
  - intros k [->|Hk]%Hfoot; [rewrite Eh, lookup_insert_eq; done|]. rewrite Hlook by auto. by apply Hlv.
Qed.
(** ** The loading loop *)

(** What loading does not change. *)
Definition same_globals (w w' : world) : Prop :=
  rcu_write_lock w' = rcu_write_lock w /\ rcu_readers w' = rcu_readers w /\
  bh_refs w' = bh_refs w /\ bufs w' = bufs w /\ bldms_mounted w' = bldms_mounted w /\
  metadata_array w' = metadata_array w /\ md_array_size w' = md_array_size w /\
  last_written_block w' = last_written_block w /\ the_dev_superblock w' = the_dev_superblock w /\
  module_refs w' = module_refs w.

#[export] Instance same_globals_refl : Reflexive same_globals.
Proof. by intros w. Qed.

#[export] Instance same_globals_trans : Transitive same_globals.
Proof.
  intros w1 w2 w3 H1 H2. unfold same_globals in *. destruct_and!. split_and!; congruence.
Qed.

Section Load.
Hypothesis kzalloc_always : forall n, kzalloc_ok n = true.
Hypothesis bread_always : forall n, bread_ok n = true.

Lemma wp_kzalloc_always o Q w :
  Q (Some (brk w)) (alloc o (tick w)) -> wp (kzalloc o) Q w.
Proof. intros HQ. apply wp_kzalloc; [done|]. intros [n Hn]. by rewrite kzalloc_always in Hn. Qed.

Lemma wp_sb_bread_always sb n blk Q w :
  b_data (bufs w) n = Some blk ->
  Q (Some n) (set_bh_refs (bh_refs w + 1) (tick w)) -> wp (sb_bread (Some sb) n) Q w.
Proof.
  intros Hb HQ. apply wp_sb_bread; [done|]. intros [[k Hk]|Hn]; [by rewrite bread_always in Hk|congruence].
Qed.

(** One round of the loop. *)
Lemma wp_fill_step F a vm n mps bs es w sb fuel blk Q :
  loading F a vm n mps bs es w -> (length mps < n)%nat -> Z.of_nat n < 2 ^ 31 ->
  length mps = length bs -> md_array_size w = Z.of_nat n ->
  b_data (bufs w) (Z.of_nat (length bs) + NUM_METADATA_BLKS) = Some blk ->
  let b := decode_block blk in
  let es' := if is_valid b =? BLK_VALID then insert_in_order (elem_of_block (length bs) b) es else es in
  (forall l w', loading F a vm n (mps ++ [l]) (bs ++ [b]) es' w' -> same_globals w w' ->
     wp (fill_loop fuel sb (Z.of_nat (S (length bs)))) Q w') ->
  wp (fill_loop (S fuel) sb (Z.of_nat (length bs))) Q w.
Proof.
  intros Hld Hlt Hn Hlen Hsz Hblk b es' HQ. simpl. wp_run. rewrite Hsz, u64_small by lia.
  rewrite (proj2 (Z.ltb_lt _ _)) by lia. simpl. wp_step.
  eapply wp_sb_bread_always; [exact Hblk|]. wp_step. apply wp_kzalloc_always.
  set (w1 := alloc _ _). set (l := brk w).
  assert (Hn1 : heap w !! l = None) by (apply (ld_fresh _ _ _ _ _ _ _ _ Hld); unfold l; lia).
  assert (Hal : a <> l).
  { intros ->. destruct (ld_live _ _ _ _ _ _ _ _ Hld l) as [? ?]; [by left|congruence]. }
  set (arr := (Some <$> mps) ++ replicate (n - length mps) None).
  assert (Harr1 : heap w1 !! a = Some (OArr vm arr)).
  { simpl. rewrite lookup_insert_ne by done. apply Hld. }
  assert (Hla : (length bs < length arr)%nat).
  { unfold arr. rewrite length_app, length_fmap, length_replicate. lia. }
  wp_step. eapply wp_set_md_slot; [apply Hld|exact Harr1|done|].
  assert (Harr : <[length bs := Some l]> arr
    = (Some <$> (mps ++ [l])) ++ replicate (n - length (mps ++ [l])) None)
    by (unfold arr; rewrite <- Hlen; by apply array_append).
  change (brk (set_bh_refs (bh_refs w + 1) (tick w))) with l.
  rewrite Harr. set (arr' := (Some <$> (mps ++ [l])) ++ _) in *.
  assert (Hslot : arr' !! length bs = Some (Some l)) by (rewrite <- Harr; by apply list_lookup_insert_eq).
  rewrite decide_False by done. rewrite decide_False by done. wp_step.
  eapply wp_bh_data; [exact Hblk|]. wp_step.
  eapply wp_md_slot; [apply Hld|simpl; apply lookup_insert_eq|exact Hslot|]. wp_run.
  rewrite decode_block_take. fold b.
  eapply wp_md_slot; [apply Hld|simpl; rewrite lookup_insert_ne by done; apply lookup_insert_eq|exact Hslot|].
  wp_run. set (w2 := set_bh_refs _ _).
  assert (Hld2 : loading F a vm n (mps ++ [l]) (bs ++ [b]) es w2).
  { eapply (loading_append F a vm n mps bs es w w2 l b Hld Hlt); try done. simpl.
    fold l. unfold arr'. apply map_eq. intros k. rewrite !lookup_insert. repeat case_decide; congruence. }
  assert (Hg2 : same_globals w w2).
  { unfold same_globals; simpl. split_and!; try done. lia. }
  replace (Z.of_nat (length bs) + 1) with (Z.of_nat (S (length bs))) by lia. clearbody w2.
  destruct (is_valid b =? BLK_VALID) eqn:Hv; [|by eapply HQ].
  wp_step. apply wp_kzalloc_always. rewrite decide_False by done.
  destruct (ld_list _ _ _ _ _ _ _ _ Hld2) as [Hnd Hel].
  assert (Hn2 : heap w2 !! brk w2 = None) by (apply (ld_fresh _ _ _ _ _ _ _ _ Hld2); lia).
  assert (Hb2 : brk w2 ∉ rl_nodes (valid_blk_list w2)).
  { intros Hin. destruct (elems_at_elem_of _ _ _ _ Hel Hin) as (x & _ & Hx). congruence. }
  wp_step. eapply wp_add_in_order; simpl; [apply lookup_insert_eq|reflexivity|exact Hnd|exact Hb2| |].
  { apply elems_at_insert; [exact Hb2|exact Hel]. }
  intros lst ps1 ps2 es1 es2 Hps Hes Hlen12 Hins Hlst _.
  eapply HQ; [|etrans; [exact Hg2|done]].
  eapply (loading_insert F a vm n _ _ es _ w2 _ (brk w2) (elem_of_block (length bs) b) ps1 ps2 es1 es2);
    try done. simpl. by rewrite insert_insert_eq.
Qed.

Lemma wp_fill_loop F a vm n sb fuel : forall mps w Q,
  let c := bufs w in let bs := take (length mps) (image_mds c n) in
  loading F a vm n mps bs (mount_elems bs) w -> (length mps <= n)%nat -> Z.of_nat n < 2 ^ 31 ->
  md_array_size w = Z.of_nat n -> image_ok c n -> (n - length mps < fuel)%nat ->
  (forall mps' w', loading F a vm n mps' (image_mds c n) (mount_elems (image_mds c n)) w' ->
     same_globals w w' -> Q None w') ->
  wp (fill_loop fuel sb (Z.of_nat (length mps))) Q w.
Proof.
  induction fuel as [|fuel IH]; intros mps w Q c bs Hld Hle Hn Hsz Hok Hf HQ; [lia|].
  assert (Hbs : length bs = length mps) by (unfold bs; rewrite length_take, length_image_mds; lia).
  destruct (decide (length mps = n)) as [Heq|Hne].
  { simpl. wp_run. rewrite Hsz, u64_small, (proj2 (Z.ltb_ge _ _)) by lia. simpl. wp_step.
    assert (Hall : bs = image_mds c n) by (unfold bs; apply take_ge; rewrite length_image_mds; lia).
    rewrite Hall in Hld. by apply (HQ mps). }
  destruct (Hok (length mps)) as (blk & Hblk & _); [lia|].
  rewrite <- Hbs in *. eapply (wp_fill_step F a vm n mps bs _ w sb fuel blk Q); try done; try lia.
  intros l w' Hld' Hg'. assert (Hc : bufs w' = c) by (unfold same_globals in Hg'; by destruct_and!).
  assert (Hl' : length (mps ++ [l]) = S (length bs)) by (rewrite length_app; simpl; lia).
  assert (Hbs' : bs ++ [decode_block blk] = take (length (mps ++ [l])) (image_mds (bufs w') n)).
  { rewrite Hl', Hc, image_mds_snoc by lia. rewrite Hblk. simpl. f_equal.
    by rewrite Hbs. }
  rewrite <- Hl'. apply IH.
  - rewrite <- Hbs', mount_elems_snoc. exact Hld'.
  - lia.
  - done.
  - unfold same_globals in Hg'. destruct_and!. congruence.
  - by rewrite Hc.
  - lia.
  - intros mps' w2 Hld2 Hg2. rewrite Hc in Hld2. eapply HQ; [exact Hld2|by etrans].
Qed.
(** ** fill_super() *)

Lemma elems_at_last h ps es :
  elems_at h ps es ->
  (last ps = None /\ last es = None) \/
  exists p e, last ps = Some p /\ last es = Some e /\ h !! p = Some (OElem e).
Proof.
  intros Hel. destruct es as [|e es _] using rev_ind.
  - inversion Hel. by left.
  - apply Forall2_app_inv_r in Hel as (ps1 & ps2 & _ & H2 & ->).
    apply Forall2_cons_inv_r in H2 as (p & ps3 & Hp & H3 & ->).
    inversion H3; subst. right. exists p, e. by rewrite !last_snoc.
Qed.

Definition last_of (es : list rcu_elem) (n : Z) : Z :=
  match last es with Some e => ndx e | None => u32 (u64 (n - 1)) end.

Lemma wp_init_last_written es w Q :
  elems_at (heap w) (rl_nodes (valid_blk_list w)) es ->
  Q tt (set_last_written_block (last_of es (md_array_size w)) w) -> wp init_last_written Q w.
Proof.
  intros Hel HQ. unfold init_last_written. do 4 wp_step. unfold last_of in HQ.
  destruct (elems_at_last _ _ _ Hel) as [[-> He]|(p & e & -> & He & Hp)]; rewrite He in HQ.
  - by wp_step.
  - wp_step. eapply wp_load_elem; [exact Hp|]. by wp_step.
Qed.

(** The state fill_super() starts from. *)
Definition unmounted (w : world) : Prop :=
  bldms_mounted w = 0 /\ rl_nodes (valid_blk_list w) = [] /\ unlocked w /\
  metadata_array w = None /\ the_dev_superblock w = None /\
  forall l, (brk w <= l)%positive -> heap w !! l = None.

Lemma dev_inv_loaded F a vm n mps c w :
  loading F a vm n mps (image_mds c n) (mount_elems (image_mds c n)) w ->
  vm = array_is_big (Z.of_nat n) -> image_ok c n -> bufs w = c -> Z.of_nat n <= NBLOCKS ->
  bldms_mounted w = 1 -> md_array_size w = Z.of_nat n ->
  last_written_block w = last_of (mount_elems (image_mds c n)) (Z.of_nat n) ->
  dev_inv F w (image_store c n).
Proof.
  intros Hld Hvm Hok Hc Hn Hm Hsz Hlast. pose proof NBLOCKS_range as HNB.
  destruct (mount_elems_spec (image_mds c n)) as [Hs Hp].
  exists a, vm, mps, (image_mds c n), (mount_elems (image_mds c n)). split.
  - apply loading_done; by rewrite length_image_mds.
  - rewrite Hc. split; [|exact Hp|exact Hs]. intros i b. by apply block_rep_image.
  - split; rewrite ?length_image_mds; try done.
    + intros Hne. rewrite Hlast. unfold last_of, image_store. simpl.
      destruct (last (mount_elems (image_mds c n))) as [e|] eqn:Hl.
      * apply last_Some_elem_of in Hl. rewrite Hp in Hl.
        apply elem_of_valid_from in Hl as (i & b & _ & _ & ->). simpl. lia.
      * rewrite u64_small, u32_small by lia. lia.
    + intros i. rewrite Hc. apply image_msgs_lookup.
  - by apply image_store_wf.
Qed.

Lemma wp_load_blocks w sb iblk Q :
  let n := Z.to_nat (inode_file_size iblk / DEFAULT_BLOCK_SIZE) in
  unmounted w -> b_data (bufs w) BLDMS_INODES_BLOCK_NUMBER = Some iblk ->
  inode_file_size iblk <= NBLOCKS * DEFAULT_BLOCK_SIZE -> image_ok (bufs w) n ->
  (forall w', dev_inv (heap w) w' (image_store (bufs w) n) -> unlocked w' ->
     bufs w' = bufs w -> bh_refs w' = bh_refs w -> module_refs w' = module_refs w ->
     the_dev_superblock w' = None -> Q 0 w') ->
  wp (load_blocks sb) Q w.
Proof.
  intros n (Hm & Hnil & [Hlk Hrd] & Hma & Hsb & Hfr) Hib Hsz Hok HQ. pose proof NBLOCKS_range as HNB.
  assert (Hpos : 0 <= inode_file_size iblk) by apply le_combine_bound.
  assert (Hn : inode_file_size iblk / DEFAULT_BLOCK_SIZE = Z.of_nat n).
  { unfold n. rewrite Z2Nat.id; [done|]. by apply Z.div_pos. }
  assert (Hle : Z.of_nat n <= NBLOCKS).
  { rewrite <- Hn. apply Z.div_le_upper_bound; unfold DEFAULT_BLOCK_SIZE in *; lia. }
  unfold load_blocks. wp_step. eapply wp_sb_bread_always; [exact Hib|].
  rewrite decide_False by done. wp_step. eapply wp_bh_data; [exact Hib|].
  rewrite (proj2 (Z.ltb_ge _ _)) by done. rewrite Hn. wp_run. unfold alloc_array.
  apply wp_kzalloc_always. wp_run. rewrite decide_False by done. wp_run. rewrite Nat2Z.id.
  set (w1 := set_lock false _). set (a := brk w).
  assert (Hld : loading (heap w) a (array_is_big (Z.of_nat n)) n [] [] [] w1).
  { split; simpl; unfold list_holds; simpl; rewrite ?Hnil; try done.
    - rewrite Nat.sub_0_r. apply lookup_insert_eq.
    - split; constructor.
    - constructor.
    - intros l. unfold footprint. simpl. rewrite Hnil, elem_of_cons. intros [->|Hl]; [|set_solver].
      apply Hfr. unfold a. simpl. lia.
    - intros l Hl. apply lookup_insert_ne. intros <-. apply Hl. by left.
    - intros l Hl. rewrite lookup_insert_ne by lia. apply Hfr. lia.
    - intros l. unfold footprint. simpl. rewrite Hnil, elem_of_cons. intros [->|Hl]; [|set_solver].
      rewrite lookup_insert_eq. eauto. }
  assert (H0 : (0 <= n)%nat) by lia. change 0 with (Z.of_nat (length (@nil loc))).
  eapply (wp_fill_loop _ a _ n sb _ [] w1); try done; simpl; try lia.
  intros mps w2 Hld2 Hg2. change (bufs w1) with (bufs w) in Hld2.
  unfold same_globals in Hg2. simpl in Hg2. destruct_and!.
  destruct (ld_list _ _ _ _ _ _ _ _ Hld2) as [_ Hel].
  wp_step. eapply wp_init_last_written; [exact Hel|]. wp_run.
  apply HQ; simpl; try congruence; [|by split; simpl; congruence|lia].
  eapply (dev_inv_loaded _ a _ n mps (bufs w)); simpl; try done; [..|congruence].
  destruct Hld2. by split.
Qed.

(** The checks on the superblock and the inode of the root. *)
Hypothesis iget_always : forall n, iget_locked n <> None.
Hypothesis d_make_root_always : forall n, d_make_root_ok n = true.

Lemma wp_fill_super w sb sblk iblk Q :
  let n := Z.to_nat (inode_file_size iblk / DEFAULT_BLOCK_SIZE) in
  unmounted w -> b_data (bufs w) SB_BLOCK_NUMBER = Some sblk -> sb_info_magic sblk = MAGIC ->
  b_data (bufs w) BLDMS_INODES_BLOCK_NUMBER = Some iblk ->
  inode_file_size iblk <= NBLOCKS * DEFAULT_BLOCK_SIZE -> image_ok (bufs w) n ->
  (forall w', dev_inv (heap w) w' (image_store (bufs w) n) -> unlocked w' ->
     bufs w' = bufs w -> bh_refs w' = bh_refs w -> module_refs w' = module_refs w ->
     the_dev_superblock w' = None -> Q 0 w') ->
  wp (bldms_fs_fill_super sb) Q w.
Proof.
  intros n (Hm & Hnil & [Hlk Hrd] & Hma & Hsb & Hfr) Hs Hmg Hib Hsz Hok HQ.
  unfold bldms_fs_fill_super. wp_step. eapply wp_sb_bread_always; [exact Hs|].
  wp_step. eapply wp_bh_data; [exact Hs|]. wp_run. simpl. rewrite Hmg. simpl.
  apply wp_bind, wp_answer. intros k. rewrite decide_False by done.
  apply wp_bind, wp_answer. intros k'. rewrite d_make_root_always. simpl.
  eapply (wp_load_blocks _ _ iblk); try done; simpl.
  intros w' Hi Hu Hb Hbh Hmr Hsb'. apply HQ; try done. lia.
Qed.

Lemma wp_bldms_fs_mount {V : Vfs K} {VL : VfsLaws K V} w sblk iblk sb' :
  let n := Z.to_nat (inode_file_size iblk / DEFAULT_BLOCK_SIZE) in
  unmounted w -> b_data (bufs w) SB_BLOCK_NUMBER = Some sblk -> sb_info_magic sblk = MAGIC ->
  b_data (bufs w) BLDMS_INODES_BLOCK_NUMBER = Some iblk ->
  inode_file_size iblk <= NBLOCKS * DEFAULT_BLOCK_SIZE -> image_ok (bufs w) n ->
  (forall k, blkdev_get_by_path k = Some (Some sb')) -> s_bdev sb' = true ->
  wp bldms_fs_mount
    (fun r w' => r = inr tt /\ dev_inv (heap w) w' (image_store (bufs w) n) /\ unlocked w' /\
       the_dev_superblock w' = Some sb' /\ bufs w' = bufs w /\ bh_refs w' = bh_refs w) w.
Proof.
  intros n Hu Hs Hmg Hib Hsz Hok Hbd Hbdev. unfold bldms_fs_mount. wp_run.
  destruct Hu as (Hm & Hu). rewrite Hm. simpl.
  destruct (mount_bdev_runs bldms_fs_fill_super bldms_fs_kill_sb) as [sb ->].
  do 2 apply wp_bind. eapply (wp_fill_super _ _ sblk iblk); try done.
  intros w1 Hi1 Hu1 Hb1 Hbh1 _ _. simpl. wp_step. apply wp_bind, wp_answer. intros k. rewrite Hbd.
  wp_run. simpl. rewrite Hbdev. rewrite bool_decide_true by done. wp_step.
  split_and!; try done. by apply (dev_inv_ext _ w1).
Qed.
(** C13: mounting a formatted device builds a state that represents exactly the
    messages stored on it: the metadata array has the metadata of every block,
    the list holds the valid blocks, and them only, in timestamp order, the next
    write starts after the newest message, and the memory that was allocated
    before is untouched. The device can then be used by the system calls. *)
Theorem mount_represents_device {V : Vfs K} {VL : VfsLaws K V} w sblk iblk sb' :
  let n := Z.to_nat (inode_file_size iblk / DEFAULT_BLOCK_SIZE) in
  unmounted w -> b_data (bufs w) SB_BLOCK_NUMBER = Some sblk -> sb_info_magic sblk = MAGIC ->
  b_data (bufs w) BLDMS_INODES_BLOCK_NUMBER = Some iblk ->
  inode_file_size iblk <= NBLOCKS * DEFAULT_BLOCK_SIZE -> image_ok (bufs w) n ->
  (forall k, blkdev_get_by_path k = Some (Some sb')) -> s_bdev sb' = true ->
  wp bldms_fs_mount
    (fun r w' => r = inr tt /\ dev_inv (heap w) w' (image_store (bufs w) n) /\ unlocked w' /\
       the_dev_superblock w' = Some sb' /\ bufs w' = bufs w /\ bh_refs w' = bh_refs w) w.
Proof. by apply wp_bldms_fs_mount. Qed.
End Load.

(** ** Refused mounts *)

(** free_data_structures() when the list is empty: everything is reset and the
    array, if there is one, is freed. *)
Lemma wp_free_data_structures_unmounted w Q :
  unmounted w ->
  (forall w', heap w' = heap w -> unlocked w' -> bufs w' = bufs w -> bh_refs w' = bh_refs w ->
     rl_nodes (valid_blk_list w') = [] -> bldms_mounted w' = 0 -> metadata_array w' = None ->
     md_array_size w' = 0 -> the_dev_superblock w' = None -> Q tt w') ->
  wp free_data_structures Q w.
Proof.
  intros (Hm & Hnil & [Hlk Hrd] & Hma & Hsb & Hfr) HQ.
  unfold free_data_structures, remove_all_entries_secure, free_array. wp_run.
  simpl. rewrite Hnil. simpl. wp_run. simpl. rewrite Hma.
  apply (wp_mono _ (fun _ w1 => w1 = set_lock true w)).
  { destruct (array_is_big (md_array_size w)); done. }
  intros _ w1 ->. wp_run. by apply HQ.
Qed.

(** C27: a mount is refused, and leaves no trace in memory, when a device is already
    mounted (EBUSY), when the magic number is wrong (EBADF) and when the device
    has more than NBLOCKS blocks (E2BIG); in the last case the buffer of the inode
    block is never released. *)
Theorem mount_refused {V : Vfs K} {VL : VfsLaws K V} w sblk iblk :
  (forall n, bread_ok n = true) -> (forall n, iget_locked n <> None) ->
  (forall n, d_make_root_ok n = true) ->
  b_data (bufs w) SB_BLOCK_NUMBER = Some sblk ->
  b_data (bufs w) BLDMS_INODES_BLOCK_NUMBER = Some iblk ->
  (bldms_mounted w <> 0 -> bldms_fs_mount w = Ret (inl (- EBUSY)) w) /\
  (unmounted w -> sb_info_magic sblk <> MAGIC ->
     wp bldms_fs_mount (fun r w' => r = inl (- EBADF) /\ heap w' = heap w /\ unlocked w' /\
       bldms_mounted w' = 0 /\ bh_refs w' = bh_refs w) w) /\
  (unmounted w -> sb_info_magic sblk = MAGIC ->
     NBLOCKS * DEFAULT_BLOCK_SIZE < inode_file_size iblk ->
     wp bldms_fs_mount (fun r w' => r = inl (- E2BIG) /\ heap w' = heap w /\ unlocked w' /\
       bldms_mounted w' = 0 /\ bh_refs w' = bh_refs w + 1) w).
Proof.
  intros Hbr Hig Hdm Hs Hib. split_and!.
  - intros Hm%Z.eqb_neq. unfold bldms_fs_mount, bind, gets. by rewrite Hm.
  - intros Hu Hmg%Z.eqb_neq. unfold bldms_fs_mount. wp_run. rewrite (proj1 Hu). simpl.
    destruct (mount_bdev_runs bldms_fs_fill_super bldms_fs_kill_sb) as [sb ->].
    do 2 apply wp_bind. unfold bldms_fs_fill_super. wp_step.
    eapply wp_sb_bread_always; [done|exact Hs|]. wp_step. eapply wp_bh_data; [exact Hs|].
    wp_run. simpl. rewrite Hmg. simpl. wp_step. simpl. wp_step.
    eapply wp_free_data_structures_unmounted.
    { destruct Hu as (? & ? & ? & ? & ? & Hfr). unfold unmounted; simpl. split_and!; done. }
    intros w' Hh Hu' _ Hbh _ Hm' _ _ _. wp_run. split_and!; try done. rewrite Hbh. simpl. lia.
  - intros Hu Hmg Hbig%Z.ltb_lt. unfold bldms_fs_mount. wp_run. rewrite (proj1 Hu). simpl.
    destruct (mount_bdev_runs bldms_fs_fill_super bldms_fs_kill_sb) as [sb ->].
    do 2 apply wp_bind. unfold bldms_fs_fill_super. wp_step.
    eapply wp_sb_bread_always; [done|exact Hs|]. wp_step. eapply wp_bh_data; [exact Hs|].
    wp_run. simpl. rewrite Hmg. simpl. apply wp_bind, wp_answer. intros k. rewrite decide_False by done.
    apply wp_bind, wp_answer. intros k'. rewrite Hdm. simpl. unfold load_blocks. wp_step.
    eapply wp_sb_bread_always; [done|exact Hib|]. rewrite decide_False by done.
    wp_step. eapply wp_bh_data; [exact Hib|]. rewrite Hbig. wp_step. simpl. wp_step.
    eapply wp_free_data_structures_unmounted.
    { destruct Hu as (? & ? & ? & ? & ? & Hfr). unfold unmounted; simpl. split_and!; done. }
    intros w' Hh Hu' _ Hbh _ Hm' _ _ _. wp_run. split_and!; try done. rewrite Hbh. simpl. lia.
Qed.
(** ** Unmounting *)

(** C34: unmounting a device that holds at least one message reads freed memory:
    kill_sb() empties the list with remove_all_entries_secure(). *)
Theorem unmount_use_after_free F w s sb i m :
  dev_inv F w s -> unlocked w -> s_msgs s !! i = Some m ->
  exists p, bldms_fs_kill_sb sb w = Fault (BadAccess p).
Proof.
  intros Hi [Hlk Hrd] Hm. destruct Hi as (a & vm & mps & bs & es & [Hmem Hlog Hg _]).
  destruct (fault_remove_all (set_lock true w) es) as (p & ps & _ & Hf); [..|done| |].
  - apply (dm_list _ _ _ _ _ _ _ Hmem).
  - intros ->. rewrite (dg_msgs _ _ _ Hg) in Hm. unfold msg_at in Hm.
    destruct (bs !! i) as [b|] eqn:Hb; [|done]. destruct (b_data _ _) as [blk|]; [|done].
    unfold msg_of in Hm. destruct (is_valid b =? BLK_VALID) eqn:Hv; [|done]. reflect_bools.
    assert (elem_of_block i b ∈ valid_from 0 bs) as Hin by (apply elem_of_valid_from; by exists i, b).
    rewrite <- (dl_elems _ _ _ Hlog) in Hin. by apply not_elem_of_nil in Hin.
  - exists p. unfold bldms_fs_kill_sb, free_data_structures. fault_step; [done|].
    unfold bind. by rewrite Hf.
Qed.

(** C36: unmounting an empty device succeeds and resets the driver, but the metadata
    of every block stay allocated although nothing refers to them any more: one
    object per block is lost at each unmount. *)
Theorem unmount_leaks_metadata F w s sb :
  dev_inv F w s -> unlocked w -> s_msgs s = ∅ ->
  wp (bldms_fs_kill_sb sb)
    (fun _ w' => bldms_mounted w' = 0 /\ metadata_array w' = None /\ the_dev_superblock w' = None /\
       unlocked w' /\ exists mps, length mps = s_cap s /\ NoDup mps /\
         forall p, p ∈ mps -> F !! p = None /\ exists b, heap w' !! p = Some (OBlk b)) w.
Proof.
  intros (a & vm & mps & bs & es & [Hmem Hlog Hg _]) [Hlk Hrd] Hs.
  assert (Hnil : rl_nodes (valid_blk_list w) = []).
  { destruct (dm_list _ _ _ _ _ _ _ Hmem) as [_ Hel]. assert (es = []) as ->; [|by inversion Hel].
    destruct es as [|e es]; [done|]. exfalso. assert (He : e ∈ e :: es) by (by left).
    rewrite (dl_elems _ _ _ Hlog) in He. apply elem_of_valid_from in He as (i & b & Hb & Hv & ->).
    pose proof (msg_at_valid (bufs w) bs i b (dl_blocks _ _ _ Hlog) Hb) as [Hf _].
    rewrite <- (dg_msgs _ _ _ Hg), Hs in Hf. rewrite Hf in Hv by apply lookup_empty. done. }
  pose proof (dm_array_not_block _ _ _ _ _ _ _ Hmem) as Ham.
  unfold bldms_fs_kill_sb, free_data_structures, remove_all_entries_secure, free_array.
  wp_run. simpl. rewrite Hnil. simpl. wp_run. simpl. rewrite (dm_array _ _ _ _ _ _ _ Hmem).
  rewrite (dg_size _ _ _ Hg), <- (dm_vm _ _ _ _ _ _ _ Hmem).
  apply (wp_mono _ (fun _ w1 => w1 = set_heap (delete a (heap w)) (set_lock true w))).
  { pose proof (dm_heap_array _ _ _ _ _ _ _ Hmem) as Hha.
    destruct vm; by eapply wp_free_with. }
  intros _ w1 ->. wp_run. split_and!; try done. exists mps. split_and!.
  - rewrite (dg_cap _ _ _ Hg). by eapply dm_length.
  - by eapply dm_nodup.
  - intros p Hp. split; [eapply (dm_owned _ _ _ _ _ _ _ Hmem); auto with bldms|].
    apply list_elem_of_lookup in Hp as Hj. destruct Hj as [j Hj].
    destruct (Forall2_lookup_l _ _ _ _ _ (dm_blocks _ _ _ _ _ _ _ Hmem) Hj) as (b & _ & Hb).
    exists b. simpl. rewrite lookup_delete_ne; [done|]. by intros ->.
Qed.

(** The label [err_and_clean_rcu] reached on the first block. *)
Lemma wp_err_first_block w a vm ps l b Q :
  metadata_array w = Some a -> heap w !! a = Some (OArr vm (Some l :: ps)) ->
  heap w !! l = Some (OBlk b) -> vm = array_is_big (md_array_size w) ->
  rl_nodes (valid_blk_list w) = [] ->
  Q (- EIO) (set_heap (delete a (delete l (heap w))) w) -> wp (err_and_clean_rcu (- EIO) 0) Q w.
Proof.
  intros Ha Hha Hl Hvm Hnil HQ. assert (a <> l) by congruence.
  unfold err_and_clean_rcu, free_array. wp_run. rewrite Hnil. simpl. wp_run. simpl.
  change 0 with (Z.of_nat 0). eapply wp_md_slot; [exact Ha|exact Hha|done|]. wp_run. simpl. wp_run.
  simpl. rewrite Ha, <- Hvm. apply (wp_mono _ (fun _ w1 => w1 = set_heap (delete a (delete l (heap w))) w)).
  { destruct vm; (eapply wp_free_with; [simpl; by rewrite lookup_delete_ne|done|done]). }
  intros _ w1 ->. by wp_step.
Qed.

Section FailedMount.
Hypothesis kzalloc_always : forall n, kzalloc_ok n = true.
Hypothesis bread_always : forall n, bread_ok n = true.
Hypothesis iget_always : forall n, iget_locked n <> None.
Hypothesis d_make_root_always : forall n, d_make_root_ok n = true.

Lemma wp_load_blocks_eio w sb iblk Q :
  unmounted w -> b_data (bufs w) BLDMS_INODES_BLOCK_NUMBER = Some iblk ->
  DEFAULT_BLOCK_SIZE <= inode_file_size iblk <= NBLOCKS * DEFAULT_BLOCK_SIZE ->
  b_data (bufs w) NUM_METADATA_BLKS = None ->
  (forall w' a, metadata_array w' = Some a -> heap w' !! a = None -> unlocked w' ->
     rl_nodes (valid_blk_list w') = [] -> Q (- EIO) w') ->
  wp (load_blocks sb) Q w.
Proof.
  intros (Hm & Hnil & [Hlk Hrd] & Hma & Hsb & Hfr) Hib Hsz Hno HQ.
  pose proof NBLOCKS_range as HNB. unfold DEFAULT_BLOCK_SIZE in Hsz.
  set (n := inode_file_size iblk / DEFAULT_BLOCK_SIZE).
  assert (Hn : 0 < n < 2 ^ 19).
  { unfold n, DEFAULT_BLOCK_SIZE. split; [apply Z.div_str_pos; lia|apply Z.div_lt_upper_bound; lia]. }
  unfold load_blocks. wp_step. eapply wp_sb_bread_always; [done|exact Hib|].
  rewrite decide_False by done. wp_step. eapply wp_bh_data; [exact Hib|].
  rewrite (proj2 (Z.ltb_ge _ _)) by (unfold DEFAULT_BLOCK_SIZE; lia). fold n. wp_run. unfold alloc_array.
  apply wp_kzalloc_always; [done|]. wp_run. rewrite decide_False by done. wp_run. simpl.
  wp_run. simpl. rewrite u64_small, (proj2 (Z.ltb_lt _ _)) by lia. simpl. wp_step.
  apply wp_sb_bread; simpl; [intros _ Hx|intros _].
  { change (is_Some (b_data (bufs w) NUM_METADATA_BLKS)) in Hx. rewrite Hno in Hx. by destruct Hx. }
  wp_step. apply wp_kzalloc_always; [done|]. simpl. wp_step.
  assert (Hlen : exists k, Z.to_nat n = S k) by (exists (pred (Z.to_nat n)); lia).
  destruct Hlen as [k Hk]. rewrite Hk. simpl.
  change (set_md_slot 0) with (set_md_slot (Z.of_nat 0)).
  eapply wp_set_md_slot; simpl; [done|rewrite lookup_insert_ne by lia; apply lookup_insert_eq|simpl; lia|].
  wp_run.
  eapply (wp_err_first_block _ (brk w)); simpl; [done|apply lookup_insert_eq| |done|done|].
  { rewrite lookup_insert_ne by lia. apply lookup_insert_eq. }
  eapply HQ; simpl; [done|apply lookup_delete_eq|done|done].
Qed.

End FailedMount.
End MountOk.

(** ** Witnesses *)

#[local] Existing Instance sample_config.

(** A VFS that mounts one superblock. *)
#[export] Instance ref_vfs (K : Kernel) : Vfs K := {
  mount_bdev fill kill :=
    let* r := fill (SB 0 true) in if r =? 0 then ret (inr tt) else kill (SB 0 true) ;;; ret (inl r)
}.

#[export] Instance ref_vfs_laws K : VfsLaws K (ref_vfs K).
Proof. split. intros fill kill. by exists (SB 0 true). Qed.

Definition sample_sblk : list byte := encode_sb_info (SbInfo 1 MAGIC (zeros 4080)).
Definition sample_iblk : list byte := encode_inode (Inode 0 (zeros 4) 1 0 12288) ++ zeros 4064.
Definition bad_iblk : list byte := encode_inode (Inode 0 (zeros 4) 1 0 (4096 * 1001)) ++ zeros 4064.

(** Nothing is mounted and the device holds [blocks]. *)
Definition fresh_world (blocks : list (list byte)) : @world good_kernel := {|
  calls := 0; brk := 1; heap := ∅; rcu_write_lock := false; rcu_readers := 0; bh_refs := 0;
  valid_blk_list := RefList [] ∅ : @rlist good_kernel;
  bufs := ref_cache_of blocks : @bcache good_kernel; bldms_mounted := 0;
  metadata_array := None; md_array_size := 0; last_written_block := 0;
  the_dev_superblock := None; module_refs := 0
|}.

Definition sample_device : list (list byte) :=
  [sample_sblk; sample_iblk; zeros 4096; sample_blk; zeros 4096].

Lemma fresh_unmounted blocks : unmounted (fresh_world blocks).
Proof. done. Qed.

Lemma sample_device_ok : image_ok (K := good_kernel) (bufs (fresh_world sample_device)) 3.
Proof.
  intros i Hi. destruct i as [|[|[|i]]]; [..|lia]; eexists; (split; [by vm_compute|split; [by vm_compute|]]);
    by vm_compute.
Qed.

Lemma mount_represents_device_witness :
  wp (K := good_kernel) bldms_fs_mount
    (fun r w' => r = inr tt /\ exists s, dev_inv ∅ w' s /\ s_cap s = 3%nat /\ s_last s = 1%nat /\
       s_msgs s !! 1%nat = Some (Msg 100 sample_data)) (fresh_world sample_device).
Proof.
  eapply wp_mono.
  - apply (mount_represents_device (K := good_kernel) (fun _ => eq_refl) (fun _ => eq_refl)
      (fun n => ltac:(by intros [=])) (fun _ => eq_refl) (fresh_world sample_device)
      sample_sblk sample_iblk (SB MAGIC true)); try done; try (by vm_compute).
    exact sample_device_ok.
  - intros r w' (-> & Hi & _). split; [done|]. eexists. split; [exact Hi|].
    split_and!; by vm_compute.
Defined.

Lemma mount_refused_witness :
  bldms_fs_mount (K := good_kernel) good_world = Ret (inl (- EBUSY)) good_world /\
  wp (K := good_kernel) bldms_fs_mount (fun r w' => r = inl (- EBADF))
    (fresh_world [zeros 4096; sample_iblk]) /\
  wp (K := good_kernel) bldms_fs_mount (fun r w' => r = inl (- E2BIG) /\ bh_refs w' = 1)
    (fresh_world [sample_sblk; bad_iblk]).
Proof.
  assert (Hig : forall n, iget_locked (Kernel := good_kernel) n <> None) by done.
  split_and!.
  - destruct (mount_refused (K := good_kernel) good_world (zeros 4096) (zeros 4096)) as (H & _);
      [done|done|done|by vm_compute|by vm_compute|]. by apply H.
  - destruct (mount_refused (fresh_world [zeros 4096; sample_iblk]) (zeros 4096) sample_iblk)
      as (_ & H & _); [done|done|done|by vm_compute|by vm_compute|].
    eapply wp_mono; [apply H; [done|by vm_compute]|]. by intros r w' (-> & _).
  - destruct (mount_refused (fresh_world [sample_sblk; bad_iblk]) sample_sblk bad_iblk)
      as (_ & _ & H); [done|done|done|by vm_compute|by vm_compute|].
    eapply wp_mono; [apply H; [done|by vm_compute|by vm_compute]|].
    by intros r w' (-> & _ & _ & _ & Hbh).
Defined.

Lemma unmount_use_after_free_witness :
  exists p, bldms_fs_kill_sb (K := good_kernel) (SB MAGIC true) good_world = Fault (BadAccess p).
Proof.
  apply (unmount_use_after_free ∅ good_world sample_store (SB MAGIC true) 1 (Msg 100 sample_data));
    [exact good_world_inv|done|done].
Defined.


Definition empty_device : list (list byte) :=
  [sample_sblk; sample_iblk; zeros 4096; zeros 4096; zeros 4096].

Lemma empty_device_ok : image_ok (K := good_kernel) (bufs (fresh_world empty_device)) 3.
Proof.
  intros i Hi. destruct i as [|[|[|i]]]; [..|lia]; eexists; (split; [by vm_compute|split; [by vm_compute|]]);
    by vm_compute.
Qed.

(** Mounting and unmounting an empty device of three blocks. *)
Lemma unmount_leaks_metadata_witness :
  exists w, wp (K := good_kernel) (bldms_fs_kill_sb (SB MAGIC true))
    (fun _ w' => exists mps, length mps = 3%nat /\ NoDup mps /\
       forall p, p ∈ mps -> exists b, heap w' !! p = Some (OBlk b)) w.
Proof.
  destruct (wp_elim bldms_fs_mount (fun r w => dev_inv ∅ w
    (image_store (bufs (fresh_world empty_device)) 3) /\ unlocked w) (fresh_world empty_device))
    as (r & w & _ & Hi & Hu).
  { eapply wp_mono.
    - apply (wp_bldms_fs_mount (K := good_kernel) (fun _ => eq_refl) (fun _ => eq_refl)
        (fun n => ltac:(by intros [=])) (fun _ => eq_refl) (fresh_world empty_device)
        sample_sblk sample_iblk (SB MAGIC true)); try done; try (by vm_compute).
      exact empty_device_ok.
    - intros r w' (_ & Hi & Hu & _). split; [exact Hi|done]. }
  exists w. eapply wp_mono.
  - apply (unmount_leaks_metadata ∅ w (image_store (bufs (fresh_world empty_device)) 3) (SB MAGIC true));
      [exact Hi|exact Hu|by vm_compute].
  - intros _ w' (_ & _ & _ & _ & mps & Hl & Hnd & Hm). exists mps. split_and!; [done|done|].
    intros p Hp. apply (Hm p Hp).
Defined.
