(* ===== verification/Makefs.v ===== *)
(** * The formatter (bldmsmakefs.c)

    main() writes the image of a device from its start to its end: the
    superblock, the inode of the single file and the data blocks.  write() is
    answered by the operating system, and may write less than it is asked to. *)
From stdpp Require Import strings.
From S2P Require Import Prelude Layout Kernel KernelFacts Rcu Store Device Mount MountOk Sample.

(** ** Output and early exit *)

(** What has been written so far, and the number of calls to write(). *)
Record output := Output { out_calls : nat; out_bytes : list byte }.

(** A step goes on or makes main() return. *)
Definition W (A : Type) : Type := output -> (Z + A) * output.
Definition w_ret {A} (a : A) : W A := fun o => (inr a, o).
Definition w_exit {A} (code : Z) : W A := fun o => (inl code, o).
Definition w_bind {A B} (m : W A) (k : A -> W B) : W B := fun o =>
  match m o with
  | (inl code, o') => (inl code, o')
  | (inr a, o') => k a o'
  end.
Notation "'do' x <- m ; k" := (w_bind m (fun x => k))
  (at level 10, x name, m at level 100, k at level 200) : bldms_scope.

(** The operating system: how many bytes the n-th write() of [count] bytes
    writes (or a negative number), and the time of day in nanoseconds. *)
Class Os := { write_answer : nat -> Z -> Z; realtime : nat -> Z }.

(** The bytes main() leaves uninitialised: the padding of the superblock, the
    alignment and the unused field of the inode and the malloc()ed padding. *)
Record junk := Junk {
  j_sb_padding : list byte; j_inode_pad : list byte; j_data_block_number : Z;
  j_block_padding : list byte
}.

Definition junk_ok (j : junk) : Prop :=
  length (j_sb_padding j) = 4080%nat /\ length (j_inode_pad j) = 4%nat /\
  length (j_block_padding j) = 4064%nat.

Section Makefs.
Context {OS : Os}.

Definition write (bs : list byte) : W Z := fun o =>
  let r := write_answer (out_calls o) (Z.of_nat (length bs)) in
  (inr r, Output (S (out_calls o)) (out_bytes o ++ take (Z.to_nat r) bs)).

(** write() of [bs] with a check of the result; [err ret] is returned on a mismatch. *)
Definition write_all (bs : list byte) (err : Z -> Z) : W unit :=
  do r <- write bs;
  if r =? Z.of_nat (length bs) then w_ret tt else w_exit (err r).

Definition S_IFREG_user : Z := 0x8000.
Definition BILLION : Z := 1000000000.

(** The messages of FILL_DEV, with the newline that ends them. *)
Definition cstring (s : string) : list byte := String.list_byte_of_string s ++ [Byte.x0a].
Definition preset (i : nat) : option (list byte) :=
  match i with
  | 0 => Some (cstring "This is the message present at the first block, but with a timestamp of 100 seconds greater than the original"%string)
  | 5 => Some (cstring "Hello, I am a message present in block number 5!"%string)
  | 9 => Some (cstring "This is message for block 9, with timestamp of 9 seconds greater than it should be :)"%string)
  | 17 => Some (cstring "Hi there, this is message from block number 17 and my timestamp has been increased exactly of 17 seconds ;)"%string)
  | 22 => Some (cstring "I'm just a normal message put in block 22, but at least by block number is palindrome :)"%string)
  | _ => None
  end%nat.

(** The nanoseconds added to the current time in block [i]. *)
Definition preset_delay (i : nat) : Z :=
  match i with
  | 9 => (9 * BILLION)%Z | 17 => (17 * BILLION)%Z | 0 => (100 * BILLION)%Z | _ => 0%Z
  end%nat.

Definition minus_one (_ : Z) : Z := -1.

(** Lines 149-220: one data block. *)
Definition format_block (fill_dev : bool) (i : nat) : W unit :=
  let nbytes := (4096 - 10)%nat in
  let block_padding := zeros nbytes in
  match (if fill_dev then preset i else None) with
  | Some s =>
    let valid_bytes := u16 (Z.of_nat (length s) + 1) in
    let nsec := realtime i + preset_delay i in
    do _ <- write_all (encode_block (Blk nsec BLK_VALID valid_bytes)) minus_one;
    do _ <- write_all (take (Z.to_nat valid_bytes) (s ++ [Byte.x00])) minus_one;
    write_all (take (nbytes - Z.to_nat valid_bytes) block_padding) minus_one
  | None =>
    do _ <- write_all (encode_block (Blk 0 BLK_INVALID 0)) minus_one;
    write_all block_padding minus_one
  end.

(** Lines 148-221: the blocks from [i] on, [n] of them. *)
Fixpoint format_blocks (fill_dev : bool) (n i : nat) : W unit :=
  match n with
  | O => w_ret tt
  | S n' => do _ <- format_block fill_dev i; format_blocks fill_dev n' (S i)
  end.

(** main() on an open image of [size] bytes: the exit code and what it has written. *)
Definition main (fill_dev : bool) (j : junk) (size : Z) : Z * list byte :=
  let sb_info := SbInfo 1 MAGIC (j_sb_padding j) in
  let file_size := u64 (size - 2 * DEFAULT_BLOCK_SIZE) in
  let file_inode := Inode S_IFREG_user (j_inode_pad j) BLDMS_SINGLEFILE_INODE_NUMBER
                      (j_data_block_number j) file_size in
  let num_data_blocks := u32 (file_size / DEFAULT_BLOCK_SIZE) in
  let run :=
    do _ <- write_all (encode_sb_info sb_info) (fun r => r);
    do _ <- write_all (encode_inode file_inode) minus_one;
    do _ <- write_all (j_block_padding j) minus_one;
    do _ <- format_blocks fill_dev (Z.to_nat num_data_blocks) 0;
    w_ret 0 in
  match run (Output 0 []) with
  | (inl code, o) | (inr code, o) => (code, out_bytes o)
  end.

(** main() with its arguments, lines 66-80; [open_image] is the size of the file
    that open() finds under a path. *)
Definition makefs (fill_dev : bool) (j : junk) (argv : list string) (open_image : string -> option Z)
    : Z * list byte :=
  if negb (Z.of_nat (length argv) =? 2) then (-1, []) else
  match open_image (nth 1 argv EmptyString) with
  | None => (-1, [])
  | Some size => main fill_dev j size
  end.
End Makefs.

(** ** The blocks of an image *)

Definition block_at (image : list byte) (i : nat) : list byte :=
  take 4096 (drop (i * 4096) image).

(** The device [c] holds the image. *)
Definition device_holds {K : Kernel} (c : bcache) (image : list byte) : Prop :=
  forall i, ((i + 1) * 4096 <= length image)%nat -> b_data c (Z.of_nat i) = Some (block_at image i).

(** What a formatted block contains. *)
Definition formatted {OS : Os} (fill_dev : bool) (i : nat) : list byte :=
  match (if fill_dev then preset i else None) with
  | Some s => encode_block (Blk (realtime i + preset_delay i) BLK_VALID (Z.of_nat (length s) + 1))
                ++ s ++ [Byte.x00] ++ zeros (4085 - length s)
  | None => encode_block (Blk 0 BLK_INVALID 0) ++ zeros 4086
  end.

(** The store a formatted device represents. *)
Definition formatted_msg {OS : Os} (fill_dev : bool) (i : nat) : option message :=
  s ← (if fill_dev then preset i else None);
  Some (Msg (realtime i + preset_delay i) (s ++ [Byte.x00])).

(** ** Lemmas *)

(** Every write() writes all the bytes, and the clock does not overflow. *)
Class OsLaws (OS : Os) := {
  write_complete n k : write_answer n k = k;
  realtime_range i : 0 <= realtime i < 2 ^ 62
}.

Lemma block_at_concat bs i b :
  Forall (fun b => length b = 4096%nat) bs -> bs !! i = Some b -> block_at (concat bs) i = b.
Proof.
  intros Hall. revert i. induction Hall as [|x bs Hx Hall IH]; intros [|i] Hi; [done..| |].
  - injection Hi as ->. unfold block_at. rewrite Nat.mul_0_l, drop_0. cbn [concat].
    by rewrite take_app_le, take_ge by lia.
  - simpl in Hi. rewrite <- (IH i Hi). unfold block_at. cbn [concat].
    rewrite (drop_app_ge x) by lia. do 2 f_equal. lia.
Qed.

Lemma length_concat_blocks bs :
  Forall (fun b : list byte => length b = 4096%nat) bs -> length (concat bs) = (4096 * length bs)%nat.
Proof. induction 1 as [|b bs Hb _ IH]; [done|]. simpl concat. rewrite length_app, IH, Hb. simpl length. lia. Qed.

Lemma length_preset i s : preset i = Some s -> (length s < 200)%nat.
Proof. unfold preset. do 23 (destruct i as [|i]; [by intros [= <-]; vm_compute; lia || done|]). done. Qed.

Lemma preset_delay_range i : 0 <= preset_delay i <= 100 * BILLION.
Proof. unfold preset_delay, BILLION. repeat case_match; lia. Qed.

Section Format.
Context {OS : Os} {OL : OsLaws OS}.

Lemma run_write_all bs err o :
  write_all bs err o = (inr tt, Output (S (out_calls o)) (out_bytes o ++ bs)).
Proof.
  unfold write_all, write, w_bind. rewrite write_complete, Z.eqb_refl.
  unfold w_ret. rewrite Nat2Z.id, take_ge by done. done.
Qed.

Lemma length_formatted fill_dev i : length (formatted fill_dev i) = 4096%nat.
Proof.
  unfold formatted. destruct (if fill_dev then preset i else None) as [s|] eqn:Hs.
  - assert (length s < 200)%nat by (destruct fill_dev; [by eapply length_preset|done]).
    rewrite !length_app, length_encode_block, length_zeros. simpl. lia.
  - by rewrite length_app, length_encode_block, length_zeros.
Qed.

Lemma run_format_block fill_dev i o :
  exists o', format_block fill_dev i o = (inr tt, o') /\
    out_bytes o' = out_bytes o ++ formatted fill_dev i.
Proof.
  unfold format_block, formatted. destruct (if fill_dev then preset i else None) as [s|] eqn:Hs.
  - assert (Hl : (length s < 200)%nat) by (destruct fill_dev; [by eapply length_preset|done]).
    unfold w_bind. rewrite !run_write_all. eexists. split; [done|]. simpl out_bytes.
    unfold u16. rewrite Z.mod_small by lia.
    replace (Z.to_nat (Z.of_nat (length s) + 1)) with (length (s ++ [Byte.x00]))
      by (rewrite length_app; simpl; lia).
    rewrite (take_ge (s ++ _)) by done. unfold zeros. rewrite take_replicate, <- !app_assoc.
    do 4 f_equal. rewrite length_app. simpl. f_equal. lia.
  - unfold w_bind. rewrite !run_write_all. eexists. split; [done|]. simpl. by rewrite <- app_assoc.
Qed.

Lemma run_format_blocks fill_dev n : forall i o,
  exists o', format_blocks fill_dev n i o = (inr tt, o') /\
    out_bytes o' = out_bytes o ++ concat (formatted fill_dev <$> seq i n).
Proof.
  induction n as [|n IH]; intros i o; simpl.
  - exists o. by rewrite app_nil_r.
  - destruct (run_format_block fill_dev i o) as (o1 & Hr & Hb).
    unfold w_bind at 1. rewrite Hr. destruct (IH (S i) o1) as (o2 & -> & Hb2).
    exists o2. split; [done|]. by rewrite Hb2, Hb, <- app_assoc.
Qed.

(** The blocks the formatter writes. *)
Definition format_image (fill_dev : bool) (j : junk) (n : nat) : list (list byte) :=
  encode_sb_info (SbInfo 1 MAGIC (j_sb_padding j))
  :: (encode_inode (Inode S_IFREG_user (j_inode_pad j) BLDMS_SINGLEFILE_INODE_NUMBER
        (j_data_block_number j) (Z.of_nat n * DEFAULT_BLOCK_SIZE)) ++ j_block_padding j)
  :: (formatted fill_dev <$> seq 0 n).

Lemma run_main fill_dev j n :
  Z.of_nat n < 2 ^ 32 ->
  main fill_dev j ((Z.of_nat n + 2) * DEFAULT_BLOCK_SIZE) = (0, concat (format_image fill_dev j n)).
Proof.
  intros Hn. unfold main, DEFAULT_BLOCK_SIZE.
  replace ((Z.of_nat n + 2) * 4096 - 2 * 4096) with (Z.of_nat n * 4096) by lia.
  rewrite u64_small by lia. rewrite Z.div_mul by lia. rewrite u32_small, Nat2Z.id by lia.
  unfold w_bind. rewrite !run_write_all.
  match goal with |- context [format_blocks fill_dev n 0 ?o0] =>
    destruct (run_format_blocks fill_dev n 0 o0) as (o & Hr & Hb); rewrite Hr end.
  unfold w_ret. rewrite Hb. cbn [out_bytes out_calls].
  unfold format_image, DEFAULT_BLOCK_SIZE. cbn [concat]. rewrite <- !app_assoc. done.
Qed.

Lemma format_image_blocks fill_dev j n :
  junk_ok j -> Forall (fun b => length b = 4096%nat) (format_image fill_dev j n).
Proof.
  intros (H1 & H2 & H3). unfold format_image. apply Forall_cons_2; [|apply Forall_cons_2].
  - unfold encode_sb_info. rewrite !length_app, !length_le_split. cbn [sb_padding]. lia.
  - unfold encode_inode. rewrite !length_app, !length_le_split. cbn [inode_pad]. lia.
  - apply Forall_fmap, Forall_true. intros i. apply length_formatted.
Qed.
(** ** The formatted device *)

Lemma format_block_lookup {K : Kernel} c fill_dev j n i b :
  junk_ok j -> device_holds c (concat (format_image fill_dev j n)) ->
  format_image fill_dev j n !! i = Some b -> b_data c (Z.of_nat i) = Some b.
Proof.
  intros Hj Hc Hi. pose proof (format_image_blocks fill_dev j n Hj) as Hall. rewrite Hc.
  - f_equal. by apply block_at_concat.
  - rewrite length_concat_blocks by done. apply lookup_lt_Some in Hi. lia.
Qed.

Lemma format_data_block {K : Kernel} c fill_dev j n i :
  junk_ok j -> device_holds c (concat (format_image fill_dev j n)) -> (i < n)%nat ->
  b_data c (Z.of_nat i + NUM_METADATA_BLKS) = Some (formatted fill_dev i).
Proof.
  intros Hj Hc Hi. replace (Z.of_nat i + NUM_METADATA_BLKS) with (Z.of_nat (S (S i)))
    by (unfold NUM_METADATA_BLKS; lia).
  eapply format_block_lookup; [done..|]. simpl. by rewrite list_lookup_fmap, lookup_seq_lt.
Qed.

Lemma format_superblock {K : Kernel} c fill_dev j n :
  junk_ok j -> device_holds c (concat (format_image fill_dev j n)) ->
  exists b, b_data c SB_BLOCK_NUMBER = Some b /\ sb_info_magic b = MAGIC.
Proof.
  intros Hj Hc. eexists. split; [by eapply (format_block_lookup c fill_dev j n 0)|].
  unfold sb_info_magic, encode_sb_info. cbn [version magic sb_padding].
  rewrite drop_app_length' by (by rewrite length_le_split).
  rewrite take_app_length' by (by rewrite length_le_split).
  by rewrite le_combine_split_small by (by vm_compute).
Qed.

Lemma format_inode {K : Kernel} c fill_dev j n :
  junk_ok j -> Z.of_nat n < 2 ^ 32 -> device_holds c (concat (format_image fill_dev j n)) ->
  exists b, b_data c BLDMS_INODES_BLOCK_NUMBER = Some b /\
    inode_file_size b = Z.of_nat n * DEFAULT_BLOCK_SIZE.
Proof.
  intros Hj Hn Hc. eexists. split; [by eapply (format_block_lookup c fill_dev j n 1)|].
  destruct Hj as (_ & Hp & _). unfold inode_file_size, encode_inode.
  cbn [mode inode_pad inode_no data_block_number file_size].
  rewrite <- !app_assoc.
  rewrite drop_app_ge by (rewrite length_le_split; lia). rewrite length_le_split.
  rewrite drop_app_ge by lia. rewrite Hp.
  rewrite drop_app_ge by (rewrite length_le_split; lia). rewrite length_le_split.
  rewrite drop_app_ge by (rewrite length_le_split; lia). rewrite length_le_split.
  change (24 - 4 - 4 - 8 - 8)%nat with 0%nat. rewrite drop_0.
  rewrite take_app_length' by (by rewrite length_le_split).
  apply le_combine_split_small. unfold DEFAULT_BLOCK_SIZE.
  change (2 ^ (Z.of_nat 8 * 8)) with (2 ^ 64). lia.
Qed.

(** Decoding the metadata of a formatted block. *)
Lemma decode_formatted fill_dev i :
  decode_block (formatted fill_dev i) =
    match (if fill_dev then preset i else None) with
    | Some s => Blk (realtime i + preset_delay i) BLK_VALID (Z.of_nat (length s) + 1)
    | None => Blk 0 BLK_INVALID 0
    end.
Proof.
  unfold formatted. destruct (if fill_dev then preset i else None) as [s|] eqn:Hs;
    rewrite <- decode_block_take, take_app_length' by (by rewrite length_encode_block);
    apply decode_encode; unfold block_wf, BLK_VALID, BLK_INVALID; cbn [nsec is_valid valid_bytes].
  - assert (Hl : (length s < 200)%nat) by (destruct fill_dev; [by eapply length_preset|done]).
    pose proof (realtime_range i). pose proof (preset_delay_range i). unfold BILLION in *.
    split_and!; lia.
  - split_and!; lia.
Qed.

Lemma msg_of_formatted fill_dev i :
  msg_of (decode_block (formatted fill_dev i)) (formatted fill_dev i) = formatted_msg fill_dev i.
Proof.
  rewrite decode_formatted. unfold msg_of, formatted_msg, formatted.
  destruct (if fill_dev then preset i else None) as [s|]; [|done].
  cbn [nsec is_valid valid_bytes mbind option_bind]. rewrite Z.eqb_refl. do 2 f_equal. unfold payload.
  rewrite drop_app_length' by (by rewrite length_encode_block).
  rewrite app_assoc. apply take_app_length'. rewrite length_app. simpl. lia.
Qed.

Lemma format_image_ok {K : Kernel} c fill_dev j n :
  junk_ok j -> device_holds c (concat (format_image fill_dev j n)) -> image_ok c n.
Proof.
  intros Hj Hc i Hi. exists (formatted fill_dev i). split_and!.
  - by eapply format_data_block.
  - apply length_formatted.
  - rewrite decode_formatted. destruct (if fill_dev then preset i else None) as [s|] eqn:Hs.
    + assert (Hl : (length s < 200)%nat) by (destruct fill_dev; [by eapply length_preset|done]).
      unfold DEFAULT_BLOCK_SIZE, METADATA_SIZE. simpl. lia.
    + done.
Qed.

Lemma format_msgs {K : Kernel} c fill_dev j n i :
  junk_ok j -> device_holds c (concat (format_image fill_dev j n)) ->
  image_msgs c n !! i = if decide (i < n)%nat then formatted_msg fill_dev i else None.
Proof.
  intros Hj Hc. rewrite image_msgs_lookup. unfold msg_at. case_decide as Hi.
  - rewrite image_mds_lookup by done. rewrite (format_data_block c fill_dev j n i) by done.
    apply msg_of_formatted.
  - rewrite lookup_ge_None_2; [done|]. rewrite length_image_mds. lia.
Qed.
End Format.

(** ** Formatting and mounting *)

Section FormatMount.
Context {K : Kernel} {KL : KernelLaws K} {C : Config} {V : Vfs K} {VL : VfsLaws K V}.
Context {OS : Os} {OL : OsLaws OS}.
Hypothesis kzalloc_always : forall n, kzalloc_ok n = true.
Hypothesis bread_always : forall n, bread_ok n = true.
Hypothesis iget_always : forall n, iget_locked n <> None.
Hypothesis d_make_root_always : forall n, d_make_root_ok n = true.

(** The driver on the device the formatter has written. *)
Lemma wp_format_mount w fill_dev j n sb' :
  junk_ok j -> unmounted w -> Z.of_nat n <= NBLOCKS ->
  device_holds (bufs w) (main fill_dev j ((Z.of_nat n + 2) * DEFAULT_BLOCK_SIZE)).2 ->
  (forall k, blkdev_get_by_path k = Some (Some sb')) -> s_bdev sb' = true ->
  wp bldms_fs_mount
    (fun r w' => r = inr tt /\ dev_inv (heap w) w' (image_store (bufs w) n) /\ unlocked w' /\
       the_dev_superblock w' = Some sb' /\ bufs w' = bufs w) w.
Proof.
  intros Hj Hu Hn Hc Hbd Hb. pose proof NBLOCKS_range as HNB.
  rewrite run_main in Hc by lia. simpl in Hc.
  destruct (format_superblock _ _ _ _ Hj Hc) as (sblk & Hs & Hmg).
  assert (Hn32 : Z.of_nat n < 2 ^ 32) by lia.
  destruct (format_inode _ _ _ _ Hj Hn32 Hc) as (iblk & Hi & Hsz).
  assert (Hnn : Z.to_nat (inode_file_size iblk / DEFAULT_BLOCK_SIZE) = n).
  { rewrite Hsz, Z.div_mul by (unfold DEFAULT_BLOCK_SIZE; lia). apply Nat2Z.id. }
  eapply wp_mono.
  - apply (wp_bldms_fs_mount kzalloc_always bread_always iget_always d_make_root_always w
      sblk iblk sb'); try done.
    + rewrite Hsz. unfold DEFAULT_BLOCK_SIZE. lia.
    + rewrite Hnn. exact (format_image_ok _ _ _ _ Hj Hc).
  - intros r w' (-> & Hdi & ? & ? & ? & _). rewrite Hnn in Hdi. by split_and!.
Qed.

(** Without FILL_DEV there is no message, and the block written last is the last one. *)
Lemma format_empty w j n :
  junk_ok j -> Z.of_nat n <= NBLOCKS ->
  device_holds (bufs w) (main false j ((Z.of_nat n + 2) * DEFAULT_BLOCK_SIZE)).2 ->
  image_store (bufs w) n = MStore n (n - 1) ∅.
Proof.
  intros Hj Hn Hc. pose proof NBLOCKS_range. rewrite run_main in Hc by lia. simpl in Hc.
  unfold image_store. f_equal.
  - destruct (last (mount_elems _)) as [e|] eqn:Hl; [|done]. exfalso.
    apply last_Some_elem_of in Hl. rewrite (proj2 (mount_elems_spec _)) in Hl.
    apply elem_of_valid_from in Hl as (i & b & Hi & Hv & _).
    pose proof (lookup_lt_Some _ _ _ Hi) as Hlt. rewrite length_image_mds in Hlt.
    rewrite image_mds_lookup, (format_data_block _ _ _ _ _ Hj Hc) in Hi by done. injection Hi as <-.
    cbn [default id] in Hv. by rewrite decode_formatted in Hv.
  - apply map_eq. intros i. rewrite lookup_empty, (format_msgs _ _ _ _ i Hj Hc). by case_decide.
Qed.

(** C18: what the formatter writes is what the driver reads: on an image of [n + 2]
    blocks main() succeeds, and mounting the image gives a device of [n] slots
    which is empty or, when FILL_DEV is defined, holds the five preset messages
    in the slots 0, 5, 9, 17 and 22 with their timestamps. *)
Theorem format_then_mount w fill_dev j n sb' :
  junk_ok j -> unmounted w -> Z.of_nat n <= NBLOCKS ->
  device_holds (bufs w) (main fill_dev j ((Z.of_nat n + 2) * DEFAULT_BLOCK_SIZE)).2 ->
  (forall k, blkdev_get_by_path k = Some (Some sb')) -> s_bdev sb' = true ->
  (main fill_dev j ((Z.of_nat n + 2) * DEFAULT_BLOCK_SIZE)).1 = 0 /\
  wp bldms_fs_mount
    (fun r w' => r = inr tt /\ exists s, dev_inv (heap w) w' s /\ s_cap s = n /\
       forall i, s_msgs s !! i = if decide (i < n)%nat then formatted_msg fill_dev i else None) w.
Proof.
  intros Hj Hu Hn Hc Hbd Hb. pose proof NBLOCKS_range as HNB. split; [by rewrite run_main by lia|].
  eapply wp_mono; [by eapply wp_format_mount|]. intros r w' (-> & Hi & _). split; [done|].
  eexists. split; [exact Hi|]. split; [done|]. rewrite run_main in Hc by lia.
  intros i. exact (format_msgs _ _ _ _ i Hj Hc).
Qed.
End FormatMount.

(** ** Witness *)

#[local] Existing Instance sample_config.

#[export] Instance ref_os : Os := { write_answer _ k := k; realtime i := Z.of_nat i mod 1000 }.
#[export] Instance ref_os_laws : OsLaws ref_os.
Proof.
  split; [done|]. intros i. simpl. pose proof (Z.mod_pos_bound (Z.of_nat i) 1000 ltac:(lia)). lia.
Qed.

Definition zero_junk : junk := Junk (zeros 4080) (zeros 4) 0 (zeros 4064).
Definition formatted_world : @world good_kernel :=
  fresh_world (block_at (main true zero_junk (9 * DEFAULT_BLOCK_SIZE)).2 <$> seq 0 9).

Lemma format_then_mount_witness :
  (main true zero_junk (9 * DEFAULT_BLOCK_SIZE)).1 = 0 /\
  wp (K := good_kernel) bldms_fs_mount
    (fun r w' => r = inr tt /\ exists s, dev_inv ∅ w' s /\
       s_msgs s !! 5%nat = formatted_msg true 5 /\ s_msgs s !! 1%nat = None) formatted_world.
Proof.
  destruct (format_then_mount (K := good_kernel) (fun _ => eq_refl) (fun _ => eq_refl)
    (fun n => ltac:(by intros [=])) (fun _ => eq_refl) formatted_world true zero_junk 7 (SB MAGIC true))
    as [H1 H2].
  - by vm_compute.
  - apply fresh_unmounted.
  - by vm_compute.
  - intros i Hi. change ((Z.of_nat 7 + 2) * DEFAULT_BLOCK_SIZE) with (9 * DEFAULT_BLOCK_SIZE) in *.
    assert (Hlt : (i < 9)%nat).
    { rewrite (run_main true zero_junk 7) in Hi by done. cbn [snd] in Hi.
      rewrite length_concat_blocks in Hi by (by apply format_image_blocks).
      change (length (format_image true zero_junk 7)) with 9%nat in Hi. lia. }
    clear Hi.
    do 9 (destruct i as [|i]; [vm_compute; reflexivity|]). lia.
  - intros k. reflexivity.
  - reflexivity.
  - split; [exact H1|]. eapply wp_mono; [exact H2|].
    intros r w' (-> & s & Hi & _ & Hm). split; [done|]. exists s. split_and!; [exact Hi|..];
      by rewrite Hm.
Defined.
