(* ===== verification/Usctm.v ===== *)
(** * Registration of the system calls (lib/usctm.c, syscalls.c, bldms.c)

    The entries of the system call table the module may use are lent by
    get_entries() and given back by reset_entries(); register_syscalls() and
    unregister_syscalls() write the table with the write protection of cr0 off;
    bldms_init() and bldms_exit() are the two ends of the module's life. *)
From S2P Require Import Prelude.

(** ** State *)

Definition MAX_FREE : Z := 15.
Definition MAX_ACQUIRES : Z := 4.
Definition HACKED_ENTRIES : Z := 3.
Definition X86_CR0_WP : Z := 0x10000.

(** The globals of lib/usctm.c and syscalls.c, the register cr0 and the words of
    kernel memory, by address. *)
Record kstate := KState {
  restore : list Z;                  (* int restore[MAX_ACQUIRES] *)
  free_entries : list Z;             (* int free_entries[MAX_FREE], a module parameter *)
  num_entries_found : Z;             (* module parameters *)
  sys_call_table_address : Z;
  sys_ni_syscall_address : Z;
  saved_cr0 : Z;                     (* the global cr0 *)
  the_syscall_table : Z;
  the_ni_syscall : Z;
  new_sys_call_array : list Z;
  restore_entries : list Z;
  indexes : list Z;
  reg_cr0 : Z;
  kmem : gmap Z Z
}.

Definition set_restore (r : list Z) (k : kstate) : kstate :=
  KState r (free_entries k) (num_entries_found k) (sys_call_table_address k)
    (sys_ni_syscall_address k) (saved_cr0 k) (the_syscall_table k) (the_ni_syscall k)
    (new_sys_call_array k) (restore_entries k) (indexes k) (reg_cr0 k) (kmem k).
Definition set_saved_cr0 (v : Z) (k : kstate) : kstate :=
  KState (restore k) (free_entries k) (num_entries_found k) (sys_call_table_address k)
    (sys_ni_syscall_address k) v (the_syscall_table k) (the_ni_syscall k)
    (new_sys_call_array k) (restore_entries k) (indexes k) (reg_cr0 k) (kmem k).
Definition set_reg_cr0 (v : Z) (k : kstate) : kstate :=
  KState (restore k) (free_entries k) (num_entries_found k) (sys_call_table_address k)
    (sys_ni_syscall_address k) (saved_cr0 k) (the_syscall_table k) (the_ni_syscall k)
    (new_sys_call_array k) (restore_entries k) (indexes k) v (kmem k).
Definition set_tables (tbl ni : Z) (ids ndx : list Z) (k : kstate) : kstate :=
  KState (restore k) (free_entries k) (num_entries_found k) (sys_call_table_address k)
    (sys_ni_syscall_address k) (saved_cr0 k) tbl ni (new_sys_call_array k) ids ndx
    (reg_cr0 k) (kmem k).
Definition set_new_calls (a : list Z) (k : kstate) : kstate :=
  KState (restore k) (free_entries k) (num_entries_found k) (sys_call_table_address k)
    (sys_ni_syscall_address k) (saved_cr0 k) (the_syscall_table k) (the_ni_syscall k)
    a (restore_entries k) (indexes k) (reg_cr0 k) (kmem k).
Definition set_kmem (m : gmap Z Z) (k : kstate) : kstate :=
  KState (restore k) (free_entries k) (num_entries_found k) (sys_call_table_address k)
    (sys_ni_syscall_address k) (saved_cr0 k) (the_syscall_table k) (the_ni_syscall k)
    (new_sys_call_array k) (restore_entries k) (indexes k) (reg_cr0 k) m.

(** [None] is an access out of the bounds of an array, or a page fault. *)
Definition P (A : Type) : Type := kstate -> option (A * kstate).
Definition p_ret {A} (a : A) : P A := fun k => Some (a, k).
Definition p_bind {A B} (m : P A) (f : A -> P B) : P B := fun k =>
  match m k with Some (a, k') => f a k' | None => None end.
Definition p_get {A} (f : kstate -> A) : P A := fun k => Some (f k, k).
Definition p_mod (f : kstate -> kstate) : P unit := fun k => Some (tt, f k).
Definition p_fault {A} : P A := fun _ => None.
Notation "'let!' x ':=' m 'in' k" := (p_bind m (fun x => k))
  (at level 10, x pattern, m at level 100, k at level 200) : bldms_scope.
Notation "m '>;' k" := (p_bind m (fun _ => k))
  (at level 100, k at level 200, right associativity) : bldms_scope.

(** [a[i]] and [a[i] = v] on an array of ints. *)
Definition arr_get (a : list Z) (i : Z) : P Z :=
  match (if 0 <=? i then a !! Z.to_nat i else None) with
  | Some v => p_ret v
  | None => p_fault
  end.
Definition arr_set (a : list Z) (i v : Z) : P (list Z) :=
  if (0 <=? i) && (i <? Z.of_nat (length a)) then p_ret (<[Z.to_nat i := v]> a) else p_fault.

(** A word of the system call table, which is write-protected while cr0 has WP. *)
Definition store_word (addr v : Z) : P unit := fun k =>
  match kmem k !! addr with
  | Some _ =>
    if Z.land (reg_cr0 k) X86_CR0_WP =? 0 then Some (tt, set_kmem (<[addr := v]> (kmem k)) k) else None
  | None => None
  end.

(** ** lib/usctm.c *)

Definition write_cr0_forced (v : Z) : P unit := p_mod (set_reg_cr0 v).
Definition protect_memory : P unit :=
  let! v := p_get saved_cr0 in write_cr0_forced v.
Definition unprotect_memory : P unit :=
  let! v := p_get reg_cr0 in
  p_mod (set_saved_cr0 v) >;
  write_cr0_forced (Z.land v (Z.lnot X86_CR0_WP)).

(** Lines 100-108: the number of entries given and the two local arrays. *)
Fixpoint acquire_loop (fuel : nat) (num_acquires i given : Z) (ids ndxs : list Z)
    : P (Z * list Z * list Z) :=
  match fuel with
  | O => p_fault
  | S fuel' =>
    let! n := p_get num_entries_found in
    if (i <? n) && (given <? num_acquires) then
      let! r := p_get restore in
      let! v := arr_get r i in
      if v =? -1 then
        let! fe := p_get free_entries in
        let! e := arr_get fe i in
        let! r := arr_set r i e in
        p_mod (set_restore r) >;
        let! ids := arr_set ids i e in
        let! ndxs := arr_set ndxs i i in
        acquire_loop fuel' num_acquires (i + 1) (given + 1) ids ndxs
      else acquire_loop fuel' num_acquires (i + 1) given ids ndxs
    else p_ret (given, ids, ndxs)
  end.

(** get_entries(): the result and, on success, the first [given] ints of [ids] and
    of [indexes] and the two addresses. *)
Definition get_entries (num_acquires : Z) : P (Z * option (list Z * list Z * Z * Z)) :=
  let! n := p_get num_entries_found in
  if (n <? num_acquires) || (MAX_ACQUIRES <? num_acquires) then p_ret (-1, None) else
  if num_acquires <? 1 then p_ret (-1, None) else
  let none := replicate (Z.to_nat MAX_ACQUIRES) (-1) in
  let! r := acquire_loop (S (Z.to_nat n)) num_acquires 0 0 none none in
  let '(given, ids, ndxs) := r in
  if negb (given =? num_acquires) then p_ret (-1, None) else
  let! tbl := p_get sys_call_table_address in
  let! ni := p_get sys_ni_syscall_address in
  p_ret (given, Some (take (Z.to_nat given) ids, take (Z.to_nat given) ndxs, tbl, ni)).

Fixpoint reset_loop (fuel : nat) (i num_resets : Z) (entry_ndx : list Z) : P unit :=
  match fuel with
  | O => p_fault
  | S fuel' =>
    if i <? num_resets then
      let! j := arr_get entry_ndx i in
      let! r := p_get restore in
      let! r := arr_set r j (-1) in
      p_mod (set_restore r) >;
      reset_loop fuel' (i + 1) num_resets entry_ndx
    else p_ret tt
  end.
Definition reset_entries (entry_ndx : list Z) (num_resets : Z) : P unit :=
  reset_loop (S (Z.to_nat num_resets)) 0 num_resets entry_ndx.

(** ** syscalls.c *)

(** The addresses of the three system calls. *)
Class Handlers := { sys_put_data : Z; sys_get_data : Z; sys_invalidate_data : Z }.

Section Register.
Context {H : Handlers}.

(** Lines 413-416 and 431-433: writing the entries [i], [i+1], ... of the table. *)
Fixpoint install (fuel : nat) (i : Z) (values : list Z) : P unit :=
  match fuel with
  | O => p_fault
  | S fuel' =>
    if i <? HACKED_ENTRIES then
      let! ids := p_get restore_entries in
      let! e := arr_get ids i in
      let! tbl := p_get the_syscall_table in
      let! v := arr_get values i in
      store_word (tbl + 8 * e) v >;
      install fuel' (i + 1) values
    else p_ret tt
  end.

Definition register_syscalls : P Z :=
  let! r := get_entries HACKED_ENTRIES in
  match r with
  | (ret, Some (ids, ndxs, tbl, ni)) =>
    p_mod (set_tables tbl ni ids ndxs) >;
    if negb (ret =? HACKED_ENTRIES) then p_ret (-1) else
    p_mod (set_new_calls [sys_put_data; sys_get_data; sys_invalidate_data]) >;
    unprotect_memory >;
    let! calls := p_get new_sys_call_array in
    install (S (Z.to_nat HACKED_ENTRIES)) 0 calls >;
    protect_memory >;
    p_ret 0
  | (_, None) => p_ret (-1)
  end.

Definition unregister_syscalls : P unit :=
  unprotect_memory >;
  let! ni := p_get the_ni_syscall in
  install (S (Z.to_nat HACKED_ENTRIES)) 0 [ni; ni; ni] >;
  protect_memory >;
  let! ndxs := p_get indexes in
  reset_entries ndxs HACKED_ENTRIES.

(** ** bldms.c: the module; [register_filesystem] is the answer of the kernel *)

Definition bldms_init (register_filesystem : Z) : P Z :=
  let! ret := register_syscalls in
  if ret <? 0 then p_ret ret else p_ret register_filesystem.

Definition bldms_exit : P unit := unregister_syscalls.
End Register.

(** ** Lemmas *)

Lemma unprotect_clears v : Z.land (Z.land v (Z.lnot X86_CR0_WP)) X86_CR0_WP = 0.
Proof.
  rewrite <- Z.land_assoc, (Z.land_comm (Z.lnot _)), Z.land_lnot_diag. apply Z.land_0_r.
Qed.

(** The state of the library when nothing has been lent and at least three
    entries [e0], [e1], [e2] have been found, all three in the table. *)
Record lendable (k : kstate) (e0 e1 e2 : Z) (rest : list Z) : Prop := {
  le_restore : restore k = [-1; -1; -1; -1];
  le_free : free_entries k = e0 :: e1 :: e2 :: rest;
  le_num : 3 <= num_entries_found k;
  le_mapped e : e ∈ [e0; e1; e2] -> is_Some (kmem k !! (sys_call_table_address k + 8 * e))
}.

(** Array accesses in bounds. *)
Lemma run_arr_get a (i : nat) v k : a !! i = Some v -> arr_get a (Z.of_nat i) k = Some (v, k).
Proof.
  intros Hi. unfold arr_get. rewrite (proj2 (Z.leb_le _ _)) by lia. by rewrite Nat2Z.id, Hi.
Qed.

Lemma run_arr_set a (i : nat) v k :
  (i < length a)%nat -> arr_set a (Z.of_nat i) v k = Some (<[i := v]> a, k).
Proof.
  intros Hi. unfold arr_set.
  rewrite (proj2 (Z.leb_le _ _)), (proj2 (Z.ltb_lt _ _)) by lia. by rewrite Nat2Z.id.
Qed.

(** One round of get_entries(): entry [i] is free, or it is already lent. *)
Lemma acquire_free k fuel na (i given : nat) ids ndxs e :
  Z.of_nat i < num_entries_found k -> Z.of_nat given < na -> restore k !! i = Some (-1) ->
  free_entries k !! i = Some e -> (i < length ids)%nat -> (i < length ndxs)%nat ->
  acquire_loop (S fuel) na (Z.of_nat i) (Z.of_nat given) ids ndxs k =
  acquire_loop fuel na (Z.of_nat (S i)) (Z.of_nat (S given)) (<[i := e]> ids)
    (<[i := Z.of_nat i]> ndxs) (set_restore (<[i := e]> (restore k)) k).
Proof.
  intros Hn Hg Hr He Hi Hx. cbn [acquire_loop]. unfold p_bind, p_get, p_mod.
  rewrite (proj2 (Z.ltb_lt _ _)), (proj2 (Z.ltb_lt _ _)) by done. cbn [andb].
  rewrite (run_arr_get _ i (-1)) by done. rewrite Z.eqb_refl.
  rewrite (run_arr_get _ i e) by done.
  rewrite run_arr_set by (by eapply lookup_lt_Some). rewrite run_arr_set by done.
  rewrite run_arr_set by done.
  replace (Z.of_nat i + 1) with (Z.of_nat (S i)) by lia.
  by replace (Z.of_nat given + 1) with (Z.of_nat (S given)) by lia.
Qed.

Lemma acquire_lent k fuel na (i given : nat) ids ndxs v :
  Z.of_nat i < num_entries_found k -> Z.of_nat given < na -> restore k !! i = Some v -> v <> -1 ->
  acquire_loop (S fuel) na (Z.of_nat i) (Z.of_nat given) ids ndxs k =
  acquire_loop fuel na (Z.of_nat (S i)) (Z.of_nat given) ids ndxs k.
Proof.
  intros Hn Hg Hr Hv%Z.eqb_neq. cbn [acquire_loop]. unfold p_bind, p_get.
  rewrite (proj2 (Z.ltb_lt _ _)), (proj2 (Z.ltb_lt _ _)) by done. cbn [andb].
  rewrite (run_arr_get _ i v) by done. rewrite Hv.
  by replace (Z.of_nat i + 1) with (Z.of_nat (S i)) by lia.
Qed.

Lemma acquire_end k fuel na i ids ndxs :
  acquire_loop (S fuel) na i na ids ndxs k = Some ((na, ids, ndxs), k).
Proof. cbn [acquire_loop]. unfold p_bind, p_get. by rewrite Z.ltb_irrefl, andb_false_r. Qed.

(** get_entries() around its loop. *)
Lemma run_get_entries_loop k na ids ndxs k' :
  1 <= na <= 4 -> na <= num_entries_found k ->
  acquire_loop (S (Z.to_nat (num_entries_found k))) na 0 0 [-1; -1; -1; -1] [-1; -1; -1; -1] k
    = Some ((na, ids, ndxs), k') ->
  get_entries na k =
    Some ((na, Some (take (Z.to_nat na) ids, take (Z.to_nat na) ndxs,
                     sys_call_table_address k', sys_ni_syscall_address k')), k').
Proof.
  intros Hna Hn Hl. unfold get_entries, p_bind, p_get, MAX_ACQUIRES.
  rewrite (proj2 (Z.ltb_ge (num_entries_found k) na)), (proj2 (Z.ltb_ge 4 na)),
    (proj2 (Z.ltb_ge na 1)) by lia. cbn [orb].
  change (replicate (Z.to_nat 4) (-1)) with [-1; -1; -1; -1]. rewrite Hl. by rewrite Z.eqb_refl.
Qed.

Lemma run_get_entries k e0 e1 e2 rest :
  lendable k e0 e1 e2 rest ->
  get_entries 3 k =
    Some ((3, Some ([e0; e1; e2], [0; 1; 2], sys_call_table_address k, sys_ni_syscall_address k)),
          set_restore [e0; e1; e2; -1] k).
Proof.
  intros [Hr Hf Hn _].
  rewrite (run_get_entries_loop k 3 [e0; e1; e2; -1] [0; 1; 2; -1] (set_restore [e0; e1; e2; -1] k));
    [done|lia|lia|].
  assert (Hm : exists m, Z.to_nat (num_entries_found k) = S (S (S m)))
    by (exists (Z.to_nat (num_entries_found k) - 3)%nat; lia).
  destruct Hm as [m ->]. change 0 with (Z.of_nat 0) at 1 2.
  rewrite (acquire_free _ _ 3 0 0 _ _ e0) by (rewrite ?Hr, ?Hf; simpl; done || lia).
  rewrite (acquire_free _ _ 3 1 1 _ _ e1) by (simpl; rewrite ?Hr, ?Hf; simpl; done || lia).
  rewrite (acquire_free _ _ 3 2 2 _ _ e2) by (simpl; rewrite ?Hr, ?Hf; simpl; done || lia).
  rewrite (acquire_end _ _ 3). simpl. by rewrite Hr.
Qed.

(** Writing three values in the entries of the table, with the protection off. *)
Lemma run_install k e0 e1 e2 v0 v1 v2 :
  restore_entries k = [e0; e1; e2] -> Z.land (reg_cr0 k) X86_CR0_WP = 0 ->
  (forall e, e ∈ [e0; e1; e2] -> is_Some (kmem k !! (the_syscall_table k + 8 * e))) ->
  install (S (Z.to_nat HACKED_ENTRIES)) 0 [v0; v1; v2] k =
    Some (tt, set_kmem (<[the_syscall_table k + 8 * e2 := v2]>
                (<[the_syscall_table k + 8 * e1 := v1]>
                  (<[the_syscall_table k + 8 * e0 := v0]> (kmem k)))) k).
Proof.
  intros Hr Hcr Hm.
  assert (Hs : forall e v k', kmem k' !! (the_syscall_table k + 8 * e) <> None ->
    reg_cr0 k' = reg_cr0 k -> store_word (the_syscall_table k + 8 * e) v k'
      = Some (tt, set_kmem (<[the_syscall_table k + 8 * e := v]> (kmem k')) k')).
  { intros e v k' Hk' Hc. unfold store_word. destruct (kmem k' !! _); [|done]. by rewrite Hc, Hcr. }
  assert (H0 : kmem k !! (the_syscall_table k + 8 * e0) <> None)
    by (destruct (Hm e0) as [? ->]; [set_solver|done]).
  assert (H1 : kmem k !! (the_syscall_table k + 8 * e1) <> None)
    by (destruct (Hm e1) as [? ->]; [set_solver|done]).
  assert (H2 : kmem k !! (the_syscall_table k + 8 * e2) <> None)
    by (destruct (Hm e2) as [? ->]; [set_solver|done]).
  change (S (Z.to_nat HACKED_ENTRIES)) with 4%nat. cbn [install]. unfold p_bind, p_get, HACKED_ENTRIES.
  change (0 <? 3) with true. change (0 + 1 <? 3) with true. change (0 + 1 + 1 <? 3) with true.
  change (0 + 1 + 1 + 1 <? 3) with false.
  change (0 + 1 + 1) with (Z.of_nat 2). change (0 + 1) with (Z.of_nat 1). change 0 with (Z.of_nat 0).
  assert (Hne : forall a a' (v : Z) (m : gmap Z Z), m !! a <> None -> <[a' := v]> m !! a <> None).
  { intros a a' v m Ha. rewrite lookup_insert. by case_decide. }
  cbv beta iota. rewrite Hr, (run_arr_get _ 0 e0), (run_arr_get _ 0 v0) by done. rewrite Hs by done.
  cbn [restore_entries set_kmem the_syscall_table]. rewrite Hr.
  rewrite (run_arr_get _ 1 e1), (run_arr_get _ 1 v1) by done. rewrite Hs by (done || by apply Hne).
  cbn [restore_entries set_kmem the_syscall_table]. rewrite Hr.
  rewrite (run_arr_get _ 2 e2), (run_arr_get _ 2 v2) by done.
  rewrite Hs by (done || by apply Hne, Hne). by destruct k.
Qed.

(** Giving back three different entries. *)
Lemma run_reset k a b c d :
  restore k = [a; b; c; d] ->
  reset_entries [0; 1; 2] HACKED_ENTRIES k = Some (tt, set_restore [-1; -1; -1; d] k).
Proof.
  intros Hr. unfold reset_entries. change (S (Z.to_nat HACKED_ENTRIES)) with 4%nat.
  cbn [reset_loop]. unfold p_bind, p_get, p_mod, HACKED_ENTRIES.
  change (0 <? 3) with true. change (0 + 1 <? 3) with true. change (0 + 1 + 1 <? 3) with true.
  change (0 + 1 + 1 + 1 <? 3) with false.
  change (0 + 1 + 1) with (Z.of_nat 2). change (0 + 1) with (Z.of_nat 1). change 0 with (Z.of_nat 0).
  cbv beta iota. rewrite (run_arr_get _ 0 (Z.of_nat 0)) by done. rewrite Hr, run_arr_set by (simpl; lia).
  rewrite (run_arr_get _ 1 1) by done. cbn [restore set_restore].
  change 1 with (Z.of_nat 1). rewrite run_arr_set by (simpl; lia).
  rewrite (run_arr_get _ 2 2) by done. cbn [restore set_restore].
  change 2 with (Z.of_nat 2). rewrite run_arr_set by (simpl; lia). by destruct k.
Qed.

Section Registration.
Context {H : Handlers}.

(** What the table holds once the three calls are installed. *)
Definition installed (k : kstate) (e0 e1 e2 : Z) : gmap Z Z :=
  let tbl := sys_call_table_address k in
  <[tbl + 8 * e2 := sys_invalidate_data]> (<[tbl + 8 * e1 := sys_get_data]>
    (<[tbl + 8 * e0 := sys_put_data]> (kmem k))).

Lemma run_register k e0 e1 e2 rest :
  lendable k e0 e1 e2 rest ->
  exists k', register_syscalls k = Some (0, k') /\ kmem k' = installed k e0 e1 e2 /\
    reg_cr0 k' = reg_cr0 k /\ restore k' = [e0; e1; e2; -1] /\ restore_entries k' = [e0; e1; e2] /\
    indexes k' = [0; 1; 2] /\ the_syscall_table k' = sys_call_table_address k /\
    the_ni_syscall k' = sys_ni_syscall_address k.
Proof.
  intros Hl. unfold register_syscalls, p_bind.
  change (get_entries HACKED_ENTRIES) with (get_entries 3). rewrite (run_get_entries k e0 e1 e2 rest Hl).
  cbn [p_mod p_get p_ret unprotect_memory protect_memory write_cr0_forced p_bind negb].
  change (3 =? HACKED_ENTRIES) with true. cbn [negb].
  unfold p_mod, unprotect_memory, protect_memory, write_cr0_forced, p_get, p_bind, p_mod, p_ret.
  match goal with |- context [install _ 0 ?c _] =>
    change c with [sys_put_data; sys_get_data; sys_invalidate_data] end.
  rewrite (run_install _ e0 e1 e2); [|done|apply unprotect_clears|].
  - eexists. split; [done|]. done.
  - intros e He. apply (le_mapped _ _ _ _ _ Hl e He).
Qed.

(** Registering the system calls puts put_data(), get_data() and
    invalidate_data() in the first three free entries of the system call table,
    in this order, changes no other word of memory and leaves the write
    protection of the processor as it found it. *)
Theorem register_installs_calls k e0 e1 e2 rest :
  lendable k e0 e1 e2 rest ->
  exists k', register_syscalls k = Some (0, k') /\ kmem k' = installed k e0 e1 e2 /\
    reg_cr0 k' = reg_cr0 k /\ restore_entries k' = [e0; e1; e2].
Proof.
  intros Hl. destruct (run_register k e0 e1 e2 rest Hl) as (k' & ? & ? & ? & _ & ? & _). eauto.
Qed.

(** Loading and unloading the module. *)
Lemma run_load_unload k e0 e1 e2 rest :
  lendable k e0 e1 e2 rest ->
  (forall e, e ∈ [e0; e1; e2] ->
     kmem k !! (sys_call_table_address k + 8 * e) = Some (sys_ni_syscall_address k)) ->
  exists k' k'', bldms_init 0 k = Some (0, k') /\ kmem k' = installed k e0 e1 e2 /\ bldms_exit k' = Some (tt, k'') /\
    kmem k'' = kmem k /\ reg_cr0 k'' = reg_cr0 k /\ restore k'' = restore k /\ restore_entries k' = [e0; e1; e2].
Proof.
  intros Hl Hni. destruct (run_register k e0 e1 e2 rest Hl)
    as (k' & Hrun & Hmem & Hcr & Hres & Hids & Hndx & Htbl & Hn).
  unfold bldms_init, p_bind. rewrite Hrun. simpl. exists k'.
  unfold bldms_exit, unregister_syscalls, p_bind, unprotect_memory, protect_memory,
    write_cr0_forced, p_get, p_bind, p_mod.
  set (k1 := set_reg_cr0 _ _).
  assert (Hin : forall e, e ∈ [e0; e1; e2] -> is_Some (kmem k1 !! (the_syscall_table k1 + 8 * e))).
  { intros e He. simpl. rewrite Hmem, Htbl. unfold installed. rewrite !lookup_insert.
    repeat case_decide; eauto. }
  rewrite (run_install k1 e0 e1 e2); [|done|apply unprotect_clears|done].
  cbn [indexes set_kmem set_reg_cr0 k1 set_saved_cr0 saved_cr0]. rewrite Hndx.
  erewrite run_reset by (simpl; exact Hres). eexists. split_and!; [done|done|done|..]; simpl.
  - rewrite Hmem, Htbl, Hn. apply map_eq. intros x. unfold installed. rewrite !lookup_insert.
    repeat case_decide; subst; try done; symmetry; apply Hni; set_solver.
  - done.
  - by rewrite (le_restore _ _ _ _ _ Hl).
  - done.
Qed.

(** Unloading the module undoes what loading it did: if the three entries held
    the address of sys_ni_syscall that the library was given, the system call
    table, the write protection and the record of the lent entries are afterwards
    what they were. *)
Theorem unregister_restores_table k e0 e1 e2 rest :
  lendable k e0 e1 e2 rest ->
  (forall e, e ∈ [e0; e1; e2] ->
     kmem k !! (sys_call_table_address k + 8 * e) = Some (sys_ni_syscall_address k)) ->
  exists k' k'', bldms_init 0 k = Some (0, k') /\ bldms_exit k' = Some (tt, k'') /\
    kmem k'' = kmem k /\ reg_cr0 k'' = reg_cr0 k /\ restore k'' = restore k.
Proof.
  intros Hl Hni. destruct (run_load_unload k e0 e1 e2 rest Hl Hni) as (k' & k'' & ? & _ & ? & ? & ? & ? & _). eauto 10.
Qed.

(** C39: when register_filesystem() fails, bldms_init() reports its error but leaves
    the three system calls installed: the kernel then discards the module, and
    the table keeps the addresses of code that is gone. *)
Theorem init_failure_leaves_calls k e0 e1 e2 rest err :
  lendable k e0 e1 e2 rest -> err <> 0 ->
  exists k', bldms_init err k = Some (err, k') /\ kmem k' = installed k e0 e1 e2.
Proof.
  intros Hl _. destruct (run_register k e0 e1 e2 rest Hl) as (k' & Hrun & Hmem & _).
  exists k'. unfold bldms_init, p_bind. by rewrite Hrun.
Qed.

(** get_entries() records the identifier of entry [i] at position [i] of its
    local array but copies the first [num_acquires] positions to the caller: if
    an entry was already lent, the caller is told -1 in its place, and the last
    entry taken is neither returned nor ever given back. *)
Theorem get_entries_loses_entry k e0 e1 e2 e3 v rest :
  restore k = [v; -1; -1; -1] -> v <> -1 -> free_entries k = e0 :: e1 :: e2 :: e3 :: rest ->
  4 <= num_entries_found k ->
  exists k', get_entries 3 k = Some ((3, Some ([-1; e1; e2], [-1; 1; 2],
      sys_call_table_address k, sys_ni_syscall_address k)), k') /\ restore k' = [v; e1; e2; e3].
Proof.
  intros Hr Hv Hf Hn.
  exists (set_restore [v; e1; e2; e3] k). split; [|done].
  rewrite (run_get_entries_loop k 3 [-1; e1; e2; e3] [-1; 1; 2; 3] (set_restore [v; e1; e2; e3] k));
    [done|lia|lia|].
  assert (Hm : exists m, Z.to_nat (num_entries_found k) = S (S (S (S m))))
    by (exists (Z.to_nat (num_entries_found k) - 4)%nat; lia).
  destruct Hm as [m ->]. change 0 with (Z.of_nat 0) at 1 2.
  rewrite (acquire_lent _ _ 3 0 0 _ _ v) by (rewrite ?Hr; simpl; done || lia).
  rewrite (acquire_free _ _ 3 1 0 _ _ e1) by (rewrite ?Hr, ?Hf; simpl; done || lia).
  rewrite (acquire_free _ _ 3 2 1 _ _ e2) by (simpl; rewrite ?Hr, ?Hf; simpl; done || lia).
  rewrite (acquire_free _ _ 3 3 2 _ _ e3) by (simpl; rewrite ?Hr, ?Hf; simpl; done || lia).
  rewrite (acquire_end _ _ 3). simpl. by rewrite Hr.
Qed.
End Registration.

(** ** Witnesses *)

#[local] Instance sample_handlers : Handlers :=
  { sys_put_data := 1001; sys_get_data := 1002; sys_invalidate_data := 1003 }.

Definition sample_table : Z := 0xffffffff82000000.
Definition sample_ni : Z := 0xffffffff81000000.
Definition sample_kmem : gmap Z Z :=
  <[sample_table + 8 * 134 := sample_ni]> (<[sample_table + 8 * 174 := sample_ni]>
    (<[sample_table + 8 * 182 := sample_ni]> {[ sample_table := 7 ]})).

Definition sample_kstate (r : list Z) (n : Z) : kstate :=
  KState r ([134; 174; 182; 183; 214; 215; 236] ++ replicate 8 0) n sample_table sample_ni 0 0 0
    [0; 0; 0] [-1; -1; -1] [-1; -1; -1] 0x80050033 sample_kmem.

Lemma sample_lendable :
  lendable (sample_kstate [-1; -1; -1; -1] 7) 134 174 182 ([183; 214; 215; 236] ++ replicate 8 0).
Proof.
  split; [done|done|simpl; lia|]. intros e He. rewrite !elem_of_cons, elem_of_nil in He.
  destruct He as [->|[->|[->|[]]]]; eexists; by vm_compute.
Qed.

Lemma register_installs_calls_witness :
  exists k', register_syscalls (sample_kstate [-1; -1; -1; -1] 7) = Some (0, k') /\
    kmem k' !! (sample_table + 8 * 174) = Some sys_get_data /\ reg_cr0 k' = 0x80050033.
Proof.
  destruct (register_installs_calls (sample_kstate [-1; -1; -1; -1] 7) 134 174 182
    ([183; 214; 215; 236] ++ replicate 8 0) sample_lendable) as (k' & H1 & H2 & H3 & _).
  exists k'. split_and!; [exact H1|by rewrite H2|exact H3].
Defined.

Lemma unregister_restores_table_witness :
  exists k' k'', bldms_init 0 (sample_kstate [-1; -1; -1; -1] 7) = Some (0, k') /\
    bldms_exit k' = Some (tt, k'') /\ kmem k'' = sample_kmem.
Proof.
  destruct (unregister_restores_table (sample_kstate [-1; -1; -1; -1] 7) 134 174 182
    ([183; 214; 215; 236] ++ replicate 8 0) sample_lendable) as (k' & k'' & H1 & H2 & H3 & _).
  { intros e He. rewrite !elem_of_cons, elem_of_nil in He.
    destruct He as [->|[->|[->|[]]]]; by vm_compute. }
  by exists k', k''.
Defined.

Lemma init_failure_leaves_calls_witness :
  exists k', bldms_init (-16) (sample_kstate [-1; -1; -1; -1] 7) = Some (-16, k') /\
    kmem k' !! (sample_table + 8 * 134) = Some sys_put_data.
Proof.
  destruct (init_failure_leaves_calls (sample_kstate [-1; -1; -1; -1] 7) 134 174 182
    ([183; 214; 215; 236] ++ replicate 8 0) (-16) sample_lendable) as (k' & H1 & H2); [done|].
  exists k'. split; [exact H1|by rewrite H2].
Defined.

Lemma get_entries_loses_entry_witness :
  exists k', get_entries 3 (sample_kstate [134; -1; -1; -1] 7) =
    Some ((3, Some ([-1; 174; 182], [-1; 1; 2], sample_table, sample_ni)), k') /\
    restore k' = [134; 174; 182; 183].
Proof.
  apply (get_entries_loses_entry (sample_kstate [134; -1; -1; -1] 7) 134 174 182 183 134
    ([214; 215; 236] ++ replicate 8 0)); [done|done|done|simpl; lia].
Defined.
