(* ===== verification/SysTable.v ===== *)
(** * Discovery of the system call table (usctm/usctm.c, usctm/lib/vtpmo.c)

    sys_vtpmo() walks the page table to tell whether a page is mapped;
    syscall_table_finder() scans the mapped pages of the kernel for a table in
    which the entries known to be unused all hold the same address; init_module()
    records the free entries.  Memory is a function from addresses to 64-bit
    words. *)
From S2P Require Import Prelude Usctm.

(** ** usctm/lib/vtpmo.c *)

(** Machine words, and the registers and the translation the routine relies on. *)
Class Cpu := {
  word_at : Z -> Z;              (* the unsigned long at a virtual address *)
  read_cr3 : Z;
  phys_to_virt : Z -> Z
}.

Definition ADDRESS_MASK : Z := 0xfffffffffffff000.
Definition PT_ADDRESS_MASK : Z := 0x7ffffffffffff000.
Definition VALID : Z := 0x1.
Definition LH_MAPPING : Z := 0x80.
Definition NO_MAP : Z := -1.

Definition PML4 (addr : Z) : Z := Z.land (Z.shiftr (s64 addr) 39) 0x1ff.
Definition PDP (addr : Z) : Z := Z.land (Z.shiftr (s64 addr) 30) 0x1ff.
Definition PDE (addr : Z) : Z := Z.land (Z.shiftr (s64 addr) 21) 0x1ff.
Definition PTE (addr : Z) : Z := Z.land (Z.shiftr (s64 addr) 12) 0x1ff.

Section Walk.
Context {M : Cpu}.

(** [table[index]], for a page table at virtual address [table]. *)
Definition entry (table index : Z) : Z := word_at (table + 8 * index).

Definition frame_of (e : Z) : Z := s32 (Z.shiftr (Z.land e PT_ADDRESS_MASK) 12).

Definition sys_vtpmo (vaddr : Z) : Z :=
  let pml4 := phys_to_virt (Z.land read_cr3 ADDRESS_MASK) in
  if Z.land (entry pml4 (PML4 vaddr)) VALID =? 0 then NO_MAP else
  let pdp := phys_to_virt (Z.land (entry pml4 (PML4 vaddr)) PT_ADDRESS_MASK) in
  if Z.land (entry pdp (PDP vaddr)) VALID =? 0 then NO_MAP else
  let pde := phys_to_virt (Z.land (entry pdp (PDP vaddr)) PT_ADDRESS_MASK) in
  if Z.land (entry pde (PDE vaddr)) VALID =? 0 then NO_MAP else
  if negb (Z.land (entry pde (PDE vaddr)) LH_MAPPING =? 0) then frame_of (entry pde (PDE vaddr)) else
  let pte := phys_to_virt (Z.land (entry pde (PDE vaddr)) PT_ADDRESS_MASK) in
  if Z.land (entry pte (PTE vaddr)) VALID =? 0 then NO_MAP else
  frame_of (entry pte (PTE vaddr)).

(** ** usctm/usctm.c *)

Definition START : Z := 0xffffffff00000000.
Definition MAX_ADDR : Z := 0xfffffffffff00000.
Definition FIRST_NI_SYSCALL : Z := 134.
Definition SECOND_NI_SYSCALL : Z := 174.
Definition THIRD_NI_SYSCALL : Z := 182.
Definition FOURTH_NI_SYSCALL : Z := 183.
Definition FIFTH_NI_SYSCALL : Z := 214.
Definition SIXTH_NI_SYSCALL : Z := 215.
Definition SEVENTH_NI_SYSCALL : Z := 236.
Definition ENTRIES_TO_EXPLORE : Z := 256.
Definition PAGE_SIZE : Z := 4096.

(** [addr[i]] *)
Definition at_ (addr i : Z) : Z := word_at (u64 (addr + 8 * i)).

(** No entry before the first unused one holds its address. *)
Definition good_area (addr : Z) : bool :=
  forallb (fun i => negb (at_ addr (Z.of_nat i) =? at_ addr FIRST_NI_SYSCALL))
    (seq 1 (Z.to_nat FIRST_NI_SYSCALL - 1)).

(** Lines 118-129: the pattern matching at [addr]. *)
Definition looks_like_table (addr : Z) : bool :=
  let ni := at_ addr FIRST_NI_SYSCALL in
  (Z.land ni 0x3 =? 0) && negb (ni =? 0) && (0xffffffff00000000 <? ni)
  && (ni =? at_ addr SECOND_NI_SYSCALL) && (ni =? at_ addr THIRD_NI_SYSCALL)
  && (ni =? at_ addr FOURTH_NI_SYSCALL) && (ni =? at_ addr FIFTH_NI_SYSCALL)
  && (ni =? at_ addr SIXTH_NI_SYSCALL) && (ni =? at_ addr SEVENTH_NI_SYSCALL)
  && good_area addr.

(** Lines 107-136: the address of the table, from offset [i] of the page on. *)
Fixpoint validate_from (fuel : nat) (page i : Z) : option Z :=
  match fuel with
  | O => None
  | S fuel' =>
    if i <? PAGE_SIZE then
      let new_page := u64 (page + i + SEVENTH_NI_SYSCALL * 8) in
      if (u64 (page + PAGE_SIZE) =? Z.land new_page ADDRESS_MASK) && (sys_vtpmo new_page =? NO_MAP)
      then None
      else if looks_like_table (page + i) then Some (page + i) else validate_from fuel' page (i + 8)
    else None
  end.
Definition validate_page (page : Z) : option Z := validate_from 513 page 0.

(** syscall_table_finder(), from page [k] on. *)
Fixpoint find_from (fuel : nat) (k : Z) : option Z :=
  match fuel with
  | O => None
  | S fuel' =>
    if k <? MAX_ADDR then
      if negb (sys_vtpmo k =? NO_MAP) then
        match validate_page k with
        | Some tbl => Some tbl
        | None => find_from fuel' (k + 4096)
        end
      else find_from fuel' (k + 4096)
    else None
  end.
(** One more round than there are pages to look at. *)
Definition finder_fuel : nat := Z.to_nat ((MAX_ADDR - START) / 4096 + 1).
Definition syscall_table_finder : option Z := find_from finder_fuel START.

(** Lines 253-261: the entries from [i] on that hold the address of
    sys_ni_syscall, at most MAX_FREE of them. *)
Fixpoint free_from (fuel : nat) (tbl ni i : Z) (found : list Z) : list Z :=
  match fuel with
  | O => found
  | S fuel' =>
    if i <? ENTRIES_TO_EXPLORE then
      if at_ tbl i =? ni then
        let found := found ++ [i] in
        if (MAX_FREE <=? Z.of_nat (length found)) then found else free_from fuel' tbl ni (i + 1) found
      else free_from fuel' tbl ni (i + 1) found
    else found
  end.

(** What init_module() exposes: the table, the address of sys_ni_syscall, the free
    entries and their number. *)
Definition init_module : Z + (Z * Z * list Z * Z) :=
  match syscall_table_finder with
  | None => inl (-1)
  | Some tbl =>
    let ni := at_ tbl FIRST_NI_SYSCALL in
    let free := free_from 257 tbl ni 0 [] in
    inr (tbl, ni, free, Z.of_nat (length free))
  end.

(** ** The page walk *)

(** The four-level translation as the processor defines it, for pages of 4 KiB and
    2 MiB: [walks vaddr e] when the translation of [vaddr] ends at the entry [e]. *)
Inductive walks (vaddr : Z) : Z -> Prop :=
| walks_large e4 e3 e2 :
    e4 = entry (phys_to_virt (Z.land read_cr3 ADDRESS_MASK)) (PML4 vaddr) ->
    e3 = entry (phys_to_virt (Z.land e4 PT_ADDRESS_MASK)) (PDP vaddr) ->
    e2 = entry (phys_to_virt (Z.land e3 PT_ADDRESS_MASK)) (PDE vaddr) ->
    Z.land e4 VALID <> 0 -> Z.land e3 VALID <> 0 -> Z.land e2 VALID <> 0 ->
    Z.land e2 LH_MAPPING <> 0 -> walks vaddr e2
| walks_small e4 e3 e2 e1 :
    e4 = entry (phys_to_virt (Z.land read_cr3 ADDRESS_MASK)) (PML4 vaddr) ->
    e3 = entry (phys_to_virt (Z.land e4 PT_ADDRESS_MASK)) (PDP vaddr) ->
    e2 = entry (phys_to_virt (Z.land e3 PT_ADDRESS_MASK)) (PDE vaddr) ->
    e1 = entry (phys_to_virt (Z.land e2 PT_ADDRESS_MASK)) (PTE vaddr) ->
    Z.land e4 VALID <> 0 -> Z.land e3 VALID <> 0 -> Z.land e2 VALID <> 0 ->
    Z.land e2 LH_MAPPING = 0 -> Z.land e1 VALID <> 0 -> walks vaddr e1.

Lemma walks_unique vaddr e e' : walks vaddr e -> walks vaddr e' -> e = e'.
Proof. intros H1 H2. inversion H1; inversion H2; congruence. Qed.

Lemma sys_vtpmo_walks vaddr e : walks vaddr e -> sys_vtpmo vaddr = frame_of e.
Proof.
  unfold sys_vtpmo. intros [e4 e3 e2 -> -> -> H4 H3 H2 HL|e4 e3 e2 e1 -> -> -> -> H4 H3 H2 HL H1].
  all: apply Z.eqb_neq in H4, H3, H2; rewrite H4, H3, H2.
  - apply Z.eqb_neq in HL. by rewrite HL.
  - apply Z.eqb_neq in H1. apply Z.eqb_eq in HL. by rewrite HL, H1.
Qed.

Lemma sys_vtpmo_no_walk vaddr : (forall e, ~ walks vaddr e) -> sys_vtpmo vaddr = NO_MAP.
Proof.
  intros Hno. unfold sys_vtpmo. repeat case_if; try done; reflect_bools.
  - exfalso. eapply Hno. by eapply walks_large.
  - exfalso. eapply Hno. by eapply walks_small.
Qed.


(** The answer depends on the page only. *)
Lemma sys_vtpmo_page a b :
  0 <= a < 2 ^ 64 -> 0 <= b < 2 ^ 64 -> a / 4096 = b / 4096 -> sys_vtpmo a = sys_vtpmo b.
Proof.
  intros Ha Hb Hab.
  assert (H12 : Z.shiftr (s64 a) 12 = Z.shiftr (s64 b) 12).
  { rewrite !Z.shiftr_div_pow2 by done. change (2 ^ 12) with 4096.
    assert (Hsd : forall z, 0 <= z < 2 ^ 64 ->
      s64 z / 4096 = if decide (z / 4096 < 2 ^ 51) then z / 4096 else z / 4096 - 2 ^ 52).
    { intros z Hz. unfold s64. case_decide.
      - pose proof (Z.mul_succ_div_gt z 4096 ltac:(lia)).
        rewrite Z.mod_small by lia. f_equal. lia.
      - pose proof (Z.mul_div_le z 4096 ltac:(lia)).
        rewrite <- (Z.mod_add _ (-1)), Z.mod_small by lia.
        replace (z + 2 ^ 63 + -1 * 2 ^ 64 - 2 ^ 63) with (z + - 2 ^ 52 * 4096) by lia.
        rewrite Z.div_add by lia. lia. }
    rewrite !Hsd by done. by rewrite Hab. }
  assert (Hsh : forall n, 12 <= n -> Z.shiftr (s64 a) n = Z.shiftr (s64 b) n).
  { intros n Hn. replace n with (12 + (n - 12)) by lia. rewrite <- !Z.shiftr_shiftr by lia. by rewrite H12. }
  unfold sys_vtpmo, PML4, PDP, PDE, PTE. by rewrite !Hsh by done.
Qed.

(** ** The search *)

Definition mapped (a : Z) : Prop := sys_vtpmo a <> NO_MAP.

(** An aligned address of the search range where the pattern matches, with its
    first and its last examined word in mapped pages. *)
Definition table_at (t : Z) : Prop :=
  START <= t < MAX_ADDR /\ t mod 8 = 0 /\ mapped t /\ mapped (t + 8 * SEVENTH_NI_SYSCALL) /\
  looks_like_table t = true.

(** [r] is the first table of [lo, hi). *)
Definition first_in (lo hi : Z) (r : option Z) : Prop :=
  match r with
  | Some t => lo <= t < hi /\ table_at t /\ forall t', lo <= t' < t -> ~ table_at t'
  | None => forall t', lo <= t' < hi -> ~ table_at t'
  end.

Lemma first_in_skip lo mid hi r :
  lo <= mid -> first_in lo mid None -> first_in mid hi r -> first_in lo hi r.
Proof.
  intros Hle Hno. destruct r as [t|]; simpl.
  - intros (Hb & Ht & Hf). split; [lia|]. split; [done|]. intros t' ?.
    destruct (decide (t' < mid)); [apply Hno; lia|apply Hf; lia].
  - intros Hf t' ?. destruct (decide (t' < mid)); [apply Hno; lia|apply Hf; lia].
Qed.

Lemma first_in_here t hi : t < hi -> table_at t -> first_in t hi (Some t).
Proof. intros ? Ht. split; [lia|]. split; [done|]. intros; lia. Qed.

Lemma land_ADDRESS_MASK x : 0 <= x < 2 ^ 64 -> Z.land x ADDRESS_MASK = x / 4096 * 4096.
Proof.
  intros Hx. change ADDRESS_MASK with (Z.shiftl (Z.ones 52) 12).
  transitivity (Z.shiftl (Z.land (Z.shiftr x 12) (Z.ones 52)) 12).
  - apply Z.bits_inj'. intros n Hn. rewrite Z.land_spec, !Z.shiftl_spec by done.
    destruct (decide (n < 12)).
    + rewrite !(Z.testbit_neg_r _ (n - 12)) by lia. apply andb_false_r.
    + rewrite Z.land_spec, Z.shiftr_spec by lia. by replace (n - 12 + 12) with n by lia.
  - rewrite Z.land_ones by done. rewrite Z.shiftr_div_pow2, Z.shiftl_mul_pow2 by done.
    change (2 ^ 12) with 4096. rewrite Z.mod_small; [done|].
    split; [apply Z.div_pos; lia|apply Z.div_lt_upper_bound; lia].
Qed.

(** An offset within a page does not change its number. *)
Lemma page_number k d : k mod 4096 = 0 -> 0 <= d < 4096 -> (k + d) / 4096 = k / 4096.
Proof.
  intros Hk Hd. pose proof (Z.div_mod k 4096 ltac:(lia)) as Hdm. rewrite Hk, Z.add_0_r in Hdm.
  rewrite Hdm at 1. rewrite Z.mul_comm, Z.div_add_l by lia. rewrite (Z.div_small d) by lia. lia.
Qed.

Lemma mapped_in_page k d d' :
  START <= k < MAX_ADDR + 4096 -> k mod 4096 = 0 -> 0 <= d < 4096 -> 0 <= d' < 4096 ->
  sys_vtpmo (k + d) = sys_vtpmo (k + d').
Proof.
  intros Hk Hm Hd Hd'. unfold START, MAX_ADDR in Hk.
  apply sys_vtpmo_page; [lia|lia|]. by rewrite !page_number by done.
Qed.

(** What the test for the second page sees, for the offset [i]. *)
Lemma second_page k i :
  START <= k < MAX_ADDR -> k mod 4096 = 0 -> 0 <= i < 4096 ->
  u64 (k + i + SEVENTH_NI_SYSCALL * 8) = k + i + 1888 /\
  (u64 (k + PAGE_SIZE) =? Z.land (k + i + 1888) ADDRESS_MASK) = (4096 <=? i + 1888).
Proof.
  unfold START, MAX_ADDR, SEVENTH_NI_SYSCALL, PAGE_SIZE. intros Hk Hm Hi.
  rewrite !u64_small by lia. split; [lia|]. rewrite land_ADDRESS_MASK by lia.
  pose proof (Z.div_mod k 4096 ltac:(lia)) as Hdm.
  destruct (Z.leb_spec 4096 (i + 1888)).
  - apply Z.eqb_eq. replace (k + i + 1888) with ((k + 4096) + (i + 1888 - 4096)) by lia.
    rewrite page_number; [|rewrite Z.add_mod, Hm by lia; done|lia].
    replace (k + 4096) with (k + 1 * 4096) by lia. rewrite Z.div_add by lia. lia.
  - apply Z.eqb_neq. replace (k + i + 1888) with (k + (i + 1888)) by lia.
    rewrite page_number by lia. lia.
Qed.

(** validate_page() finds the first table of a mapped page. *)
Lemma validate_from_first fuel k i :
  START <= k < MAX_ADDR -> k mod 4096 = 0 -> mapped k -> 0 <= i -> i mod 8 = 0 ->
  4096 - i < 8 * Z.of_nat fuel ->
  first_in (k + i) (k + 4096) (validate_from fuel k i).
Proof.
  intros Hk Hm Hmap. assert (Hm8 : exists q, k = 8 * q).
  { exists (512 * (k / 4096)). rewrite (Z.div_mod k 4096) at 1 by lia. lia. }
  destruct Hm8 as [q Hq].
  revert i. induction fuel as [|fuel IH]; intros i Hi Hi8 Hf; cbn [validate_from].
  { intros t' ?; lia. }
  pose proof (Z.div_mod i 8 ltac:(lia)) as Hdi.
  destruct (Z.ltb_spec i PAGE_SIZE) as [Hlt|]; [|intros t' ?; unfold PAGE_SIZE in *; lia].
  unfold PAGE_SIZE in Hlt. destruct (second_page k i Hk Hm) as [-> ->]; [lia|].
  destruct (andb _ _) eqn:Hcut; reflect_bools.
  - intros t' Ht' (_ & _ & _ & Hmt & _). apply Hmt.
    change (8 * SEVENTH_NI_SYSCALL) with 1888. etrans; [|eassumption].
    replace (t' + 1888) with ((k + 4096) + (t' - k + 1888 - 4096)) by lia.
    replace (k + i + 1888) with ((k + 4096) + (i + 1888 - 4096)) by lia.
    apply mapped_in_page; [lia| |lia|lia]. rewrite Z.add_mod, Hm by lia. done.
  - destruct (looks_like_table (k + i)) eqn:Hlook.
    + apply first_in_here; [lia|]. unfold START, MAX_ADDR in Hk. unfold table_at, START, MAX_ADDR.
      pose proof (Z.div_mod k 4096 ltac:(lia)). split_and!; [lia|lia| | | |done].
      * rewrite Hq. replace (8 * q + i) with (i + q * 8) by lia. by rewrite Z.mod_add.
      * unfold mapped. by rewrite (mapped_in_page k i 0), Z.add_0_r by (unfold START, MAX_ADDR; lia).
      * change (8 * SEVENTH_NI_SYSCALL) with 1888. unfold mapped.
        apply andb_false_iff in Hcut as [Hin|Hne]; reflect_bools; [|done].
        replace (k + i + 1888) with (k + (i + 1888)) by lia.
        by rewrite (mapped_in_page k _ 0), Z.add_0_r by (unfold START, MAX_ADDR; lia).
    + apply (first_in_skip _ (k + (i + 8))); [lia| |].
      * intros t' Ht' (_ & Ht8 & _ & _ & Hl). pose proof (Z.div_mod t' 8 ltac:(lia)).
        replace t' with (k + i) in Hl by lia. congruence.
      * apply IH; [lia| |lia]. replace (i + 8) with (i + 1 * 8) by lia. by rewrite Z.mod_add.
Qed.

Lemma find_from_first fuel k :
  START <= k <= MAX_ADDR -> k mod 4096 = 0 -> MAX_ADDR - k < 4096 * Z.of_nat fuel ->
  first_in k MAX_ADDR (find_from fuel k).
Proof.
  revert k. induction fuel as [|fuel IH]; intros k Hk Hm Hf; [intros t' ?; lia|].
  cbn [find_from]. destruct (Z.ltb_spec k MAX_ADDR) as [Hlt|]; [|intros t' ?; lia].
  pose proof (Z.div_mod k 4096 ltac:(lia)).
  assert (Hnext : first_in (k + 4096) MAX_ADDR (find_from fuel (k + 4096))).
  { apply IH; [unfold START, MAX_ADDR in *; lia| |lia]. rewrite Z.add_mod, Hm by lia. done. }
  destruct (sys_vtpmo k =? NO_MAP) eqn:Hmap; reflect_bools; cbn [negb].
  - apply (first_in_skip _ (k + 4096)); [lia| |done]. intros t' Ht' (_ & _ & Hmt & _). apply Hmt.
    replace t' with (k + (t' - k)) by lia.
    rewrite (mapped_in_page k _ 0), Z.add_0_r by (unfold START, MAX_ADDR in *; lia). done.
  - pose proof (validate_from_first 513 k 0) as Hpage. rewrite Z.add_0_r in Hpage.
    fold (validate_page k) in Hpage. specialize (Hpage (conj (proj1 Hk) Hlt) Hm Hmap ltac:(lia)
      eq_refl ltac:(lia)).
    destruct (validate_page k) as [t|].
    + destruct Hpage as (Hb & Ht & Hfirst). split; [unfold MAX_ADDR in *; lia|done].
    + apply (first_in_skip _ (k + 4096)); [lia|done|done].
Qed.

Lemma search_first : first_in START MAX_ADDR syscall_table_finder.
Proof.
  apply find_from_first; [unfold START, MAX_ADDR; lia|done|].
  unfold finder_fuel. rewrite Z2Nat.id by (apply Z.leb_le; reflexivity).
  apply Z.ltb_lt. reflexivity.
Qed.

Lemma search_found t :
  syscall_table_finder = Some t -> table_at t /\ forall t', table_at t' -> t <= t'.
Proof.
  intros Hfind. pose proof search_first as Hfirst. rewrite Hfind in Hfirst.
  destruct Hfirst as (_ & Ht & Hf). split; [done|]. intros t' Ht'.
  destruct (decide (t <= t')); [done|]. exfalso. apply (Hf t'); [|done].
  destruct Ht' as [? _]. lia.
Qed.

(** C22: the search ends and finds the first aligned address of the range
    [START, MAX_ADDR) that looks like the system call table and lies in mapped
    pages; it fails only when there is none. *)
Theorem finder_first_table :
  match syscall_table_finder with
  | Some t => table_at t /\ forall t', table_at t' -> t <= t'
  | None => forall t', ~ table_at t'
  end.
Proof.
  pose proof search_first as Hno. pose proof search_found as Hyes. revert Hno Hyes.
  generalize syscall_table_finder. intros [t|] Hno Hyes; [by apply Hyes|].
  intros t' Ht'. apply (Hno t'); [|done]. by destruct Ht' as [? _].
Qed.

(** ** The free entries *)

Definition unused (tbl ni : Z) : list Z := filter (fun i => at_ tbl i = ni) (seqZ 0 ENTRIES_TO_EXPLORE).

Lemma free_from_take fuel tbl ni i found :
  0 <= i -> ENTRIES_TO_EXPLORE - i < Z.of_nat fuel -> Z.of_nat (length found) < MAX_FREE ->
  free_from fuel tbl ni i found =
  take (Z.to_nat MAX_FREE)
    (found ++ filter (fun j => at_ tbl j = ni) (seqZ i (ENTRIES_TO_EXPLORE - i))).
Proof.
  revert i found. induction fuel as [|fuel IH]; intros i found Hi Hf Hlen; cbn [free_from].
  { rewrite seqZ_nil by lia. rewrite filter_nil, app_nil_r, take_ge; [done|lia]. }
  destruct (Z.ltb_spec i ENTRIES_TO_EXPLORE).
  - rewrite seqZ_cons by lia.
    replace (Z.succ i) with (i + 1) by lia.
    replace (Z.pred (ENTRIES_TO_EXPLORE - i)) with (ENTRIES_TO_EXPLORE - (i + 1)) by lia.
    rewrite filter_cons. destruct (Z.eqb_spec (at_ tbl i) ni); rewrite ?decide_True, ?decide_False by done.
    + assert (Hl : length (found ++ [i]) = S (length found)) by (rewrite length_app; simpl; lia).
      rewrite Hl. destruct (Z.leb_spec MAX_FREE (Z.of_nat (S (length found)))).
      * rewrite (cons_middle i found (filter _ _)), app_assoc.
        rewrite take_app_le by (rewrite Hl; unfold MAX_FREE in *; lia).
        rewrite take_ge; [done|rewrite Hl; unfold MAX_FREE in *; lia].
      * rewrite IH by (rewrite ?Hl; lia). by rewrite <- app_assoc.
    + by rewrite IH by lia.
  - rewrite seqZ_nil by lia. rewrite filter_nil, app_nil_r, take_ge; [done|]. unfold MAX_FREE in *; lia.
Qed.

(** The entries the search pattern relies on. *)
Lemma pattern_entries t :
  looks_like_table t = true ->
  [134; 174; 182; 183; 214; 215; 236] ⊆+ unused t (at_ t FIRST_NI_SYSCALL).
Proof.
  intros Hl. unfold looks_like_table in Hl. reflect_bools.
  apply NoDup_submseteq; [repeat constructor; set_solver|].
  intros x Hx. unfold unused. apply list_elem_of_filter.
  rewrite elem_of_seqZ. unfold ENTRIES_TO_EXPLORE, FIRST_NI_SYSCALL, SECOND_NI_SYSCALL,
    THIRD_NI_SYSCALL, FOURTH_NI_SYSCALL, FIFTH_NI_SYSCALL, SIXTH_NI_SYSCALL, SEVENTH_NI_SYSCALL in *.
  rewrite !elem_of_cons, elem_of_nil in Hx. destruct_or!; subst; split; (done || lia).
Qed.

(** What init_module() hands out when it succeeds. *)
Lemma init_module_spec tbl ni free n :
  init_module = inr (tbl, ni, free, n) ->
  syscall_table_finder = Some tbl /\ ni = at_ tbl FIRST_NI_SYSCALL /\
  free = take (Z.to_nat MAX_FREE) (unused tbl ni) /\ n = Z.of_nat (length free).
Proof.
  unfold init_module. generalize syscall_table_finder. intros [t|] Heq; [|discriminate].
  apply (inj inr) in Heq. rewrite !pair_equal_spec in Heq. destruct Heq as [[[<- <-] <-] <-].
  rewrite free_from_take; [|lia|unfold ENTRIES_TO_EXPLORE; lia|simpl; unfold MAX_FREE; lia].
  unfold unused. rewrite app_nil_l, Z.sub_0_r. by split_and!.
Qed.

Lemma unused_in t ni e : e ∈ unused t ni -> 0 <= e < ENTRIES_TO_EXPLORE /\ at_ t e = ni.
Proof. unfold unused. rewrite list_elem_of_filter, elem_of_seqZ. intros []. by split; [lia|]. Qed.

Lemma NoDup_unused t ni : NoDup (unused t ni).
Proof. apply NoDup_filter, NoDup_seqZ. Qed.

Lemma free_bounds t :
  looks_like_table t = true ->
  (7 <= length (take (Z.to_nat MAX_FREE) (unused t (at_ t FIRST_NI_SYSCALL))) <= 15)%nat.
Proof.
  intros Hl. pose proof (submseteq_length _ _ (pattern_entries t Hl)) as Hlen.
  rewrite length_take. change (Z.to_nat MAX_FREE) with 15%nat. simpl in Hlen. lia.
Qed.

(** C25: when the discovery module loads, the table it exposes is the first one of
    the search range, the address it exposes is that of sys_ni_syscall in that
    table (entry 134, aligned, in the kernel's range) and the free entries are the
    first fifteen of the first 256 that hold it: at least seven, all different. *)
Theorem discovery_exposes_free_entries tbl ni free n :
  init_module = inr (tbl, ni, free, n) ->
  table_at tbl /\ (forall t', table_at t' -> tbl <= t') /\ ni = at_ tbl FIRST_NI_SYSCALL /\
  free = take (Z.to_nat MAX_FREE) (unused tbl ni) /\ NoDup free /\
  n = Z.of_nat (length free) /\ 7 <= n <= MAX_FREE.
Proof.
  intros (Hfind & -> & -> & ->)%init_module_spec.
  destruct (search_found _ Hfind) as [Ht Hf].
  pose proof (free_bounds tbl ltac:(by destruct Ht as (_ & _ & _ & _ & ?))) as Hlen.
  split_and!; try done.
  - eapply sublist_NoDup; [apply NoDup_unused|apply sublist_take].
  - lia.
  - unfold MAX_FREE at 2. lia.
Qed.

(** ** From the discovery to the registration *)

(** The parameters of the BLDMS module are what the discovery exposed, nothing has
    been lent yet, and the table is mapped in memory. *)
Record given_to (k : kstate) (tbl ni : Z) (free : list Z) (n : Z) : Prop := {
  gt_restore : restore k = [-1; -1; -1; -1];
  gt_free : free_entries k = free ++ replicate (Z.to_nat (MAX_FREE - n)) 0;
  gt_num : num_entries_found k = n;
  gt_table : sys_call_table_address k = tbl;
  gt_ni : sys_ni_syscall_address k = ni;
  gt_mem e : 0 <= e < ENTRIES_TO_EXPLORE -> kmem k !! (tbl + 8 * e) = Some (at_ tbl e)
}.

Context {H : Handlers}.

(** The first three entries that were found can be lent. *)
Lemma discovered_lendable tbl ni free n k :
  init_module = inr (tbl, ni, free, n) -> given_to k tbl ni free n ->
  exists e0 e1 e2 rest, lendable k e0 e1 e2 rest /\ NoDup [e0; e1; e2] /\
    forall e, e ∈ [e0; e1; e2] -> 0 <= e < ENTRIES_TO_EXPLORE /\ at_ tbl e = ni /\
      kmem k !! (sys_call_table_address k + 8 * e) = Some (sys_ni_syscall_address k).
Proof.
  intros (Hfind & Hni & Hfree & Hn)%init_module_spec [Hr Hf Hnum Htbl Hnik Hmem].
  assert (Hlook : looks_like_table tbl = true).
  { by destruct (search_found _ Hfind) as [(_ & _ & _ & _ & ?) _]. }
  pose proof (free_bounds tbl Hlook) as Hlen. rewrite <- Hni, <- Hfree in Hlen.
  destruct free as [|e0 [|e1 [|e2 free']]]; simpl in Hlen; [lia..|].
  assert (Hin : forall e, e ∈ [e0; e1; e2] -> 0 <= e < ENTRIES_TO_EXPLORE /\ at_ tbl e = ni).
  { intros e He. apply unused_in. eapply elem_of_sublist; [|apply sublist_take].
    rewrite <- Hfree. set_solver. }
  assert (Hsub : sublist [e0; e1; e2] (unused tbl ni)).
  { etrans; [|apply (sublist_take _ (Z.to_nat MAX_FREE))]. rewrite <- Hfree.
    change (e0 :: e1 :: e2 :: free') with ([e0; e1; e2] ++ free'). by apply sublist_inserts_r. }
  exists e0, e1, e2, (free' ++ replicate (Z.to_nat (MAX_FREE - n)) 0). split_and!.
  - split; [done|by rewrite Hf| |]; [rewrite Hnum, Hn; simpl; lia|].
    intros e [He _]%Hin. rewrite Htbl. eauto.
  - eapply sublist_NoDup; [apply NoDup_unused|done].
  - intros e He. destruct (Hin e He) as [Hb Hat]. by rewrite Htbl, Hnik, Hmem, Hat.
Qed.

End Walk.

(** ** Witnesses *)

(** A machine whose page table maps the first 2 MiB of the search range with one
    large page, and whose system call table starts 16 bytes into it. *)
Definition sample_sys_ni : Z := 0xffffffff81000000.
Definition sample_tbl : Z := START + 16.
Definition sample_word (a : Z) : Z :=
  if a =? 0x1000 + 8 * 511 then 0x2001
  else if a =? 0x2000 + 8 * 508 then 0x3001
  else if a =? 0x3000 then 0x40000081
  else if bool_decide ((a - sample_tbl) / 8 ∈ [134; 174; 182; 183; 214; 215; 236; 240])
  then sample_sys_ni else 7.
#[local] Instance sample_cpu : Cpu :=
  { word_at := sample_word; read_cr3 := 0x1000; phys_to_virt := fun p => p }.

Definition sample_free : list Z := [134; 174; 182; 183; 214; 215; 236; 240].

Lemma sample_init_module : init_module = inr (sample_tbl, sample_sys_ni, sample_free, 8).
Proof. vm_compute. reflexivity. Qed.

Lemma sample_walks : walks START 0x40000081.
Proof. by eapply walks_large; try reflexivity; vm_compute. Qed.


Lemma discovery_exposes_free_entries_witness :
  table_at sample_tbl /\ sample_free = take (Z.to_nat MAX_FREE) (unused sample_tbl sample_sys_ni).
Proof.
  destruct (discovery_exposes_free_entries _ _ _ _ sample_init_module) as (H1 & _ & _ & H2 & _).
  exact (conj H1 H2).
Defined.

#[local] Instance sample_calls : Handlers :=
  { sys_put_data := 1001; sys_get_data := 1002; sys_invalidate_data := 1003 }.
Definition sample_table_mem : gmap Z Z :=
  list_to_map ((fun e => (sample_tbl + 8 * e, at_ sample_tbl e)) <$> seqZ 0 ENTRIES_TO_EXPLORE).
Definition sample_given : kstate :=
  KState [-1; -1; -1; -1] (sample_free ++ replicate 7 0) 8 sample_tbl sample_sys_ni 0 0 0
    [0; 0; 0] [-1; -1; -1] [-1; -1; -1] 0x80050033 sample_table_mem.

Lemma sample_given_to : given_to sample_given sample_tbl sample_sys_ni sample_free 8.
Proof.
  split; try reflexivity. intros e He.
  assert (Hall : Forall (fun e => sample_table_mem !! (sample_tbl + 8 * e) = Some (at_ sample_tbl e))
    (seqZ 0 ENTRIES_TO_EXPLORE)).
  { apply (bool_decide_unpack _). vm_compute. exact I. }
  rewrite Forall_forall in Hall. apply Hall, elem_of_seqZ. lia.
Qed.

