(* ===== verification/Lending.v ===== *)
(** * Lending the entries of the system call table (usctm/usctm.c)

    The discovery module has its own get_entries() and reset_entries(), for clients
    in the kernel: the loops are those of lib/usctm.c, on arrays with room for all
    the entries found.  The globals of the module that they use are the fields of
    the same names of [kstate]. *)
From S2P Require Import Prelude Usctm.

(** ** usctm/usctm.c *)

(** The global [next_free_entry]: init_module() sets it to 0 and nothing changes it. *)
Definition next_free_entry : Z := 0.

(** The result and, on success, the first [given] ints of [ids] and of [indexes] and
    the address of sys_ni_syscall(). *)
Definition get_entries (num_acquires : Z) : P (Z * option (list Z * list Z * Z)) :=
  let! n := p_get num_entries_found in
  if n - next_free_entry <? num_acquires then p_ret (-1, None) else
  if num_acquires <? 1 then p_ret (-1, None) else
  let none := replicate (Z.to_nat MAX_FREE) (-1) in
  let! r := acquire_loop (S (Z.to_nat n)) num_acquires 0 0 none none in
  let '(given, ids, ndxs) := r in
  if negb (given =? num_acquires) then p_ret (-1, None) else
  let! ni := p_get sys_ni_syscall_address in
  p_ret (given, Some (take (Z.to_nat given) ids, take (Z.to_nat given) ndxs, ni)).

Definition reset_entries (entry_ndx : list Z) (num_resets : Z) : P unit :=
  reset_loop (S (Z.to_nat num_resets)) 0 num_resets entry_ndx.

(** ** The loops *)

Lemma insert_middle {A} (l1 l2 : list A) x y : <[length l1 := y]> (l1 ++ x :: l2) = l1 ++ y :: l2.
Proof. rewrite insert_app_r_alt by lia. by rewrite Nat.sub_diag. Qed.

(** A run of free entries is taken. *)
Lemma acquire_run xs : forall fuel k na i given r1 r2 f1 f2 a1 a2 b1 b2,
  restore k = r1 ++ replicate (length xs) (-1) ++ r2 -> free_entries k = f1 ++ xs ++ f2 ->
  length r1 = i -> length f1 = i -> length a1 = i -> length b1 = i ->
  Z.of_nat (i + length xs) <= num_entries_found k -> na = Z.of_nat (given + length xs) ->
  acquire_loop (length xs + S fuel) na (Z.of_nat i) (Z.of_nat given)
    (a1 ++ replicate (length xs) (-1) ++ a2) (b1 ++ replicate (length xs) (-1) ++ b2) k =
  Some ((na, a1 ++ xs ++ a2, b1 ++ seqZ (Z.of_nat i) (Z.of_nat (length xs)) ++ b2),
        set_restore (r1 ++ xs ++ r2) k).
Proof.
  induction xs as [|x xs IH]; intros fuel k na i given r1 r2 f1 f2 a1 a2 b1 b2 Hr Hf Hr1 Hf1 Ha1 Hb1 Hn ->.
  { cbn [length replicate Nat.add app] in *. rewrite Nat.add_0_r, acquire_end, <- Hr. by destruct k. }
  cbn [length] in *. cbn [replicate] in *. cbn [Nat.add app].
  rewrite (acquire_free k _ _ i given _ _ x); [|lia|lia|..].
  2: { rewrite Hr, <- Hr1. by apply list_lookup_middle. }
  2: { rewrite Hf, <- Hf1. by apply list_lookup_middle. }
  2,3: rewrite length_app; simpl; lia.
  assert (Hi1 : forall (l1 l2 : list Z) y, length l1 = i -> <[i := y]> (l1 ++ -1 :: l2) = (l1 ++ [y]) ++ l2).
  { intros l1 l2 y <-. by rewrite insert_middle, <- app_assoc. }
  rewrite Hr. simpl app. rewrite !Hi1 by done.
  rewrite (IH fuel _ _ (S i) (S given) (r1 ++ [x]) r2 (f1 ++ [x]) f2); simpl.
  - rewrite <- !app_assoc. simpl. rewrite (seqZ_cons (Z.of_nat i)) by lia.
    by replace (Z.pred (Z.of_nat (S (length xs)))) with (Z.of_nat (length xs)) by lia;
      replace (Z.succ (Z.of_nat i)) with (Z.of_nat (S i)) by lia.
  - done.
  - by rewrite <- app_assoc.
  - rewrite length_app. simpl. lia.
  - rewrite length_app. simpl. lia.
  - rewrite length_app. simpl. lia.
  - rewrite length_app. simpl. lia.
  - lia.
  - lia.
Qed.

(** Entries that are lent are passed over. *)
Lemma acquire_skip xs : forall fuel k na i given r1 r2 ids ndxs,
  restore k = r1 ++ xs ++ r2 -> length r1 = i -> Forall (fun x => x <> -1) xs ->
  Z.of_nat (i + length xs) <= num_entries_found k -> Z.of_nat given < na ->
  acquire_loop (length xs + fuel) na (Z.of_nat i) (Z.of_nat given) ids ndxs k =
  acquire_loop fuel na (Z.of_nat (i + length xs)) (Z.of_nat given) ids ndxs k.
Proof.
  induction xs as [|x xs IH]; intros fuel k na i given r1 r2 ids ndxs Hr Hr1 Hx Hn Hg.
  { cbn [length Nat.add]. by rewrite Nat.add_0_r. }
  apply Forall_cons in Hx as [Hx Hxs]. cbn [length Nat.add] in *.
  rewrite (acquire_lent k _ _ i given _ _ x); [|lia|done| |done].
  2: { rewrite Hr, <- Hr1. by apply list_lookup_middle. }
  rewrite (IH fuel k na (S i) given (r1 ++ [x]) r2); [|..|done|lia|done].
  - by replace (S i + length xs)%nat with (i + S (length xs))%nat by lia.
  - by rewrite Hr, <- app_assoc.
  - rewrite length_app. simpl. lia.
Qed.

(** A run of entries is given back. *)
Lemma reset_run xs : forall fuel k i n r1 r2,
  restore k = r1 ++ xs ++ r2 -> length r1 = i -> n = Z.of_nat (i + length xs) ->
  reset_loop (length xs + S fuel) (Z.of_nat i) n (seqZ 0 n) k =
  Some (tt, set_restore (r1 ++ replicate (length xs) (-1) ++ r2) k).
Proof.
  induction xs as [|x xs IH]; intros fuel k i n r1 r2 Hr Hr1 ->.
  { cbn [length replicate Nat.add app reset_loop] in *. rewrite Nat.add_0_r, Z.ltb_irrefl, <- Hr. by destruct k. }
  cbn [length Nat.add reset_loop app] in *. rewrite (proj2 (Z.ltb_lt _ _)) by lia.
  unfold p_bind, p_get, p_mod. rewrite (run_arr_get _ i (Z.of_nat i)) by (apply lookup_seqZ; lia).
  rewrite run_arr_set by (rewrite Hr, length_app; simpl; lia).
  rewrite Hr, <- Hr1, insert_middle, Hr1.
  replace (Z.of_nat i + 1) with (Z.of_nat (S i)) by lia.
  rewrite (IH fuel _ (S i) _ (r1 ++ [-1]) r2).
  - rewrite <- app_assoc. done.
  - simpl. by rewrite <- app_assoc.
  - rewrite length_app. simpl. lia.
  - f_equal. lia.
Qed.

(** get_entries() around its loop. *)
Lemma run_lending k na ids ndxs k' :
  1 <= na <= num_entries_found k ->
  (let none := replicate (Z.to_nat MAX_FREE) (-1) in
   acquire_loop (S (Z.to_nat (num_entries_found k))) na 0 0 none none k = Some ((na, ids, ndxs), k')) ->
  get_entries na k = Some ((na, Some (take (Z.to_nat na) ids, take (Z.to_nat na) ndxs,
                                      sys_ni_syscall_address k')), k').
Proof.
  intros Hna Hl. unfold get_entries, p_bind, p_get, next_free_entry. rewrite Z.sub_0_r.
  rewrite (proj2 (Z.ltb_ge _ _)), (proj2 (Z.ltb_ge _ _)) by lia. cbv zeta in *. rewrite Hl.
  by rewrite Z.eqb_refl.
Qed.

(** C40: of two clients of the discovery module only the first is served.  The first
    one gets the first entries found and their indexes, and can give them back,
    which makes the module as it was.  As long as it keeps them, a second client is
    told -1 for its first entries, although as many others are taken for it, and
    giving back what it was told writes before the beginning of the array. *)
Theorem later_client_gets_nothing k xs ys rest :
  let n := Z.of_nat (length xs) in let m := Z.of_nat (length ys) in
  restore k = replicate (Z.to_nat MAX_FREE) (-1) -> free_entries k = xs ++ ys ++ rest ->
  1 <= n -> 1 <= m -> n + m <= num_entries_found k -> n + m <= MAX_FREE ->
  Forall (fun x => x <> -1) xs ->
  exists k1 k2 free,
    get_entries n k = Some ((n, Some (xs, seqZ 0 n, sys_ni_syscall_address k)), k1) /\
    reset_entries (seqZ 0 n) n k1 = Some (tt, k) /\
    let ids := take (length ys) (replicate (length xs) (-1) ++ ys) in
    let ndxs := take (length ys) (replicate (length xs) (-1) ++ seqZ n m) in
    get_entries m k1 = Some ((m, Some (ids, ndxs, sys_ni_syscall_address k)), k2) /\
    restore k2 = xs ++ ys ++ free /\ reset_entries ndxs m k2 = None.
Proof.
  intros n m Hr Hf Hn Hm Hnm Hmax Hxs. unfold MAX_FREE in *.
  set (q := (15 - length xs - length ys)%nat). set (free := replicate q (-1)).
  assert (Hnone : replicate (Z.to_nat 15) (-1) =
    replicate (length xs) (-1) ++ replicate (length ys) (-1) ++ free).
  { unfold free. rewrite <- !replicate_add. f_equal. lia. }
  set (k1 := set_restore (xs ++ replicate (length ys) (-1) ++ free) k).
  set (k2 := set_restore (xs ++ ys ++ free) k).
  set (f := (Z.to_nat (num_entries_found k) - length xs - length ys)%nat).
  exists k1, k2, free. split_and!.
  - rewrite (run_lending k n (xs ++ replicate (length ys) (-1) ++ free)
      (seqZ 0 n ++ replicate (length ys) (-1) ++ free) k1); [|lia|].
    + unfold n. rewrite Nat2Z.id, !take_app_length'; [done|rewrite length_seqZ; lia|done].
    + cbv zeta. unfold MAX_FREE. rewrite Hnone.
      replace (S (Z.to_nat (num_entries_found k))) with (length xs + S (length ys + f))%nat by lia.
      apply (acquire_run xs _ k n 0 0 [] _ [] (ys ++ rest) [] _ [] _); simpl; try done; try lia.
      by rewrite Hr, Hnone.
  - unfold reset_entries.
    replace (S (Z.to_nat n)) with (length xs + 1)%nat by lia.
    etrans; [apply (reset_run xs 0 k1 0 n [] (replicate (length ys) (-1) ++ free)); [done|done|lia]|].
    unfold k1. simpl. rewrite <- Hnone, <- Hr. by destruct k.
  - cbv zeta. rewrite (run_lending k1 m (replicate (length xs) (-1) ++ ys ++ free)
      (replicate (length xs) (-1) ++ seqZ n m ++ free) k2); [|simpl; lia|].
    + unfold m. rewrite Nat2Z.id, !app_assoc, !(take_app_le _ free); [done|..];
        rewrite length_app, ?length_seqZ; lia.
    + cbv zeta. unfold MAX_FREE. rewrite Hnone. simpl num_entries_found.
      replace (S (Z.to_nat (num_entries_found k))) with (length xs + (length ys + S f))%nat by lia.
      etrans; [apply (acquire_skip xs _ k1 m 0 0 [] (replicate (length ys) (-1) ++ free)); simpl; (done || lia)|].
      apply (acquire_run ys f k1 m (length xs) 0 xs _ xs rest); simpl; rewrite ?length_replicate; (done || lia).
  - done.
  - unfold reset_entries. destruct xs as [|x xs]; [by simpl in Hn|]. destruct ys as [|y ys]; [by simpl in Hm|].
    cbn [length Nat.add replicate app take].
    cbn [reset_loop]. by rewrite (proj2 (Z.ltb_lt 0 m)) by lia.
Qed.

(** ** Witness *)

Definition sample_found : list Z := [134; 174; 182; 183; 214; 215; 236; 0; 0; 0; 0; 0; 0; 0; 0].
Definition sample_module : kstate :=
  KState (replicate 15 (-1)) sample_found 7 sample_table sample_ni 0 0 0 [] [] [] 0 ∅.

(** Two clients ask for three entries each. *)
Lemma later_client_gets_nothing_witness :
  exists k1 k2, get_entries 3 sample_module = Some ((3, Some ([134; 174; 182], [0; 1; 2], sample_ni)), k1) /\
    get_entries 3 k1 = Some ((3, Some ([-1; -1; -1], [-1; -1; -1], sample_ni)), k2) /\
    reset_entries [-1; -1; -1] 3 k2 = None.
Proof.
  destruct (later_client_gets_nothing sample_module [134; 174; 182] [183; 214; 215]
    [236; 0; 0; 0; 0; 0; 0; 0; 0]) as (k1 & k2 & free & H1 & _ & H2 & _ & H3);
    [done|done|done|done|done|done|by repeat constructor|].
  exists k1, k2. split_and!; [exact H1|exact H2|exact H3].
Defined.
