(* ===== verification/DirOps.v ===== *)
(** * Listing the root directory (dir_ops.c)

    Each call of bldms_iterate() offers one entry to the kernel, which may refuse
    it (its buffer is full); [accepted] is the kernel's answer to dir_emit(). *)
From stdpp Require Import strings.
From S2P Require Import Prelude Layout FileOps.

Definition UNIQUE_FILE_NAME_SIZE : nat := 8.

(** What dir_emit_dot(), dir_emit_dotdot() and dir_emit() are asked to emit. *)
Inductive dirent :=
| Dot
| DotDot
| Entry (name : string) (ino : Z).

(** The file-system part of a struct dir_context, and what has been emitted. *)
Record dir_context := DirContext { pos : Z; emitted : list dirent }.

Definition emit (accepted : bool) (e : dirent) (ctx : dir_context) : bool * dir_context :=
  if accepted then (true, DirContext (pos ctx) (emitted ctx ++ [e])) else (false, ctx).
Definition advance (ctx : dir_context) : dir_context := DirContext (pos ctx + 1) (emitted ctx).

Definition bldms_iterate (accepted : bool) (ctx : dir_context) : Z * dir_context :=
  if 2 + 1 <=? pos ctx then (0, ctx) else
  let e :=
    if pos ctx =? 0 then Dot
    else if pos ctx =? 1 then DotDot
    else Entry (String.substring 0 UNIQUE_FILE_NAME_SIZE UNIQUE_FILE_NAME) BLDMS_SINGLEFILE_INODE_NUMBER in
  let (ok, ctx) := emit accepted e ctx in
  if negb ok then (0, ctx) else (0, advance ctx).

(** The calls of one listing, from the start of the directory. *)
Definition list_dir (answers : list bool) : dir_context :=
  foldl (fun ctx a => (bldms_iterate a ctx).2) (DirContext 0 []) answers.

Definition root_entries : list dirent :=
  [Dot; DotDot; Entry UNIQUE_FILE_NAME BLDMS_SINGLEFILE_INODE_NUMBER].

Definition accepts (answers : list bool) : nat := length (filter (fun a => a = true) answers).

(** The state after [n] entries have been taken. *)
Definition listed (n : nat) : dir_context :=
  DirContext (Z.of_nat (length (take n root_entries))) (take n root_entries).

Lemma iterate_listed a n : bldms_iterate a (listed n) = (0, listed (if a then S n else n)).
Proof. destruct a, n as [|[|[|[|n]]]]; reflexivity. Qed.

(** C28: however often the kernel's buffer is full in the meantime, the root
    directory lists ".", ".." and the file, in this order and each one once, and
    the position counts the entries listed. *)
Theorem iterate_lists_once answers :
  list_dir answers =
    DirContext (Z.of_nat (Nat.min (accepts answers) 3)) (take (accepts answers) root_entries).
Proof.
  assert (Hfold : forall n, foldl (fun ctx a => (bldms_iterate a ctx).2) (listed n) answers
    = listed (n + accepts answers)).
  { unfold accepts. induction answers as [|[] l IH]; intros n; cbn [foldl].
    - by rewrite Nat.add_0_r.
    - rewrite iterate_listed, filter_cons_True by done. cbn [snd length]. by rewrite IH, Nat.add_succ_r.
    - rewrite iterate_listed, filter_cons_False by done. cbn [snd]. by rewrite IH. }
  unfold list_dir. change (DirContext 0 []) with (listed 0). rewrite Hfold.
  unfold listed. rewrite length_take. reflexivity.
Qed.
