(* ===== verification/UserCalls.v ===== *)
(** * The driver as the user programs see it

    The programs of src/user/ call the driver through three macros, put_data(),
    get_data() and invalidate_data(), which go through syscall() with the numbers of
    the command line.  [Calls] is what the macros promise to a program; the programs
    are written over it.  [direct_calls] are the system calls themselves;
    [Dispatch] shows that the macros reach them. *)
From stdpp Require Import strings pretty.
From Stdlib Require Import Strings.Ascii.
From S2P Require Import Prelude Layout Kernel KernelFacts Rcu Store Device Syscalls.

Class Calls {K : Kernel} := {
  call_put : list byte -> Z -> M Z;
  call_get : Z -> nat -> Z -> M (Z * list byte);
  call_invalidate : Z -> M Z
}.

#[export] Instance direct_calls {K : Kernel} {C : Config} : Calls := {|
  call_put := put_data; call_get := get_data; call_invalidate := invalidate_data
|}.

(** ** Programs that do the same *)

Section Same.
Context {K : Kernel}.

(** Two programs with the same outcome in every state. *)
Definition same_run {A} (m m' : M A) : Prop := forall w, m w = m' w.

#[export] Instance same_run_equivalence {A} : Equivalence (@same_run A).
Proof. split; [by intros m w|by intros m m' H w|by intros m1 m2 m3 H1 H2 w; rewrite H1]. Qed.

#[export] Instance bind_same {A B} :
  Proper (same_run ==> pointwise_relation A same_run ==> same_run) (@bind K A B).
Proof. intros m m' Hm k k' Hk w. unfold bind. rewrite Hm. destruct (m' w); [apply Hk|done]. Qed.

#[export] Instance wp_same {A} :
  Proper (same_run ==> eq ==> eq ==> iff) (@wp K A).
Proof. intros m m' Hm Q Q' <- w w' <-. unfold wp. by rewrite Hm. Qed.

Lemma same_bind_ret {A B} (m : M A) (f : A -> B) (g : B -> A) :
  (forall a, g (f a) = a) -> same_run (bind (bind m (fun a => ret (f a))) (fun b => ret (g b))) m.
Proof.
  intros Hg w. unfold bind, ret. destruct (m w) as [a w'|]; [by rewrite Hg|done].
Qed.

(** Two interfaces that behave alike. *)
Record same_calls (U U' : Calls) : Prop := {
  same_put source size : same_run (@call_put _ U source size) (@call_put _ U' source size);
  same_get offset cap size : same_run (@call_get _ U offset cap size) (@call_get _ U' offset cap size);
  same_invalidate offset : same_run (@call_invalidate _ U offset) (@call_invalidate _ U' offset)
}.
End Same.

Create HintDb same discriminated.
#[export] Hint Resolve same_put same_get same_invalidate : same.
#[export] Hint Extern 1 (same_run ?m ?m) => reflexivity : same.

(** One step of two programs that differ in their calls only. *)
Ltac same_step :=
  first [ solve [auto with same nocore]
        | apply bind_same; [|intros ?]
        | case_if | match goal with |- same_run (match ?x with _ => _ end) _ => destruct x end ].

(** ** The command line *)

(** The digits of a number, in base ten: what they are worth after [acc]. *)
Definition digit_of (a : ascii) : option Z :=
  let d := Z.of_nat (nat_of_ascii a) - 48 in
  if (0 <=? d) && (d <=? 9) then Some d else None.

Fixpoint digits_value (acc : Z) (s : string) : Z :=
  match s with
  | String a s' =>
    match digit_of a with Some d => digits_value (10 * acc + d) s' | None => acc end
  | EmptyString => acc
  end.

Fixpoint skip_spaces (s : string) : string :=
  match s with
  | String a s' =>
    let n := nat_of_ascii a in
    if (n =? 32)%nat || ((9 <=? n)%nat && (n <=? 13)%nat) then skip_spaces s' else s
  | EmptyString => s
  end.

(** atol() of the C library, which stops at the ends of the type long. *)
Definition atol (s : string) : Z :=
  let v :=
    match skip_spaces s with
    | String "-" s' => - digits_value 0 s'
    | String "+" s' => digits_value 0 s'
    | s' => digits_value 0 s'
    end in
  Z.max (- 2 ^ 63) (Z.min (2 ^ 63 - 1) v).

(** The numbers of the three system calls. *)
Record numbers := Numbers { put_data_nr : Z; get_data_nr : Z; invalidate_data_nr : Z }.

(** The beginning of the three main(): the usage error, or the numbers. *)
Definition command_line (argv : list string) : option numbers :=
  if Z.of_nat (length argv) <? 5 then None else
  Some (Numbers (atol (nth 2 argv EmptyString)) (atol (nth 3 argv EmptyString)) (atol (nth 4 argv EmptyString))).

(** The command line with which a user passes the numbers [n]. *)
Definition run_with (program path : string) (n : numbers) : list string :=
  [program; path; pretty (put_data_nr n); pretty (get_data_nr n); pretty (invalidate_data_nr n)].

(** The number of an entry of the table is read as it was printed. *)
Lemma atol_pretty e : 0 <= e < 256 -> atol (pretty e) = e.
Proof.
  intros He.
  assert (Hall : Forall (fun e => atol (pretty e) = e) (seqZ 0 256))
    by (apply (bool_decide_unpack _); vm_compute; exact I).
  rewrite Forall_forall in Hall. by apply Hall, elem_of_seqZ.
Qed.

Lemma command_line_run_with program path n :
  0 <= put_data_nr n < 256 -> 0 <= get_data_nr n < 256 -> 0 <= invalidate_data_nr n < 256 ->
  command_line (run_with program path n) = Some n.
Proof. intros. unfold command_line. simpl. rewrite !atol_pretty by done. by destruct n. Qed.
