(* ===== verification/Dispatch.v ===== *)
(** * From the command line to the driver

    The module installs its system calls in free entries of the system call table
    and prints their numbers; a program started with these numbers passes them to
    syscall(), and the kernel calls what the table holds there.  [KernelEntry] is
    that part of the kernel.  The numbers reach the three functions of syscalls.c
    and every other number does what it did before. *)
From stdpp Require Import strings pretty.
From S2P Require Import Prelude Layout Kernel KernelFacts Rcu Store Device Sample Syscalls FileOps UserCalls.
From S2P Require Import Usctm SysTable.

Definition ENOSYS : Z := 38.

(** What a program puts in the registers. *)
Inductive regs :=
| PutRegs (source : list byte) (size : Z)
| GetRegs (offset : Z) (cap : nat) (size : Z)
| InvRegs (offset : Z).

(** The entry of the kernel: its table of system calls, which has [NR_syscalls]
    entries, and the call of the function at an address. *)
Class KernelEntry {K : Kernel} := {
  sys_call_table : Z;
  NR_syscalls : Z;
  sys_ni_syscall : Z;
  call_at : Z -> regs -> M (Z * list byte)
}.

(** At the addresses of the module are its functions, and sys_ni_syscall() only
    reports that there is no such call. *)
Class KernelEntryLaws {K : Kernel} {C : Config} {H : Handlers} (E : KernelEntry) := {
  enough_entries : ENTRIES_TO_EXPLORE <= NR_syscalls;
  call_at_put source size :
    same_run (call_at sys_put_data (PutRegs source size)) (let* r := put_data source size in ret (r, []));
  call_at_get offset cap size :
    same_run (call_at sys_get_data (GetRegs offset cap size)) (get_data offset cap size);
  call_at_invalidate offset :
    same_run (call_at sys_invalidate_data (InvRegs offset)) (let* r := invalidate_data offset in ret (r, []));
  call_at_ni r : same_run (call_at sys_ni_syscall r) (ret (- ENOSYS, []))
}.

Section Dispatch.
Context {K : Kernel} {C : Config} {H : Handlers} {E : KernelEntry}.

(** The kernel entered with the number [nr], when its memory is that of [k]. *)
Definition enter_kernel (k : kstate) (nr : Z) (r : regs) : M (Z * list byte) :=
  if (0 <=? nr) && (nr <? NR_syscalls) then
    match kmem k !! (sys_call_table + 8 * nr) with
    | Some a => call_at a r
    | None => fail OutOfBounds
    end
  else ret (- ENOSYS, []).

(** The macros of the programs, with the numbers [n]. *)
Definition user_calls (k : kstate) (n : numbers) : Calls := {|
  call_put source size := let* r := enter_kernel k (put_data_nr n) (PutRegs source size) in ret r.1;
  call_get offset cap size := enter_kernel k (get_data_nr n) (GetRegs offset cap size);
  call_invalidate offset := let* r := enter_kernel k (invalidate_data_nr n) (InvRegs offset) in ret r.1
|}.

(** ** Lemmas *)

Context {EL : KernelEntryLaws E}.

Lemma enter_entry k nr r a :
  0 <= nr < ENTRIES_TO_EXPLORE -> kmem k !! (sys_call_table + 8 * nr) = Some a ->
  enter_kernel k nr r = call_at a r.
Proof.
  intros Hnr Ha. unfold enter_kernel. pose proof enough_entries.
  rewrite (proj2 (Z.leb_le _ _)), (proj2 (Z.ltb_lt _ _)) by lia. simpl. by rewrite Ha.
Qed.

(** The macros reach the driver when the three entries hold its functions. *)
Lemma user_calls_direct k n :
  0 <= put_data_nr n < ENTRIES_TO_EXPLORE -> 0 <= get_data_nr n < ENTRIES_TO_EXPLORE ->
  0 <= invalidate_data_nr n < ENTRIES_TO_EXPLORE ->
  kmem k !! (sys_call_table + 8 * put_data_nr n) = Some sys_put_data ->
  kmem k !! (sys_call_table + 8 * get_data_nr n) = Some sys_get_data ->
  kmem k !! (sys_call_table + 8 * invalidate_data_nr n) = Some sys_invalidate_data ->
  same_calls (user_calls k n) direct_calls.
Proof.
  intros Hp Hg Hi Ep Eg Ei. split; intros; simpl; erewrite enter_entry by done.
  - rewrite call_at_put. by apply (same_bind_ret (A := Z) (B := Z * list byte)).
  - apply call_at_get.
  - rewrite call_at_invalidate. by apply (same_bind_ret (A := Z) (B := Z * list byte)).
Qed.

(** ** From the discovery to the programs *)

(** The numbers the module prints when it is loaded. *)
Definition printed_numbers (k : kstate) : numbers :=
  Numbers (nth 0 (restore_entries k) 0) (nth 1 (restore_entries k) 0) (nth 2 (restore_entries k) 0).

Definition all_numbers (n : numbers) : list Z := [put_data_nr n; get_data_nr n; invalidate_data_nr n].

Context {CPU : Cpu}.

(** The state of the table after the module is loaded. *)
Lemma loaded tbl ni free n k :
  init_module = inr (tbl, ni, free, n) -> given_to k tbl ni free n -> sys_call_table = tbl ->
  exists k' k'', bldms_init 0 k = Some (0, k') /\ bldms_exit k' = Some (tt, k'') /\ kmem k'' = kmem k /\
    let p := printed_numbers k' in
    (forall nr, nr ∈ all_numbers p -> 0 <= nr < ENTRIES_TO_EXPLORE /\
       kmem k !! (sys_call_table + 8 * nr) = Some ni) /\
    kmem k' !! (sys_call_table + 8 * put_data_nr p) = Some sys_put_data /\
    kmem k' !! (sys_call_table + 8 * get_data_nr p) = Some sys_get_data /\
    kmem k' !! (sys_call_table + 8 * invalidate_data_nr p) = Some sys_invalidate_data /\
    forall nr, nr ∉ all_numbers p ->
      kmem k' !! (sys_call_table + 8 * nr) = kmem k !! (sys_call_table + 8 * nr).
Proof.
  intros Hi Hg Htbl. pose proof Hg as [_ _ _ Ht Hni _].
  destruct (discovered_lendable _ _ _ _ _ Hi Hg) as (e0 & e1 & e2 & rest & Hl & Hnd & Hin).
  destruct (run_load_unload k e0 e1 e2 rest Hl) as (k' & k'' & Hinit & Hmem & Hexit & Hmem'' & _ & _ & Hres).
  { intros e He. by apply Hin. }
  exists k', k''. unfold printed_numbers, all_numbers. rewrite Hres. simpl.
  unfold installed in Hmem. rewrite Ht in Hmem, Hin. rewrite Hmem, Htbl.
  apply NoDup_cons in Hnd as [H0 Hnd]. apply NoDup_cons in Hnd as [H1 _].
  assert (Hne : e0 <> e1 /\ e0 <> e2 /\ e1 <> e2) by set_solver. destruct_and!.
  split_and!; [done..| | | | |].
  - intros nr (Hb & _ & Hk)%Hin. by rewrite Hk, Hni.
  - rewrite 2!lookup_insert_ne, lookup_insert_eq by lia. done.
  - rewrite lookup_insert_ne, lookup_insert_eq by lia. done.
  - by rewrite lookup_insert_eq.
  - intros nr Hnr. rewrite !not_elem_of_cons in Hnr. destruct Hnr as (? & ? & ? & _).
    by rewrite !lookup_insert_ne by lia.
Qed.

Lemma loaded_calls tbl ni free n k :
  init_module = inr (tbl, ni, free, n) -> given_to k tbl ni free n -> sys_call_table = tbl ->
  exists k', bldms_init 0 k = Some (0, k') /\
    (forall program path, command_line (run_with program path (printed_numbers k')) = Some (printed_numbers k')) /\
    same_calls (user_calls k' (printed_numbers k')) direct_calls.
Proof.
  intros Hi Hg Htbl.
  destruct (loaded _ _ _ _ _ Hi Hg Htbl) as (k' & _ & Hinit & _ & _ & Hin & Hp & Hgt & Hv & _).
  exists k'. split; [done|]. set (p := printed_numbers k') in *.
  assert (Hb : Forall (fun nr => 0 <= nr < ENTRIES_TO_EXPLORE) (all_numbers p))
    by (apply Forall_forall; intros; by apply Hin).
  apply Forall_cons in Hb as [H0 [H1 [H2 _]%Forall_cons]%Forall_cons]. split.
  - intros program path. by apply command_line_run_with.
  - by apply user_calls_direct.
Qed.

(** C20: the module discovers the system call table, is loaded and prints three
    numbers.  Typed on the command line of a program they are read back as they
    are, and the macros put_data(), get_data() and invalidate_data() of the program
    then behave like the functions of syscalls.c; before the load the three numbers
    gave ENOSYS, every other number enters the kernel as it did, and after the
    unload all of them do again. *)
Theorem numbers_reach_driver tbl ni free n k :
  init_module = inr (tbl, ni, free, n) -> given_to k tbl ni free n ->
  sys_call_table = tbl -> sys_ni_syscall = ni ->
  exists k' k'', bldms_init 0 k = Some (0, k') /\ bldms_exit k' = Some (tt, k'') /\
    let p := printed_numbers k' in
    (forall program path, command_line (run_with program path p) = Some p) /\
    same_calls (user_calls k' p) direct_calls /\
    (forall nr r, nr ∈ all_numbers p -> same_run (enter_kernel k nr r) (ret (- ENOSYS, []))) /\
    (forall nr r, nr ∉ all_numbers p -> enter_kernel k' nr r = enter_kernel k nr r) /\
    forall nr r, enter_kernel k'' nr r = enter_kernel k nr r.
Proof.
  intros Hi Hg Htbl Hni.
  destruct (loaded _ _ _ _ _ Hi Hg Htbl) as (k' & k'' & Hinit & Hexit & Hmem & Hin & _ & _ & _ & Ho).
  destruct (loaded_calls _ _ _ _ _ Hi Hg Htbl) as (k1 & Hinit1 & Hcmd & Hcalls).
  rewrite Hinit in Hinit1. injection Hinit1 as <-. exists k', k''.
  do 2 (split; [done|]). cbv zeta. split; [exact Hcmd|]. split; [exact Hcalls|]. split_and!.
  - intros nr r (Hnr & Hk)%Hin. rewrite (enter_entry _ _ _ _ Hnr Hk), <- Hni. apply call_at_ni.
  - intros nr r Hnr. unfold enter_kernel. by rewrite Ho.
  - intros nr r. unfold enter_kernel. by rewrite Hmem.
Qed.
End Dispatch.

(** ** Witness *)

#[local] Existing Instance sample_config.
#[local] Existing Instance sample_cpu.
#[local] Existing Instance sample_calls.

(** The kernel of the sample machine, whose table has 450 entries. *)
#[export] Instance sample_entry {K : Kernel} : KernelEntry := {|
  sys_call_table := sample_tbl; NR_syscalls := 450; sys_ni_syscall := sample_sys_ni;
  call_at a r :=
    match r with
    | PutRegs source size =>
      if a =? sys_put_data then let* r := put_data source size in ret (r, []) else ret (- ENOSYS, [])
    | GetRegs offset cap size =>
      if a =? sys_get_data then get_data offset cap size else ret (- ENOSYS, [])
    | InvRegs offset =>
      if a =? sys_invalidate_data then let* r := invalidate_data offset in ret (r, []) else ret (- ENOSYS, [])
    end
|}.

#[export] Instance sample_entry_laws {K : Kernel} : KernelEntryLaws sample_entry.
Proof. split; [by vm_compute|by intros..|]. intros [source size|offset cap size|offset]; done. Qed.

Lemma sample_numbers :
  (fun r => printed_numbers r.2) <$> bldms_init 0 sample_given = Some (Numbers 134 174 182).
Proof. vm_compute. reflexivity. Qed.

Lemma numbers_reach_driver_witness :
  exists k' k'', bldms_init 0 sample_given = Some (0, k') /\ bldms_exit k' = Some (tt, k'') /\
    same_calls (user_calls (K := good_kernel) k' (Numbers 134 174 182)) direct_calls /\
    forall path, command_line (run_with "test" path (Numbers 134 174 182)) = Some (Numbers 134 174 182).
Proof.
  destruct (numbers_reach_driver (E := sample_entry (K := good_kernel)) _ _ _ _ _ sample_init_module sample_given_to eq_refl eq_refl)
    as (k' & k'' & Hinit & Hexit & Hcmd & Hcalls & _).
  assert (Hp : printed_numbers k' = Numbers 134 174 182)
    by (apply (inj Some); rewrite <- sample_numbers, Hinit; reflexivity).
  rewrite Hp in Hcmd, Hcalls. exists k', k''. split_and!; [exact Hinit|exact Hexit|exact Hcalls|].
  intros path. apply Hcmd.
Defined.
