(* ===== verification/TestProg.v ===== *)
(** * The test program (user/test.c)

    main() of user/test.c is run over the system calls of the driver: it empties
    the device, fills it, checks that a further message is refused, and exercises
    the last block.  exit(1) and a return from main() are the value of the run. *)
From stdpp Require Import strings.
From S2P Require Import Prelude Layout Kernel KernelFacts Rcu Store Device Sample Syscalls.
From S2P Require Import PutData GetData InvalidateData FileOps Session Makefs UserCalls.

(** ** user/include/quotes.h *)

Definition NUM_MESSAGES : nat := 20.

(** A message of one or more lines, each ended by a newline. *)
Definition quote (ls : list string) : list byte := mjoin (cstring <$> ls).

Definition messages : list (list byte) :=
  [quote ["Veni, vidi, vici. ~ J. Caesar"%string];
   quote ["The sun is the same in a relative way, but we are older, shorter of breath, one day closer to death"%string];
   quote ["I'm holding out for a hero 'til the end of the light;"%string; "	he's gonna be strong, he's gonna be fast, he's gonna be fresh from the fire."%string; "	~B. Tyler (I'm Holding Out For A Hero)"%string];
   quote ["Nun t preoccupà waglio, c' sta o' mar for, c' sta o mar for'..."%string];
   quote ["The best way to find out if you can trust somebody is to trust them."%string; "~ Ernest Hemingway"%string];
   quote ["Success is not final, failure is not fatal: It is the courage to continue that counts."%string; "~ Winston Churchill"%string];
   quote ["If your actions inspire others to dream more, learn more, do more and become more, you are a leader."%string; "~ John Quincy Adams"%string];
   quote ["The most important thing is to enjoy your life - to be happy - it's all that matters."%string; "~ Steve Jobs"%string];
   quote ["Your time is limited, don't waste it living someone else's life."%string; "~ Steve Jobs"%string];
   quote ["Don't let anyone tell you what you can't do. Follow your dreams and persist."%string; "~ Barack Obama"%string];
   quote ["You only live once, but if you do it right, once is enough."%string; "~ Mae West"%string];
   quote ["The road to success is always under construction."%string; "~ Lily Tomlin"%string];
   quote ["People often say that motivation doesn't last. Well, neither does bathing. That's why we recommend it daily."%string; "~ Zig Ziglar"%string];
   quote ["If you want to live a happy life, tie it to a goal, not to people or things."%string; "~ Albert Einstein"%string];
   quote ["I can accept failure, everyone fails at something. But I can't accept not trying."%string; "~ Michael Jordan"%string];
   quote ["Don't let yesterday take up too much of today."%string; "~ Will Rogers"%string];
   quote ["A journey of a thousand miles begins with a single step."%string; "~ Lao Tzu"%string];
   quote ["Believe you can and you're halfway there."%string; "~ Theodore Roosevelt"%string];
   quote ["I can't change the direction of the wind, but I can adjust my sails to always reach my destination."%string; "~ Jimmy Dean"%string];
   quote ["The greatest glory in living lies not in never falling, but in rising every time we fall."%string; "~ Nelson Mandela"%string]].

(** ** user/test.c *)

Definition BLOCK_SIZE : Z := Z.shiftl 1 12.
Definition MAX_MSG_SIZE : Z := BLOCK_SIZE - METADATA_SIZE.

(** A C string in an array of bytes. *)
Fixpoint strlen (bs : list byte) : nat :=
  match bs with
  | [] => O
  | b :: bs' => if decide (b = Byte.x00) then O else S (strlen bs')
  end.

(** syscall(): the value, and errno when it is -1. *)
Definition libc (r : Z) : Z * option Z :=
  if (-4096 <? r) && (r <? 0) then (-1, Some (- r)) else (s32 r, None).
Definition failed_with (r : Z) (errno : Z) : bool :=
  (((libc r).1 <? 0) && bool_decide ((libc r).2 = Some errno))%bool.

Section TestProgram.
Context {K : Kernel} {U : Calls}.

(** [if (!ok) exit(1);] *)
Definition check (ok : bool) (k : M Z) : M Z := if ok then k else ret 1.

(** Lines 88-99: invalidating blocks [i], [i+1], ...; whether no call has failed
    otherwise than with ENODATA. *)
Fixpoint clear_loop (fuel : nat) (num_blocks i : Z) : M bool :=
  match fuel with
  | O => fail NoFuel
  | S fuel' =>
    if negb (u64 i <? num_blocks) then ret true else
    let* r := call_invalidate i in
    if ((libc r).1 <? 0) && negb (failed_with r ENODATA) then ret false else
    clear_loop fuel' num_blocks (s32 (i + 1))
  end.

Definition put_message (msg : list byte) : M Z := call_put msg (Z.of_nat (strlen msg) + 1).
Definition message (i : Z) : list byte :=
  default [] (messages !! Z.to_nat (i mod Z.of_nat NUM_MESSAGES)) ++ [Byte.x00].

(** Lines 106-116. *)
Fixpoint put_loop (fuel : nat) (num_blocks i : Z) : M bool :=
  match fuel with
  | O => fail NoFuel
  | S fuel' =>
    if negb (u64 i <? num_blocks) then ret true else
    let* r := put_message (message i) in
    if (libc r).1 <? 0 then ret false else put_loop fuel' num_blocks (s32 (i + 1))
  end.

(** Lines 136-232, with the device full. *)
Definition check_last_block (num_blocks : Z) : M Z :=
  let last := s32 (u64 (num_blocks - 1)) in
  let* r := call_invalidate last in
  check (negb ((libc r).1 <? 0)) (
  let buffer := replicate 4095 Byte.x41 ++ [Byte.x00] in
  let* r := put_message buffer in
  check (failed_with r E2BIG) (
  let buffer := splice 50 [Byte.x00] (splice 0 (replicate 50 Byte.x42) buffer) in
  let* r := put_message buffer in
  check (u64 (libc r).1 =? u64 (num_blocks - 1)) (
  let* g := call_get (libc r).1 (length buffer) MAX_MSG_SIZE in
  let buffer := splice 0 g.2 buffer in
  check ((libc g.1).1 =? 51) (
  let* r := call_invalidate last in
  check (negb ((libc r).1 <? 0)) (
  let* g := call_get last (length buffer) MAX_MSG_SIZE in
  check (failed_with g.1 ENODATA) (ret 0)))))).

(** Lines 76-232: the exit status of main() on the device file [f]. *)
Definition test_main (f : file) : M Z :=
  let* o := bldms_open f in
  check (negb (o.1 <? 0)) (
  let num_blocks := u64 (Z.quot (i_size o.2) BLOCK_SIZE) in
  let* ok := clear_loop (S (Z.to_nat num_blocks)) num_blocks 0 in
  check ok (
  let* ok := put_loop (S (Z.to_nat num_blocks)) num_blocks 0 in
  check ok (
  let* r := put_message (message 10) in
  check (failed_with r ENOMEM) (check_last_block num_blocks)))).
End TestProgram.

(** main() with its arguments: [calls n] is syscall() with the numbers [n], and [f] what
    open() finds under the path. *)
Definition test_program {K : Kernel} (calls : numbers -> Calls) (argv : list string) (f : file) : M Z :=
  match command_line argv with
  | None => ret 1
  | Some n => test_main (U := calls n) f
  end.

(** The program does not see through which interface it calls the driver. *)
Section Interface.
Context {K : Kernel} (U U' : Calls) (Hsame : same_calls U U').

Lemma same_put_message msg : same_run (put_message (U := U) msg) (put_message (U := U') msg).
Proof. apply (same_put _ _ Hsame). Qed.

Lemma same_clear_loop fuel n : forall i, same_run (clear_loop (U := U) fuel n i) (clear_loop (U := U') fuel n i).
Proof. induction fuel; intros i; cbn [clear_loop]; repeat same_step. Qed.

#[local] Hint Resolve same_put_message same_clear_loop : same.

Lemma same_put_loop fuel n : forall i, same_run (put_loop (U := U) fuel n i) (put_loop (U := U') fuel n i).
Proof. induction fuel; intros i; cbn [put_loop]; repeat same_step. Qed.

Lemma same_check_last_block n :
  same_run (check_last_block (U := U) n) (check_last_block (U := U') n).
Proof. unfold check_last_block, check. repeat same_step. Qed.

#[local] Hint Resolve same_put_loop same_check_last_block : same.

Lemma test_main_same f : same_run (test_main (U := U) f) (test_main (U := U') f).
Proof. unfold test_main, check. repeat same_step. Qed.
End Interface.

(** ** Stores that fill up *)

Lemma store_cap_dom s : store_wf s -> dom (s_msgs s) ⊆ set_seq (C := gset nat) 0 (s_cap s).
Proof.
  intros [Hwf _] i [m Hm]%elem_of_dom. apply elem_of_set_seq. apply Hwf in Hm. lia.
Qed.

Lemma size_set_seq n : size (set_seq (C := gset nat) 0 n) = n.
Proof.
  rewrite <- (list_to_set_seq (C := gset nat)), size_list_to_set by apply NoDup_seq.
  apply length_seq.
Qed.

Lemma next_free_room s : (size (s_msgs s) < s_cap s)%nat -> next_free s <> None.
Proof.
  intros Hlt Hn. rewrite next_free_None in Hn.
  assert (set_seq (C := gset nat) 0 (s_cap s) ⊆ dom (s_msgs s)) as Hsub%subseteq_size.
  { intros i [_ Hi]%elem_of_set_seq. apply elem_of_dom, Hn. lia. }
  rewrite size_set_seq, size_dom in Hsub. lia.
Qed.

Lemma full_store s i :
  store_wf s -> size (s_msgs s) = s_cap s -> (i < s_cap s)%nat -> is_Some (s_msgs s !! i).
Proof.
  intros Hwf Hsz Hi. apply elem_of_dom.
  assert (Hdom : dom (s_msgs s) = set_seq (C := gset nat) 0 (s_cap s)).
  { apply leibniz_equiv, set_subseteq_size_equiv; [by apply store_cap_dom|].
    rewrite size_set_seq, size_dom. lia. }
  rewrite Hdom. apply elem_of_set_seq. lia.
Qed.

Lemma s_put_room t d s :
  (size (s_msgs s) < s_cap s)%nat ->
  exists b, next_free s = Some b /\ s_put t d s = (Z.of_nat b, MStore (s_cap s) b (<[b := Msg t d]> (s_msgs s))) /\
    (b < s_cap s)%nat /\ size (s_msgs (s_put t d s).2) = S (size (s_msgs s)).
Proof.
  intros Hroom%next_free_room. destruct (next_free s) as [b|] eqn:Hb; [|done].
  pose proof (next_free_Some _ _ Hb) as [Hlt Hnone]. exists b. unfold s_put. rewrite Hb.
  split_and!; [done|done|done|]. simpl. by apply map_size_insert_None.
Qed.

(** ** The system calls of a kernel that never fails *)

Section Reliable.
Context {K : Kernel} {KL : KernelLaws K} {C : Config}.
Hypothesis kzalloc_works : forall n, kzalloc_ok n = true.
Hypothesis sb_bread_works : forall n, bread_ok n = true.

(** Between two calls the device represents [s]; [F] is the memory of the others. *)
Definition running (F : gmap loc obj) (sb : super_block) (s : mstore) (w : world) : Prop :=
  dev_inv F w s /\ unlocked w /\ the_dev_superblock w = Some sb.

Lemma wp_put F sb s w source size :
  running F sb s w -> 0 <= size <= DEFAULT_BLOCK_SIZE - METADATA_SIZE ->
  size <= Z.of_nat (length source) ->
  wp (put_data source size) (fun r w' => exists t, (exists n, t = clock n) /\
    r = (s_put t (take (Z.to_nat size) source) s).1 /\
    running F sb (s_put t (take (Z.to_nat size) source) s).2 w') w.
Proof.
  intros (Hi & Hu & Hsb) Hs Hl. eapply wp_mono; [by eapply wp_put_data|].
  intros r w' (Hu' & Hsb' & _ & _ & [(t & Ht & Hr & Hi' & _)|[(_ & [n Hn] & _)|(_ & [n Hn] & _)]]).
  - exists t. done.
  - by rewrite kzalloc_works in Hn.
  - by rewrite sb_bread_works in Hn.
Qed.

Lemma wp_invalidate F sb s w off :
  running F sb s w -> - 2 ^ 31 <= off < 2 ^ 31 ->
  wp (invalidate_data off)
    (fun r w' => r = (s_invalidate off s).1 /\ running F sb (s_invalidate off s).2 w') w.
Proof.
  intros (Hi & Hu & Hsb) Ho. eapply wp_mono; [by eapply wp_invalidate_data|].
  intros r w' (Hu' & Hsb' & _ & _ & [(Hr & Hi' & _)|(_ & [n Hn] & _)]); [done|].
  by rewrite sb_bread_works in Hn.
Qed.

Lemma wp_get F sb s w off cap size :
  running F sb s w -> - 2 ^ 31 <= off < 2 ^ 31 -> 0 <= size < 2 ^ 64 ->
  wp (get_data off cap size)
    (fun r w' => r = s_get off (Nat.min cap (Z.to_nat size)) s /\ running F sb s w') w.
Proof.
  intros (Hi & [Hlk Hrd] & Hsb) Ho Hs. eapply wp_mono; [by eapply wp_get_data|].
  intros r w' (Hss & Hi' & [Hr|(_ & [n Hn] & _)]); [|by rewrite sb_bread_works in Hn].
  unfold same_state in Hss. destruct_and!. split; [done|]. unfold running, unlocked.
  split_and!; congruence.
Qed.

Lemma running_cap F sb s w : running F sb s w -> Z.of_nat (s_cap s) < 2 ^ 19.
Proof. intros [Hi _]. apply dev_inv_cap in Hi. lia. Qed.

Lemma running_wf F sb s w : running F sb s w -> store_wf s.
Proof. intros [Hi _]. by eapply dev_inv_wf. Qed.

(** ** The test program *)

Lemma libc_ok r : 0 <= r < 2 ^ 31 -> libc r = (r, None).
Proof.
  intros Hr. unfold libc. rewrite (proj2 (Z.ltb_ge r 0)), andb_false_r by lia.
  by rewrite s32_small by lia.
Qed.

Lemma failed_with_spec e : 0 < e < 4096 -> failed_with (- e) e = true.
Proof.
  intros He. unfold failed_with, libc.
  rewrite (proj2 (Z.ltb_lt (-4096) (- e))), (proj2 (Z.ltb_lt (- e) 0)) by lia. simpl.
  apply bool_decide_eq_true. f_equal. lia.
Qed.

Lemma libc_failed e : 0 < e < 4096 -> (libc (- e)).1 = -1.
Proof.
  intros He. unfold libc.
  by rewrite (proj2 (Z.ltb_lt (-4096) (- e))), (proj2 (Z.ltb_lt (- e) 0)) by lia.
Qed.

Lemma u64_index i n : 0 <= i < 2 ^ 63 -> (u64 i <? n) = (i <? n).
Proof. intros. by rewrite u64_small by lia. Qed.

(** Every slot below [i] has been emptied. *)
Lemma wp_clear_loop F sb fuel i s w :
  running F sb s w -> (i <= s_cap s)%nat -> (i + fuel = S (s_cap s))%nat -> (forall j, (j < i)%nat -> s_msgs s !! j = None) ->
  wp (clear_loop fuel (Z.of_nat (s_cap s)) (Z.of_nat i)) (fun r w' => r = true /\ exists s',
    running F sb s' w' /\ s_cap s' = s_cap s /\ s_msgs s' = ∅) w.
Proof.
  intros Hrun. pose proof (running_cap _ _ _ _ Hrun) as Hcap. revert i s w Hrun Hcap.
  induction fuel as [|fuel IH]; intros i s w Hrun Hcap Hi Hf Hempty; [lia|cbn [clear_loop]].
  rewrite u64_index by lia. destruct (Z.ltb_spec (Z.of_nat i) (Z.of_nat (s_cap s))); cbn [negb].
  2: { apply wp_ret. split; [done|]. exists s. split_and!; [done|done|]. apply map_eq. intros j.
       rewrite lookup_empty. destruct (decide (j < i)%nat); [auto|].
       apply eq_None_not_Some. intros [m Hm]. apply running_wf in Hrun as [Hwf _].
       apply Hwf in Hm. lia. }
  wp_step. eapply wp_mono; [eapply wp_invalidate; [exact Hrun|lia]|].
  intros r w1 [-> Hrun1]. rewrite s_invalidate_in in * by lia.
  rewrite s32_small by lia. replace (Z.of_nat i + 1) with (Z.of_nat (S i)) by lia.
  destruct (s_msgs s !! i) as [m|] eqn:Hm; cbn [fst snd] in *.
  - rewrite libc_ok by lia. change (s_cap s) with (s_cap (MStore (s_cap s) (s_last s) (delete i (s_msgs s)))).
    apply IH; [done|done|simpl; lia|simpl; lia|]. intros j Hj. simpl. apply lookup_delete_None.
    destruct (decide (i = j)); [by left|right; apply Hempty; lia].
  - rewrite failed_with_spec, andb_false_r by done. apply IH; [done|done|lia|lia|].
    intros j Hj. destruct (decide (j = i)) as [->|]; [done|apply Hempty; lia].
Qed.

Lemma message_fits i :
  (S (strlen (message i)) <= length (message i))%nat /\ (strlen (message i) < 4086)%nat.
Proof.
  assert (Hall : Forall (fun m => (S (strlen (m ++ [Byte.x00])) <= length (m ++ [Byte.x00]))%nat /\
    (strlen (m ++ [Byte.x00]) < 4086)%nat) messages)
    by (apply (bool_decide_unpack _); vm_compute; exact I).
  unfold message. destruct (messages !! _) as [m|] eqn:Hm; simpl; [|lia].
  exact (Forall_lookup_1 _ _ _ _ Hall Hm).
Qed.

Lemma wp_put_message F sb s w buffer :
  running F sb s w -> (S (strlen buffer) <= length buffer)%nat -> (strlen buffer < 4086)%nat ->
  wp (put_message buffer) (fun r w' => exists t, let d := take (S (strlen buffer)) buffer in (exists n, t = clock n) /\
    r = (s_put t d s).1 /\ running F sb (s_put t d s).2 w') w.
Proof.
  intros Hrun Hl Hs. unfold put_message.
  replace (Z.of_nat (strlen buffer) + 1) with (Z.of_nat (S (strlen buffer))) by lia.
  eapply wp_mono; [apply wp_put; [exact Hrun|unfold DEFAULT_BLOCK_SIZE, METADATA_SIZE; lia|lia]|].
  intros r w'. by rewrite Nat2Z.id.
Qed.

(** Filling a device that holds [i] messages. *)
Lemma wp_put_loop F sb fuel i s w :
  running F sb s w -> size (s_msgs s) = i -> (i <= s_cap s)%nat -> (i + fuel = S (s_cap s))%nat ->
  wp (put_loop fuel (Z.of_nat (s_cap s)) (Z.of_nat i)) (fun r w' => r = true /\ exists s',
    running F sb s' w' /\ s_cap s' = s_cap s /\ size (s_msgs s') = s_cap s') w.
Proof.
  revert i s w. induction fuel as [|fuel IH]; intros i s w Hrun Hsz Hi Hf; [lia|cbn [put_loop]].
  pose proof (running_cap _ _ _ _ Hrun) as Hcap.
  rewrite u64_index by lia. destruct (Z.ltb_spec (Z.of_nat i) (Z.of_nat (s_cap s))); cbn [negb].
  2: { apply wp_ret. split; [done|]. exists s. split_and!; [done|done|lia]. }
  destruct (message_fits (Z.of_nat i)) as [Hml Hms].
  wp_step. eapply wp_mono; [by eapply wp_put_message|]. intros r w1 (t & Ht & -> & Hrun1).
  set (d := take _ _) in *. clearbody d.
  destruct (s_put_room t d s) as (b & _ & Hput & Hb & Hsz'); [lia|].
  rewrite Hput in *. cbn [fst snd] in *. rewrite libc_ok by lia. cbn [fst].
  rewrite (proj2 (Z.ltb_ge _ 0)) by lia. rewrite s32_small by lia.
  replace (Z.of_nat i + 1) with (Z.of_nat (S i)) by lia.
  change (s_cap s) with (s_cap (MStore (s_cap s) b (<[b := Msg t d]> (s_msgs s)))).
  apply IH; [done|lia|simpl; lia|simpl; lia].
Qed.

(** Putting a message in a device with one free slot. *)
Lemma s_put_hole t d s b :
  (b < s_cap s)%nat -> (forall i, (i < s_cap s)%nat -> i <> b -> is_Some (s_msgs s !! i)) ->
  s_msgs s !! b = None ->
  s_put t d s = (Z.of_nat b, MStore (s_cap s) b (<[b := Msg t d]> (s_msgs s))).
Proof.
  intros Hb Hfull Hnone. unfold s_put. destruct (next_free s) as [i|] eqn:Hn.
  - apply next_free_Some in Hn as [Hi Hni]. destruct (decide (i = b)) as [->|Hne]; [done|].
    destruct (Hfull i Hi Hne) as [m Hm]. congruence.
  - rewrite next_free_None in Hn. destruct (Hn b Hb) as [m Hm]. congruence.
Qed.

Definition buffer_A : list byte := replicate 4095 Byte.x41 ++ [Byte.x00].
Definition buffer_B : list byte := splice 50 [Byte.x00] (splice 0 (replicate 50 Byte.x42) buffer_A).

Lemma check_true (k : M Z) : check true k = k.
Proof. done. Qed.

Lemma strlen_A : strlen buffer_A = 4095%nat.
Proof. by vm_compute. Qed.
Lemma strlen_B : strlen buffer_B = 50%nat /\ length buffer_B = 4096%nat.
Proof. by vm_compute. Qed.

(** The second half of the program, on a full device. *)
Lemma wp_check_last_block F sb s w n :
  running F sb s w -> size (s_msgs s) = s_cap s -> s_cap s = S n ->
  wp (check_last_block (Z.of_nat (s_cap s))) (fun r w' => r = 0 /\ exists s',
    running F sb s' w' /\ s_cap s' = s_cap s /\ s_msgs s' !! n = None /\
    forall i, (i < n)%nat -> s_msgs s' !! i = s_msgs s !! i) w.
Proof.
  intros Hrun Hsz Hn. pose proof (running_cap _ _ _ _ Hrun) as Hcap.
  pose proof (full_store s n (running_wf _ _ _ _ Hrun) Hsz ltac:(lia)) as [m Hm].
  assert (Hfull : forall i, (i < s_cap s)%nat -> is_Some (s_msgs s !! i))
    by (intros; by apply full_store; [eapply running_wf| |]).
  unfold check_last_block. replace (Z.of_nat (s_cap s) - 1) with (Z.of_nat n) by lia.
  rewrite u64_small, s32_small by lia.
  wp_step. eapply wp_mono; [apply (wp_invalidate _ _ _ _ (Z.of_nat n) Hrun); lia|].
  intros r w1 [-> Hrun1]. rewrite s_invalidate_in, Hm in * by lia. cbn [fst snd] in *.
  rewrite libc_ok by lia. cbn [fst negb check]. change (0 <? 0) with false. cbn [negb]. rewrite check_true.
  fold buffer_A. wp_step.
  apply (wp_intro _ _ _ (- E2BIG) w1).
  { unfold put_message. rewrite strlen_A. apply run_put_too_big; [|done].
    destruct Hrun1 as [(? & ? & ? & ? & ? & [_ _ Hg _]) _]. by rewrite (dg_mounted _ _ _ Hg). }
  change (failed_with (- E2BIG) E2BIG) with true. rewrite check_true. fold buffer_B. destruct strlen_B as [HsB HlB].
  wp_step. eapply wp_mono; [apply (wp_put_message _ _ _ _ buffer_B Hrun1); lia|].
  cbv zeta. intros r w2 (t & Ht & -> & Hrun2). set (d := take _ _) in *.
  assert (Hd : length d = 51%nat) by (unfold d; rewrite length_take; lia). clearbody d.
  assert (Hput := s_put_hole t d (MStore (s_cap s) (s_last s) (delete n (s_msgs s))) n).
  lapply Hput; [clear Hput; intros Hput|simpl; lia]. lapply Hput; [clear Hput; intros Hput|].
  2: { intros i Hi Hne. simpl. rewrite lookup_delete_ne by done. by apply Hfull. }
  rewrite (Hput ltac:(by apply lookup_delete_eq)) in *. clear Hput.
  cbn [fst snd s_cap s_msgs] in *. rewrite libc_ok by lia. cbn [fst].
  rewrite u64_small, Z.eqb_refl, check_true by lia. rewrite insert_delete_eq in Hrun2.
  wp_step. eapply wp_mono; [apply (wp_get _ _ _ _ (Z.of_nat n) _ _ Hrun2); [lia|by vm_compute]|].
  intros g w3 [-> Hrun3]. rewrite s_get_in by (simpl; lia). cbn [s_msgs]. rewrite lookup_insert_eq.
  cbn [m_data fst snd]. rewrite take_ge by (rewrite HlB, Hd; vm_compute; lia). rewrite Hd.
  change ((libc (Z.of_nat 51)).1 =? 51) with true. rewrite check_true.
  wp_step. eapply wp_mono; [apply (wp_invalidate _ _ _ _ (Z.of_nat n) Hrun3); lia|].
  intros r w4 [-> Hrun4]. rewrite s_invalidate_in in * by (simpl; lia). cbn [s_msgs] in *.
  rewrite lookup_insert_eq in *. cbn [fst snd s_cap s_last s_msgs] in *.
  rewrite libc_ok by lia. cbn [fst]. change (0 <? 0) with false. cbn [negb]. rewrite check_true.
  wp_step. eapply wp_mono; [apply (wp_get _ _ _ _ (Z.of_nat n) _ _ Hrun4); [lia|by vm_compute]|].
  intros g' w5 [-> Hrun5]. rewrite s_get_in by (simpl; lia). cbn [s_msgs].
  rewrite lookup_delete_eq. cbn [fst]. change (failed_with (- ENODATA) ENODATA) with true. rewrite check_true.
  apply wp_ret. split; [done|]. eexists. split_and!; [exact Hrun5|done|apply lookup_delete_eq|].
  intros i Hi. simpl. by rewrite lookup_delete_ne, lookup_insert_ne by lia.
Qed.

(** The whole program, on any mounted device. *)
Lemma wp_test_main F sb s w f :
  running F sb s w -> (0 < s_cap s)%nat ->
  i_size f = BLOCK_SIZE * Z.of_nat (s_cap s) -> opened_for_reading f = true ->
  wp (test_main f) (fun r w' => r = 0 /\ exists p s', F !! p = None /\
    dev_inv (<[p := OTime 0]> F) w' s' /\ unlocked w' /\ s_cap s' = s_cap s /\
    (forall i, (i < s_cap s)%nat -> s_msgs s' !! i = None <-> i = (s_cap s - 1)%nat)) w.
Proof.
  intros Hrun Hpos Hsz Hrd. pose proof (running_cap _ _ _ _ Hrun) as Hcap.
  destruct Hrun as (Hi & [Hlk Hrdr] & Hsb). unfold test_main. wp_step.
  eapply (wp_bldms_open F s w f); [done|by rewrite Hrd| |].
  2: { intros _ [n Hn]. by rewrite kzalloc_works in Hn. }
  intros _ p w1 Hp Hi1 (Hlk1 & Hrd1 & _ & Hsb1 & _). cbn [fst snd i_size set_private].
  change (0 <? 0) with false. cbn [negb]. rewrite check_true.
  assert (Hrun1 : running (<[p := OTime 0]> F) sb s w1)
    by (unfold running, unlocked; split_and!; congruence).
  change BLOCK_SIZE with 4096 in *.
  rewrite Hsz, Z.mul_comm, Z.quot_mul, u64_small by lia.
  rewrite Nat2Z.id. wp_step. change 0 with (Z.of_nat 0) at 2.
  eapply wp_mono; [apply (wp_clear_loop _ _ _ 0 _ _ Hrun1); [lia|lia|intros; lia]|].
  intros ok w2 (-> & s2 & Hrun2 & Hc2 & He2). rewrite check_true. rewrite <- Hc2.
  wp_step. change 0 with (Z.of_nat 0) at 2.
  eapply wp_mono; [apply (wp_put_loop _ _ _ 0 _ _ Hrun2); [by rewrite He2|lia|lia]|].
  intros ok w3 (-> & s3 & Hrun3 & Hc3 & Hf3). rewrite check_true. destruct (message_fits 10) as [Hml Hms].
  wp_step. eapply wp_mono; [by eapply wp_put_message|]. cbv zeta. intros r w4 (t & Ht & -> & Hrun4).
  assert (Hfull : forall i, (i < s_cap s3)%nat -> is_Some (s_msgs s3 !! i))
    by (intros; by apply full_store; [eapply running_wf| |]).
  unfold s_put in *. rewrite (proj2 (next_free_None s3) Hfull) in *. cbn [fst snd] in *.
  rewrite failed_with_spec, check_true by done. rewrite <- Hc3.
  eapply wp_mono; [by eapply (wp_check_last_block _ _ _ _ (s_cap s3 - 1)); [|lia..]|].
  intros r w5 (-> & s5 & (Hi5 & Hu5 & _) & Hc5 & Hn5 & Ho5). split; [done|].
  exists p, s5. split_and!; [done|done|done|lia|]. intros i Hi'.
  replace (s_cap s2 - 1)%nat with (s_cap s3 - 1)%nat by lia. split; [|by intros ->].
  intros Hnone. destruct (decide (i = s_cap s3 - 1)%nat) as [|Hne]; [done|].
  rewrite Ho5 in Hnone by lia. destruct (Hfull i) as [m Hm]; [lia|congruence].
Qed.

(** C10: the test program of the repository passes: on any mounted device with at
    least one block, whatever messages it holds, and a kernel that never fails,
    main() of user/test.c exits with 0 (every refusal and every value it expects
    from the system calls is what they give); it ends with the last block free and
    a message in all the others. *)
Theorem test_program_passes F sb s w f :
  running F sb s w -> (0 < s_cap s)%nat ->
  i_size f = BLOCK_SIZE * Z.of_nat (s_cap s) -> opened_for_reading f = true ->
  wp (test_main f) (fun r w' => r = 0 /\ exists p s', F !! p = None /\
    dev_inv (<[p := OTime 0]> F) w' s' /\ unlocked w' /\ s_cap s' = s_cap s /\
    (forall i, (i < s_cap s)%nat -> s_msgs s' !! i = None <-> i = (s_cap s - 1)%nat)) w.
Proof. apply wp_test_main. Qed.
End Reliable.

(** ** Witness *)

Definition sample_test_file : file := File O_RDWR None 0 (4 * 4096) (Some (SB MAGIC true)).

Lemma test_program_passes_witness :
  wp (K := good_kernel) (test_main (U := direct_calls (C := sample_config)) sample_test_file)
    (fun r _ => r = 0) good_world.
Proof.
  eapply wp_mono.
  - apply (@test_program_passes good_kernel _ sample_config (fun _ => eq_refl) (fun _ => eq_refl)
      ∅ (SB MAGIC true) sample_store good_world sample_test_file).
    + split; [exact good_world_inv|by split].
    + simpl; lia.
    + reflexivity.
    + reflexivity.
  - intros r w' [Hr _]. exact Hr.
Defined.
