(* ===== verification/Recovery.v ===== *)
(** * Power loss and recovery

    With SYNCHRONOUS_PUT_DATA every write is on the medium when its system call
    returns.  A sequence of system calls, from the mount of a formatted device, is
    one of operations of the abstract store, and mounting what is on the medium
    after it, on a machine that remembers nothing else, gives that store back. *)
From S2P Require Import Prelude Layout Kernel KernelFacts Rcu Store Device DeviceWp Sample.
From S2P Require Import Syscalls PutData GetData InvalidateData Mount MountOk TestProg.

(** A system call with its arguments. *)
Inductive syscall :=
| PutSys (source : list byte) (size : Z)
| GetSys (offset : Z) (cap : nat) (size : Z)
| InvSys (offset : Z).

Definition syscall_ok (c : syscall) : Prop :=
  match c with
  | PutSys source size => 0 <= size < 2 ^ 64 /\ size <= Z.of_nat (length source)
  | GetSys offset _ size => - 2 ^ 31 <= offset < 2 ^ 31 /\ 0 <= size < 2 ^ 64
  | InvSys offset => - 2 ^ 31 <= offset < 2 ^ 31
  end.

Section Recovery.
Context {K : Kernel} {KL : KernelLaws K} {C : Config}.
Implicit Types (F : gmap loc obj) (w : world) (s : mstore).

(** ** Sequences of system calls *)

(** The result of a call and the bytes it has copied to user space. *)
Definition do_syscall (c : syscall) : M (Z * list byte) :=
  match c with
  | PutSys source size => let* r := put_data source size in ret (r, [])
  | GetSys offset cap size => get_data offset cap size
  | InvSys offset => let* r := invalidate_data offset in ret (r, [])
  end.

Fixpoint do_syscalls (cs : list syscall) : M (list (Z * list byte)) :=
  match cs with
  | [] => ret []
  | c :: cs => let* r := do_syscall c in let* rs := do_syscalls cs in ret (r :: rs)
  end.

(** The same on the abstract store; the timestamps are those of the clock. *)
Inductive acts : mstore -> syscall -> Z * list byte -> mstore -> Prop :=
| acts_put s t source size :
    size <= DEFAULT_BLOCK_SIZE - METADATA_SIZE -> (exists n, t = clock n) ->
    let o := s_put t (take (Z.to_nat size) source) s in acts s (PutSys source size) (o.1, []) o.2
| acts_put_big s source size :
    DEFAULT_BLOCK_SIZE - METADATA_SIZE < size -> acts s (PutSys source size) (- E2BIG, []) s
| acts_get s offset cap size :
    acts s (GetSys offset cap size) (s_get offset (Nat.min cap (Z.to_nat size)) s) s
| acts_invalidate s offset :
    let o := s_invalidate offset s in acts s (InvSys offset) (o.1, []) o.2.

Inductive acts_all : mstore -> list syscall -> list (Z * list byte) -> mstore -> Prop :=
| acts_nil s : acts_all s [] [] s
| acts_cons s c r s1 cs rs s2 :
    acts s c r s1 -> acts_all s1 cs rs s2 -> acts_all s (c :: cs) (r :: rs) s2.

Lemma acts_cap s c r s' : acts s c r s' -> s_cap s' = s_cap s.
Proof. intros []; try done; unfold o, s_put, s_invalidate; by repeat case_match. Qed.

Lemma acts_all_cap s cs rs s' : acts_all s cs rs s' -> s_cap s' = s_cap s.
Proof. induction 1 as [|s c r s1 cs rs s2 H _ IH]; [done|]. by rewrite IH, (acts_cap _ _ _ _ H). Qed.

(** ** The medium *)

(** Every buffer agrees with the medium. *)
Definition clean (c : bcache) : Prop := forall n, on_disk c n = b_data c n.

Lemma after_call_low c c' n : after_call c c' -> n < NUM_METADATA_BLKS -> b_data c' n = b_data c n.
Proof.
  intros [->|(i & d & ->)] Hn; [done|]. unfold flushed, rewritten.
  assert (Hne : Z.of_nat i + NUM_METADATA_BLKS <> n) by lia.
  destruct SYNCHRONOUS_PUT_DATA; by rewrite ?b_data_sync, b_data_mark, b_data_store_ne.
Qed.

Lemma after_call_clean c c' :
  SYNCHRONOUS_PUT_DATA = true -> after_call c c' -> clean c -> clean c'.
Proof.
  intros Hs [->|(i & d & ->)] Hc n; [done|].
  set (k := Z.of_nat i + NUM_METADATA_BLKS). destruct (decide (k = n)) as [<-|Hne].
  - rewrite b_data_flushed. unfold flushed. rewrite Hs. apply flushed_written, pending_rewritten.
  - by apply agrees_flushed, agrees_rewritten.
Qed.

(** The block [blk] of a device is one that a mount accepts, and it gives the
    message [m], or none. *)
Definition shows (blk : option (list byte)) (m : option Store.message) : Prop :=
  exists d, blk = Some d /\ length d = 4096%nat /\
    (is_valid (decode_block d) = BLK_VALID ->
     valid_bytes (decode_block d) <= DEFAULT_BLOCK_SIZE - METADATA_SIZE) /\
    msg_of (decode_block d) d = m.

(** The blocks of a mounted device show the messages of the store. *)
Lemma dev_shows F w s i :
  dev_inv F w s -> (i < s_cap s)%nat ->
  shows (b_data (bufs w) (Z.of_nat i + NUM_METADATA_BLKS)) (s_msgs s !! i).
Proof.
  intros (a & vm & mps & bs & es & [_ Hlog Hg _]). rewrite (dg_cap _ _ _ Hg). intros Hi.
  destruct (lookup_lt_is_Some_2 bs i Hi) as [b Hb].
  destruct (dl_blocks _ _ _ Hlog i b Hb) as (Hwf & blk & Hd & Hlen & Htk & Hv).
  assert (Hdec : decode_block blk = b) by (by rewrite <- decode_block_take, Htk, decode_encode).
  exists blk. rewrite Hdec, (dg_msgs _ _ _ Hg). unfold msg_at. by rewrite Hb, Hd.
Qed.

(** Mounting gives the messages that the blocks show. *)
Lemma image_shows c n f :
  (forall i, (i < n)%nat -> shows (b_data c (Z.of_nat i + NUM_METADATA_BLKS)) (f i)) ->
  image_ok c n /\ forall i, (i < n)%nat -> s_msgs (image_store c n) !! i = f i.
Proof.
  intros Hc. split.
  - intros i Hi. destruct (Hc i Hi) as (d & ? & ? & ? & _). by exists d.
  - intros i Hi. destruct (Hc i Hi) as (d & Hd & _ & _ & <-). simpl.
    rewrite image_msgs_lookup. unfold msg_at. rewrite Hd.
    assert (Hm : image_mds c n !! i = Some (decode_block d)) by (by rewrite image_mds_lookup, Hd).
    by rewrite Hm.
Qed.

(** A device whose blocks are those of a mounted one mounts with the same messages. *)
Lemma image_of_device F w s c :
  dev_inv F w s -> (forall n, b_data c n = b_data (bufs w) n) ->
  image_ok c (s_cap s) /\ s_cap (image_store c (s_cap s)) = s_cap s /\
  s_msgs (image_store c (s_cap s)) = s_msgs s.
Proof.
  intros Hi Hc. destruct (image_shows c (s_cap s) (fun i => s_msgs s !! i)) as [Hok Hms].
  { intros i Hlt. rewrite Hc. by eapply dev_shows. }
  split_and!; [done..|]. apply map_eq. intros i.
  destruct (decide (i < s_cap s)%nat) as [Hlt|Hge]; [by apply Hms|].
  assert (Hnone : forall s', store_wf s' -> s_cap s' = s_cap s -> s_msgs s' !! i = None).
  { intros s' [Hwf _] Hcap. apply eq_None_not_Some. intros [m Hm%Hwf]. lia. }
  destruct Hi as (a & vm & mps & bs & es & Hi). rewrite !Hnone; try done.
  - by destruct Hi.
  - by apply image_store_wf.
Qed.

Lemma time_sorted_last es e e' :
  time_sorted es -> e ∈ es -> last es = Some e' -> el_nsec e <= el_nsec e'.
Proof.
  intros Hs Hin Hl. destruct (Z.le_gt_cases (el_nsec e) (el_nsec e')) as [|Hgt]; [done|].
  pose proof (sorted_last_lt _ _ _ Hs Hl Hgt) as Hall. rewrite Forall_forall in Hall.
  specialize (Hall e Hin). lia.
Qed.

(** The last slot of a mounted image holds its newest message. *)
Lemma image_last c n i m :
  image_ok c n -> s_msgs (image_store c n) !! i = Some m ->
  exists m', s_msgs (image_store c n) !! s_last (image_store c n) = Some m' /\ m_time m <= m_time m'.
Proof.
  intros Hok. simpl. rewrite !image_msgs_lookup. unfold msg_at at 1.
  destruct (image_mds c n !! i) as [b|] eqn:Hb; [|done].
  destruct (b_data c _) as [blk|] eqn:Hblk; [|done]. unfold msg_of.
  destruct (Z.eqb_spec (is_valid b) BLK_VALID) as [Hv|]; [|done]. intros [= <-]. simpl.
  destruct (mount_elems_spec (image_mds c n)) as [Hs Hp].
  assert (Hin : elem_of_block i b ∈ mount_elems (image_mds c n)).
  { rewrite Hp. apply elem_of_valid_from. eauto. }
  destruct (last (mount_elems (image_mds c n))) as [e|] eqn:Hl.
  2: { apply last_None in Hl. rewrite Hl in Hin. set_solver. }
  pose proof (last_Some_elem_of _ _ Hl) as He. rewrite Hp in He.
  apply elem_of_valid_from in He as (j & x & Hx & Hxv & ->). simpl. rewrite Nat2Z.id.
  unfold msg_at. rewrite Hx.
  destruct (block_rep_image _ _ _ _ Hok Hx) as (_ & xblk & -> & _).
  unfold msg_of. rewrite (proj2 (Z.eqb_eq _ _) Hxv). eexists. split; [done|]. simpl.
  by apply (time_sorted_last _ (elem_of_block i b) _ Hs Hin) in Hl.
Qed.

(** ** The calls on a device that represents a store *)

Hypothesis kzalloc_works : forall n, kzalloc_ok n = true.
Hypothesis sb_bread_works : forall n, bread_ok n = true.

Lemma wp_do_syscall F sb s w c :
  running F sb s w -> syscall_ok c ->
  wp (do_syscall c) (fun r w' => exists s', acts s c r s' /\ running F sb s' w' /\
    after_call (bufs w) (bufs w')) w.
Proof.
  intros (Hi & Hu & Hsb) Hok. destruct c as [source size|offset cap size|offset]; simpl in *.
  - destruct (Z.le_gt_cases size (DEFAULT_BLOCK_SIZE - METADATA_SIZE)).
    + wp_step. eapply wp_mono; [eapply wp_put_data; try done; lia|].
      intros r w' (Hu' & Hsb' & _ & Hb & [(t & Ht & -> & Hi' & _)|[(_ & [n Hn] & _)|(_ & [n Hn] & _)]]).
      * wp_step. eexists. split; [by apply acts_put|]. by split_and!.
      * by rewrite kzalloc_works in Hn.
      * by rewrite sb_bread_works in Hn.
    + wp_step. apply (wp_intro _ _ _ (- E2BIG) w).
      { apply run_put_too_big; [|lia]. destruct Hi as (? & ? & ? & ? & ? & [_ _ Hg _]).
        by rewrite (dg_mounted _ _ _ Hg). }
      wp_step. exists s. split; [apply acts_put_big; lia|]. split; [by split_and!|by left].
  - destruct Hok. eapply wp_mono; [by eapply wp_get_data|].
    intros r w' (Hss & Hi' & [->|(_ & [n Hn] & _)]); [|by rewrite sb_bread_works in Hn].
    exists s. split; [constructor|]. destruct Hu. unfold same_state in Hss. destruct_and!.
    unfold running, unlocked. split_and!; try congruence. by left.
  - wp_step. eapply wp_mono; [by eapply wp_invalidate_data|].
    intros r w' (Hu' & Hsb' & _ & Hb & [(-> & Hi' & _)|(_ & [n Hn] & _)]);
      [|by rewrite sb_bread_works in Hn].
    wp_step. eexists. split; [by apply acts_invalidate|]. by split_and!.
Qed.

(** What a sequence of calls keeps: the superblock and inode blocks, and the medium
    up to date. *)
Lemma wp_do_syscalls F sb cs : forall s w,
  running F sb s w -> Forall syscall_ok cs ->
  wp (do_syscalls cs) (fun rs w' => exists s', acts_all s cs rs s' /\ running F sb s' w' /\
    (forall n, n < NUM_METADATA_BLKS -> b_data (bufs w') n = b_data (bufs w) n) /\
    (SYNCHRONOUS_PUT_DATA = true -> clean (bufs w) -> clean (bufs w'))) w.
Proof.
  induction cs as [|c cs IH]; intros s w Hrun Hok; cbn [do_syscalls].
  { wp_step. exists s. split; [constructor|]. by split_and!. }
  apply Forall_cons in Hok as [Hc Hok]. wp_step. eapply wp_mono; [by eapply wp_do_syscall|].
  intros r w1 (s1 & Ha & Hrun1 & Hb). wp_step. eapply wp_mono; [by eapply IH|].
  intros rs w2 (s2 & Has & Hrun2 & Hlow & Hcl). wp_step. exists s2. split; [by econstructor|].
  split; [done|]. split.
  - intros n Hn. rewrite Hlow by done. by apply after_call_low.
  - intros Hs Hcw. apply Hcl; [done|]. by eapply after_call_clean.
Qed.

(** A machine on which the file system is not mounted, with a device whose blocks are
    what the medium of [w] holds; nothing has been written to its buffers. *)
Definition rebooted (w w' : world) : Prop :=
  unmounted w' /\ forall n, b_data (bufs w') n = on_disk (bufs w) n.

Hypothesis iget_works : forall n, iget_locked n <> None.
Hypothesis d_make_root_works : forall n, d_make_root_ok n = true.

(** C14: nothing is lost at a power failure: with SYNCHRONOUS_PUT_DATA, whatever
    system calls are made after the mount of a formatted device, each has the
    effect and the result of the abstract operation, and if the machine stops
    after any number of them, the medium, mounted again, represents a store with
    the same slots and messages: every message that put_data() has acknowledged
    is there, whole and with its timestamp, unless it was invalidated, and none
    that was invalidated comes back; the next write starts after the newest
    message. *)
Theorem power_loss_keeps_messages {V : Vfs K} {VL : VfsLaws K V} w sblk iblk sb cs :
  SYNCHRONOUS_PUT_DATA = true ->
  unmounted w -> b_data (bufs w) SB_BLOCK_NUMBER = Some sblk -> sb_info_magic sblk = MAGIC ->
  b_data (bufs w) BLDMS_INODES_BLOCK_NUMBER = Some iblk ->
  let n := Z.to_nat (inode_file_size iblk / DEFAULT_BLOCK_SIZE) in
  inode_file_size iblk <= NBLOCKS * DEFAULT_BLOCK_SIZE -> image_ok (bufs w) n -> clean (bufs w) ->
  (forall k, blkdev_get_by_path k = Some (Some sb)) -> s_bdev sb = true -> Forall syscall_ok cs ->
  wp (bldms_fs_mount ;;; do_syscalls cs)
    (fun rs w1 => exists s, acts_all (image_store (bufs w) n) cs rs s /\ dev_inv (heap w) w1 s /\
       forall w2, rebooted w1 w2 ->
         wp bldms_fs_mount (fun r w3 => r = inr tt /\ unlocked w3 /\ exists s',
           dev_inv (heap w2) w3 s' /\ s_cap s' = s_cap s /\ s_msgs s' = s_msgs s /\
           forall i m, s_msgs s !! i = Some m -> exists m', s_msgs s !! s_last s' = Some m' /\
             m_time m <= m_time m') w2) w.
Proof.
  intros Hsync Hum Hs Hmg Hib n Hsz Hok Hcl Hbd Hbdev Hcs. wp_step.
  eapply wp_mono; [by eapply wp_bldms_fs_mount|].
  intros _ w0 (_ & Hi0 & Hu0 & Hsb0 & Hb0 & _).
  eapply wp_mono; [eapply (wp_do_syscalls (heap w) sb cs); [by split_and!|done]|].
  intros rs w1 (s & Ha & (Hi1 & _) & Hlow & Hcl1). exists s. split_and!; [done|done|].
  intros w2 [Hum2 Hmed]. rewrite Hb0 in *. specialize (Hcl1 Hsync Hcl).
  assert (Hn : s_cap s = n) by (by rewrite (acts_all_cap _ _ _ _ Ha)).
  assert (Heq : forall k, b_data (bufs w2) k = b_data (bufs w1) k) by (intros k; by rewrite Hmed).
  destruct (image_of_device _ _ _ (bufs w2) Hi1 Heq) as (Hok2 & Hcap2 & Hms2). rewrite Hn in *.
  eapply wp_mono; [eapply (wp_bldms_fs_mount kzalloc_works sb_bread_works iget_works
    d_make_root_works w2 sblk iblk sb); try done; by rewrite Heq, Hlow|].
  intros r w3 (-> & Hi3 & Hu3 & _). do 2 (split; [done|]). eexists. split_and!; [exact Hi3|..]; try done.
  intros i m Hm. rewrite <- Hms2 in *. by eapply image_last.
Qed.
End Recovery.

(** ** Witness *)

#[local] Existing Instance sample_config.
#[local] Existing Instance good_kernel.

Definition sample_syscalls : list syscall :=
  [PutSys later_data 2; InvSys 1; GetSys 2 10 10; PutSys (zeros 5000) 5000].

Lemma sample_clean : clean (bufs (fresh_world sample_device)).
Proof. done. Qed.

(** The machine of [w] after a reboot. *)
Definition reboot (w : world) : world :=
  set_bufs (RefCache (rc_disk (bufs w)) (rc_disk (bufs w)) ∅) (fresh_world []).

Lemma reboot_rebooted w : rebooted w (reboot w).
Proof. done. Qed.

(** A message is put in slot 2 and the one in slot 1 is invalidated. *)
Lemma power_loss_keeps_messages_witness :
  wp (bldms_fs_mount ;;; do_syscalls sample_syscalls)
    (fun rs w1 => exists s, acts_all (image_store (bufs (fresh_world sample_device)) 3) sample_syscalls rs s /\
       wp bldms_fs_mount (fun r w3 => r = inr tt /\ exists s',
         dev_inv ∅ w3 s' /\ s_msgs s' = s_msgs s) (reboot w1)) (fresh_world sample_device).
Proof.
  eapply wp_mono.
  - apply (power_loss_keeps_messages (K := good_kernel) (fun _ => eq_refl) (fun _ => eq_refl)
      (fun n => ltac:(by intros [=])) (fun _ => eq_refl) (fresh_world sample_device)
      sample_sblk sample_iblk (SB MAGIC true)); try exact sample_clean; try exact sample_device_ok; try done.
    repeat (apply Forall_cons; split; [by vm_compute|]). constructor.
  - intros rs w1 (s & Ha & _ & H). exists s. split; [done|].
    eapply wp_mono; [apply H, reboot_rebooted|]. intros r w3 (-> & _ & s' & Hi & _ & Hm & _). eauto.
Defined.
