(* ===== verification/Durability.v ===== *)
(** * Power loss while calls are running

    Any number of threads call the driver, their steps interleaved, and the machine
    stops between two steps.  A block that no call is writing is on the medium as
    the abstract store has it; a block that one is writing is there as the store
    had it at some moment since it was last quiet.  The medium, mounted again,
    gives those messages: no half-written block, nothing that was never put. *)
From S2P Require Import Prelude Layout Kernel KernelFacts Rcu Store Device DeviceWp Sample.
From S2P Require Import Syscalls FileOps Threads Buffers Grace Interleave Parallel Mount MountOk Recovery.

Section Durability.
Context {K : Kernel} {KL : KernelLaws K} {C : Config}.
Implicit Types (F : gmap loc obj) (Fs : list (gmap loc obj)) (ts : list thread) (t : thread).
Implicit Types (s : mstore) (w : world) (c : bcache).

(** ** The medium beside the threads *)

(** No thread has written block [k] without having flushed it. *)
Definition settled ts (k : Z) : Prop := Forall (fun t => writes_back t <> Some k) ts.

#[export] Instance settled_dec ts k : Decision (settled ts k).
Proof. unfold settled. apply _. Defined.

(** Every block is on the medium, or a thread is going to write it there. *)
Definition medium_ok c ts : Prop :=
  forall k, pending c k /\ (settled ts k -> on_disk c k = b_data c k).

Lemma settled_update ts i t t' k :
  ts !! i = Some t -> settled (<[i := t']> ts) k ->
  writes_back t' <> Some k /\ (writes_back t <> Some k -> settled ts k).
Proof.
  intros Hi Hs. destruct (insert_split _ _ _ Hi) as (l1 & l2 & -> & _ & Hins).
  unfold settled in *. rewrite Hins in Hs. apply Forall_app in Hs as [H1 [H H2]%Forall_cons].
  split; [done|]. intros Ht. apply Forall_app. split; [done|]. by constructor.
Qed.

Lemma settled_finished ts k : Forall (fun t => finished t = true) ts -> settled ts k.
Proof. intros H. eapply Forall_impl; [exact H|]. by intros []. Qed.

Lemma settled_starting ts k : Forall (fun t => starting t = true) ts -> settled ts k.
Proof. intros H. eapply Forall_impl; [exact H|]. by intros []. Qed.

(** What a step leaves on the medium. *)
Lemma moves_on_disk t t' c c' k :
  buf_moves t t' c c' ->
  on_disk c' k = on_disk c k \/ on_disk c' k = b_data c k \/ on_disk c' k = b_data c' k.
Proof.
  intros [t1 t2 c1|source size a b old d c1|offset el rs d c1 m|t1 t2 n c1]; [by left|apply on_disk_rewritten..|].
  destruct (on_disk_flushed n k c1) as [->| ->]; auto.
Qed.

Lemma moves_medium ts i t t' c c' :
  SYNCHRONOUS_PUT_DATA = true -> ts !! i = Some t -> buf_moves t t' c c' ->
  medium_ok c ts -> medium_ok c' (<[i := t']> ts).
Proof.
  intros Hsync Hi Hmv Hok k. destruct (Hok k) as [Hp Ha].
  assert (Hw : forall n d, writes_back t = None -> writes_back t' = Some n ->
    pending (rewritten n d c) k /\
    (settled (<[i := t']> ts) k -> on_disk (rewritten n d c) k = b_data (rewritten n d c) k)).
  { intros n d Ht Ht'. split.
    - destruct (decide (n = k)) as [<-|Hne]; [apply pending_rewritten|by apply pending_rewritten_ne].
    - intros Hs. destruct (settled_update _ _ _ _ _ Hi Hs) as [Hn Hs'].
      apply agrees_rewritten; [congruence|]. apply Ha, Hs'. congruence. }
  destruct Hmv as [t t' c Ht Ht'|source size a b old d c|offset el rs d c m|t t' n c Ht Ht'].
  - split; [done|]. intros Hs. destruct (settled_update _ _ _ _ _ Hi Hs) as [_ Hs'].
    apply Ha, Hs'. congruence.
  - by apply Hw.
  - by apply Hw.
  - split; [by apply pending_flushed|]. intros Hs.
    destruct (settled_update _ _ _ _ _ Hi Hs) as [_ Hs'].
    destruct (decide (n = k)) as [<-|Hne].
    + rewrite b_data_flushed. unfold flushed. rewrite Hsync. by apply flushed_written.
    + apply agrees_flushed, Ha, Hs'. congruence.
Qed.

(** The superblock and the inode are never written. *)
Lemma moves_low s t t' s' c c' k :
  commits s t t' s' -> (forall offset, t = InvCall offset -> - 2 ^ 31 <= offset < 2 ^ 31) ->
  buf_moves t t' c c' -> (forall n, writes_back t = Some n -> NUM_METADATA_BLKS <= n) ->
  k < NUM_METADATA_BLKS ->
  b_data c' k = b_data c k /\ (forall n, writes_back t' = Some n -> NUM_METADATA_BLKS <= n).
Proof.
  intros Hcm Hr Hmv Hlow Hk.
  destruct Hmv as [t t' c Ht Ht'|source size a b old d c|offset el rs d c m|t t' n c Ht Ht'].
  - split; [done|]. rewrite Ht'. done.
  - apply commits_put_ready in Hcm as [(t & b' & bh' & old' & _ & _ & Hb & [= <- _ _])|(_ & _ & [=])].
    rewrite b_data_rewritten by lia. split; [done|]. intros n [= <-]. lia.
  - apply commits_inv_call in Hcm as [(el' & bh & rs' & _ & Hinv)|(r & [=] & _)].
    assert (Hoff : 0 <= offset) by (unfold s_invalidate in Hinv; repeat case_match; simplify_eq; lia).
    assert (Hm : m = offset + NUM_METADATA_BLKS).
    { specialize (Hr offset eq_refl). unfold m, NUM_METADATA_BLKS. rewrite u32_small; lia. }
    clearbody m. subst m. rewrite b_data_rewritten by lia. split; [done|]. intros n [= <-]. lia.
  - rewrite b_data_flushed, Ht'. done.
Qed.

(** ** The running system *)

Variable sb : super_block.
Hypothesis sb_bread_works : forall n, bread_ok n = true.

Record live F s w ts Fs : Prop := {
  lv_calls : cinv sb F s w ts Fs;
  lv_medium : medium_ok (bufs w) ts;
  lv_low : Forall (fun t => forall n, writes_back t = Some n -> NUM_METADATA_BLKS <= n) ts
}.

(** Block [i] of the medium is as the store had it at some moment between [s0], [ts0]
    and [s], [ts]. *)
Definition recorded (s0 : mstore) ts0 s ts c (i : nat) : Prop :=
  exists sp tsp, rtc astep (s0, ts0) (sp, tsp) /\ rtc astep (sp, tsp) (s, ts) /\
    shows (on_disk c (Z.of_nat i + NUM_METADATA_BLKS)) (s_msgs sp !! i).

Lemma live_start F Fs s w ts : calls_start sb F Fs s w ts -> clean (bufs w) -> live F s w ts Fs.
Proof.
  intros Hst Hcl. split; [by apply ci_start|by split; [right|]; intros; apply Hcl|].
  apply Forall_lookup. intros i t Ht n Hn.
  destruct (Forall2_lookup_l _ _ _ _ _ (cs_calls _ _ _ _ _ _ Hst) Ht) as (_ & _ & Hs & _). by destruct t.
Qed.

(** A quiet block is recorded now. *)
Lemma live_settled F s w ts Fs i :
  live F s w ts Fs -> (i < s_cap s)%nat -> settled ts (Z.of_nat i + NUM_METADATA_BLKS) ->
  shows (on_disk (bufs w) (Z.of_nat i + NUM_METADATA_BLKS)) (s_msgs s !! i).
Proof.
  intros [[[Hi _] _ _ _ _ _] Hok _] Hlt Hs. destruct (Hok (Z.of_nat i + NUM_METADATA_BLKS)) as [_ Ha].
  rewrite Ha by done. by eapply dev_shows.
Qed.

Lemma live_step F s w ts Fs w' ts' :
  SYNCHRONOUS_PUT_DATA = true -> live F s w ts Fs -> cstep (w, ts) (w', ts') ->
  exists s' Fs', live F s' w' ts' Fs' /\ astep (s, ts) (s', ts') /\ s_cap s' = s_cap s /\
    (forall k, k < NUM_METADATA_BLKS -> b_data (bufs w') k = b_data (bufs w) k) /\
    forall s0 ts0 i, (i < s_cap s)%nat -> rtc astep (s0, ts0) (s, ts) ->
      recorded s0 ts0 s ts (bufs w) i -> recorded s0 ts0 s' ts' (bufs w') i.
Proof.
  intros Hsync Hlive Hst. pose proof Hlive as [Hc Hok Hlow].
  destruct (ci_cstep sb sb_bread_works _ _ _ _ _ _ _ Hc Hst)
    as (i & t & t' & m & s' & Fs' & Hi & -> & Hm & Hrun & Hcm & Hcap & _ & _ & Hc').
  pose proof (thread_step_moves _ _ _ _ _ _ Hm Hrun) as Hmv.
  assert (Hr : forall offset, t = InvCall offset -> - 2 ^ 31 <= offset < 2 ^ 31).
  { intros offset ->. by destruct (ci_frame _ _ _ _ _ _ _ _ Hc Hi) as (Fi & _ & [Hr _] & _). }
  pose proof (proj1 (Forall_lookup _ _) Hlow _ _ Hi) as Ht.
  assert (Ha : astep (s, ts) (s', <[i:=t']> ts)) by (by econstructor).
  exists s', Fs'. split; [split; [done|by eapply moves_medium|]|split; [done|split; [done|split]]].
  - apply Forall_insert; [done|]. by eapply (moves_low s t t' s' _ _ 0).
  - intros k Hk. by eapply moves_low.
  - intros s0 ts0 j Hj H0 (sp & tsp & H1 & H2 & Hs).
    destruct (moves_on_disk _ _ _ _ (Z.of_nat j + NUM_METADATA_BLKS) Hmv) as [Hd|[Hd|Hd]].
    + exists sp, tsp. rewrite Hd. split_and!; [done|exact (rtc_r _ _ _ H2 Ha)|done].
    + exists s, ts. rewrite Hd. split_and!; [done|by apply rtc_once|].
      eapply dev_shows; [|done]. apply Hc.
    + exists s', (<[i:=t']> ts). rewrite Hd. split_and!; [exact (rtc_r _ _ _ H0 Ha)|done|].
      eapply dev_shows; [|by rewrite Hcap]. apply Hc'.
Qed.

Lemma live_run F s cf cf' Fs :
  SYNCHRONOUS_PUT_DATA = true -> live F s cf.1 cf.2 Fs -> rtc cstep cf cf' ->
  exists s' Fs', live F s' cf'.1 cf'.2 Fs' /\ rtc astep (s, cf.2) (s', cf'.2) /\ s_cap s' = s_cap s /\
    (forall k, k < NUM_METADATA_BLKS -> b_data (bufs cf'.1) k = b_data (bufs cf.1) k) /\
    forall s0 ts0 i, (i < s_cap s)%nat -> rtc astep (s0, ts0) (s, cf.2) ->
      recorded s0 ts0 s cf.2 (bufs cf.1) i -> recorded s0 ts0 s' cf'.2 (bufs cf'.1) i.
Proof.
  intros Hsync Hlive Hrun. revert s Fs Hlive.
  induction Hrun as [cf|[w ts] [w1 ts1] cf' Hst _ IH]; intros s Fs Hlive.
  - exists s, Fs. by split_and!.
  - destruct (live_step _ _ _ _ _ _ _ Hsync Hlive Hst) as (s1 & Fs1 & Hl1 & Ha1 & Hcap1 & Hlow1 & Hrec1).
    destruct (IH s1 Fs1 Hl1) as (s' & Fs' & Hl' & Ha' & Hcap' & Hlow' & Hrec').
    exists s', Fs'. split_and!; [done|exact (rtc_l _ _ _ _ Ha1 Ha')|congruence| |].
    + intros k Hk. by rewrite Hlow', <- Hlow1.
    + intros s0 ts0 i Hi H0 Hr. apply Hrec'; [by rewrite Hcap1|exact (rtc_r _ _ _ H0 Ha1)|by apply Hrec1].
Qed.

Lemma recorded_now F s w ts Fs i :
  live F s w ts Fs -> (i < s_cap s)%nat -> settled ts (Z.of_nat i + NUM_METADATA_BLKS) ->
  recorded s ts s ts (bufs w) i.
Proof. intros Hl Hi Hs. exists s, ts. split_and!; [done..|]. by eapply live_settled. Qed.

Lemma live_low F s w ts Fs k :
  live F s w ts Fs -> k < NUM_METADATA_BLKS -> on_disk (bufs w) k = b_data (bufs w) k.
Proof.
  intros [_ Hok Hlow] Hk. apply Hok. eapply Forall_impl; [exact Hlow|]. intros t Ht Hn%Ht. lia.
Qed.

(** What a block shows is determined by its bytes. *)
Definition shown (blk : option (list byte)) : option Store.message :=
  d ← blk; msg_of (decode_block d) d.

Lemma shows_shown blk m : shows blk m -> shows blk (shown blk) /\ shown blk = m.
Proof. intros (d & -> & ? & ? & <-). split; [|done]. by exists d. Qed.

Hypothesis kzalloc_works : forall n, kzalloc_ok n = true.
Hypothesis iget_works : forall n, iget_locked n <> None.
Hypothesis d_make_root_works : forall n, d_make_root_ok n = true.

End Durability.

(** ** Witness *)

#[local] Existing Instance sample_config.
#[local] Existing Instance good_kernel.

(** An invalidation whose buffer has been written and not flushed, and a read. *)
Definition crash_calls : list thread := [InvCall 1; GetCall 1 2 2].

