(* ===== verification/Typing.v ===== *)
(** * The types of the driver's data

    The model keeps C integers as unbounded ones.  Here: every object in memory and
    every global keeps a value of its C type, and every pointer points to an object
    of the type it is declared with, whatever system calls are made. *)
From S2P Require Import Prelude Layout Kernel KernelFacts Rcu Store Device DeviceOps Sample Syscalls TestProg Recovery.

Section Typing.
Context {K : Kernel} {KL : KernelLaws K} {C : Config}.
Implicit Types (F : gmap loc obj) (w : world) (s : mstore) (o : obj).

(** ** Well-typed states *)

(** An object whose fields have values of their types. *)
Definition field_typed o : Prop :=
  match o with
  | OBlk b => block_wf b
  | OElem e => 0 <= ndx e < 2 ^ 32 /\ - 2 ^ 63 <= el_nsec e < 2 ^ 63 /\ 0 <= el_valid_bytes e < 2 ^ 64
  | OTime t => - 2 ^ 63 <= t < 2 ^ 63
  | OBuf _ | OArr _ _ => True
  end.

(** A pointer to a metadata object, and one to an element of the list. *)
Definition points_to_block w (p : option loc) : Prop := exists l b, p = Some l /\ heap w !! l = Some (OBlk b).
Definition points_to_elem w (l : loc) : Prop := exists e, heap w !! l = Some (OElem e).

Record well_typed w : Prop := {
  wt_fields l o : heap w !! l = Some o -> field_typed o;
  wt_array : exists l vm ps, metadata_array w = Some l /\ heap w !! l = Some (OArr vm ps) /\
    md_array_size w = Z.of_nat (length ps) /\ Forall (points_to_block w) ps;
  wt_list : Forall (points_to_elem w) (rl_nodes (valid_blk_list w));
  wt_size : 0 <= md_array_size w < 2 ^ 32;
  wt_last : md_array_size w <> 0 -> 0 <= last_written_block w < md_array_size w;
  wt_mounted : 0 <= bldms_mounted w < 2 ^ 8
}.

(** A state that represents a store is well typed if the rest of the memory is. *)
Lemma dev_inv_typed F w s :
  dev_inv F w s -> (forall l o, F !! l = Some o -> field_typed o) -> well_typed w.
Proof.
  intros (a & vm & mps & bs & es & Hi) HF. pose proof Hi as [Hm Hlog Hg Hwf].
  pose proof (dg_bound _ _ _ Hg) as Hb. pose proof NBLOCKS_range as HNB.
  pose proof (dm_blocks _ _ _ _ _ _ _ Hm) as Hblk. destruct (dm_list _ _ _ _ _ _ _ Hm) as [_ Hel].
  split.
  - intros l o Hl. destruct (decide (l ∈ footprint a mps w)) as [Hin|Hout].
    2: { rewrite (dm_frame _ _ _ _ _ _ _ Hm l Hout) in Hl. by eapply HF. }
    unfold footprint in Hin. rewrite elem_of_cons, elem_of_app in Hin. destruct Hin as [->|[Hin|Hin]].
    + rewrite (dm_heap_array _ _ _ _ _ _ _ Hm) in Hl. by injection Hl as <-.
    + apply list_elem_of_lookup in Hin as [i Hi'].
      destruct (Forall2_lookup_l _ _ _ _ _ Hblk Hi') as (b & Hb' & Hh). rewrite Hl in Hh. injection Hh as ->.
      by destruct (dl_blocks _ _ _ Hlog i b Hb') as [? _].
    + destruct (elems_at_elem_of _ _ _ _ Hel Hin) as (e & He & Hh). rewrite Hl in Hh. injection Hh as ->.
      destruct (dev_elem _ _ _ _ _ _ _ _ _ Hi He) as (i & b & blk & -> & Hb' & Hlt & _ & _ & Hvb & _).
      destruct (dl_blocks _ _ _ Hlog i b Hb') as [(Hns & _ & _) _]. rewrite (dg_cap _ _ _ Hg) in Hlt.
      simpl. lia.
  - exists a, vm, (Some <$> mps). split_and!.
    + apply (dm_array _ _ _ _ _ _ _ Hm).
    + apply (dm_heap_array _ _ _ _ _ _ _ Hm).
    + rewrite (dg_size _ _ _ Hg), length_fmap. by rewrite (Forall2_length _ _ _ Hblk).
    + apply Forall_fmap, Forall_lookup. intros i l Hl.
      destruct (Forall2_lookup_l _ _ _ _ _ Hblk Hl) as (b & _ & Hh). by exists l, b.
  - apply Forall_forall. intros l Hl. destruct (elems_at_elem_of _ _ _ _ Hel Hl) as (e & _ & Hh). by exists e.
  - rewrite (dg_size _ _ _ Hg). lia.
  - rewrite (dg_size _ _ _ Hg). intros Hne. rewrite (dg_last _ _ _ Hg) by lia.
    destruct Hwf as [_ Hl]. rewrite (dg_cap _ _ _ Hg) in Hl. lia.
  - rewrite (dg_mounted _ _ _ Hg). lia.
Qed.

(** A message fits in a block. *)
Lemma dev_inv_data F w s i m :
  dev_inv F w s -> s_msgs s !! i = Some m -> (length (m_data m) <= 4086)%nat.
Proof.
  intros (a & vm & mps & bs & es & Hi) Hm. destruct (dev_slot_elem _ _ _ _ _ _ _ _ _ _ Hi Hm) as (b & _ & He).
  destruct (dev_elem _ _ _ _ _ _ _ _ _ Hi He) as (j & b' & blk & Heq & _ & _ & _ & Hlen & Hvb & Hmj).
  injection Heq as Hj _ _. apply Nat2Z.inj in Hj as <-. rewrite Hm in Hmj. injection Hmj as ->. simpl.
  unfold payload. rewrite length_take, length_drop. lia.
Qed.

(** What the calls return fits in an int. *)
Lemma acts_int F w s c r s' :
  dev_inv F w s -> acts s c r s' -> - 2 ^ 31 <= r.1 < 2 ^ 31.
Proof.
  intros Hi Ha. pose proof (dev_inv_cap _ _ _ Hi) as Hcap. destruct Ha; simpl.
  - unfold o, s_put. destruct (next_free s) as [i|] eqn:Hnf; simpl; [|unfold ENOMEM; lia].
    apply next_free_Some in Hnf as [? _]. lia.
  - unfold E2BIG. lia.
  - unfold s_get. repeat case_match; simpl; unfold ENODATA, E2BIG; try lia.
    assert (Hd : (length (m_data m) <= 4086)%nat) by (by eapply dev_inv_data).
    rewrite length_take. lia.
  - unfold o, s_invalidate. repeat case_match; simpl; unfold ENODATA, E2BIG; lia.
Qed.

Hypothesis kzalloc_works : forall n, kzalloc_ok n = true.
Hypothesis sb_bread_works : forall n, bread_ok n = true.

Lemma wp_do_syscalls_int F sb cs : forall s w,
  running F sb s w -> Forall syscall_ok cs ->
  wp (do_syscalls cs) (fun rs w' => (exists s', running F sb s' w') /\
    Forall (fun r => - 2 ^ 31 <= r.1 < 2 ^ 31) rs) w.
Proof.
  induction cs as [|c cs IH]; intros s w Hrun Hok; cbn [do_syscalls]; [wp_step; by eauto|].
  apply Forall_cons in Hok as [Hc Hok]. wp_step. eapply wp_mono; [by eapply wp_do_syscall|].
  intros r w1 (s1 & Ha & Hrun1 & _). wp_step. eapply wp_mono; [by eapply IH|].
  intros rs w2 (Hrun2 & Hrs). wp_step. split; [done|]. constructor; [|done].
  destruct Hrun as [Hi _]. by eapply acts_int.
Qed.

(** C16: whatever system calls are made, every object of the memory keeps values of
    the types of its fields (15 bits for the length of a message, one for its
    validity, 64 for its timestamp, 32 for the index of an element), the array
    holds as many pointers to metadata objects as its size says and none is NULL,
    the list links elements only, the globals keep values of their types and
    every call returns an int. *)
Theorem syscalls_keep_types F sb s w cs :
  running F sb s w -> (forall l o, F !! l = Some o -> field_typed o) -> Forall syscall_ok cs ->
  wp (do_syscalls cs) (fun rs w' => well_typed w' /\ Forall (fun r => - 2 ^ 31 <= r.1 < 2 ^ 31) rs) w.
Proof.
  intros Hrun HF Hok. eapply wp_mono; [by eapply wp_do_syscalls_int|].
  intros rs w' [(s' & Hi & _) Hrs]. split; [|done]. by eapply dev_inv_typed.
Qed.
End Typing.

(** ** Witness *)

#[local] Existing Instance sample_config.
#[local] Existing Instance good_kernel.

Lemma syscalls_keep_types_witness :
  wp (do_syscalls sample_syscalls)
    (fun rs w' => well_typed w' /\ Forall (fun r => - 2 ^ 31 <= r.1 < 2 ^ 31) rs) good_world.
Proof.
  apply (syscalls_keep_types always_allocates always_reads ∅ (SB MAGIC true) sample_store good_world).
  - split; [exact good_world_inv|done].
  - done.
  - repeat (apply Forall_cons; split; [by vm_compute|]). constructor.
Defined.
