(* ===== verification/UserProg.v ===== *)
(** * The example program (user/user.c)

    main() of user/user.c is run over the system calls and the file operations of
    the driver: it puts twenty messages, invalidates every other one, gets two of
    them back and reads what is left through the file. *)
From stdpp Require Import strings.
From S2P Require Import Prelude Layout Kernel KernelFacts Rcu Store Device Sample Syscalls.
From S2P Require Import DeviceOps DeviceWp PutData GetData InvalidateData FileOps ReadOrder Session Mount MountOk UserCalls TestProg.

(** ** user/user.c *)

(** [METADATA_SIZE] is 13 here: sizeof(signed long long) + sizeof(int) +
    sizeof(unsigned char). *)
Definition MAX_MSG_SIZE : Z := Z.shiftl 1 12 - (8 + 4 + 1).

Section UserProgram.
Context {K : Kernel} {U : Calls}.

(** Lines 79-91: the messages are put and the indices of their blocks kept. *)
Fixpoint put_all (fuel : nat) (i : Z) (block_ids : list Z) : M (Z + list Z) :=
  match fuel with
  | O => fail NoFuel
  | S fuel' =>
    if negb (i <? Z.of_nat NUM_MESSAGES) then ret (inr block_ids) else
    let* r := put_message (message i) in
    let ret_ := (libc r).1 in
    if ret_ <? 0 then ret (inl ret_) else put_all fuel' (i + 1) (block_ids ++ [ret_])
  end.

Definition block_id (block_ids : list Z) (i : Z) : Z := nth (Z.to_nat i) block_ids (-1).

(** Lines 97-104: every other one is invalidated. *)
Fixpoint invalidate_some (fuel : nat) (i : Z) (block_ids : list Z) : M (option Z) :=
  match fuel with
  | O => fail NoFuel
  | S fuel' =>
    if negb (i <? Z.of_nat NUM_MESSAGES) then ret None else
    let* r := call_invalidate (block_id block_ids i) in
    let ret_ := (libc r).1 in
    if ret_ <? 0 then ret (Some ret_) else invalidate_some fuel' (i + 2) block_ids
  end.

(** Lines 136-165: the device is read through the file until the end; the exit
    status and what the reads delivered. *)
Definition read_device (f : file) : M (Z * list (list byte)) :=
  let* o := bldms_open f in
  if o.1 <? 0 then ret (1, []) else
  let* r := read_until_eof (S (Z.to_nat (i_size f))) MAX_MSG_SIZE o.2 in
  let '(n, printed, f') := r in
  if n <? 0 then ret (1, printed) else
  let* _ := bldms_release f' in
  ret (0, printed).

(** main(), from line 79 on: its exit status, and what it reads from the file. *)
Definition user_main (f : file) : M (Z * list (list byte)) :=
  let* r := put_all (S NUM_MESSAGES) 0 [] in
  match r with
  | inl err => ret (err, [])
  | inr block_ids =>
    let* r := invalidate_some (S NUM_MESSAGES) 0 block_ids in
    match r with
    | Some err => ret (err, [])
    | None =>
      let* g := call_get (block_id block_ids 3) (Z.to_nat MAX_MSG_SIZE) MAX_MSG_SIZE in
      if (libc g.1).1 <? 0 then ret ((libc g.1).1, []) else
      let* g := call_get (block_id block_ids 0) (Z.to_nat MAX_MSG_SIZE) MAX_MSG_SIZE in
      if (libc g.1).1 <? 0
      then if failed_with g.1 ENODATA then read_device f else ret ((libc g.1).1, [])
      else ret (1, [])
    end
  end.
End UserProgram.

(** main() with its arguments: [calls n] is syscall() with the numbers [n], and [f] what
    open() finds under the path. *)
Definition user_program {K : Kernel} (calls : numbers -> Calls) (argv : list string) (f : file)
    : M (Z * list (list byte)) :=
  match command_line argv with
  | None => ret (1, [])
  | Some n => user_main (U := calls n) f
  end.

(** The program does not see through which interface it calls the driver. *)
Section Interface.
Context {K : Kernel} (U U' : Calls) (Hsame : same_calls U U').

Lemma same_put_all fuel : forall i ids, same_run (put_all (U := U) fuel i ids) (put_all (U := U') fuel i ids).
Proof.
  pose proof (same_put_message U U' Hsame).
  induction fuel; intros i ids; cbn [put_all]; repeat same_step.
Qed.

Lemma same_invalidate_some fuel ids : forall i,
  same_run (invalidate_some (U := U) fuel i ids) (invalidate_some (U := U') fuel i ids).
Proof. induction fuel; intros i; cbn [invalidate_some]; repeat same_step. Qed.

#[local] Hint Resolve same_put_all same_invalidate_some : same.

Lemma user_main_same f : same_run (user_main (U := U) f) (user_main (U := U') f).
Proof. unfold user_main. repeat same_step. Qed.
End Interface.

(** ** What the device holds while the program runs *)

(** The text of message [i], with its NUL. *)
Definition stored (i : nat) : list byte :=
  take (S (strlen (message (Z.of_nat i)))) (message (Z.of_nat i)).

(** The messages [i] with [keep i] are in the slots from [base] on, one after the
    other, and there is nothing else. *)
Definition holds (base : nat) (keep : nat -> bool) (s : mstore) : Prop :=
  (forall j m, s_msgs s !! j = Some m ->
     exists i, j = (base + i)%nat /\ keep i = true /\ m_data m = stored i /\ 0 < m_time m) /\
  (forall i, keep i = true -> is_Some (s_msgs s !! (base + i)%nat)).

Definition before (n i : nat) : bool := (i <? n)%nat.
Definition odd_from (n i : nat) : bool := before 20 i && (negb (Nat.even i) || (n <=? i)%nat).

(** The slot after the last written one. *)
Definition next_slot (s : mstore) : nat := (S (s_last s) mod s_cap s)%nat.

Lemma next_free_next s :
  (0 < s_cap s)%nat -> s_msgs s !! next_slot s = None -> next_free s = Some (next_slot s).
Proof.
  unfold next_slot. intros Hlt Hn. unfold next_free, probes. destruct (s_cap s) as [|n] eqn:Hc; [lia|].
  cbn [seq fmap list_fmap]. rewrite Nat.add_1_r. by rewrite filter_cons_True.
Qed.

Lemma length_stored i : (0 < length (stored i) <= 4086)%nat.
Proof.
  unfold stored. destruct (message_fits (Z.of_nat i)) as [Hl Hs]. rewrite length_take. lia.
Qed.

Lemma holds_ext base k1 k2 s : holds base k1 s -> (forall i, k1 i = k2 i) -> holds base k2 s.
Proof.
  intros [H1 H2] He. split.
  - intros j m Hj. destruct (H1 j m Hj) as (i & ? & ? & ?). exists i. by rewrite <- He.
  - intros i Hi. apply H2. by rewrite He.
Qed.

(** One more message. *)
Lemma holds_put base k s t :
  holds base (before k) s -> 0 < t ->
  holds base (before (S k)) (MStore (s_cap s) (base + k)%nat (<[(base + k)%nat := Msg t (stored k)]> (s_msgs s))).
Proof.
  intros [H1 H2] Ht. unfold before in *. split; simpl.
  - intros j m [[<- <-]|[Hne Hj]]%lookup_insert_Some.
    + exists k. split_and!; try done. apply Nat.ltb_lt. lia.
    + destruct (H1 j m Hj) as (i & -> & Hi & ?). exists i. split; [done|]. split; [|done].
      apply Nat.ltb_lt in Hi. apply Nat.ltb_lt. lia.
  - intros i Hi%Nat.ltb_lt. destruct (decide (i = k)) as [->|].
    + rewrite lookup_insert_eq. eauto.
    + rewrite lookup_insert_ne by lia. apply H2, Nat.ltb_lt. lia.
Qed.

(** One message less. *)
Lemma holds_invalidate base n s :
  holds base (odd_from n) s -> Nat.even n = true ->
  holds base (odd_from (S (S n))) (MStore (s_cap s) (s_last s) (delete (base + n)%nat (s_msgs s))).
Proof.
  intros [H1 H2] Hn. unfold odd_from in *.
  assert (Hstep : forall i, negb (Nat.even i) || (S (S n) <=? i)%nat
    = ((negb (Nat.even i) || (n <=? i)%nat) && negb (i =? n)%nat)%bool).
  { intros i. destruct (Nat.eqb_spec i n) as [->|Hne].
    - rewrite Hn, andb_false_r. by destruct (Nat.leb_spec (S (S n)) n); [lia|].
    - rewrite andb_true_r. destruct (Nat.even i) eqn:Hi; [|done].
      change (negb true) with false. rewrite !orb_false_l.
      assert (i <> S n) by (intros ->; by rewrite Nat.even_succ, <- Nat.negb_even, Hn in Hi).
      by destruct (Nat.leb_spec n i), (Nat.leb_spec (S (S n)) i); [|lia..|]. }
  split; simpl.
  - intros j m [Hne Hj]%lookup_delete_Some. destruct (H1 j m Hj) as (i & -> & Hi & ?).
    exists i. split; [done|]. split; [|done]. rewrite Hstep.
    apply andb_true_iff in Hi as [-> ->]. simpl. destruct (Nat.eqb_spec i n); [lia|done].
  - intros i Hi. rewrite Hstep in Hi. apply andb_true_iff in Hi as [Hb Hi].
    apply andb_true_iff in Hi as [Ho Hne]. rewrite lookup_delete_ne.
    + apply H2. by rewrite Hb, Ho.
    + intros Heq. assert (i = n) as -> by lia. by rewrite Nat.eqb_refl in Hne.
Qed.

(** ** The program *)

Section Reliable.
Context {K : Kernel} {KL : KernelLaws K} {C : Config}.
Hypothesis kzalloc_works : forall n, kzalloc_ok n = true.
Hypothesis sb_bread_works : forall n, bread_ok n = true.
Hypothesis clock_positive : forall n, 0 < clock n.

(** The blocks of the messages. *)
Definition ids (base n : nat) : list Z := (fun i => Z.of_nat (base + i)) <$> seq 0 n.

Lemma block_id_ids base i :
  (i < 20)%nat -> block_id (ids base 20) (Z.of_nat i) = Z.of_nat (base + i).
Proof.
  intros Hi. unfold block_id, ids. rewrite Nat2Z.id. apply nth_lookup_Some.
  by rewrite list_lookup_fmap, lookup_seq_lt by done.
Qed.

Lemma wp_put_all F sb base fuel k s w :
  running F sb s w -> holds base (before k) s -> next_slot s = (base + k)%nat ->
  (base + 21 < s_cap s)%nat -> (k <= 20)%nat -> (k + fuel = 21)%nat ->
  wp (put_all fuel (Z.of_nat k) (ids base k)) (fun r w' => r = inr (ids base 20) /\ exists s',
    running F sb s' w' /\ s_cap s' = s_cap s /\ holds base (before 20) s') w.
Proof.
  revert k s w. induction fuel as [|fuel IH]; intros k s w Hrun Hh Hlast Hcap Hk Hf; [lia|].
  cbn [put_all]. change (Z.of_nat NUM_MESSAGES) with 20.
  destruct (Z.ltb_spec (Z.of_nat k) 20); cbn [negb].
  2: { apply wp_ret. assert (k = 20%nat) as -> by lia. split; [done|]. by exists s. }
  pose proof (running_cap _ _ _ _ Hrun) as Hcap31. destruct (message_fits (Z.of_nat k)) as [Hml Hms].
  wp_step. eapply wp_mono; [by eapply wp_put_message|]. intros r w1 (t & [n Ht] & -> & Hrun1).
  fold (stored k) in *.
  assert (Hnf : next_free s = Some (base + k)%nat).
  { rewrite <- Hlast. apply next_free_next; [lia|]. rewrite Hlast.
    destruct Hh as [H1 _]. apply eq_None_not_Some. intros [m Hm].
    destruct (H1 _ _ Hm) as (i & Heq & Hi%Nat.ltb_lt & _). lia. }
  unfold s_put in *. rewrite Hnf in *. cbn [fst snd] in *. rewrite libc_ok by lia. cbn [fst].
  rewrite (proj2 (Z.ltb_ge _ 0)) by lia.
  assert (Hids : ids base k ++ [Z.of_nat (base + k)] = ids base (S k))
    by (unfold ids; by rewrite seq_S, fmap_app).
  rewrite Hids. replace (Z.of_nat k + 1) with (Z.of_nat (S k)) by lia.
  eapply wp_mono; [eapply (IH (S k)); [exact Hrun1| |unfold next_slot; simpl; rewrite Nat.mod_small; lia|done|lia|lia]|done].
  apply holds_put; [done|]. rewrite Ht. apply clock_positive.
Qed.

Lemma wp_invalidate_some F sb base fuel n s w :
  running F sb s w -> holds base (odd_from n) s -> Nat.even n = true ->
  (base + 21 < s_cap s)%nat -> (n <= 20)%nat -> (20 < n + fuel)%nat ->
  wp (invalidate_some fuel (Z.of_nat n) (ids base 20)) (fun r w' => r = None /\ exists s',
    running F sb s' w' /\ s_cap s' = s_cap s /\ holds base (odd_from 20) s') w.
Proof.
  revert n s w. induction fuel as [|fuel IH]; intros n s w Hrun Hh Hev Hcap Hn Hf; [lia|].
  cbn [invalidate_some]. change (Z.of_nat NUM_MESSAGES) with 20.
  destruct (Z.ltb_spec (Z.of_nat n) 20); cbn [negb].
  2: { apply wp_ret. assert (n = 20%nat) as -> by lia. split; [done|]. by exists s. }
  pose proof (running_cap _ _ _ _ Hrun) as Hcap31. rewrite block_id_ids by lia.
  destruct (proj2 Hh n) as [m Hm].
  { unfold odd_from, before. rewrite (proj2 (Nat.ltb_lt n 20)), Hev, Nat.leb_refl by lia. done. }
  wp_step. eapply wp_mono; [eapply wp_invalidate; [done|exact Hrun|lia]|].
  intros r w1 [-> Hrun1]. rewrite s_invalidate_in, Hm in * by lia. cbn [fst snd] in *.
  rewrite libc_ok by lia. cbn [fst]. change (0 <? 0) with false. cbn [negb].
  replace (Z.of_nat n + 2) with (Z.of_nat (S (S n))) by lia.
  assert (n <> 19%nat) by (by intros ->).
  eapply wp_mono; [eapply (IH (S (S n))); [exact Hrun1| |done|done|lia|lia]|done].
  by apply holds_invalidate.
Qed.

(** The messages the program leaves on the device. *)
Definition odds : list nat := filter (fun i => Nat.even i = false) (seq 0 20).

Lemma elem_of_odds i : i ∈ odds <-> odd_from 20 i = true.
Proof.
  unfold odds, odd_from, before. rewrite list_elem_of_filter, elem_of_seq.
  destruct (Nat.ltb_spec i 20), (Nat.even i), (Nat.leb_spec 20 i); simpl; intuition (done || lia).
Qed.

Lemma total_bytes_bound es n :
  Forall (fun e => el_valid_bytes e <= n) es -> total_bytes es <= n * Z.of_nat (length es).
Proof. induction 1; simpl; lia. Qed.

(** The elements of the list when the device holds the odd messages. *)
Lemma holds_elems F base s es w :
  dev_inv_es F s es w -> holds base (odd_from 20) s -> (base + 21 < s_cap s)%nat ->
  Forall (deliverable s) es /\ Forall (fun e => 0 < el_nsec e) es /\ es <> [] /\
  total_bytes es < Z.of_nat (S (4096 * s_cap s)) /\ text s <$> es ≡ₚ stored <$> odds.
Proof.
  intros Hes [H1 H2] Hcap. pose proof Hes as (a & vm & mps & bs & Hi).
  assert (Hall : forall e, e ∈ es -> exists i, i ∈ odds /\ ndx e = Z.of_nat (base + i) /\
    text s e = stored i /\ 0 < el_nsec e /\ 0 < el_valid_bytes e <= 4086).
  { intros e He. pose proof (length_text _ _ _ _ _ Hes He) as Hlen.
    destruct (dev_elem _ _ _ _ _ _ _ _ _ Hi He) as (j & b & blk & -> & _ & _ & _ & _ & Hvb & Hm).
    destruct (H1 _ _ Hm) as (i & -> & Hk & Hd & Ht). simpl in Hd, Ht.
    exists i. split; [by apply elem_of_odds|]. split; [done|].
    assert (Htx : text s (elem_of_block (base + i)%nat b) = stored i)
      by (unfold text; cbn [elem_of_block ndx]; by rewrite Nat2Z.id, Hm).
    rewrite Htx in Hlen. pose proof (length_stored i). simpl in *. split; [done|]. lia. }
  assert (Hperm : ndx <$> es ≡ₚ (fun i => Z.of_nat (base + i)) <$> odds).
  { apply NoDup_Permutation.
    - pose proof (di_log _ _ _ _ _ _ _ _ Hi) as Hlog. rewrite (dl_elems _ _ _ Hlog). apply valid_from_NoDup.
    - apply NoDup_fmap; [intros ?? ?; lia|]. apply NoDup_filter, NoDup_seq.
    - intros z. rewrite !list_elem_of_fmap. split.
      + intros (e & -> & He). destruct (Hall e He) as (i & ? & ? & _). eauto.
      + intros (i & -> & Hk%elem_of_odds). destruct (H2 i Hk) as [m Hm].
        destruct (dev_slot_elem _ _ _ _ _ _ _ _ _ _ Hi Hm) as (b & _ & Hb). by eexists; split; [|exact Hb]. }
  assert (Hlen : length es = 10%nat) by (apply Permutation_length in Hperm; by rewrite !length_fmap in Hperm).
  split_and!.
  - apply Forall_forall. intros e He. destruct (Hall e He) as (i & Hk%elem_of_odds & Hn & _ & _ & ?).
    unfold odd_from, before in Hk. apply andb_true_iff in Hk as [Hk%Nat.ltb_lt _]. split; [|done]. lia.
  - apply Forall_forall. intros e He. by destruct (Hall e He) as (? & _ & _ & _ & ? & _).
  - by intros ->.
  - pose proof (total_bytes_bound es 4086) as Hb. lapply Hb; [lia|]. apply Forall_forall. intros e He.
    destruct (Hall e He) as (? & _ & _ & _ & _ & ?). lia.
  - apply (fmap_Permutation (fun z => match s_msgs s !! Z.to_nat z with Some m => m_data m | None => [] end)) in Hperm.
    rewrite <- !list_fmap_compose in Hperm. change (text s <$> es) with
      (((fun z => match s_msgs s !! Z.to_nat z with Some m => m_data m | None => [] end) ∘ ndx) <$> es).
    rewrite Hperm. apply Permutation_refl'. apply (list_fmap_ext _ stored odds). intros k i Hi'.
    apply list_elem_of_lookup_2, elem_of_odds in Hi'. unfold compose. rewrite Nat2Z.id.
    destruct (H2 i Hi') as [m Hm]. rewrite Hm. destruct (H1 _ _ Hm) as (i' & Heq & _ & -> & _).
    by assert (i' = i) as -> by lia.
Qed.

(** The messages of the store, in the order of the list. *)
Definition message_of (s : mstore) (e : rcu_elem) : Store.message := Msg (el_nsec e) (text s e).

Lemma elems_messages F s es w m :
  dev_inv_es F s es w -> m ∈ (message_of s <$> es) <-> exists i, s_msgs s !! i = Some m.
Proof.
  intros (a & vm & mps & bs & Hi).
  assert (Hel : forall e, e ∈ es -> exists i b, e = elem_of_block i b /\ s_msgs s !! i = Some (message_of s e)).
  { intros e He. destruct (dev_elem _ _ _ _ _ _ _ _ _ Hi He) as (i & b & blk & -> & _ & _ & _ & _ & _ & Hm).
    exists i, b. split; [done|]. unfold message_of, text. cbn [elem_of_block ndx el_nsec].
    by rewrite Nat2Z.id, Hm. }
  rewrite list_elem_of_fmap. split.
  - intros (e & -> & He). destruct (Hel e He) as (i & b & _ & ?). by exists i.
  - intros (i & Hm). destruct (dev_slot_elem _ _ _ _ _ _ _ _ _ _ Hi Hm) as (b & _ & Hb).
    exists (elem_of_block i b). split; [|done]. destruct (Hel _ Hb) as (j & b' & Heq & Hj).
    injection Heq as Hij _ _. apply Nat2Z.inj in Hij as <-. congruence.
Qed.

Lemma sorted_messages s es :
  time_sorted es -> StronglySorted (fun m1 m2 => m_time m1 <= m_time m2) (message_of s <$> es).
Proof.
  induction 1 as [|e es _ IH Hall]; simpl; [constructor|]. constructor; [done|by apply Forall_fmap].
Qed.

Lemma wp_read_device F sb base s w f :
  running F sb s w -> holds base (odd_from 20) s -> (base + 21 < s_cap s)%nat ->
  i_size f = 4096 * Z.of_nat (s_cap s) -> i_sb f = Some sb -> f_pos f = 0 ->
  opened_for_reading f = true ->
  wp (read_device f) (fun r w' => r.1 = 0 /\ running F sb s w' /\
    exists ms, StronglySorted (fun m1 m2 => m_time m1 <= m_time m2) ms /\
      (forall m, m ∈ ms <-> exists i, s_msgs s !! i = Some m) /\
      concat r.2 = concat (m_data <$> ms) /\ m_data <$> ms ≡ₚ stored <$> odds) w.
Proof.
  intros (Hi & [Hlk Hrd] & Hsb) Hh Hcap Hsz Hfsb Hpos Hop. unfold read_device. wp_step.
  eapply (wp_bldms_open F s w f); [done|by rewrite Hop| |].
  2: { intros _ [n Hn]. by rewrite kzalloc_works in Hn. }
  intros _ p w1 Hp Hi1 (Hlk1 & Hrd1 & Hbh1 & Hsb1 & Hm1). cbn [fst snd].
  change (0 <? 0) with false. cbv iota.
  destruct (dev_inv_inv_es _ _ _ Hi1) as [es Hes].
  destruct (holds_elems _ _ _ _ _ Hes Hh Hcap) as (Hdel & Hts & Hne & Htot & Hperm).
  wp_step. eapply wp_mono; [eapply (wp_read_all kzalloc_works sb_bread_works
    (<[p := OTime 0]> F) s es w1 (set_private (Some p) f) p sb); try done|].
  - apply lookup_insert_eq.
  - rewrite Hsz. lia.
  - intros [[n printed] f'] w2 (-> & _ & Hcat & Hsort & F' & Hes2 & Hc2 & Hfl & p' & t' & Hpv & HF' & Hdp).
    change (0 <? 0) with false. cbv iota. cbn [set_private f_flags] in Hfl.
    assert (Hop' : opened_for_reading f' = true) by (unfold opened_for_reading; by rewrite Hfl).
    wp_step. apply (wp_bldms_release F' s w2 f').
    + by eapply dev_inv_es_inv.
    + intros q _ Hq. rewrite Hpv in Hq. injection Hq as <-. by exists t'.
    + rewrite Hop', Hpv, Hdp, delete_insert_id by done. intros w3 Hi3 (Hlk3 & Hrd3 & Hbh3 & Hsb3 & Hm3).
      unfold same_ctl in Hc2. destruct_and!. wp_step. cbn [fst snd]. split; [done|].
      split; [unfold running, unlocked; split_and!; (done || congruence)|].
      exists (message_of s <$> es). split_and!.
      * by apply sorted_messages.
      * intros m. by apply (elems_messages _ _ _ _ m Hes).
      * by rewrite <- list_fmap_compose.
      * by rewrite <- list_fmap_compose.
Qed.

(** The whole program, on an empty device. *)
Lemma wp_user_main F sb s w f :
  running F sb s w -> s_msgs s = ∅ -> (next_slot s + 21 < s_cap s)%nat ->
  i_size f = 4096 * Z.of_nat (s_cap s) -> i_sb f = Some sb -> f_pos f = 0 ->
  opened_for_reading f = true ->
  wp (user_main f) (fun r w' => r.1 = 0 /\ exists s' ms, running F sb s' w' /\
    (forall m, m ∈ ms <-> exists i, s_msgs s' !! i = Some m) /\
    m_data <$> ms ≡ₚ stored <$> odds /\
    StronglySorted (fun m1 m2 => m_time m1 <= m_time m2) ms /\
    concat r.2 = concat (m_data <$> ms)) w.
Proof.
  intros Hrun Hemp Hcap Hsz Hfsb Hpos Hop. unfold user_main. set (base := next_slot s) in *.
  assert (Hh : holds base (before 0) s).
  { split; [intros j m; rewrite Hemp; by intros ?%lookup_empty_Some|done]. }
  wp_step. change 0 with (Z.of_nat 0) at 1. change [] with (ids base 0) at 1.
  eapply wp_mono; [eapply wp_put_all; [exact Hrun|exact Hh|unfold base; lia|done|lia|done]|].
  intros r w1 (-> & s1 & Hrun1 & Hc1 & Hh1). cbv iota. wp_step. change 0 with (Z.of_nat 0) at 1.
  eapply wp_mono; [eapply wp_invalidate_some; [exact Hrun1| |done|by rewrite Hc1|lia|unfold NUM_MESSAGES; lia]|].
  { eapply holds_ext; [exact Hh1|]. intros i. unfold odd_from. simpl. by rewrite orb_true_r, andb_true_r. }
  intros r w2 (-> & s2 & Hrun2 & Hc2 & Hh2). cbv iota.
  pose proof (running_cap _ _ _ _ Hrun2) as Hcap2.
  change 3 with (Z.of_nat 3). change 0 with (Z.of_nat 0) at 2.
  rewrite !block_id_ids by lia.
  destruct (proj2 Hh2 3%nat eq_refl) as [m3 Hm3].
  assert (Hm0 : s_msgs s2 !! (base + 0)%nat = None).
  { apply eq_None_not_Some. intros [m Hm]. destruct (proj1 Hh2 _ _ Hm) as (i & Heq & Hi & _).
    by assert (i = 0%nat) as -> by lia. }
  assert (Hmax : 0 <= MAX_MSG_SIZE < 2 ^ 64) by (by vm_compute).
  wp_step. eapply wp_mono; [eapply wp_get; [done|exact Hrun2|lia|exact Hmax]|].
  intros g w3 [-> Hrun3]. rewrite s_get_in, Hm3 by lia. cbn [fst].
  assert (Hl3 : (length (take (Z.to_nat MAX_MSG_SIZE `min` Z.to_nat MAX_MSG_SIZE) (m_data m3)) <= 4083)%nat).
  { rewrite length_take. change (Z.to_nat MAX_MSG_SIZE) with 4083%nat. lia. }
  rewrite libc_ok by lia. cbn [fst]. rewrite (proj2 (Z.ltb_ge _ 0)) by lia.
  wp_step. eapply wp_mono; [eapply wp_get; [done|exact Hrun3|lia|exact Hmax]|].
  intros g w4 [-> Hrun4]. rewrite s_get_in, Hm0 by lia. cbn [fst].
  rewrite libc_failed, failed_with_spec by done. change (-1 <? 0) with true. cbv iota.
  eapply wp_mono; [eapply (wp_read_device F sb base s2 w4 f); try done; [lia|]|].
  - by rewrite Hc2, Hc1.
  - intros r w5 (Hr & Hrun5 & ms & Hsort & Hms & Hcat & Hperm). split; [done|].
    by exists s2, ms.
Qed.

End Reliable.

(** ** Witness *)

(** A kernel whose clock stands still, and a formatted device of 24 empty blocks. *)
Definition steady_kernel : Kernel := sample_kernel always always (fun _ => 7).
#[export] Instance steady_kernel_laws : KernelLaws steady_kernel := ref_kernel_laws _ _ _.

Definition blank_iblk : list byte := encode_inode (Inode 0 (zeros 4) 1 0 (24 * 4096)) ++ zeros 4064.
Definition blank_device : list (list byte) := [sample_sblk; blank_iblk] ++ replicate 24 (zeros 4096).
Definition blank_world : @world steady_kernel := {|
  calls := 0; brk := 1; heap := ∅; rcu_write_lock := false; rcu_readers := 0; bh_refs := 0;
  valid_blk_list := RefList [] ∅ : @rlist steady_kernel;
  bufs := ref_cache_of blank_device : @bcache steady_kernel; bldms_mounted := 0;
  metadata_array := None; md_array_size := 0; last_written_block := 0;
  the_dev_superblock := None; module_refs := 0
|}.
Definition blank_file : file := File O_RDONLY None 0 (24 * 4096) (Some (SB MAGIC true)).

#[local] Existing Instance sample_config.

Lemma blank_device_ok : image_ok (K := steady_kernel) (bufs blank_world) 24.
Proof.
  intros i Hi. do 24 (destruct i as [|i];
    [eexists; split; [by vm_compute|split; [by vm_compute|by vm_compute]]|]). lia.
Qed.

Lemma blank_mount :
  wp (K := steady_kernel) bldms_fs_mount (fun _ w' =>
    running ∅ (SB MAGIC true) (image_store (bufs blank_world) 24) w') blank_world.
Proof.
  eapply wp_mono.
  - apply (wp_bldms_fs_mount (K := steady_kernel) (fun _ => eq_refl) (fun _ => eq_refl)
      (fun n => ltac:(by intros [=])) (fun _ => eq_refl) blank_world
      sample_sblk blank_iblk (SB MAGIC true)); try done; try (by vm_compute).
    exact blank_device_ok.
  - intros r w' (_ & Hi & Hu & Hsb & _). by split.
Qed.

