(* ===== verification/Quickstart.v ===== *)
(** * From the formatter to a program that runs

    The whole installation, in the order of the README: the discovery module and the
    driver are loaded, an image is formatted and mounted, its file is looked up and
    opened, and the programs of src/user/ are started with the numbers of the system
    calls that the driver printed. *)
From stdpp Require Import strings.
From S2P Require Import Prelude Layout Kernel KernelFacts Rcu Store Device Sample Syscalls FileOps Session Mount MountOk.
From S2P Require Import Makefs Usctm SysTable UserCalls TestProg UserProg Dispatch.

Section Quickstart.
Context {K : Kernel} {KL : KernelLaws K} {C : Config} {V : Vfs K} {VL : VfsLaws K V}.
Context {OS : Os} {OL : OsLaws OS} {H : Handlers} {E : KernelEntry} {EL : KernelEntryLaws E} {CPU : Cpu}.
Hypothesis kzalloc_works : forall n, kzalloc_ok n = true.
Hypothesis sb_bread_works : forall n, bread_ok n = true.
Hypothesis iget_new : forall n, iget_locked n = Some true.
Hypothesis d_make_root_works : forall n, d_make_root_ok n = true.
Hypothesis clock_positive : forall n, 0 < clock n.

(** mount(2), and the lookup of the file by the first open(2). *)
Definition mount_and_lookup (sb : super_block) : M lookup_result :=
  let* _ := bldms_fs_mount in bldms_lookup (Some sb) UNIQUE_FILE_NAME.

(** The file that open(2) makes for a new inode. *)
Definition open_inode (flags : Z) (sb : super_block) (r : lookup_result) : option file :=
  match r with
  | LookupDentry (Some i) => Some (File flags None 0 (ni_size i) (Some sb))
  | _ => None
  end.

Lemma iget_works n : iget_locked n <> None.
Proof. by rewrite iget_new. Qed.

(** The device and the file, from the image. *)
Lemma wp_mount_and_lookup w fill_dev j n sb :
  junk_ok j -> unmounted w -> Z.of_nat n <= NBLOCKS ->
  device_holds (bufs w) (main fill_dev j ((Z.of_nat n + 2) * DEFAULT_BLOCK_SIZE)).2 ->
  (forall k, blkdev_get_by_path k = Some (Some sb)) -> s_bdev sb = true ->
  wp (mount_and_lookup sb) (fun r w' => running (heap w) sb (image_store (bufs w) n) w' /\
    forall flags, open_inode flags sb r = Some (File flags None 0 (4096 * Z.of_nat n) (Some sb))) w.
Proof.
  intros Hj Hu Hn Hc Hbd Hb. pose proof NBLOCKS_range as HNB. unfold mount_and_lookup. wp_step.
  eapply wp_mono; [by eapply (wp_format_mount kzalloc_works sb_bread_works iget_works d_make_root_works)|].
  intros r w1 (_ & Hi & Hul & Hsb & Hbufs). rewrite run_main in Hc by lia. simpl in Hc.
  assert (Hn32 : Z.of_nat n < 2 ^ 32) by lia.
  destruct (format_inode _ _ _ _ Hj Hn32 Hc) as (blk & Hblk & Hsz).
  eapply wp_mono; [eapply (lookup_sets_size w1 sb UNIQUE_FILE_NAME blk)|].
  - by rewrite Hbufs.
  - rewrite Hsz. unfold DEFAULT_BLOCK_SIZE. lia.
  - rewrite String.eqb_refl. intros r' w2 (Hss & [->|[(_ & [k Hk])|[(_ & [k Hk])|(_ & [k Hk])]]]).
    2: by rewrite iget_new in Hk.
    2: by rewrite iget_new in Hk.
    2: by rewrite sb_bread_works in Hk.
    split.
    + split; [by eapply dev_inv_same_state|]. unfold same_state in Hss. destruct Hul. destruct_and!.
      unfold unlocked. split_and!; congruence.
    + intros flags. cbn. rewrite Hsz. unfold DEFAULT_BLOCK_SIZE. do 2 f_equal. lia.
Qed.
End Quickstart.

(** ** Witness *)

#[local] Existing Instance sample_config.
#[local] Existing Instance sample_cpu.
#[local] Existing Instance sample_calls.

Definition open_device_image (path : string) : option Z :=
  if String.eqb path "image" then Some (24 * DEFAULT_BLOCK_SIZE) else None.
#[local] Abbreviation made_image := (makefs false zero_junk ["bldmsmakefs"; "image"]%string open_device_image).2.

(** Nothing is mounted and the device holds an image of [n] blocks. *)
Definition device_world (image : list byte) (n : nat) : @world steady_kernel := {|
  calls := 0; brk := 1; heap := ∅; rcu_write_lock := false; rcu_readers := 0; bh_refs := 0;
  valid_blk_list := RefList [] ∅ : @rlist steady_kernel;
  bufs := ref_cache_of (block_at image <$> seq 0 n) : @bcache steady_kernel; bldms_mounted := 0;
  metadata_array := None; md_array_size := 0; last_written_block := 0;
  the_dev_superblock := None; module_refs := 0
|}.

Lemma made_image_blocks : length made_image = (24 * 4096)%nat.
Proof.
  unfold makefs. change (negb _) with false. change (open_device_image _) with
    (Some ((Z.of_nat 22 + 2) * DEFAULT_BLOCK_SIZE)). cbv iota.
  rewrite run_main by done. cbn [snd].
  rewrite length_concat_blocks by (by apply format_image_blocks). reflexivity.
Qed.

Lemma ref_cache_lookup blocks i b :
  blocks !! i = Some b -> b_data (Kernel := steady_kernel) (ref_cache_of blocks) (Z.of_nat i) = Some b.
Proof.
  intros Hi. apply elem_of_list_to_map_1.
  - rewrite fst_zip by (by rewrite length_fmap, length_seq). apply NoDup_fmap; [apply _|apply NoDup_seq].
  - apply list_elem_of_lookup. exists i. rewrite lookup_zip_with, list_lookup_fmap.
    pose proof (lookup_lt_Some _ _ _ Hi). rewrite lookup_seq_lt by done. simpl. by rewrite Hi.
Qed.

Lemma device_world_holds image n :
  length image = (n * 4096)%nat -> device_holds (bufs (device_world image n)) image.
Proof.
  intros Hl i Hi. apply ref_cache_lookup. by rewrite list_lookup_fmap, lookup_seq_lt by lia.
Qed.

Lemma sample_command_line program path :
  run_with program path (Numbers 134 174 182) = [program; path; "134"; "174"; "182"]%string.
Proof. vm_compute. reflexivity. Qed.

