(* ===== verification/Workers.v ===== *)
(** * Concurrent clients (user/user_concurrency.c)

    main() of user/user_concurrency.c and its threads, run together on the parallel
    semantics of the driver: getters read every block, writers put messages and
    invalidators invalidate blocks; readers open the file, read it to the end three
    times and close it.  Each thread counts the errors it did not expect, and each
    call of a client is a new thread of the driver. *)
From stdpp Require Import strings.
From S2P Require Import Prelude Layout Kernel KernelFacts Rcu Store Device Sample Syscalls.
From S2P Require Import DeviceWp FileOps Session Threads Grace Walk Interleave Parallel UserCalls TestProg.

Section Workers.
Context {K : Kernel} {C : Config}.

(** ** The threads of the program *)

Inductive role := Getter | Writer | Invalidator.

(** What distinguishes a thread from another of its role, pthread_self(), and the
    number [num_blocks] of blocks of the device. *)
Section Role.
Variables (num_blocks param : Z).

(** The number of rounds of the loop of each role. *)
Definition rounds (r : role) : Z :=
  match r with
  | Getter => num_blocks
  | Writer => s32 (num_blocks / 5)
  | Invalidator => s32 (num_blocks / 8)
  end.

(** The loop conditions: the getter compares an int with a size_t. *)
Definition goes_on (r : role) (i : Z) : bool :=
  match r with Getter => u64 i <? rounds r | _ => i <? rounds r end.

(** The system call of round [i]. *)
Definition getter_call (i : Z) : thread :=
  let to_get := if param mod 2 =? 0 then s32 (u64 (u64 (num_blocks - 1) - i)) else i in
  GetCall to_get (Z.to_nat MAX_MSG_SIZE) MAX_MSG_SIZE.
Definition writer_call (i : Z) : thread :=
  let msg := message (u64 (param + i)) in PutCall msg (Z.of_nat (strlen msg) + 1).
Definition invalidator_call (i : Z) : thread :=
  InvCall (s32 (u64 (param + i) mod num_blocks)).

Definition call_of (r : role) (i : Z) : thread :=
  match r with
  | Getter => getter_call i
  | Writer => writer_call i
  | Invalidator => invalidator_call i
  end.
End Role.

(** The result of a call that the thread counts as an error. *)
Definition expected_errno (r : role) : Z :=
  match r with Writer => ENOMEM | _ => ENODATA end.
Definition unexpected (r : role) (ret : Z) : bool :=
  ((libc ret).1 <? 0) && negb (failed_with ret (expected_errno r)).

(** ** Readers *)

Definition num_loops : Z := 3.
Definition read_op : file_call := ReadCall (Z.to_nat MAX_MSG_SIZE) MAX_MSG_SIZE.
Definition seek_op : file_call := SeekCall 0 SEEK_SET.

(** What reader() does after a call on the file, in round [i], has returned [ret]. *)
Definition reader_next (i : Z) (op : file_call) (ret : Z) : option (Z * file_call) :=
  match op with
  | OpenCall => if ret <? 0 then None else Some (0, if 0 <? num_loops then read_op else CloseCall)
  | ReadCall _ _ => Some (i, if negb (ret =? 0) then read_op else seek_op)
  | SeekCall _ _ => let i := s32 (i + 1) in Some (i, if i <? num_loops then read_op else CloseCall)
  | CloseCall => None
  end.

Definition reader_error (op : file_call) (ret : Z) : bool :=
  match op with OpenCall | ReadCall _ _ => ret <? 0 | _ => false end.

(** A reader: not started, in round [i] and in a call, or returned. *)
Inductive reader :=
| ReaderStart
| ReaderIn (i : Z) (op : file_call) (call : nat)
| ReaderExit.

(** ** The program *)

(** A thread of the program: its round and the driver thread of its call, if it is
    in one. *)
Record worker := Worker { w_role : role; w_param : Z; w_round : Z; w_call : option nat }.

(** The driver, the threads of the program and [total_errors]. *)
Record program := Program {
  p_driver : config;
  p_workers : list worker;
  p_readers : list reader;
  total_errors : Z
}.

(** One step on a device of [num_blocks] blocks; [device] is what open() makes of its
    file. *)
Inductive pstep (num_blocks : Z) (device : file) : program -> program -> Prop :=
| pstep_driver c c' us rs n :
    cstep c c' -> pstep num_blocks device (Program c us rs n) (Program c' us rs n)
| pstep_call w ts us rs n k r param i :
    us !! k = Some (Worker r param i None) -> goes_on num_blocks r i = true ->
    pstep num_blocks device (Program (w, ts) us rs n)
      (Program (w, ts ++ [call_of num_blocks param r i])
         (<[k := Worker r param i (Some (length ts))]> us) rs n)
| pstep_return w ts us rs n k r param i j ret d :
    us !! k = Some (Worker r param i (Some j)) -> ts !! j = Some (Done ret d) ->
    pstep num_blocks device (Program (w, ts) us rs n)
      (Program (w, ts) (<[k := Worker r param (s32 (i + 1)) None]> us) rs
         (if unexpected r ret then n + 1 else n))
| pstep_open w ts us rs n k :
    rs !! k = Some ReaderStart ->
    pstep num_blocks device (Program (w, ts) us rs n)
      (Program (w, ts ++ [FileCall OpenCall device]) us (<[k := ReaderIn 0 OpenCall (length ts)]> rs) n)
| pstep_reader w ts us rs n k i op j r d f i' op' :
    rs !! k = Some (ReaderIn i op j) -> ts !! j = Some (FileDone r d f) ->
    reader_next i op (libc r).1 = Some (i', op') ->
    pstep num_blocks device (Program (w, ts) us rs n)
      (Program (w, <[j := Done r d]> ts ++ [FileCall op' f]) us
         (<[k := ReaderIn i' op' (length ts)]> rs)
         (if reader_error op (libc r).1 then n + 1 else n))
| pstep_unopened w ts us rs n k i op j r d f :
    rs !! k = Some (ReaderIn i op j) -> ts !! j = Some (FileDone r d f) ->
    reader_next i op (libc r).1 = None ->
    pstep num_blocks device (Program (w, ts) us rs n)
      (Program (w, ts) us (<[k := ReaderExit]> rs) (if reader_error op (libc r).1 then n + 1 else n))
| pstep_closed w ts us rs n k i op j r d :
    rs !! k = Some (ReaderIn i op j) -> ts !! j = Some (Done r d) ->
    pstep num_blocks device (Program (w, ts) us rs n)
      (Program (w, ts) us (<[k := ReaderExit]> rs) n).

(** What main() returns (lines 259-269). *)
Definition exit_status (p : program) : Z := if total_errors p =? 0 then 0 else total_errors p.

(** A thread that has left its loop. *)
Definition exited (num_blocks : Z) (u : worker) : Prop :=
  w_call u = None /\ goes_on num_blocks (w_role u) (w_round u) = false.

(** ** main() *)

Section Main.
(** How many threads of each kind, and the value of pthread_self() in each. *)
Variables (READERS GETTERS WRITERS INVALIDATORS : Z) (pthread_self : nat -> Z).

Definition NUM_SPAWNS : Z := READERS + GETTERS + WRITERS + INVALIDATORS.

(** The routine of the thread spawned in round [i]; [None] is reader(). *)
Definition spawn_role (i : Z) : option role :=
  if i <? GETTERS then Some Getter
  else if i <? GETTERS + WRITERS then Some Writer
  else if i <? GETTERS + WRITERS + INVALIDATORS then Some Invalidator
  else None.

Definition spawned : list worker * list reader :=
  foldl (fun t i => match spawn_role (Z.of_nat i) with
    | Some r => (t.1 ++ [Worker r (pthread_self i) 0 None], t.2)
    | None => (t.1, t.2 ++ [ReaderStart])
    end) ([], []) (seq 0 (Z.to_nat NUM_SPAWNS)).
End Main.

(** Lines 216-239: the number of blocks of the device, or the exit status.  The calls
    of the threads go to the driver directly: the numbers are only read. *)
Definition main_start (argv : list string) (device : file) : M (Z + Z) :=
  match command_line argv with
  | None => ret (inl 1)
  | Some _ =>
  let* o := bldms_open device in
  if (libc o.1).1 <? 0 then ret (inl 1) else
  let num_blocks := u64 (Z.quot (i_size o.2) BLOCK_SIZE) in
  let* _ := bldms_release o.2 in
  ret (inr num_blocks)
  end.

(** All threads have returned, as pthread_join() waits for. *)
Definition joined (num_blocks : Z) (p : program) : Prop :=
  Forall (exited num_blocks) (p_workers p) /\ Forall (fun r => r = ReaderExit) (p_readers p).

(** ** The calls of a role *)

(** The states a call of role [r] goes through on a device of [cap] slots. *)
Definition serves (cap : nat) (r : role) (t : thread) : Prop :=
  match r, t with
  | Getter, GetCall off _ _ => 0 <= off < Z.of_nat cap
  | Getter, GetWalk _ _ _ _ _ => True
  | Getter, GetRead _ _ _ _ n => 0 <= n <= DEFAULT_BLOCK_SIZE - METADATA_SIZE
  | Getter, Done ret _ => 0 <= ret <= DEFAULT_BLOCK_SIZE - METADATA_SIZE \/ ret = - ENODATA
  | Writer, PutCall _ size => size <= DEFAULT_BLOCK_SIZE - METADATA_SIZE
  | Writer, PutReady _ _ _ => True
  | Writer, PutWritten _ _ _ b _ _ => 0 <= b < Z.of_nat cap
  | Writer, Done ret _ => 0 <= ret < Z.of_nat cap \/ ret = - ENOMEM
  | Invalidator, InvCall off => 0 <= off < Z.of_nat cap
  | Invalidator, InvWait _ _ _ _ => True
  | Invalidator, Done ret _ => ret = 0 \/ ret = - ENODATA
  | _, _ => False
  end.

(** ** The next call of a thread *)

Lemma rounds_bound cap r i :
  Z.of_nat cap < 2 ^ 31 -> 0 <= i < 2 ^ 31 -> goes_on (Z.of_nat cap) r i = true -> i < Z.of_nat cap.
Proof.
  intros Hcap Hi Hgo.
  assert (Hd : forall k, 0 < k -> 0 <= Z.of_nat cap / k <= Z.of_nat cap).
  { intros k Hk. split; [apply Z.div_pos; lia|]. apply Z.div_le_upper_bound; [done|nia]. }
  pose proof (Hd 5 eq_refl). pose proof (Hd 8 eq_refl).
  destruct r; simpl in Hgo; rewrite ?u64_small, ?s32_small in Hgo by lia; lia.
Qed.

Lemma call_ok_of cap r param i :
  Z.of_nat cap < 2 ^ 31 -> 0 <= i < 2 ^ 31 -> 0 <= param < 2 ^ 64 ->
  goes_on (Z.of_nat cap) r i = true ->
  call_ok (call_of (Z.of_nat cap) param r i) /\ serves cap r (call_of (Z.of_nat cap) param r i).
Proof.
  intros Hcap Hi Hp Hgo. pose proof (rounds_bound cap r i Hcap Hi Hgo). destruct r; simpl.
  - unfold getter_call.
    set (g := if param mod 2 =? 0 then _ else _).
    assert (0 <= g < Z.of_nat cap); [|change MAX_MSG_SIZE with 4086; simpl; lia].
    unfold g. case_match; [|lia]. rewrite (u64_small (_ - 1)), u64_small, s32_small by lia. lia.
  - unfold writer_call. set (m := u64 _). destruct (message_fits m) as [Hl Hs]. simpl.
    unfold DEFAULT_BLOCK_SIZE, METADATA_SIZE. lia.
  - unfold invalidator_call. pose proof (Z.mod_pos_bound (u64 (param + i)) (Z.of_nat cap) ltac:(lia)).
    rewrite s32_small by lia. simpl. lia.
Qed.

(** The value of the call that has served the role is an expected one. *)
Lemma serves_expected cap r ret d :
  Z.of_nat cap < 2 ^ 31 -> serves cap r (Done ret d) -> unexpected r ret = false.
Proof.
  intros Hcap Hs. assert (Hlib : forall z, 0 <= z < 2 ^ 31 -> ((libc z).1 <? 0) = false).
  { intros z Hz. unfold libc. rewrite (proj2 (Z.ltb_ge z 0)) by lia. rewrite andb_false_r. simpl.
    rewrite s32_small by lia. apply Z.ltb_ge. lia. }
  unfold unexpected. destruct r; simpl in Hs; destruct Hs as [Hs| ->]; try done;
    rewrite Hlib; unfold DEFAULT_BLOCK_SIZE, METADATA_SIZE in *; (done || lia).
Qed.

Hypothesis kzalloc_works : forall n, kzalloc_ok n = true.

Lemma serves_commit s r t t' s' :
  serves (s_cap s) r t -> commits s t t' s' -> serves (s_cap s) r t'.
Proof.
  intros Hs Hc. destruct r, Hc; simpl in *; try tauto; try lia.
  - unfold s_put in H0. destruct (next_free s) as [j|] eqn:Hj; injection H0 as <- _; [|done].
    apply next_free_Some in Hj. lia.
  - destruct H as [[_ [n Hn]]|]; [by rewrite kzalloc_works in Hn|lia].
  - unfold s_invalidate in H. rewrite (proj2 (Z.leb_le _ _)), (proj2 (Z.ltb_lt _ _)) in H by lia.
    simpl in H. case_match; injection H; [by intros _ <-|intros <-; auto].
Qed.

(** ** The calls of a reader *)

Definition reader_op (op : file_call) : Prop :=
  op = OpenCall \/ op = read_op \/ op = seek_op \/ op = CloseCall.

(** The states such a call goes through. *)
Definition reading (op : file_call) (t : thread) : Prop :=
  match t with
  | FileCall op' f => op = op' /\ op_ok op f
  | ReadWalk a _ | ReadCopy a _ => op = read_op /\ private_data (ra_file a) <> None
  | ReadNext r d f _ | ReadSession r d f _ =>
      op = read_op /\ private_data f <> None /\ r = Some (Z.of_nat (length d)) /\ (length d <= 4086)%nat
  | FileDone r _ f => op <> CloseCall /\ private_data f <> None /\ 0 <= r <= 4086
  | Done _ _ => op = CloseCall
  | _ => False
  end.

Lemma reading_commit s op t t' s' :
  reader_op op -> reading op t -> commits s t t' s' -> reading op t'.
Proof.
  intros Hop Hr Hc.
  assert (Hk : ~ exists n, kzalloc_ok n = false) by (intros [n Hn]; by rewrite kzalloc_works in Hn).
  destruct Hc; simpl in Hr |- *; try tauto; destruct Hr as [-> Hr]; simpl in Hr.
  - destruct H as [(-> & p & ->)|(_ & _ & Hn)]; [split_and!; (done || lia)|done].
  - destruct Hop as [?|[?|[[= -> ->]|?]]]; try done. simpl in H.
    destruct H as [(-> & p & ->)|(_ & _ & Hn)]; [split_and!; (done || lia)|done].
  - destruct Hr as [? _]. split_and!; (done || lia).
  - destruct Hr as [? _]. split; [|done]. by destruct Hop as [?|[?|[?|?]]].
  - split_and!; (done || lia).
  - unfold DEFAULT_BLOCK_SIZE, METADATA_SIZE in *. split_and!; (done || lia).
  - destruct Hr as (? & _ & ?). split_and!; (done || lia).
  - destruct Hr as (? & _ & ?). split_and!; (done || lia).
Qed.

(** A reader whose call has succeeded goes on with a call it may make. *)
Lemma reader_goes_on i op r d f i' op' :
  reader_op op -> reading op (FileDone r d f) -> reader_next i op (libc r).1 = Some (i', op') ->
  reader_op op' /\ op_ok op' f /\ op' <> OpenCall /\ reader_error op (libc r).1 = false.
Proof.
  intros Hop (Hcl & Hp & Hr) Hn. rewrite libc_ok in * by lia. cbn [fst] in *.
  assert (Hread : op_ok read_op f) by (split; [done|]; by vm_compute).
  assert (Hneg : (r <? 0) = false) by (apply Z.ltb_ge; lia).
  destruct Hop as [->|[->|[->| ->]]]; simpl in Hn; rewrite ?Hneg in *; try done; simpl.
  - injection Hn as <- <-. unfold reader_op. by split_and!; auto.
  - rewrite Hneg. injection Hn as <- <-. unfold reader_op. destruct (r =? 0); simpl; split_and!; auto; done.
  - injection Hn as <- <-. unfold reader_op. destruct (s32 (i + 1) <? num_loops); split_and!; auto; done.
Qed.

Lemma reader_stays i op r d f :
  reader_op op -> reading op (FileDone r d f) -> reader_next i op (libc r).1 <> None.
Proof.
  intros Hop (Hcl & Hp & Hr). rewrite libc_ok by lia. cbn [fst].
  assert (Hneg : (r <? 0) = false) by (apply Z.ltb_ge; lia).
  destruct Hop as [->|[->|[->| ->]]]; simpl; rewrite ?Hneg; done.
Qed.

(** ** The program *)

Hypothesis sb_bread_works : forall n, bread_ok n = true.
Context {KL : KernelLaws K}.
Variable sb : super_block.
Variable device : file.

(** A thread of the program between two of its steps. *)
Definition worker_ok (cap : nat) (ts : list thread) (u : worker) : Prop :=
  0 <= w_round u < 2 ^ 31 /\ 0 <= w_param u < 2 ^ 64 /\
  match w_call u with
  | None => True
  | Some j => goes_on (Z.of_nat cap) (w_role u) (w_round u) = true /\
      exists t, ts !! j = Some t /\ serves cap (w_role u) t
  end.

Definition reader_ok (ts : list thread) (r : reader) : Prop :=
  match r with
  | ReaderIn i op j => reader_op op /\ exists t, ts !! j = Some t /\ reading op t
  | _ => True
  end.

(** A driver thread that has not finished, or holds a file, is the call of somebody. *)
Definition closed (t : thread) : bool := match t with Done _ _ => true | _ => false end.
Definition claimed (us : list worker) (rs : list reader) (j : nat) : Prop :=
  (exists k u, us !! k = Some u /\ w_call u = Some j) \/
  (exists k i op, rs !! k = Some (ReaderIn i op j)).

(** No two readers are in the same call. *)
Definition distinct_calls (rs : list reader) : Prop :=
  forall k k' i op j i' op', rs !! k = Some (ReaderIn i op j) -> rs !! k' = Some (ReaderIn i' op' j) -> k = k'.

Record pinv (F : gmap loc obj) (cap : nat) (p : program) : Prop := {
  pi_driver : exists s Fs, cinv sb F s (p_driver p).1 (p_driver p).2 Fs /\ s_cap s = cap;
  pi_workers : Forall (worker_ok cap (p_driver p).2) (p_workers p);
  pi_readers : Forall (reader_ok (p_driver p).2) (p_readers p);
  pi_distinct : distinct_calls (p_readers p);
  pi_claimed j t : (p_driver p).2 !! j = Some t -> closed t = false ->
    claimed (p_workers p) (p_readers p) j;
  pi_errors : total_errors p = 0
}.

(** The threads of the program after the other threads have changed. *)
Lemma worker_ok_mono cap ts ts' u :
  (forall j t, w_call u = Some j -> ts !! j = Some t -> serves cap (w_role u) t ->
     exists t', ts' !! j = Some t' /\ serves cap (w_role u) t') ->
  worker_ok cap ts u -> worker_ok cap ts' u.
Proof.
  intros H (Hr & Hp & Hu). do 2 (split; [done|]). destruct (w_call u) as [j|]; [|done].
  destruct Hu as (Hgo & t & Ht & Hs). split; [done|]. by eapply H.
Qed.

Lemma reader_ok_mono ts ts' r :
  (forall i op j t, r = ReaderIn i op j -> reader_op op -> ts !! j = Some t -> reading op t ->
     exists t', ts' !! j = Some t' /\ reading op t') ->
  reader_ok ts r -> reader_ok ts' r.
Proof.
  intros H Hr. destruct r as [|i op j|]; try done. destruct Hr as (Hop & t & Ht & Hr).
  split; [done|]. by eapply H.
Qed.

Lemma lookup_snoc_l (ts : list thread) t j u : ts !! j = Some u -> (ts ++ [t]) !! j = Some u.
Proof. apply lookup_app_l_Some. Qed.

(** Claims on a thread are kept by the replacement of another claim. *)
Lemma claimed_worker us rs k u u' j :
  us !! k = Some u -> w_call u <> Some j -> claimed us rs j -> claimed (<[k := u']> us) rs j.
Proof.
  intros Hk Hu [(k' & v & Hk' & Hv)|Hr]; [left|by right]. exists k', v. split; [|done].
  rewrite list_lookup_insert_ne; [done|]. intros ->. congruence.
Qed.

Lemma claimed_reader us rs k r r' j :
  rs !! k = Some r -> (forall i op, r <> ReaderIn i op j) -> claimed us rs j ->
  claimed us (<[k := r']> rs) j.
Proof.
  intros Hk Hr [Hu|(k' & i & op & Hk')]; [by left|right]. exists k', i, op.
  rewrite list_lookup_insert_ne; [done|]. intros ->. rewrite Hk in Hk'. injection Hk' as ->.
  by destruct (Hr i op).
Qed.

(** A step of the driver. *)
Lemma pinv_driver F cap w ts w' ts' us rs n :
  pinv F cap (Program (w, ts) us rs n) -> cstep (w, ts) (w', ts') ->
  pinv F cap (Program (w', ts') us rs n).
Proof.
  intros [(s & Fs & Hc & Hcap) Hus Hrs Hdis Hcl Herr] Hst. simpl in *.
  destruct (ci_cstep sb sb_bread_works _ _ _ _ _ _ _ Hc Hst)
    as (j & t & t' & m & s' & Fs' & Hj & -> & Hm & _ & Hcm & Hcap' & _ & _ & Hc').
  split; simpl; try done.
  - exists s', Fs'. split; [done|congruence].
  - apply (Forall_impl _ _ _ Hus). intros u. apply worker_ok_mono. intros j' t0 _ Ht0 Hs.
    destruct (decide (j = j')) as [<-|Hne]; [|exists t0; by rewrite list_lookup_insert_ne].
    exists t'. split; [by eapply insert_self|]. rewrite Hj in Ht0. injection Ht0 as <-.
    subst cap. by eapply serves_commit.
  - apply (Forall_impl _ _ _ Hrs). intros r. apply reader_ok_mono. intros i op j' t0 _ Hop Ht0 Hr.
    destruct (decide (j = j')) as [<-|Hne]; [|exists t0; by rewrite list_lookup_insert_ne].
    exists t'. split; [by eapply insert_self|]. rewrite Hj in Ht0. injection Ht0 as <-.
    by eapply reading_commit.
  - intros j' u [[<- ->]|[_ Hu]]%insert_lookup Hf; [|by eauto].
    apply (Hcl j t Hj). by destruct t.
Qed.

Lemma distinct_update rs k r :
  distinct_calls rs ->
  (forall i op j k' i' op', r = ReaderIn i op j -> rs !! k' <> Some (ReaderIn i' op' j)) ->
  distinct_calls (<[k := r]> rs).
Proof.
  intros Hd Hr k1 k2 i op j i' op' H1 H2.
  apply list_lookup_insert_Some in H1 as [(<- & H1 & _)|[Hne1 H1]];
    apply list_lookup_insert_Some in H2 as [(<- & H2 & _)|[Hne2 H2]]; try done.
  - by destruct (Hr _ _ _ _ _ _ H1 H2).
  - by destruct (Hr _ _ _ _ _ _ H2 H1).
  - by eapply Hd.
Qed.

(** The next driver thread is nobody's call yet. *)
Lemma new_call ts rs k i op :
  Forall (reader_ok ts) rs -> rs !! k <> Some (ReaderIn i op (length ts)).
Proof.
  intros Hrs Hk. rewrite Forall_lookup in Hrs. destruct (Hrs _ _ Hk) as (_ & t & Ht & _).
  apply lookup_lt_Some in Ht. lia.
Qed.

(** A client starts a system call. *)
Lemma pinv_call F cap w ts us rs n k r param i :
  pinv F cap (Program (w, ts) us rs n) -> us !! k = Some (Worker r param i None) ->
  goes_on (Z.of_nat cap) r i = true ->
  pinv F cap (Program (w, ts ++ [call_of (Z.of_nat cap) param r i])
    (<[k := Worker r param i (Some (length ts))]> us) rs n).
Proof.
  intros [(s & Fs & Hc & Hcap) Hus Hrs Hdis Hcl Herr] Hk Hgo. simpl in *.
  assert (Hc31 : Z.of_nat cap < 2 ^ 31).
  { destruct (ci_quiet _ _ _ _ _ _ Hc) as [Hi _]. apply dev_inv_cap in Hi. lia. }
  destruct (proj1 (Forall_lookup _ _) Hus _ _ Hk) as (Hr & Hp & _). simpl in Hr, Hp.
  destruct (call_ok_of cap r param i) as [Hok Hs]; [done..|]. split; simpl; try done.
  - exists s, (Fs ++ [∅]). split; [|done]. by apply ci_spawn; [done|destruct r..].
  - apply Forall_insert.
    + apply (Forall_impl _ _ _ Hus). intros u. apply worker_ok_mono. intros j t _ Ht ?.
      exists t. split; [by apply lookup_snoc_l|done].
    + do 2 (split; [done|]). split; [done|]. eexists. split; [|exact Hs]. by apply list_lookup_middle.
  - apply (Forall_impl _ _ _ Hrs). intros u. apply reader_ok_mono. intros i' op j t _ _ Ht ?.
    exists t. split; [by apply lookup_snoc_l|done].
  - intros j t [Ht|[Hle Ht]]%lookup_app_Some Hf.
    + eapply claimed_worker; [exact Hk|done|by eapply Hcl].
    + apply list_lookup_singleton_Some in Ht as [Hj <-]. left.
      exists k, (Worker r param i (Some (length ts))).
      split; [apply list_lookup_insert_eq; by eapply lookup_lt_Some|]. simpl. f_equal. lia.
Qed.

(** A system call returns to its client. *)
Lemma pinv_return F cap w ts us rs n k r param i j ret d :
  pinv F cap (Program (w, ts) us rs n) -> us !! k = Some (Worker r param i (Some j)) ->
  ts !! j = Some (Done ret d) ->
  pinv F cap (Program (w, ts) (<[k := Worker r param (s32 (i + 1)) None]> us) rs
    (if unexpected r ret then n + 1 else n)).
Proof.
  intros [(s & Fs & Hc & Hcap) Hus Hrs Hdis Hcl Herr] Hk Hj. simpl in *.
  assert (Hc31 : Z.of_nat cap < 2 ^ 31).
  { destruct (ci_quiet _ _ _ _ _ _ Hc) as [Hi _]. apply dev_inv_cap in Hi. lia. }
  destruct (proj1 (Forall_lookup _ _) Hus _ _ Hk) as (Hr & Hp & Hgo & t & Ht & Hs). simpl in *.
  rewrite Hj in Ht. injection Ht as <-. pose proof (rounds_bound cap r i Hc31 Hr Hgo).
  split; simpl; try done.
  - by exists s, Fs.
  - apply Forall_insert; [done|]. split_and!; simpl; try done; rewrite ?s32_small; lia.
  - intros j' t' Ht' Hf. eapply claimed_worker; [exact Hk| |by eapply Hcl].
    simpl. intros [= <-]. rewrite Hj in Ht'. by injection Ht' as <-.
  - by rewrite (serves_expected cap r ret d).
Qed.

(** A reader opens the file. *)
Lemma pinv_open F cap w ts us rs n k :
  file_ok sb cap device -> private_data device = None ->
  pinv F cap (Program (w, ts) us rs n) -> rs !! k = Some ReaderStart ->
  pinv F cap (Program (w, ts ++ [FileCall OpenCall device]) us
    (<[k := ReaderIn 0 OpenCall (length ts)]> rs) n).
Proof.
  intros Hdev Hpr [(s & Fs & Hc & Hcap) Hus Hrs Hdis Hcl Herr] Hk. simpl in *. split; simpl; try done.
  - exists s, (Fs ++ [∅]). split; [|done]. apply ci_spawn; [done|done|]. subst cap.
    split_and!; [done|done|]. unfold session. by rewrite Hpr.
  - apply (Forall_impl _ _ _ Hus). intros u. apply worker_ok_mono. intros j t _ Ht ?.
    exists t. split; [by apply lookup_snoc_l|done].
  - apply Forall_insert.
    + apply (Forall_impl _ _ _ Hrs). intros u. apply reader_ok_mono. intros i op j t _ _ Ht ?.
      exists t. split; [by apply lookup_snoc_l|done].
    + split; [by left|]. eexists. split; [by apply list_lookup_middle|done].
  - apply distinct_update; [done|]. intros i op j k' i' op' [= <- <- <-]. by apply new_call.
  - intros j t [Ht|[Hle Ht]]%lookup_app_Some Hf.
    + eapply claimed_reader; [exact Hk|done|by eapply Hcl].
    + apply list_lookup_singleton_Some in Ht as [Hj <-]. right. exists k, 0, OpenCall.
      rewrite list_lookup_insert_eq by (by eapply lookup_lt_Some). do 2 f_equal. lia.
Qed.

(** A reader makes the next call on its file. *)
Lemma pinv_reader F cap w ts us rs n k i op j r d f i' op' :
  pinv F cap (Program (w, ts) us rs n) -> rs !! k = Some (ReaderIn i op j) ->
  ts !! j = Some (FileDone r d f) -> reader_next i op (libc r).1 = Some (i', op') ->
  pinv F cap (Program (w, <[j := Done r d]> ts ++ [FileCall op' f]) us
    (<[k := ReaderIn i' op' (length ts)]> rs) (if reader_error op (libc r).1 then n + 1 else n)).
Proof.
  intros [(s & Fs & Hc & Hcap) Hus Hrs Hdis Hcl Herr] Hk Hj Hn. simpl in *.
  destruct (proj1 (Forall_lookup _ _) Hrs _ _ Hk) as (Hop & t & Ht & Hr). rewrite Hj in Ht. injection Ht as <-.
  destruct (reader_goes_on _ _ _ _ _ _ _ Hop Hr Hn) as (Hop' & Hok & _ & He).
  destruct (ci_hand_over _ _ _ _ _ _ _ _ _ _ op' Hc Hj Hok) as (Fs' & Hc').
  assert (Hkeep : forall j' u, ts !! j' = Some u -> j' <> j ->
    (<[j := Done r d]> ts ++ [FileCall op' f]) !! j' = Some u).
  { intros j' u Hu Hne. apply lookup_snoc_l. by rewrite list_lookup_insert_ne. }
  assert (Hlen : (<[j := Done r d]> ts ++ [FileCall op' f]) !! length ts = Some (FileCall op' f)).
  { rewrite <- (length_insert ts j (Done r d)). by apply list_lookup_middle. }
  split; simpl.
  - by exists s, Fs'.
  - apply (Forall_impl _ _ _ Hus). intros u. apply worker_ok_mono. intros j' t _ Ht Hs.
    exists t. split; [|done]. apply Hkeep; [done|]. intros ->. rewrite Hj in Ht. injection Ht as <-.
    by destruct (w_role u).
  - apply Forall_lookup. intros k' x Hx.
    apply list_lookup_insert_Some in Hx as [(_ & <- & _)|[Hne Hx]]; [split; [done|]; eexists; split; [exact Hlen|by split]|].
    pose proof (proj1 (Forall_lookup _ _) Hrs _ _ Hx) as Hxo. revert Hxo. apply reader_ok_mono.
    intros i2 op2 j2 t -> _ Ht ?. exists t. split; [|done]. apply Hkeep; [done|]. intros ->.
    destruct Hne. by eapply Hdis.
  - apply distinct_update; [done|]. intros i2 op2 j2 k2 i3 op3 [= <- <- <-]. by apply new_call.
  - intros j' t [[[<- ->]|[Hne Ht]]%insert_lookup|[Hle Ht]]%lookup_app_Some Hf; [done| |].
    + eapply claimed_reader; [exact Hk|intros ?? [= _ _ ?]; congruence|by eapply Hcl].
    + rewrite length_insert in *. apply list_lookup_singleton_Some in Ht as [Hj' <-]. right. exists k, i', op'.
      rewrite list_lookup_insert_eq by (by eapply lookup_lt_Some). do 2 f_equal. lia.
  - by rewrite He.
Qed.

(** A reader has closed its file. *)
Lemma pinv_closed F cap w ts us rs n k i op j r d :
  pinv F cap (Program (w, ts) us rs n) -> rs !! k = Some (ReaderIn i op j) ->
  ts !! j = Some (Done r d) -> pinv F cap (Program (w, ts) us (<[k := ReaderExit]> rs) n).
Proof.
  intros [(s & Fs & Hc & Hcap) Hus Hrs Hdis Hcl Herr] Hk Hj. simpl in *. split; simpl; try done.
  - by exists s, Fs.
  - by apply Forall_insert.
  - by apply distinct_update.
  - intros j' t Ht Hf. eapply claimed_reader; [exact Hk| |by eapply Hcl].
    intros i' op' [= -> -> ->]. rewrite Hj in Ht. by injection Ht as <-.
Qed.

Hypothesis device_closed : private_data device = None.

Lemma pinv_step F cap p p' :
  file_ok sb cap device -> pinv F cap p -> pstep (Z.of_nat cap) device p p' -> pinv F cap p'.
Proof.
  intros Hdev Hp Hst. destruct Hst as [[w ts] [w' ts'] us rs n Hst| | | | | |].
  - by eapply pinv_driver.
  - by apply pinv_call.
  - by eapply pinv_return.
  - by apply pinv_open.
  - by eapply pinv_reader.
  - destruct Hp as [_ _ Hrs _ _ _]. destruct (proj1 (Forall_lookup _ _) Hrs _ _ H) as (Hop & t & Ht & Hr).
    simpl in Ht. rewrite H0 in Ht. injection Ht as <-. by destruct (reader_stays _ _ _ _ _ Hop Hr H1).
  - by eapply pinv_closed.
Qed.

(** What holds when all the threads of the program have returned. *)
Lemma pinv_joined F cap p :
  pinv F cap p -> joined (Z.of_nat cap) p ->
  unlocked (p_driver p).1 /\ exists s, dev_inv F (p_driver p).1 s /\ s_cap s = cap.
Proof.
  intros [(s & Fs & Hc & Hcap) _ _ _ Hcl _] [Hus Hrs].
  assert (Hdone : forall j t, (p_driver p).2 !! j = Some t -> closed t = true).
  { intros j t Hj. destruct (closed t) eqn:Hf; [done|].
    destruct (Hcl j t Hj Hf) as [(k & u & Hk & Hcu)|(k & i & op & Hk)].
    - destruct (proj1 (Forall_lookup _ _) Hus k u Hk) as [Hn _]. congruence.
    - by pose proof (proj1 (Forall_lookup _ _) Hrs k _ Hk). }
  assert (Hce := ci_end _ _ _ _ _ _ Hc). lapply Hce; [clear Hce; intros Hce|].
  - split; [apply Hce|]. exists s. split; [|done]. eapply calls_end_closed; [exact Hce|].
    apply Forall_lookup. intros j t Hj r d f ->. by specialize (Hdone j _ Hj).
  - apply Forall_lookup. intros j t Hj. specialize (Hdone j t Hj). by destruct t.
Qed.

Lemma pinv_rtc F cap p p' :
  file_ok sb cap device -> pinv F cap p -> rtc (pstep (Z.of_nat cap) device) p p' -> pinv F cap p'.
Proof. intros Hdev Hp H. induction H; [done|]. eauto using pinv_step. Qed.

(** The threads main() has spawned. *)
Lemma spawned_fresh R G W I pself :
  (forall i, 0 <= pself i < 2 ^ 64) ->
  Forall (fun u => w_call u = None /\ w_round u = 0 /\ 0 <= w_param u < 2 ^ 64) (spawned R G W I pself).1 /\
  Forall (fun r => r = ReaderStart) (spawned R G W I pself).2.
Proof.
  intros Hp. unfold spawned. generalize (seq 0 (Z.to_nat (NUM_SPAWNS R G W I))) as l.
  set (P := fun t : list worker * list reader =>
    Forall (fun u => w_call u = None /\ w_round u = 0 /\ 0 <= w_param u < 2 ^ 64) t.1 /\
    Forall (fun r => r = ReaderStart) t.2).
  cut (forall l t, P t -> P (foldl (fun t i => match spawn_role G W I (Z.of_nat i) with
    | Some r => (t.1 ++ [Worker r (pself i) 0 None], t.2)
    | None => (t.1, t.2 ++ [ReaderStart])
    end) t l)); [intros H l; by apply H|].
  intros l. induction l as [|i l IH]; intros t Ht; [done|]. apply IH. destruct Ht as [Hu Hr].
  case_match; (split; [|]); simpl; try done; apply Forall_app; (split; [done|]); apply Forall_singleton; [split; [done|split; [done|apply Hp]]|done].
Qed.

(** The program before its threads have done anything. *)
Lemma pinv_start F s w us rs :
  dev_inv F w s -> unlocked w -> the_dev_superblock w = Some sb ->
  Forall (fun u => w_call u = None /\ w_round u = 0 /\ 0 <= w_param u < 2 ^ 64) us ->
  Forall (fun r => r = ReaderStart) rs -> pinv F (s_cap s) (Program (w, []) us rs 0).
Proof.
  intros Hi Hu Hsb Hus Hrs. split; simpl; try done.
  - exists s, []. split; [|done]. apply ci_start. by apply (calls_start_syscalls sb F s w []).
  - apply (Forall_impl _ _ _ Hus). intros [r pa i c] (Hc & Hr & Hpa). simpl in *.
    subst. split_and!; simpl; (done || lia).
  - apply (Forall_impl _ _ _ Hrs). by intros ? ->.
  - intros k k' i op j i' op' Hk. rewrite Forall_lookup in Hrs. by specialize (Hrs _ _ Hk).
Qed.

(** The first part of main(), when it has its arguments. *)
Lemma wp_main_start F s w argv :
  command_line argv <> None -> dev_inv F w s -> file_ok sb (s_cap s) device ->
  wp (main_start argv device) (fun r w' => r = inr (Z.of_nat (s_cap s)) /\ dev_inv F w' s /\
    same_but_refs w w' 0) w.
Proof.
  intros Hargs Hi (Hsz & _ & Hop & _). pose proof (dev_inv_cap _ _ _ Hi) as Hcap. unfold main_start.
  destruct (command_line argv) as [nrs|]; [|done]. wp_step.
  eapply wp_bldms_open; [exact Hi|by rewrite Hop|..].
  2: { intros _ [n Hn]. by rewrite kzalloc_works in Hn. }
  intros _ q w1 Hq Hi1 Hs1. cbn [fst snd]. rewrite libc_ok by lia.
  change ((0, None : option Z).1 <? 0) with false. cbv iota zeta.
  cbn [set_private i_size]. change BLOCK_SIZE with 4096.
  rewrite Hsz, Z.mul_comm, Z.quot_mul, u64_small by lia.
  wp_step. eapply wp_bldms_release; [exact Hi1| |].
  - intros p _ [= <-]. exists 0. apply lookup_insert_eq.
  - intros w2. change (opened_for_reading (set_private (Some q) device)) with (opened_for_reading device).
    rewrite Hop. cbn [private_data set_private]. rewrite delete_insert_id by done.
    intros Hi2 Hs2. wp_step. split_and!; try done. apply (same_but_refs_trans _ _ _ _ _ Hs1 Hs2).
Qed.

End Workers.

(** ** Witness *)

#[local] Existing Instance sample_config.
#[local] Existing Instance good_kernel.

Definition sample_tid (i : nat) : Z := Z.of_nat i mod 2 ^ 64.
Definition sample_argv : list string := ["./user_concurrency"; "the_file"; "134"; "174"; "182"]%string.
Definition sample_clients_file : file := File O_RDONLY None 0 16384 (Some (SB MAGIC true)).

